(* ===== verification/_CoqProject ===== *)
-Q . S2P
Prelude.v
GoTypes.v
Ports.v
Identity.v
Text.v
Inbound.v
Tokens.v
User.v
Sync.v
Quota.v
Traffic.v
Template.v
Net.v
Cycle.v
Records.v
Database.v
Secrets.v
Url.v
Password.v
Logging.v
StoreCore.v
StoreSync.v
StoreQuota.v
StoreUsers.v
StoreTraffic.v
StoreDrift.v
StoreTemplates.v
StoreListings.v
Paging.v
UserService.v
StoreSessions.v
AuthService.v
Config.v
Demo.v
Form.v
Intent.v
IntentTx.v
IntentSync.v
IntentUser.v
History.v
Rows.v
AuthLaws.v
SessionLaws.v
Main.v
SyncLaws.v
Keys.v
Rollover.v
Ledger.v
Adapter.v
Calls.v
Trace.v
TrafficService.v
TrafficLaws.v
TemplateService.v
PanelServices.v
ReconciliationService.v
XrayClient.v
XrayLaws.v
XrayContract.v
XrayTrace.v
ConnectionService.v
Web.v
WebPages.v
Views.v
WebServer.v
WebLaws.v
WebSafety.v
Synchronizer.v
ConnectionLaws.v
ReconcileLaws.v
Fencing.v
FakeXray.v
Projection.v
Scenario.v
Rounds.v
Reach.v
TemplateLaws.v
Pass.v
Workers.v
