(* ===== verification/Prelude.v ===== *)
(** * XPanel: a verification development

    XPanel is a panel for one administrator that hands out Shadowsocks 2022
    accounts served by one Xray node. Every user has an allocation: a dedicated
    inbound with a port, a key and a statistics identity of its own, and an
    optional quota that is counted per calendar cycle. What should listen on
    the node is decided in the database; workers bring the node there, count
    the traffic, roll the cycles over, and repair what drifted. The program is
    modelled from the Go files under src/internal and src/cmd as functions,
    transactions over tables, and programs over the calls they make.

    ** How the parts interact

    A request of the administrator passes the middleware and the mux
    ([WebServer]), its form becomes a command ([Form], [WebPages]), and a
    service turns the command into a record ([UserService], [TemplateService],
    [PanelServices]). One write transaction of the store ([Database] and the
    files [Store...]) commits the record with its audit event, and, if the node
    has to change, moves the allocation to its next intent revision and puts an
    operation into the outbox. The synchronizer ([Synchronizer]) leases due
    operations one by one, asks the adapter ([Adapter], [XrayClient]) for the
    changes and confirms what it reached. The collector ([TrafficService])
    reads the counters and charges them; a charge that exhausts a quota queues
    an operation as well, as does the rollover of a cycle ([PanelServices]) and
    the reconciler ([ReconciliationService]). All of them run concurrently over
    one database that runs one write transaction at a time.

    ** The files and the code

    The language and the domain (src/internal/domain):
    - [Prelude] (this file): record update, the result monad, list and option
      lemmas, loops with fuel; [GoTypes]: 64-bit integers that wrap, times and
      durations in nanoseconds, the string functions, errors.go and the error
      kinds of ports/xray.go; [Text], [Net], [Url]: UTF-8 and package unicode,
      addresses and numbers of net and strconv, the escapes of net/url;
    - [Ports] port.go; [Identity] identity.go; [Inbound] inbound.go; [User]
      user.go; [Sync] sync.go; [Quota] and [Cycle] quota.go (with Go's time
      zones and civil calendar); [Traffic] traffic.go; [Template] template.go;
    - [Records] ports/store.go; [Adapter] ports/xray.go with the contract of the
      adapter as the relation [honest].

    Secrets and the log (src/internal/security, src/internal/logging): [Tokens]
    and [Secrets] tokens.go and secrets.go; [Password] password.go; [Logging].

    The store (src/internal/persistence/sqlite): [Database] the tables, the
    constraints of migrations/*.sql, and transactions; [StoreCore] store.go;
    [StoreSync] store_inbounds.go and store_sync.go; [StoreQuota] store_quota.go
    and the decisions of store_traffic.go; [StoreTraffic], [StoreUsers],
    [StoreDrift], [StoreTemplates], [StoreSessions] the files of these names;
    [StoreListings] store_dashboard.go and store_audit.go.

    Services and workers (src/internal/application, src/internal/worker):
    [Calls] and [Trace] are programs over calls and what they ask for;
    [UserService], [AuthService], [TrafficService], [TemplateService],
    [ReconciliationService], [ConnectionService] the services of these names;
    [PanelServices] the settings, dashboard, audit and quota services;
    [Synchronizer] synchronizer.go; [TemplateService] also validator.go;
    [Workers] the loops of all workers, collector.go, scheduler.go and
    reconciler.go.

    The node (src/internal/adapter/xray): [XrayClient] the real adapter, with
    stats.go partly in [Tokens]; [FakeXray] fake/fake.go.

    The web (src/internal/web) and the command line: [Web] common.go and
    errors.go; [Form] forms.go; [WebPages] the other handlers; [WebServer]
    auth.go, middleware/ and routes.go; [Views] views/; [Config]
    config/config.go; [Main] cmd/xpanel/main.go.

    The other files hold theorems, grouped below; [Demo] a concrete panel on
    which the witnesses run.

    ** What the theorems show

    - The intent. [Intent], [IntentTx], [IntentSync], [IntentUser] and [History]:
      in every state that any interleaving of transactions reaches, the desired
      presence of an inbound follows the truth table of the domain and the only
      operation that can still run carries it; an intent prepared from rows
      that were overtaken is refused. [Rows], [Keys]: what template, session
      and credential rows keep. [Reach]: all workers and services stay within
      these histories, so that the invariant holds of the running program.
    - The synchronizer. [SyncLaws]: leases and confirmations. [Fencing]: each
      change of the node follows a renewal of its own. [Projection]: whatever
      fails, an inbound is never emptied of its last entitled client and a
      confirmation is true of the node. [Scenario]: runs on the double, among
      them the rotation that gets lost.
    - The node. [XrayLaws] and [XrayContract]: under Xray's documented answers
      the real adapter keeps the contract the synchronizer is proved against,
      and [FakeXray] shows the same of the double. [XrayTrace]: whatever Xray
      answers, requests stay in the namespace of the panel and a capability was
      seen. [TemplateLaws]: what a verdict about a template rests on.
      [ReconcileLaws] and [Rounds]: what a reconciliation round queues, and
      what it overlooks.
    - Traffic and quota. [Traffic]: increments never exceed the counter.
      [TrafficLaws]: what a round charges, and how it treats restarts and
      overflow. [Ledger]: totals, cycles and days agree in every reachable
      state. [Quota]: the decision on a transition. [Rollover] and [Pass]: the
      loop over cycles ends and a pass leaves nothing due.
    - The administrator. [AuthLaws] and [SessionLaws]: the limit on wrong
      passwords, login, the end of sessions. [Form]: fingerprints and the quota
      form. [WebLaws] and [WebSafety]: a page asks for at most the command of
      its form, and only with a checked session. [ConnectionLaws]: what is
      handed out. [Paging]: the pages of the audit trail. [Main]: what an exit
      code tells. [Logging]: what never reaches the log. [Workers]: no request
      that found room is lost.

    A theorem over reachable states quantifies over all sequences of the
    transactions in [History.Action]; a theorem over a worker quantifies over
    the answers of every call and over what [others] do between two calls.

    ** Fuel

    A loop without a bound in the code takes fuel. That it is enough is proved:
    of settleCycles (each turn moves the end of the open cycle by at least a
    millisecond; [Rollover]), of the ports of a pool, of the backoff, of the
    pages of the audit trail (one more than events), of the wait for the
    counters of a probe (102 readings, as the deadline is five seconds of 50 ms
    pauses; [XrayContract]), of the decoding of UTF-8 ([Text]). The loops over
    the characters of a string take its length, each turn reading at least one;
    an IPv6 address has at most nine groups to try, and an orbit of simple case
    folding at most four runes.
    [Drain] runs as long as others queue operations: it takes its fuel as an
    argument, ends in [None] when it is used up, and its theorems hold at every
    call of every run, whatever the fuel.

    ** Parameters

    Code that is not in the repository is a class or an argument: [Zones] the
    time zone database, [Entropy] crypto/rand, [Unicode] and [Folding] NFKC and
    the tables of package unicode, [Sha256], [Hkdf], [Aead], [Argon2] with the
    laws [HkdfOk], [AeadOk], [Argon2Ok] (lengths, and that what was sealed
    opens), [MapOrder] the order in which a map is visited, [UrlParser] url.Parse,
    [FileSystem] and [Main.Machine] the file system, the terminal and the opening
    of the database. The services of Xray answer as [XrayLaws.documented] says,
    which states what specs/002-per-user-inbound/ measured; the theorems that
    need it say so, and those of [XrayTrace] do without. The checks of
    gorilla/csrf and net/http and the handler of the static files are arguments
    of the routes. [Demo] instantiates them for the witnesses.

    ** Choices

    - A row of a table is a record; a statement that violates a constraint of
      the migrations fails, and an error rolls the transaction back. Rows that
      SQL leaves unordered come in the order of their keys.
    - Instants are integers; what the store keeps is cut to milliseconds, boot
      epochs to seconds. Each reading of the clock in the code is one argument
      or one call; a page reads the time zone once.
    - Services write log lines beside what is modelled; the lines are left out,
      and [Logging] is about any line. The lock of the node is held where the
      code holds it, and each step of the guard of failed logins is atomic.
    - A page is the data handed to its template. Requests have a clean path.
    - The loops of the workers are a machine of requests, ticks and
      cancellation; which ready case a [select] takes is free.
    - Sizes are formatted through 64-bit floats, modelled as integers over a
      power of two that are rounded to 53 bits.

    ** Not modelled

    - cmd/xpanel/main.go: [serve], which only wires the parts, starts the
      goroutines and shuts them down; web/server.go, the timeouts of
      http.Server; web/assets.go and the templates; views/flash.go, a struct.
    - middleware/csrf.go and the cookie attributes of session.go: settings of
      gorilla/csrf and scs.
    - persistence/sqlite/db.go and migrations.go: pragmas, the lock of the file
      and the migration tool; the schema they lead to is in [Database].
    - The sockets of the probe exchange in adapter/xray/probe.go, of which only
      the outcome is used, and the encoding to protobuf.
    - config/localfs_*.go: system calls of each platform, an argument of
      [Config]; the decoding of JSON and of its durations.
    - internal/testsupport: an application wired for the tests. *)

From Stdlib Require Import ZArith Lia.
From stdpp Require Export base tactics option list gmap strings numbers pretty.

#[export] Set Default Goal Selector "!".
Declare Scope xpanel_scope.
Delimit Scope xpanel_scope with X.
#[global] Open Scope Z_scope.

(** ** Record update

    [Eta R] lists the projections of a record once; the setter of a field is
    then found by unification.  [r <| f := v |>] reads like the struct
    assignments of the Go code. *)
Class Eta (R : Type) := eta_of : R -> R.
Class Setter {R T : Type} (p : R -> T) := set_field : (T -> T) -> R -> R.
#[global] Hint Mode Setter + + ! : typeclass_instances.

Ltac solve_setter :=
  lazymatch goal with
  | |- @Setter ?R ?T ?p =>
      let f := fresh "f" in
      let r := fresh "r" in
      intros f r;
      let e := eval hnf in (@eta_of R _ r) in
      let q := eval hnf in (fun x : R => p x) in
      let e' := eval pattern (p r) in e in
      lazymatch e' with
      | ?F _ => let b := eval cbv beta in (F (f (p r))) in exact b
      end
  end.
#[global] Hint Extern 0 (Setter _) => solve_setter : typeclass_instances.

Notation "r <| p := v |>" := (set_field (p := p) (fun _ => v) r)
  (at level 1, left associativity, p at level 200, v at level 200,
   format "r  <| p  :=  v |>") : stdpp_scope.

(** ** Fallible results

    A Go function returning [(T, error)] is a [result T]; the error type is
    fixed in [GoTypes]. *)
Inductive result (E A : Type) : Type :=
| Ok (a : A)
| Err (e : E).
Arguments Ok {E A} a.
Arguments Err {E A} e.

Definition rbind {E A B : Type} (m : result E A) (k : A -> result E B) : result E B :=
  match m with Ok a => k a | Err e => Err e end.

Definition is_ok {E A : Type} (m : result E A) : bool :=
  match m with Ok _ => true | Err _ => false end.

#[global] Instance result_ret {E} : MRet (result E) := fun A a => Ok a.
#[global] Instance result_bind {E} : MBind (result E) := fun A B k m => rbind m k.

Lemma rbind_ok_inv {E A B} (m : result E A) (k : A -> result E B) b :
  mbind k m = Ok b -> exists a, m = Ok a /\ k a = Ok b.
Proof. destruct m as [a|e]; cbn; [eauto|discriminate]. Qed.

Lemma rbind_err_inv {E A B} (m : result E A) (k : A -> result E B) e :
  mbind k m = Err e -> m = Err e \/ exists a, m = Ok a /\ k a = Err e.
Proof. destruct m as [a|e']; cbn; [eauto|naive_solver]. Qed.

#[global] Arguments bool_decide P {_} : simpl never.

(** ** Tactics *)

(** Split the hypotheses [f x = Ok y] built with [rbind] and with tests. *)
Ltac case_if :=
  match goal with
  | |- context [if ?b then _ else _] => let E := fresh "Eif" in destruct b eqn:E
  end.
Ltac case_if_in H :=
  match type of H with
  | context [if ?b then _ else _] => let E := fresh "Eif" in destruct b eqn:E
  end.
Ltac inv_ok H :=
  let a := fresh "a" in let E := fresh "E" in
  apply rbind_ok_inv in H as (a & E & H).

(** Boolean tests to propositions. *)
Ltac to_prop :=
  repeat match goal with
  | H : andb _ _ = true |- _ => apply andb_true_iff in H as [? ?]
  | H : orb _ _ = false |- _ => apply orb_false_iff in H as [? ?]
  | H : negb _ = true |- _ => apply negb_true_iff in H
  | H : negb _ = false |- _ => apply negb_false_iff in H
  | H : (_ <? _) = true |- _ => apply Z.ltb_lt in H
  | H : (_ <? _) = false |- _ => apply Z.ltb_ge in H
  | H : (_ <=? _) = true |- _ => apply Z.leb_le in H
  | H : (_ <=? _) = false |- _ => apply Z.leb_gt in H
  | H : (_ =? _) = true |- _ => apply Z.eqb_eq in H
  | H : (_ =? _) = false |- _ => apply Z.eqb_neq in H
  | H : bool_decide _ = true |- _ => apply bool_decide_eq_true in H
  | H : bool_decide _ = false |- _ => apply bool_decide_eq_false in H
  end.

(** ** Bounded iteration

    [run_until p step s] takes up to [p] steps and stops at the first answer.
    The fuel is binary, so a bound of billions of steps costs nothing. *)
Fixpoint run_until {S R : Type} (p : positive) (step : S -> S + R) (s : S) : S + R :=
  match p with
  | xH => step s
  | xO q => match run_until q step s with inl s' => run_until q step s' | inr r => inr r end
  | xI q => match step s with
            | inl s' => match run_until q step s' with inl s'' => run_until q step s'' | inr r => inr r end
            | inr r => inr r
            end
  end.

(** A loop whose steps keep an invariant. *)
Lemma run_until_inv {S R} (Inv : S -> Prop) (step : S -> S + R) p s :
  (forall s s', Inv s -> step s = inl s' -> Inv s') -> Inv s ->
  match run_until p step s with
  | inl s' => Inv s'
  | inr r => exists s', Inv s' /\ step s' = inr r
  end.
Proof.
  intros Hstep. revert s. induction p as [p IH|p IH|]; intros s Hs; cbn.
  - destruct (step s) as [s1|r] eqn:E1; [|eauto].
    specialize (IH s1 (Hstep _ _ Hs E1)) as IH1. destruct (run_until p step s1) as [s2|r]; [|done].
    by apply IH.
  - specialize (IH s Hs) as IH1. destruct (run_until p step s) as [s2|r]; [|done]. by apply IH.
  - destruct (step s) as [s1|r] eqn:E1; eauto.
Qed.

(** A loop whose steps also decrease a measure. *)
Lemma run_until_measure {S R} (Inv : S -> Prop) (mu : S -> Z) (step : S -> S + R) p s :
  (forall s s', Inv s -> step s = inl s' -> Inv s' /\ 0 <= mu s' < mu s) ->
  Inv s ->
  match run_until p step s with
  | inl s' => Inv s' /\ 0 <= mu s' /\ mu s' + Zpos p <= mu s
  | inr r => exists s', Inv s' /\ step s' = inr r
  end.
Proof.
  intros Hstep. revert s. induction p as [p IH|p IH|]; intros s Hs; cbn.
  - destruct (step s) as [s1|r] eqn:E1; [|eauto]. destruct (Hstep _ _ Hs E1) as [H1 Hm1].
    specialize (IH s1 H1) as IH1. destruct (run_until p step s1) as [s2|r]; [|done].
    destruct IH1 as (H2 & ? & ?). specialize (IH s2 H2). destruct (run_until p step s2); [|done].
    destruct IH as (? & ? & ?). split; [done|]. lia.
  - specialize (IH s Hs) as IH1. destruct (run_until p step s) as [s2|r]; [|done].
    destruct IH1 as (H2 & ? & ?). specialize (IH s2 H2). destruct (run_until p step s2); [|done].
    destruct IH as (? & ? & ?). split; [done|]. lia.
  - destruct (step s) as [s1|r] eqn:E1; [|eauto]. destruct (Hstep _ _ Hs E1). split; [done|]. lia.
Qed.

(** Enough fuel gives an answer. *)
Lemma run_until_terminates {S R} (Inv : S -> Prop) (mu : S -> Z) (step : S -> S + R) p s :
  (forall s s', Inv s -> step s = inl s' -> Inv s' /\ 0 <= mu s' < mu s) ->
  Inv s -> mu s < Zpos p ->
  exists r s', run_until p step s = inr r /\ Inv s' /\ step s' = inr r.
Proof.
  intros Hstep Hs Hp. pose proof (run_until_measure Inv mu step p s Hstep Hs) as H.
  destruct (run_until p step s) as [s'|r]; [lia|]. destruct H as (s' & ? & ?). eauto.
Qed.

(** ** Shared lemmas *)
Lemma existsb_spec {A} (f : A -> bool) (l : list A) :
  existsb f l = false <-> forall x, x ∈ l -> f x = false.
Proof.
  rewrite <- not_true_iff_false, existsb_exists. setoid_rewrite <- list_elem_of_In.
  split; [intros H x Hx; destruct (f x) eqn:E; [destruct H; eauto|done]|].
  intros H (x & Hx & E). rewrite (H x Hx) in E. done.
Qed.

Lemma existsb_true {A} (f : A -> bool) (l : list A) :
  existsb f l = true <-> exists x, x ∈ l /\ f x = true.
Proof.
  rewrite existsb_exists. setoid_rewrite <- list_elem_of_In. done.
Qed.
