(* ===== verification/GoTypes.v ===== *)
(** * The Go vocabulary of the development

    64-bit integers with their wrap-around, [time.Time] and [time.Duration]
    as nanoseconds, the string functions the program uses, and the error
    values of internal/domain/errors.go and internal/ports/xray.go. *)

From Stdlib Require Import ZArith Lia Ascii.
From S2P Require Import Prelude.

(** ** Machine integers *)
Definition MinInt64 : Z := - 2 ^ 63.
(** [const MaxInt64 = int64(^uint64(0) >> 1)] *)
Definition MaxInt64 : Z := Z.shiftr (2 ^ 64 - 1) 1.

Definition in_int64 (z : Z) : Prop := MinInt64 <= z <= MaxInt64.
#[global] Instance in_int64_dec z : Decision (in_int64 z).
Proof. unfold in_int64. apply _. Defined.

(** Two's complement wrap-around of a 64-bit result. *)
Definition wrap64 (z : Z) : Z := (z + 2 ^ 63) `mod` 2 ^ 64 - 2 ^ 63.

Lemma MaxInt64_eq : MaxInt64 = 9223372036854775807.
Proof. reflexivity. Qed.
Lemma MinInt64_eq : MinInt64 = -9223372036854775808.
Proof. reflexivity. Qed.

Lemma wrap64_id z : in_int64 z -> wrap64 z = z.
Proof.
  unfold in_int64, wrap64. rewrite MaxInt64_eq, MinInt64_eq. intros H.
  rewrite Z.mod_small; lia.
Qed.

Lemma wrap64_range z : in_int64 (wrap64 z).
Proof.
  unfold in_int64, wrap64. rewrite MaxInt64_eq, MinInt64_eq.
  pose proof (Z.mod_pos_bound (z + 2 ^ 63) (2 ^ 64) ltac:(lia)). lia.
Qed.

(** Products of two non-negative 64-bit values keep their low 64 bits. *)
Definition mul64 (a b : Z) : Z := wrap64 (a * b).
Definition add64 (a b : Z) : Z := wrap64 (a + b).

(** ** Time

    A [time.Time] is the number of nanoseconds since the Unix epoch; the zero
    value of the type is the first instant of year 1. A [time.Duration] is a
    signed 64-bit number of nanoseconds. *)
Abbreviation Time := Z.
Abbreviation Duration := Z.

Definition Nanosecond : Duration := 1.
Definition Millisecond : Duration := 1000000.
Definition Second : Duration := 1000 * Millisecond.
Definition Minute : Duration := 60 * Second.
Definition Hour : Duration := 60 * Minute.

Definition zero_time : Time := - 62135596800 * Second.
Definition IsZero (t : Time) : bool := t =? zero_time.

(** [t.Sub(u)] saturates at the bounds of [Duration]. *)
Definition time_sub (t u : Time) : Duration := Z.max MinInt64 (Z.min MaxInt64 (t - u)).
(** [t.Before(u)] and [t.After(u)]. *)
Definition Before (t u : Time) : bool := t <? u.
Definition After (t u : Time) : bool := u <? t.

(** The database keeps [UnixMilli] values: store.go, [millis] and [fromMillis]. *)
Definition millis (value : Time) : Z := value / Millisecond.
Definition fromMillis (value : Z) : Time := value * Millisecond.

Lemma millis_fromMillis m : millis (fromMillis m) = m.
Proof. unfold millis, fromMillis, Millisecond. rewrite Z.div_mul; lia. Qed.

Lemma millis_mono t u : t <= u -> millis t <= millis u.
Proof. intros. apply Z.div_le_mono; [unfold Millisecond; lia|done]. Qed.

Lemma time_sub_exact t u : in_int64 (t - u) -> time_sub t u = t - u.
Proof. unfold in_int64, time_sub. lia. Qed.

(** ** Strings

    A Go string is a sequence of bytes, here a [string]. *)
Fixpoint HasPrefix (s p : string) : bool :=
  match p, s with
  | EmptyString, _ => true
  | String c p', String d s' => bool_decide (c = d) && HasPrefix s' p'
  | String _ _, EmptyString => false
  end.

(** [strings.Contains(s, sub)] *)
Fixpoint Contains (s sub : string) : bool :=
  HasPrefix s sub || match s with
                     | EmptyString => false
                     | String _ s' => Contains s' sub
                     end.

(** [strings.HasSuffix(s, suf)] *)
Fixpoint HasSuffix (s suf : string) : bool :=
  bool_decide (s = suf) || match s with
                           | EmptyString => false
                           | String _ s' => HasSuffix s' suf
                           end.

Definition byte_of (c : ascii) : Z := Z.of_nat (Ascii.nat_of_ascii c).

(** The byte test [any] of a string. *)
Fixpoint string_existsb (f : ascii -> bool) (s : string) : bool :=
  match s with
  | EmptyString => false
  | String c s' => f c || string_existsb f s'
  end.

Lemma HasPrefix_app p s : HasPrefix (p +:+ s) p = true.
Proof.
  induction p as [|c p IH]; simpl; [by destruct s|].
  rewrite bool_decide_eq_true_2 by done. apply IH.
Qed.

Lemma HasPrefix_true s p : HasPrefix s p = true <-> exists r, s = p +:+ r.
Proof.
  split.
  - revert s. induction p as [|c p IH]; intros s H; simpl in H.
    + by exists s.
    + destruct s as [|d s]; [done|].
      apply andb_true_iff in H as [->%bool_decide_eq_true H].
      destruct (IH _ H) as [r ->]. by exists r.
  - intros [r ->]. apply HasPrefix_app.
Qed.

Lemma HasSuffix_refl s : HasSuffix s s = true.
Proof. destruct s as [|c s]; simpl; [done|]. by rewrite bool_decide_eq_true_2. Qed.

Lemma HasSuffix_app s suf : HasSuffix (s +:+ suf) suf = true.
Proof.
  induction s as [|c s IH]; [apply HasSuffix_refl|].
  simpl. rewrite orb_true_iff. right. apply IH.
Qed.

Lemma string_length_app s1 s2 :
  String.length (s1 +:+ s2) = (String.length s1 + String.length s2)%nat.
Proof. induction s1 as [|c s IH]; simpl; [done|]. by rewrite IH. Qed.

Lemma string_app_cons c s t : String c s +:+ t = String c (s +:+ t).
Proof. done. Qed.

Lemma string_app_assoc s1 s2 s3 : s1 +:+ (s2 +:+ s3) = (s1 +:+ s2) +:+ s3.
Proof. induction s1 as [|c s IH]; [done|]. by rewrite !string_app_cons, IH. Qed.

Lemma string_app_nil_r s : s +:+ "" = s.
Proof. induction s as [|c s IH]; [done|]. by rewrite string_app_cons, IH. Qed.

Lemma string_existsb_app f s1 s2 :
  string_existsb f (s1 +:+ s2) = string_existsb f s1 || string_existsb f s2.
Proof. induction s1 as [|c s IH]; simpl; [done|]. by rewrite IH, orb_assoc. Qed.

Lemma string_app_inj_l s t1 t2 : s +:+ t1 = s +:+ t2 -> t1 = t2.
Proof. induction s as [|c s IH]; simpl; [done|]. intros [=]; auto. Qed.

(** Two strings with prefixes free of a separator agree on both sides of it. *)
Lemma string_split_at (c : ascii) s1 s2 t1 t2 :
  string_existsb (fun d => bool_decide (d = c)) s1 = false ->
  string_existsb (fun d => bool_decide (d = c)) s2 = false ->
  s1 +:+ String c t1 = s2 +:+ String c t2 -> s1 = s2 /\ t1 = t2.
Proof.
  revert s2. induction s1 as [|d s1 IH]; intros [|e s2] H1 H2 Heq; simpl in *.
  - by injection Heq.
  - injection Heq as -> _. rewrite bool_decide_eq_true_2 in H2; done.
  - injection Heq as -> _. rewrite bool_decide_eq_true_2 in H1; done.
  - injection Heq as -> Heq. apply orb_false_iff in H1 as [_ H1], H2 as [_ H2].
    destruct (IH s2 H1 H2 Heq) as [-> ->]. done.
Qed.

Fixpoint string_drop (n : nat) (s : string) : string :=
  match n, s with
  | S n, String _ s' => string_drop n s'
  | _, _ => s
  end.

(** [strings.Split(s, sep)] for a non-empty separator: [acc] is the piece being
    read, reversed. *)
Fixpoint split_loop (fuel : nat) (s sep : string) (acc : string) : list string :=
  match fuel, s with
  | S fuel, String c s' =>
      if HasPrefix s sep then acc :: split_loop fuel (string_drop (String.length sep) s) sep ""
      else split_loop fuel s' sep (acc +:+ String c "")
  | _, _ => [acc]
  end.
Definition Split (s sep : string) : list string := split_loop (String.length s) s sep "".

(** ** Errors *)

(** The stable error kinds of ports/xray.go. *)
Inductive ErrorKind : Set :=
| ErrorInvalidArgument | ErrorUnsupportedProtocol | ErrorIncompatibleProfile
| ErrorInstanceUnavailable | ErrorDeadlineExceeded | ErrorProfileNotFound
| ErrorUserAlreadyExists | ErrorUserNotFound | ErrorPortUnavailable
| ErrorInboundAlreadyExists | ErrorInboundNotFound | ErrorLastManagedClient
| ErrorStatsNotFound | ErrorVersionMismatch | ErrorUpstreamRejected | ErrorInternal.
#[global] Instance ErrorKind_eq_dec : EqDecision ErrorKind.
Proof. solve_decision. Defined.

Definition kind_string (k : ErrorKind) : string :=
  match k with
  | ErrorInvalidArgument => "invalid_argument"
  | ErrorUnsupportedProtocol => "unsupported_protocol"
  | ErrorIncompatibleProfile => "incompatible_profile"
  | ErrorInstanceUnavailable => "instance_unavailable"
  | ErrorDeadlineExceeded => "deadline_exceeded"
  | ErrorProfileNotFound => "profile_not_found"
  | ErrorUserAlreadyExists => "user_already_exists"
  | ErrorUserNotFound => "user_not_found"
  | ErrorPortUnavailable => "port_unavailable"
  | ErrorInboundAlreadyExists => "inbound_already_exists"
  | ErrorInboundNotFound => "inbound_not_found"
  | ErrorLastManagedClient => "last_managed_client"
  | ErrorStatsNotFound => "stats_not_found"
  | ErrorVersionMismatch => "version_mismatch"
  | ErrorUpstreamRejected => "upstream_rejected"
  | ErrorInternal => "internal"
  end.

(** The error values of the program: the types of domain/errors.go, the
    adapter error of ports/xray.go, the error of an inconsistent collection
    round (application/traffic_service.go; a boot epoch is [None] for the empty
    string), the sentinels of package context, the errors the database reports and the untyped [errors.New]/[fmt.Errorf]. *)
Inductive error : Type :=
| ValidationError (Field Message : string)
| ConflictError (Message : string)
| NotFoundError (Resource : string)
| InvalidStateError (Message : string)
| RateLimitError (RetryAfter : Duration)
| AdapterError (Kind : ErrorKind) (Operation : string) (Retryable : bool) (SafeSummary : string)
| InconsistentRoundError (Reason : string) (FirstEpoch LastEpoch : option Time)
| ContextDeadlineExceeded
| ContextCanceled
| SqlError (message : string)
| PlainError (message : string).

Abbreviation Res := (result error).
