(* ===== verification/Ports.v ===== *)
(** * Port pools: internal/domain/port.go

    The closed interval of ports of an inbound template and the deterministic
    choice of a port in it. [PortSpec] states the choice abstractly (the least
    free port of the pool) and the theorems show the code implements it. *)

From Stdlib Require Import ZArith Lia.
From stdpp Require Import sorting.
From S2P Require Import Prelude GoTypes.

Definition MinAssignablePort : Z := 1024.
Definition MaxAssignablePort : Z := 65535.

Record PortPool := mkPortPool { Start : Z; End : Z }.
#[global] Instance PortPool_eq_dec : EqDecision PortPool.
Proof. solve_decision. Defined.

Definition NewPortPool (start end_ : Z) : Res PortPool :=
  if (start <? MinAssignablePort) || (MaxAssignablePort <? start) then
    Err (ValidationError "port_pool_start" "port pool start must be between 1024 and 65535")
  else if (end_ <? MinAssignablePort) || (MaxAssignablePort <? end_) then
    Err (ValidationError "port_pool_end" "port pool end must be between 1024 and 65535")
  else if end_ <? start then
    Err (ValidationError "port_pool_end" "port pool end must not be smaller than port pool start")
  else Ok (mkPortPool start end_).

Definition Capacity (p : PortPool) : Z := End p - Start p + 1.
Definition PoolContains (p : PortPool) (port : Z) : bool :=
  (Start p <=? port) && (port <=? End p).

Definition ErrPortPoolExhausted : error :=
  ConflictError "port pool is exhausted; widen the range on the inbound template".

(** The [for] loop of [NextAvailablePort]: at most [fuel] iterations. *)
Fixpoint next_port_loop (fuel : nat) (port end_ : Z) (taken : gset Z) : option Z :=
  match fuel with
  | O => None
  | S fuel =>
      if port <=? end_ then
        if bool_decide (port ∈ taken) then next_port_loop fuel (port + 1) end_ taken
        else Some port
      else None
  end.

Definition NextAvailablePort (pool : PortPool) (assigned : list Z) : Res Z :=
  let taken : gset Z := list_to_set assigned in
  match next_port_loop (Z.to_nat (Capacity pool)) (Start pool) (End pool) taken with
  | Some port => Ok port
  | None => Err ErrPortPoolExhausted
  end.

Definition ValidateRequestedPort (pool : PortPool) (port : Z) (assigned : list Z) : Res unit :=
  if negb (PoolContains pool port) then
    Err (ValidationError "port" "port is outside the template port pool")
  else if existsb (fun used => used =? port) assigned then
    Err (ConflictError "port is already assigned to another user")
  else Ok tt.

Definition OutsidePoolPorts (pool : PortPool) (assigned : list Z) : list Z :=
  merge_sort Z.le (List.filter (fun port => negb (PoolContains pool port)) assigned).

(** ** Specification *)

(** What the choice of a port promises. *)
Record PortSpec (choose : PortPool -> list Z -> Res Z) : Prop := {
  spec_least : forall pool assigned p,
    choose pool assigned = Ok p <->
    PoolContains pool p = true /\ (p ∉ assigned) /\
    forall q, PoolContains pool q = true -> q < p -> q ∈ assigned;
  spec_exhausted : forall pool assigned e,
    choose pool assigned = Err e <->
    e = ErrPortPoolExhausted /\ forall q, PoolContains pool q = true -> q ∈ assigned
}.

Lemma PoolContains_iff pool p :
  PoolContains pool p = true <-> Start pool <= p <= End pool.
Proof. unfold PoolContains. rewrite andb_true_iff, !Z.leb_le. done. Qed.

Lemma next_port_loop_some fuel port end_ taken p :
  next_port_loop fuel port end_ taken = Some p ->
  port <= p <= end_ /\ (p ∉ taken) /\ forall q, port <= q < p -> q ∈ taken.
Proof.
  revert port. induction fuel as [|fuel IH]; intros port H; cbn in H; [done|].
  destruct (Z.leb_spec port end_) as [Hle|]; [|done].
  case_bool_decide as Ht.
  - apply IH in H as (Hr & Hn & Hq). split; [lia|]. split; [done|].
    intros q Hq'. destruct (decide (q = port)) as [->|]; [done|]. apply Hq. lia.
  - injection H as ->. split; [lia|]. split; [done|]. intros; lia.
Qed.

Lemma next_port_loop_none fuel port end_ taken :
  next_port_loop fuel port end_ taken = None ->
  forall q, port <= q <= end_ -> q < port + Z.of_nat fuel -> q ∈ taken.
Proof.
  revert port. induction fuel as [|fuel IH]; intros port H q Hq Hf; [lia|].
  cbn in H. destruct (Z.leb_spec port end_) as [Hle|]; [|lia].
  case_bool_decide as Ht; [|done].
  destruct (decide (q = port)) as [->|]; [done|]. apply (IH _ H); lia.
Qed.

Lemma NextAvailablePort_ok pool assigned p :
  NextAvailablePort pool assigned = Ok p ->
  Start pool <= p <= End pool /\ (p ∉ assigned) /\
  forall q, Start pool <= q < p -> q ∈ assigned.
Proof.
  unfold NextAvailablePort. destruct (next_port_loop _ _ _ _) as [p'|] eqn:E; [|done].
  intros [= ->]. apply next_port_loop_some in E as (H1 & H2 & H3).
  rewrite elem_of_list_to_set in H2. setoid_rewrite elem_of_list_to_set in H3. done.
Qed.

Lemma NextAvailablePort_err pool assigned e :
  NextAvailablePort pool assigned = Err e ->
  e = ErrPortPoolExhausted /\ forall q, Start pool <= q <= End pool -> q ∈ assigned.
Proof.
  unfold NextAvailablePort. destruct (next_port_loop _ _ _ _) as [p'|] eqn:E; [done|].
  intros [= <-]. split; [done|]. intros q Hq.
  pose proof (next_port_loop_none _ _ _ _ E q Hq) as Hin.
  rewrite elem_of_list_to_set in Hin. apply Hin. unfold Capacity. lia.
Qed.

(** [NextAvailablePort] implements the port specification: it returns a
    port exactly when it is the least port of the pool that is not assigned,
    and reports exhaustion exactly when every port of the pool is assigned. *)
Theorem NextAvailablePort_refines : PortSpec NextAvailablePort.
Proof.
  split; intros pool assigned x; setoid_rewrite PoolContains_iff.
  - split.
    + intros (Hr & Hn & Hq)%NextAvailablePort_ok. split; [done|]. split; [done|]. intros q Hq1 Hq2. apply Hq; lia.
    + intros (Hr & Hn & Hq). destruct (NextAvailablePort pool assigned) as [p'|e] eqn:E.
      * apply NextAvailablePort_ok in E as (Hr' & Hn' & Hq').
        f_equal. destruct (Z.lt_trichotomy p' x) as [|[|]]; [|done|].
        -- destruct Hn'. apply Hq; lia.
        -- destruct Hn. apply Hq'; lia.
      * apply NextAvailablePort_err in E as [_ E]. destruct Hn. auto.
  - split; [apply NextAvailablePort_err|].
    intros [-> Hall]. destruct (NextAvailablePort pool assigned) as [p'|e] eqn:E.
    + apply NextAvailablePort_ok in E as (Hr & Hn & _). destruct Hn. auto.
    + apply NextAvailablePort_err in E as [-> _]. done.
Qed.

(** The choice depends on the set of assigned ports only. *)
#[global] Instance NextAvailablePort_proper pool :
  Proper ((≡ₚ) ==> (=)) (NextAvailablePort pool).
Proof.
  intros l1 l2 Hp. unfold NextAvailablePort.
  assert ((list_to_set l1 : gset Z) = list_to_set l2) as ->; [|done].
  apply set_eq. intros x. rewrite !elem_of_list_to_set. by rewrite Hp.
Qed.

Lemma ValidateRequestedPort_ok pool port assigned :
  ValidateRequestedPort pool port assigned = Ok tt <->
  PoolContains pool port = true /\ port ∉ assigned.
Proof.
  unfold ValidateRequestedPort. destruct (PoolContains pool port); cbn; [|naive_solver].
  destruct (existsb _ _) eqn:E.
  - apply existsb_true in E as (x & Hx & ->%Z.eqb_eq). naive_solver.
  - split; [|done]. intros _. split; [done|]. intros Hin.
    rewrite existsb_spec in E. specialize (E _ Hin). lia.
Qed.

(** A port the panel chooses is a port an administrator may also request. *)
Lemma chosen_port_is_valid pool assigned p :
  NextAvailablePort pool assigned = Ok p -> ValidateRequestedPort pool p assigned = Ok tt.
Proof.
  intros (Hr & Hn & _)%NextAvailablePort_ok. apply ValidateRequestedPort_ok.
  by rewrite PoolContains_iff.
Qed.

Lemma NewPortPool_ok start end_ pool :
  NewPortPool start end_ = Ok pool ->
  pool = mkPortPool start end_ /\ 1 <= Capacity pool /\
  forall p, PoolContains pool p = true -> MinAssignablePort <= p <= MaxAssignablePort.
Proof.
  unfold NewPortPool, MinAssignablePort, MaxAssignablePort.
  repeat case_if; intros [= <-]. to_prop.
  split; [done|]. unfold Capacity. cbn. split; [lia|].
  intros p. rewrite PoolContains_iff. cbn. lia.
Qed.

Lemma OutsidePoolPorts_spec pool assigned :
  Sorted Z.le (OutsidePoolPorts pool assigned) /\
  OutsidePoolPorts pool assigned ≡ₚ List.filter (fun p => negb (PoolContains pool p)) assigned.
Proof.
  unfold OutsidePoolPorts. split; [|apply merge_sort_Permutation].
  apply Sorted_merge_sort. intros x y. lia.
Qed.

Lemma OutsidePoolPorts_elem pool assigned p :
  p ∈ OutsidePoolPorts pool assigned <-> p ∈ assigned /\ PoolContains pool p = false.
Proof.
  rewrite (proj2 (OutsidePoolPorts_spec _ _)).
  rewrite list_elem_of_In, filter_In, <- list_elem_of_In, negb_true_iff. done.
Qed.
