(* ===== verification/Identity.v ===== *)
(** * Identifiers, commands and audit events: internal/domain/identity.go

    [NewID] is modelled from the 16 bytes the random source returns ([None]
    when [rand.Read] fails). [Fingerprint] is SHA-256 of the parts, each
    preceded by a NUL byte; the hash function is a variable. *)

From Stdlib Require Import ZArith Lia Ascii.
From S2P Require Import Prelude GoTypes.

Abbreviation ID := string.
Abbreviation Revision := Z.

(** ** Hexadecimal text *)
Definition hex_digit (n : Z) : ascii :=
  Ascii.ascii_of_nat (Z.to_nat (if n <? 10 then n + 48 else n + 87)).

(** [hex.EncodeToString] *)
Fixpoint EncodeToString (raw : list Z) : string :=
  match raw with
  | [] => EmptyString
  | b :: raw' => String (hex_digit (b / 16)) (String (hex_digit (b `mod` 16)) (EncodeToString raw'))
  end.

Definition is_hex (c : ascii) : bool :=
  ((48 <=? byte_of c) && (byte_of c <=? 57)) || ((97 <=? byte_of c) && (byte_of c <=? 102)).

Definition is_dash (c : ascii) : bool := bool_decide (c = "-"%char).

(** ** NewID and ID.Valid *)

(** The version and variant bits: [raw[6] = (raw[6] & 0x0f) | 0x40] and
    [raw[8] = (raw[8] & 0x3f) | 0x80]. *)
Definition stamp_uuid (raw : list Z) : list Z :=
  let raw := <[6%nat := Z.lor (Z.land (raw !!! 6%nat) 15) 64]> raw in
  <[8%nat := Z.lor (Z.land (raw !!! 8%nat) 63) 128]> raw.

Definition slice {A} (l : list A) (from to : nat) : list A := take (to - from) (drop from l).

Definition NewID (entropy : option (list Z)) : Res ID :=
  match entropy with
  | None => Err (PlainError "generate identifier")
  | Some raw =>
      let raw := stamp_uuid raw in
      Ok (EncodeToString (slice raw 0 4) +:+ "-" +:+ EncodeToString (slice raw 4 6) +:+ "-" +:+
          EncodeToString (slice raw 6 8) +:+ "-" +:+ EncodeToString (slice raw 8 10) +:+ "-" +:+
          EncodeToString (slice raw 10 16))
  end.

(** The loop of [Valid] over the characters of the identifier. *)
Fixpoint valid_chars (i : nat) (id : string) : bool :=
  match id with
  | EmptyString => true
  | String c id' =>
      (if bool_decide (i = 8 \/ i = 13 \/ i = 18 \/ i = 23)%nat then is_dash c else is_hex c)
      && valid_chars (S i) id'
  end.

Definition Valid (id : ID) : bool :=
  bool_decide (String.length id = 36%nat) && valid_chars 0 id.

(** ** Fingerprints *)

(** What [Fingerprint] feeds to the hash: every part after a NUL byte. *)
Fixpoint fingerprint_input (parts : list string) : string :=
  match parts with
  | [] => EmptyString
  | part :: parts' => String "000"%char part +:+ fingerprint_input parts'
  end.

Section Fingerprint.
(** crypto/sha256 *)
Variable sha256 : string -> string.
Definition Fingerprint (parts : list string) : string := sha256 (fingerprint_input parts).
End Fingerprint.

(** ** Commands and audit events *)
Inductive ActorType : Set := ActorAdministrator | ActorLocalCLI | ActorSystem.
Inductive CommandState : Set := CommandAccepted | CommandCompleted | CommandFailed.
Inductive AuditResult : Set := AuditAccepted | AuditSucceeded | AuditFailed | AuditSuperseded.
#[global] Instance ActorType_eq_dec : EqDecision ActorType. Proof. solve_decision. Defined.
#[global] Instance CommandState_eq_dec : EqDecision CommandState. Proof. solve_decision. Defined.
#[global] Instance AuditResult_eq_dec : EqDecision AuditResult. Proof. solve_decision. Defined.

Record DomainCommand := mkCommand {
  cmd_ID : ID;
  cmd_ActorType : ActorType;
  cmd_ActorID : option ID;
  cmd_CommandType : string;
  cmd_TargetType : string;
  cmd_TargetID : ID;
  cmd_RequestFingerprint : string;
  cmd_State : CommandState;
  cmd_ResultReference : string;
  cmd_CreatedAt : Time;
  cmd_CompletedAt : option Time }.

Definition ActionAdministratorInitialized : string := "administrator_initialized".
Definition ActionLogin : string := "login".
Definition ActionLogout : string := "logout".
Definition ActionPasswordReset : string := "password_reset".
Definition ActionUserCreated : string := "user_created".
Definition ActionUserUpdated : string := "user_updated".
Definition ActionUserEnabled : string := "user_enabled".
Definition ActionUserDisabled : string := "user_disabled".
Definition ActionCredentialRotated : string := "credential_rotated".
Definition ActionUserDeleted : string := "user_deleted".
Definition ActionQuotaExceeded : string := "quota_exceeded".
Definition ActionTrafficReset : string := "traffic_reset".
Definition ActionCycleRestored : string := "cycle_restored".
Definition ActionSyncFailed : string := "sync_failed".
Definition ActionSyncSucceeded : string := "sync_succeeded".
Definition ActionTemplateRegistered : string := "template_registered".
Definition ActionTemplateUpdated : string := "template_updated".
Definition ActionTemplateValidated : string := "template_validated".
Definition ActionTemplateRevalidationRequested : string := "template_revalidation_requested".
Definition ActionInboundCreated : string := "inbound_created".
Definition ActionInboundRemoved : string := "inbound_removed".
Definition ActionPortAssigned : string := "port_assigned".
Definition ActionPortReleased : string := "port_released".
Definition ActionPortChanged : string := "port_changed".
Definition ActionSettingsUpdated : string := "settings_updated".
Definition ActionReconcileRemovedUnknown : string := "reconcile_removed_unknown".

Record AuditEvent := mkAudit {
  au_ID : ID;
  au_OccurredAt : Time;
  au_ActorType : ActorType;
  au_ActorID : option ID;
  au_TargetType : string;
  au_TargetID : ID;
  au_Action : string;
  au_Result : AuditResult;
  au_CommandID : option ID;
  au_OperationID : option ID;
  au_SafeSummary : string }.
#[global] Instance eta_AuditEvent : Eta AuditEvent := fun r =>
  mkAudit (au_ID r) (au_OccurredAt r) (au_ActorType r) (au_ActorID r) (au_TargetType r)
    (au_TargetID r) (au_Action r) (au_Result r) (au_CommandID r) (au_OperationID r)
    (au_SafeSummary r).

(** ** Properties of identifiers *)
Definition is_byte (b : Z) : Prop := 0 <= b < 256.

(** The pattern of a version-4 UUID, character class by character class. *)
Fixpoint match_classes (classes : list (ascii -> bool)) (s : string) : bool :=
  match classes, s with
  | [], EmptyString => true
  | f :: classes', String c s' => f c && match_classes classes' s'
  | _, _ => false
  end.

Lemma hex_digit_is_hex n : 0 <= n < 16 -> is_hex (hex_digit n) = true.
Proof.
  intros [Hlo Hhi]. rewrite <- (Z2Nat.id n) by done.
  assert (Z.to_nat n < 16)%nat as Hk by lia. revert Hk. generalize (Z.to_nat n) as k. clear.
  do 16 (intros [|k]; [done|]; revert k). lia.
Qed.

Lemma byte_nibbles b : is_byte b ->
  is_hex (hex_digit (b / 16)) = true /\ is_hex (hex_digit (b `mod` 16)) = true.
Proof.
  intros [H1 H2]. split; apply hex_digit_is_hex; [|apply Z.mod_pos_bound; lia].
  split; [apply Z.div_pos; lia|apply Z.div_lt_upper_bound; lia].
Qed.

(** A boolean test that holds of the 256 bytes holds of every byte. *)
Lemma byte_forall (f : Z -> bool) b :
  forallb f (seqZ 0 256) = true -> is_byte b -> f b = true.
Proof.
  intros Hf Hb. rewrite forallb_forall in Hf. apply Hf.
  apply list_elem_of_In, elem_of_seqZ. unfold is_byte in Hb. lia.
Qed.

Definition version_byte (b : Z) : Z := Z.lor (Z.land b 15) 64.
Definition variant_byte (b : Z) : Z := Z.lor (Z.land b 63) 128.

Definition is_four (c : ascii) : bool := bool_decide (c = "4"%char).
(** [[89ab]] *)
Definition is_variant (c : ascii) : bool :=
  bool_decide (c = "8"%char) || bool_decide (c = "9"%char) ||
  bool_decide (c = "a"%char) || bool_decide (c = "b"%char).

Lemma version_nibbles b : is_byte b ->
  is_four (hex_digit (version_byte b / 16)) = true /\
  is_hex (hex_digit (version_byte b `mod` 16)) = true.
Proof.
  intros Hb. apply andb_true_iff.
  apply (byte_forall (fun b => is_four (hex_digit (version_byte b / 16)) &&
                               is_hex (hex_digit (version_byte b `mod` 16)))); [|done].
  by vm_compute.
Qed.

Lemma variant_nibbles b : is_byte b ->
  is_variant (hex_digit (variant_byte b / 16)) = true /\
  is_hex (hex_digit (variant_byte b `mod` 16)) = true.
Proof.
  intros Hb. apply andb_true_iff.
  apply (byte_forall (fun b => is_variant (hex_digit (variant_byte b / 16)) &&
                               is_hex (hex_digit (variant_byte b `mod` 16)))); [|done].
  by vm_compute.
Qed.

Lemma is_four_hex c : is_four c = true -> is_hex c = true.
Proof. intros ->%bool_decide_eq_true. done. Qed.
Lemma is_variant_hex c : is_variant c = true -> is_hex c = true.
Proof.
  unfold is_variant. rewrite !orb_true_iff, !bool_decide_eq_true.
  intros [[[-> | ->] | ->] | ->]; done.
Qed.

(** The 36 characters of an identifier, as classes. *)
Definition uuid_classes : list (ascii -> bool) :=
  replicate 8 is_hex ++ [is_dash] ++ replicate 4 is_hex ++ [is_dash] ++
  is_four :: replicate 3 is_hex ++ [is_dash] ++ is_variant :: replicate 3 is_hex ++ [is_dash] ++
  replicate 12 is_hex.

Lemma NewID_uuid raw id :
  length raw = 16%nat -> Forall is_byte raw -> NewID (Some raw) = Ok id ->
  match_classes uuid_classes id = true.
Proof.
  intros Hlen Hb [= <-].
  do 16 (destruct raw as [|? raw]; [done|]). destruct raw; [|done].
  repeat match goal with H : Forall _ (_ :: _) |- _ => apply Forall_cons in H as [? H] end.
  cbn -[is_hex is_dash is_four is_variant hex_digit Z.lor Z.land Z.div Z.modulo].
  cbv [String.append]; cbv beta iota.
  repeat match goal with
  | H : is_byte ?b |- context [Z.lor (Z.land ?b 15) 64] =>
      destruct (version_nibbles b H) as [? ?]; fold (version_byte b)
  | H : is_byte ?b |- context [Z.lor (Z.land ?b 63) 128] =>
      destruct (variant_nibbles b H) as [? ?]; fold (variant_byte b)
  end.
  repeat match goal with
  | H : is_byte ?b |- context [hex_digit (?b / 16)] =>
      let H1 := fresh in let H2 := fresh in
      destruct (byte_nibbles b H) as [H1 H2]; rewrite H1, H2; clear H1 H2
  end.
  repeat match goal with H : _ = true |- _ => rewrite H; clear H end. done.
Qed.

(** The pattern of a UUID implies [Valid]. *)
Lemma uuid_valid id : match_classes uuid_classes id = true -> Valid id = true.
Proof.
  unfold uuid_classes. cbn -[is_hex is_dash is_four is_variant]. intros H.
  repeat match type of H with
  | match ?s with EmptyString => _ | String _ _ => _ end = true =>
      destruct s as [|? s]; [discriminate H|];
      apply andb_true_iff in H; let H1 := fresh in destruct H as [H1 H]
  end.
  match goal with H : match ?s with _ => _ end = true |- _ => destruct s; [|done] end.
  repeat match goal with
  | H : is_four _ = true |- _ => apply is_four_hex in H
  | H : is_variant _ = true |- _ => apply is_variant_hex in H
  end.
  unfold Valid. rewrite bool_decide_eq_true_2 by done.
  cbn -[is_hex is_dash bool_decide].
  repeat match goal with
  | |- context [bool_decide ?P] => let b := eval vm_compute in (bool_decide P) in
      change (bool_decide P) with b; cbn -[is_hex is_dash bool_decide]
  end.
  repeat match goal with H : _ = true |- _ => rewrite H; clear H end. done.
Qed.
