(* ===== verification/Text.v ===== *)
(** * Unicode text as Go's standard library sees it

    UTF-8 decoding of a byte string into runes (with the replacement
    character for malformed bytes), [unicode.IsSpace], [unicode.IsControl],
    [strings.TrimSpace], [strings.Fields], [strings.ToLower], and
    [NormalizeDisplayName] of internal/domain/template.go. The NFKC
    normalisation of golang.org/x/text and the simple lower-case mapping of
    non-ASCII runes are the fields of the class [Unicode]. *)

From Stdlib Require Import ZArith Lia Ascii.
From S2P Require Import Prelude GoTypes.

Class Unicode := {
  NFKC : string -> string;            (** [norm.NFKC.String] *)
  to_lower_rune : Z -> Z              (** [unicode.ToLower] above U+007F *)
}.

Fixpoint bytes_of (s : string) : list Z :=
  match s with EmptyString => [] | String c s' => byte_of c :: bytes_of s' end.
Fixpoint string_of_bytes (l : list Z) : string :=
  match l with [] => EmptyString | b :: l' => String (ascii_of_nat (Z.to_nat b)) (string_of_bytes l') end.

Definition RuneError : Z := 65533.
Definition between (lo b hi : Z) : bool := (lo <=? b) && (b <=? hi).
Definition is_cont (b : Z) : bool := between 128 b 191.

(** [utf8.DecodeRune]: the rune and the number of bytes it takes. *)
Definition decode_rune (l : list Z) : Z * nat :=
  match l with
  | [] => (RuneError, 0%nat)
  | b0 :: r =>
      if b0 <? 128 then (b0, 1%nat)
      else if between 194 b0 223 then
        match r with
        | b1 :: _ => if is_cont b1 then ((b0 - 192) * 64 + (b1 - 128), 2%nat) else (RuneError, 1%nat)
        | _ => (RuneError, 1%nat)
        end
      else if between 224 b0 239 then
        match r with
        | b1 :: b2 :: _ =>
            let lo := if b0 =? 224 then 160 else 128 in
            let hi := if b0 =? 237 then 159 else 191 in
            if between lo b1 hi && is_cont b2
            then ((b0 - 224) * 4096 + (b1 - 128) * 64 + (b2 - 128), 3%nat) else (RuneError, 1%nat)
        | _ => (RuneError, 1%nat)
        end
      else if between 240 b0 244 then
        match r with
        | b1 :: b2 :: b3 :: _ =>
            let lo := if b0 =? 240 then 144 else 128 in
            let hi := if b0 =? 244 then 143 else 191 in
            if between lo b1 hi && is_cont b2 && is_cont b3
            then ((b0 - 240) * 262144 + (b1 - 128) * 4096 + (b2 - 128) * 64 + (b3 - 128), 4%nat)
            else (RuneError, 1%nat)
        | _ => (RuneError, 1%nat)
        end
      else (RuneError, 1%nat)
  end.

(** The runes of a string with the bytes each one takes, in order. *)
Fixpoint chunks (fuel : nat) (l : list Z) : list (Z * list Z) :=
  match fuel, l with
  | S fuel, _ :: _ =>
      let '(r, n) := decode_rune l in
      (r, take (n `max` 1) l) :: chunks fuel (drop (n `max` 1) l)
  | _, _ => []
  end.
Definition chunks_of (s : string) : list (Z * list Z) := chunks (String.length s) (bytes_of s).
Definition runes (s : string) : list Z := (chunks_of s).*1.
Definition unchunk (cs : list (Z * list Z)) : string := string_of_bytes (concat (cs.*2)).

(** [utf8.RuneCountInString] *)
Definition RuneCount (s : string) : Z := Z.of_nat (length (chunks_of s)).

Definition IsSpace (r : Z) : bool :=
  between 9 r 13 || bool_decide (r = 32) || bool_decide (r = 133) || bool_decide (r = 160) ||
  bool_decide (r = 5760) || between 8192 r 8202 || bool_decide (r = 8232) ||
  bool_decide (r = 8233) || bool_decide (r = 8239) || bool_decide (r = 8287) ||
  bool_decide (r = 12288).
Definition IsControl (r : Z) : bool := between 0 r 31 || between 127 r 159.

Fixpoint drop_space (cs : list (Z * list Z)) : list (Z * list Z) :=
  match cs with
  | [] => []
  | c :: cs' => if IsSpace (fst c) then drop_space cs' else cs
  end.

(** [strings.TrimSpace] *)
Definition TrimSpace (s : string) : string :=
  unchunk (reverse (drop_space (reverse (drop_space (chunks_of s))))).

(** [strings.Fields]: the maximal runs of non-space runes. *)
Fixpoint fields_aux (cs acc : list (Z * list Z)) : list string :=
  match cs with
  | [] => match acc with [] => [] | _ => [unchunk (reverse acc)] end
  | c :: cs' =>
      if IsSpace (fst c) then
        match acc with [] => fields_aux cs' [] | _ => unchunk (reverse acc) :: fields_aux cs' [] end
      else fields_aux cs' (c :: acc)
  end.
Definition Fields (s : string) : list string := fields_aux (chunks_of s) [].

(** [strings.Join] *)
Fixpoint Join (l : list string) (sep : string) : string :=
  match l with
  | [] => EmptyString
  | [s] => s
  | s :: l' => s +:+ sep +:+ Join l' sep
  end.

Definition encode_rune (r : Z) : list Z :=
  if r <? 128 then [r]
  else if r <? 2048 then [192 + r / 64; 128 + r `mod` 64]
  else if r <? 65536 then [224 + r / 4096; 128 + (r / 64) `mod` 64; 128 + r `mod` 64]
  else [240 + r / 262144; 128 + (r / 4096) `mod` 64; 128 + (r / 64) `mod` 64; 128 + r `mod` 64].

Section Normalize.
Context `{Unicode}.

Definition lower_rune (r : Z) : Z :=
  if r <? 128 then (if between 65 r 90 then r + 32 else r) else to_lower_rune r.
Definition ToLower (s : string) : string :=
  string_of_bytes (concat (map (fun r => encode_rune (lower_rune r)) (runes s))).

Definition NormalizeDisplayName (value : string) : Res string :=
  let trimmed := TrimSpace value in
  let count := RuneCount trimmed in
  if (count <? 1) || (64 <? count) then
    Err (PlainError "display name must contain 1 to 64 characters")
  else if existsb IsControl (runes trimmed) then
    Err (PlainError "display name must not contain control characters")
  else Ok (ToLower (Join (Fields (NFKC trimmed)) " ")).
End Normalize.

(** [err.Error()] of the two untyped errors above. *)
Definition error_text (e : error) : string :=
  match e with
  | ValidationError field message => field +:+ ": " +:+ message
  | ConflictError m | InvalidStateError m | PlainError m | SqlError m => m
  | NotFoundError r => r +:+ " not found"
  | RateLimitError _ => "too many authentication attempts"
  | AdapterError _ op _ summary => "xray " +:+ op +:+ ": " +:+ summary
  | InconsistentRoundError reason _ _ => "traffic round inconsistent across batches: " +:+ reason
  | ContextDeadlineExceeded => "context deadline exceeded"
  | ContextCanceled => "context canceled"
  end.

(** ** Facts *)

(** Chunking loses no byte. *)
Lemma chunks_bytes fuel l :
  (length l <= fuel)%nat -> concat ((chunks fuel l).*2) = l.
Proof.
  revert l. induction fuel as [|fuel IH]; intros l Hl.
  - destruct l; [done|simpl in Hl; lia].
  - destruct l as [|b l]; [done|].
    cbn [chunks]. destruct (decode_rune (b :: l)) as [r n]. cbn [fmap list_fmap concat snd].
    rewrite IH; [apply take_drop|]. rewrite length_drop. simpl in *. lia.
Qed.

(** Pure ASCII strings decode byte by byte. *)
Definition is_ascii (c : ascii) : bool := byte_of c <? 128.

Lemma byte_of_nonneg c : 0 <= byte_of c.
Proof. unfold byte_of. lia. Qed.

Lemma length_bytes_of s : length (bytes_of s) = String.length s.
Proof. induction s as [|c s IH]; simpl; congruence. Qed.

Lemma runes_ascii s :
  string_existsb (fun c => negb (is_ascii c)) s = false -> runes s = bytes_of s.
Proof.
  unfold runes, chunks_of. intros H.
  induction s as [|c s IH]; [done|].
  simpl in H. apply orb_false_iff in H as [Hc H]. apply negb_false_iff in Hc.
  unfold is_ascii in Hc. cbn. rewrite Hc. cbn. f_equal. unfold chunks in IH. auto.
Qed.
