(* ===== verification/Inbound.v ===== *)
(** * The dedicated inbound: internal/domain/inbound.go

    The reserved namespace, the tag of an inbound, the single truth table for
    "this port should listen", and the identity used while a credential is
    rotated. The three state enumerations of internal/domain/user.go that the
    truth table reads are declared here. *)

From Stdlib Require Import ZArith Lia Ascii.
From S2P Require Import Prelude GoTypes Identity Text.

Inductive LifecycleState : Set := LifecycleActive | LifecycleDeleted.
Inductive QuotaState : Set := QuotaWithinLimit | QuotaExceeded.
Inductive ProjectionState : Set :=
| ProjectionUnknown | ProjectionPending | ProjectionPresent | ProjectionAbsent | ProjectionError.
#[global] Instance LifecycleState_eq_dec : EqDecision LifecycleState. Proof. solve_decision. Defined.
#[global] Instance QuotaState_eq_dec : EqDecision QuotaState. Proof. solve_decision. Defined.
#[global] Instance ProjectionState_eq_dec : EqDecision ProjectionState. Proof. solve_decision. Defined.

Definition NamespacePrefix : string := "xpanel-".

Definition InboundTag (allocationID : ID) : string := NamespacePrefix +:+ allocationID.
Definition IsPanelNamespace (value : string) : bool := HasPrefix value NamespacePrefix.

Definition ValidateInboundTag (tag : string) : Res unit :=
  if negb (IsPanelNamespace tag) then
    Err (ValidationError "inbound_tag" "inbound tag must use the panel namespace prefix")
  else if bool_decide (String.length tag <= String.length NamespacePrefix)%nat then
    Err (ValidationError "inbound_tag" "inbound tag must not be the bare namespace prefix")
  else if existsb IsControl (runes tag) || Contains tag ">>>" then
    Err (ValidationError "inbound_tag" "inbound tag contains forbidden characters")
  else Ok tt.

Record DedicatedInbound := mkInbound {
  in_AllocationID : ID;
  in_TemplateID : ID;
  in_InboundTag : string;
  in_ListenAddress : string;
  in_Port : Z;
  in_DesiredPresent : bool;
  in_ObservedPresent : option bool;
  in_LastSyncAt : option Time;
  in_ReleasedAt : option Time;
  in_CreatedAt : Time;
  in_UpdatedAt : Time }.
#[global] Instance eta_DedicatedInbound : Eta DedicatedInbound := fun r =>
  mkInbound (in_AllocationID r) (in_TemplateID r) (in_InboundTag r) (in_ListenAddress r)
    (in_Port r) (in_DesiredPresent r) (in_ObservedPresent r) (in_LastSyncAt r)
    (in_ReleasedAt r) (in_CreatedAt r) (in_UpdatedAt r).

Definition Assigned (i : DedicatedInbound) : bool := bool_decide (in_ReleasedAt i = None).

Definition InboundDesiredPresent (lifecycle : LifecycleState) (adminEnabled : bool)
    (quota : QuotaState) : bool :=
  bool_decide (lifecycle = LifecycleActive) && adminEnabled && bool_decide (quota = QuotaWithinLimit).

Definition RotationSuffix : string := "-rotate".
Definition RotationSafetyID (statisticsID : string) : string := statisticsID +:+ RotationSuffix.
Definition IsRotationSafetyID (value : string) : bool :=
  IsPanelNamespace value && HasSuffix value RotationSuffix.

Definition InboundClientCount : Z := 1.
Definition ValidateInboundClients (count : Z) : Res unit :=
  if count =? InboundClientCount then Ok tt
  else Err (InvalidStateError "a dedicated inbound must carry exactly one managed client").

(** ** Properties *)
Lemma InboundDesiredPresent_true l e q :
  InboundDesiredPresent l e q = true <->
  l = LifecycleActive /\ e = true /\ q = QuotaWithinLimit.
Proof.
  unfold InboundDesiredPresent. rewrite !andb_true_iff, !bool_decide_eq_true. tauto.
Qed.

Lemma InboundDesiredPresent_deleted e q : InboundDesiredPresent LifecycleDeleted e q = false.
Proof. done. Qed.

Lemma InboundDesiredPresent_disabled l q : InboundDesiredPresent l false q = false.
Proof. by destruct l. Qed.

Lemma InboundTag_namespace a : IsPanelNamespace (InboundTag a) = true.
Proof. apply HasPrefix_app. Qed.

Lemma InboundTag_inj a b : InboundTag a = InboundTag b -> a = b.
Proof. apply string_app_inj_l. Qed.

Lemma app_suffix_neq s t : t <> EmptyString -> s +:+ t <> s.
Proof.
  intros Ht H. apply (f_equal String.length) in H. rewrite string_length_app in H.
  destruct t; [done|]. simpl in H. lia.
Qed.

Lemma RotationSafetyID_ne s : RotationSafetyID s <> s.
Proof. by apply app_suffix_neq. Qed.

(** The transition identity of a panel identity is recognised as one. *)
Lemma RotationSafetyID_recognised s :
  IsPanelNamespace s = true -> IsRotationSafetyID (RotationSafetyID s) = true.
Proof.
  intros (r & ->)%HasPrefix_true. unfold IsRotationSafetyID, RotationSafetyID.
  apply andb_true_iff. split; [|apply HasSuffix_app].
  apply HasPrefix_true. exists (r +:+ RotationSuffix). by rewrite string_app_assoc.
Qed.

(** ** Tags of generated identifiers *)

(** The characters of an identifier: lower-case hexadecimal digits and dashes. *)
Definition id_char (c : ascii) : bool := is_hex c || is_dash c.

Lemma id_char_facts c : id_char c = true ->
  is_ascii c = true /\ IsControl (byte_of c) = false /\ bool_decide (c = ">"%char) = false.
Proof.
  intros H. split_and!; revert H;
  destruct c as [[] [] [] [] [] [] [] []]; vm_compute; (done || congruence).
Qed.

Lemma Contains_needs_char s c sub :
  string_existsb (fun d => bool_decide (d = c)) s = false -> Contains s (String c sub) = false.
Proof.
  induction s as [|d s IH]; intros H; [done|].
  simpl in *. apply orb_false_iff in H as [Hd H].
  rewrite IH by done. rewrite (bool_decide_eq_false_2 (c = d)); [done|].
  apply bool_decide_eq_false in Hd. congruence.
Qed.

Lemma id_string_facts s :
  string_existsb (fun c => negb (id_char c)) s = false ->
  existsb IsControl (runes s) = false /\ Contains s ">>>" = false.
Proof.
  intros H. split.
  - rewrite runes_ascii.
    + induction s as [|c s IH]; [done|]. simpl in *. apply orb_false_iff in H as [Hc H].
      apply negb_false_iff, id_char_facts in Hc as (_ & -> & _). auto.
    + induction s as [|c s IH]; [done|]. simpl in *. apply orb_false_iff in H as [Hc H].
      apply negb_false_iff, id_char_facts in Hc as (-> & _ & _). auto.
  - apply Contains_needs_char.
    induction s as [|c s IH]; [done|]. simpl in *. apply orb_false_iff in H as [Hc H].
    apply negb_false_iff, id_char_facts in Hc as (_ & _ & ->). auto.
Qed.
