(* ===== verification/Tokens.v ===== *)
(** * Statistics identities and counter names

    internal/security/tokens.go ([StatisticsID], [ParseCounterName],
    [methodKeyLength]) and [CounterName] of internal/adapter/xray/stats.go.
    [RedactedString] hides a value from every rendering but [Reveal]. *)

From Stdlib Require Import ZArith Lia Ascii.
From S2P Require Import Prelude GoTypes Identity Text Inbound.

Definition MethodAES128 : string := "2022-blake3-aes-128-gcm".
Definition MethodAES256 : string := "2022-blake3-aes-256-gcm".

Record RedactedString := NewRedactedString { Reveal : string }.
Definition RedactedString_String (r : RedactedString) : string := "[REDACTED]".

Definition methodKeyLength (method : string) : Res Z :=
  if bool_decide (method = MethodAES128) then Ok 16
  else if bool_decide (method = MethodAES256) then Ok 32
  else Err (PlainError "unsupported Shadowsocks 2022 method").

(** [strings.ToLower] on the bytes of an identifier: a letter outside ASCII
    never maps to a character of [uuidPattern]. *)
Fixpoint ascii_lower (s : string) : string :=
  match s with
  | EmptyString => EmptyString
  | String c s' =>
      String (if between 65 (byte_of c) 90 then ascii_of_nat (Z.to_nat (byte_of c + 32)) else c)
             (ascii_lower s')
  end.

Definition uuidPattern (s : string) : bool := match_classes uuid_classes s.

Definition StatisticsID (allocationID : ID) : Res string :=
  let allocationID := ascii_lower allocationID in
  if negb (uuidPattern allocationID) then Err (PlainError "allocation ID must be a UUIDv4")
  else
    let value := "xpanel-" +:+ allocationID in
    if Contains value ">>>" then Err (PlainError "statistics identity contains a reserved delimiter")
    else Ok value.

Inductive Direction : Set := Uplink | Downlink.
#[global] Instance Direction_eq_dec : EqDecision Direction. Proof. solve_decision. Defined.
Definition direction_string (d : Direction) : string :=
  match d with Uplink => "uplink" | Downlink => "downlink" end.

(** The direction argument has no third value here; Go's guard also refuses
    other direction strings. *)
Definition CounterName (statisticsID : string) (direction : Direction) : Res string :=
  if bool_decide (statisticsID = "") then
    Err (AdapterError ErrorInvalidArgument "counter_name" false "invalid counter identity or direction")
  else Ok ("user>>>" +:+ statisticsID +:+ ">>>traffic>>>" +:+ direction_string direction).

Definition ParseCounterName (name : string) : Res (string * string) :=
  match Split name ">>>" with
  | [p0; p1; p2; p3] =>
      if bool_decide (p0 <> "user") || bool_decide (p1 = "") || bool_decide (p2 <> "traffic") ||
         (bool_decide (p3 <> "uplink") && bool_decide (p3 <> "downlink"))
      then Err (PlainError "invalid Xray user counter name")
      else Ok (p1, p3)
  | _ => Err (PlainError "invalid Xray user counter name")
  end.

(** ** Round trip of counter names *)
Definition no_gt (s : string) : Prop := string_existsb (fun d => bool_decide (d = ">"%char)) s = false.

Lemma split_loop_piece p s acc fuel :
  no_gt p ->
  split_loop (String.length p + S fuel) (p +:+ ">>>" +:+ s) ">>>" acc =
  (acc +:+ p) :: split_loop fuel s ">>>" "".
Proof.
  revert acc. induction p as [|c p IH]; intros acc Hp.
  - change (String.length "" + S fuel)%nat with (S fuel).
    cbn [split_loop]. rewrite string_app_nil_r.
    change ("" +:+ ">>>" +:+ s) with (">>>" +:+ s).
    simpl. by destruct s.
  - unfold no_gt in Hp. simpl in Hp. apply orb_false_iff in Hp as [Hc Hp].
    simpl String.length. simpl plus.
    change (String c p +:+ ">>>" +:+ s) with (String c (p +:+ ">>>" +:+ s)).
    cbn [split_loop]. simpl HasPrefix.
    rewrite (bool_decide_eq_false_2 (">"%char = c)) by (apply bool_decide_eq_false in Hc; congruence).
    cbn [andb]. rewrite (IH (acc +:+ String c "") Hp). f_equal.
    by rewrite <- string_app_assoc.
Qed.

Lemma split_loop_last p acc fuel :
  no_gt p -> (String.length p <= fuel)%nat ->
  split_loop fuel p ">>>" acc = [acc +:+ p].
Proof.
  revert acc fuel. induction p as [|c p IH]; intros acc fuel Hp Hf.
  - rewrite string_app_nil_r. by destruct fuel.
  - destruct fuel as [|fuel]; [simpl in Hf; lia|].
    unfold no_gt in Hp. simpl in Hp. apply orb_false_iff in Hp as [Hc Hp].
    cbn [split_loop]. simpl HasPrefix.
    rewrite (bool_decide_eq_false_2 (">"%char = c)) by (apply bool_decide_eq_false in Hc; congruence).
    cbn [andb]. rewrite (IH (acc +:+ String c "")) by (done || simpl in Hf; lia).
    by rewrite <- string_app_assoc.
Qed.

Lemma Split_counter_name id d : no_gt id ->
  Split ("user>>>" +:+ id +:+ ">>>traffic>>>" +:+ direction_string d) ">>>" =
  ["user"; id; "traffic"; direction_string d].
Proof.
  intros Hid. unfold Split. rewrite !string_length_app.
  change ("user>>>" +:+ id +:+ ">>>traffic>>>" +:+ direction_string d) with
    ("user" +:+ ">>>" +:+ (id +:+ ">>>" +:+ ("traffic" +:+ ">>>" +:+ direction_string d))).
  replace (_ + (_ + (_ + _)))%nat with
    (String.length "user" + S (String.length id + S (String.length "traffic" +
       S (String.length (direction_string d) + 6))))%nat by (simpl; lia).
  rewrite split_loop_piece by done. rewrite split_loop_piece by done.
  rewrite split_loop_piece by done. rewrite split_loop_last; [done|by destruct d|lia].
Qed.

Lemma counter_name_roundtrip id d name :
  no_gt id -> CounterName id d = Ok name -> ParseCounterName name = Ok (id, direction_string d).
Proof.
  intros Hid. unfold CounterName. case_bool_decide as He; intros [= <-].
  unfold ParseCounterName. rewrite Split_counter_name by done.
  rewrite !(bool_decide_eq_false_2 (_ <> _)) by tauto.
  rewrite (bool_decide_eq_false_2 (id = "")) by done. by destruct d.
Qed.

(** ** Identities of generated allocations *)
Lemma match_classes_chars classes s :
  (forall f c, f ∈ classes -> f c = true -> id_char c = true) ->
  match_classes classes s = true ->
  string_existsb (fun c => negb (id_char c)) s = false.
Proof.
  revert s. induction classes as [|f classes IH]; intros [|c s] Hf H; simpl in *; try done.
  apply andb_true_iff in H as [Hc H]. apply orb_false_iff. split.
  - apply negb_false_iff, (Hf f); [left|done].
  - apply IH; [|done]. intros g d Hg. apply Hf. by right.
Qed.

Lemma uuid_id_chars id : uuidPattern id = true ->
  string_existsb (fun c => negb (id_char c)) id = false.
Proof.
  apply match_classes_chars. intros f c Hf Hc. unfold id_char. apply orb_true_iff.
  unfold uuid_classes in Hf. simpl in Hf.
  repeat (apply elem_of_cons in Hf as [->|Hf]; [auto using is_four_hex, is_variant_hex|]).
  by apply elem_of_nil in Hf.
Qed.

Lemma ascii_lower_id s :
  string_existsb (fun c => negb (id_char c)) s = false -> ascii_lower s = s.
Proof.
  induction s as [|c s IH]; intros H; [done|].
  simpl in H. apply orb_false_iff in H as [Hc H]. apply negb_false_iff in Hc.
  cbn [ascii_lower]. rewrite IH by done. f_equal.
  revert Hc. destruct c as [[] [] [] [] [] [] [] []]; vm_compute; (done || congruence).
Qed.

Lemma no_gt_id s : string_existsb (fun c => negb (id_char c)) s = false -> no_gt s.
Proof.
  unfold no_gt. induction s as [|c s IH]; intros H; [done|].
  simpl in *. apply orb_false_iff in H as [Hc H].
  apply negb_false_iff, id_char_facts in Hc as (_ & _ & ->). auto.
Qed.

Lemma prefixed_id_chars id :
  string_existsb (fun c => negb (id_char c)) id = false ->
  existsb IsControl (runes (InboundTag id)) = false /\
  Contains (InboundTag id) ">>>" = false /\ no_gt (InboundTag id).
Proof.
  intros H. unfold InboundTag, NamespacePrefix.
  assert (Hgt : no_gt ("xpanel-" +:+ id)).
  { unfold no_gt. rewrite string_existsb_app. by apply no_gt_id in H. }
  split_and!; [|by apply Contains_needs_char|done].
  rewrite runes_ascii.
  - assert (existsb IsControl (bytes_of id) = false) as Hid.
    { rewrite <- runes_ascii; [by apply id_string_facts|].
      clear Hgt. induction id as [|c s IH]; [done|]. simpl in *.
      apply orb_false_iff in H as [Hc H].
      apply negb_false_iff, id_char_facts in Hc as (-> & _ & _). auto. }
    simpl. exact Hid.
  - rewrite string_existsb_app. apply orb_false_iff. split; [done|].
    clear Hgt. induction id as [|c s IH]; [done|]. simpl in *.
    apply orb_false_iff in H as [Hc H].
    apply negb_false_iff, id_char_facts in Hc as (-> & _ & _). auto.
Qed.

(** An identifier generated by the panel is a valid identifier; its
    statistics identity exists and equals its inbound tag; the tag is accepted
    for Xray; and the name of either traffic counter parses back to it. *)
Theorem generated_identity_end_to_end raw id :
  length raw = 16%nat -> Forall is_byte raw -> NewID (Some raw) = Ok id ->
  Valid id = true /\ StatisticsID id = Ok (InboundTag id) /\
  ValidateInboundTag (InboundTag id) = Ok tt /\
  forall d, exists name, CounterName (InboundTag id) d = Ok name /\
    ParseCounterName name = Ok (InboundTag id, direction_string d).
Proof.
  intros Hlen Hb Hid. pose proof (NewID_uuid _ _ Hlen Hb Hid) as Hu.
  pose proof (uuid_id_chars _ Hu) as Hc.
  destruct (prefixed_id_chars _ Hc) as (Hctl & Hgt3 & Hgt).
  pose proof (uuid_valid _ Hu) as Hv. split; [done|].
  assert (String.length id = 36%nat) as Hl.
  { unfold Valid in Hv. to_prop. done. }
  split_and!.
  - unfold StatisticsID. rewrite ascii_lower_id by done. unfold uuidPattern. rewrite Hu.
    cbn [negb]. fold NamespacePrefix. fold (InboundTag id). by rewrite Hgt3.
  - unfold ValidateInboundTag. rewrite InboundTag_namespace. cbn [negb].
    rewrite bool_decide_eq_false_2; [by rewrite Hctl, Hgt3|].
    unfold InboundTag. rewrite string_length_app, Hl. simpl. lia.
  - intros d. eexists. split.
    + unfold CounterName. rewrite bool_decide_eq_false_2; [done|]. by destruct id.
    + apply (counter_name_roundtrip _ d); [done|].
      unfold CounterName. rewrite bool_decide_eq_false_2; [done|]. by destruct id.
Qed.

Definition sample_entropy : list Z := seqZ 200 16.

Lemma generated_identity_end_to_end_witness :
  Valid "c8c9cacb-cccd-4ecf-90d1-d2d3d4d5d6d7" = true /\
  StatisticsID "c8c9cacb-cccd-4ecf-90d1-d2d3d4d5d6d7" = Ok (InboundTag "c8c9cacb-cccd-4ecf-90d1-d2d3d4d5d6d7").
Proof.
  destruct (generated_identity_end_to_end sample_entropy "c8c9cacb-cccd-4ecf-90d1-d2d3d4d5d6d7")
    as (H1 & H2 & _).
  - reflexivity.
  - unfold is_byte. repeat (apply Forall_cons; split; [vm_compute; split; [discriminate|reflexivity]|]).
    apply Forall_nil. exact I.
  - vm_compute. reflexivity.
  - split; [exact H1|exact H2].
Defined.
