(* ===== verification/User.v ===== *)
(** * Users, allocations and credentials: internal/domain/user.go *)

From Stdlib Require Import ZArith Lia.
From S2P Require Import Prelude GoTypes Identity Text Inbound.

Record ManagedUser := mkUser {
  u_ID : ID;
  u_DisplayName : string;
  u_NormalizedName : string;
  u_Lifecycle : LifecycleState;
  u_Revision : Revision;
  u_CreatedAt : Time;
  u_UpdatedAt : Time;
  u_DeletedAt : option Time }.
#[global] Instance eta_ManagedUser : Eta ManagedUser := fun r =>
  mkUser (u_ID r) (u_DisplayName r) (u_NormalizedName r) (u_Lifecycle r) (u_Revision r)
    (u_CreatedAt r) (u_UpdatedAt r) (u_DeletedAt r).

(** Instants carry no zone here, so [now.UTC()] is [now]. *)
Definition NewManagedUser `{Unicode} (id : ID) (displayName : string) (now : Time) : Res ManagedUser :=
  match NormalizeDisplayName displayName with
  | Err err => Err (ValidationError "display_name" (error_text err))
  | Ok normalized =>
      Ok (mkUser id (TrimSpace displayName) normalized LifecycleActive 0 now now None)
  end.

Record AccessAllocation := mkAllocation {
  a_ID : ID;
  a_UserID : ID;
  a_TemplateID : ID;
  a_IdentityID : ID;
  a_AdminEnabled : bool;
  a_QuotaState : QuotaState;
  a_ProjectionState : ProjectionState;
  a_ObservedPresent : option bool;
  a_DesiredRevision : Revision;
  a_SyncedRevision : Revision;
  a_DesiredCredentialVersion : Z;
  a_SyncedCredentialVersion : option Z;
  a_LastSyncAt : option Time;
  a_LastSyncErrorCode : string;
  a_LastSyncErrorSummary : string;
  a_CreatedAt : Time;
  a_UpdatedAt : Time }.
#[global] Instance eta_AccessAllocation : Eta AccessAllocation := fun r =>
  mkAllocation (a_ID r) (a_UserID r) (a_TemplateID r) (a_IdentityID r) (a_AdminEnabled r)
    (a_QuotaState r) (a_ProjectionState r) (a_ObservedPresent r) (a_DesiredRevision r)
    (a_SyncedRevision r) (a_DesiredCredentialVersion r) (a_SyncedCredentialVersion r)
    (a_LastSyncAt r) (a_LastSyncErrorCode r) (a_LastSyncErrorSummary r) (a_CreatedAt r)
    (a_UpdatedAt r).

Definition DesiredPresent (a : AccessAllocation) (user : ManagedUser) : bool :=
  InboundDesiredPresent (u_Lifecycle user) (a_AdminEnabled a) (a_QuotaState a).

Inductive DisplayStateT : Set :=
| DisplayDeleted | DisplayDisabling | DisplayDisabled | DisplayQuotaDisabling
| DisplayQuotaExceeded | DisplayEnabling | DisplayActive.
#[global] Instance DisplayStateT_eq_dec : EqDecision DisplayStateT. Proof. solve_decision. Defined.

Definition DisplayState (a : AccessAllocation) (user : ManagedUser) : DisplayStateT :=
  let present_or_pending :=
    bool_decide (a_ProjectionState a = ProjectionPresent) ||
    bool_decide (a_ProjectionState a = ProjectionPending) in
  if bool_decide (u_Lifecycle user = LifecycleDeleted) then DisplayDeleted
  else if negb (a_AdminEnabled a) && present_or_pending then DisplayDisabling
  else if negb (a_AdminEnabled a) then DisplayDisabled
  else if bool_decide (a_QuotaState a = QuotaExceeded) && present_or_pending then DisplayQuotaDisabling
  else if bool_decide (a_QuotaState a = QuotaExceeded) then DisplayQuotaExceeded
  else if bool_decide (a_ProjectionState a <> ProjectionPresent) then DisplayEnabling
  else DisplayActive.

Definition PendingSync (a : AccessAllocation) : bool :=
  bool_decide (a_DesiredRevision a <> a_SyncedRevision a) ||
  bool_decide (a_ProjectionState a = ProjectionUnknown) ||
  bool_decide (a_ProjectionState a = ProjectionPending) ||
  bool_decide (a_ProjectionState a = ProjectionError).

(** ** Credentials *)
Inductive CredentialState : Set :=
| CredentialPending | CredentialActive | CredentialRetired | CredentialDestroyed.
#[global] Instance CredentialState_eq_dec : EqDecision CredentialState. Proof. solve_decision. Defined.

(** Key material is a byte string; the empty string is a nil slice. *)
Record AccessCredential := mkCredential {
  cr_ID : ID;
  cr_AllocationID : ID;
  cr_Version : Z;
  cr_State : CredentialState;
  cr_KeyCiphertext : string;
  cr_KeyNonce : string;
  cr_KeyEncryptionVersion : Z;
  cr_CreatedAt : Time;
  cr_ActivatedAt : option Time;
  cr_RetiredAt : option Time }.
#[global] Instance eta_AccessCredential : Eta AccessCredential := fun r =>
  mkCredential (cr_ID r) (cr_AllocationID r) (cr_Version r) (cr_State r) (cr_KeyCiphertext r)
    (cr_KeyNonce r) (cr_KeyEncryptionVersion r) (cr_CreatedAt r) (cr_ActivatedAt r) (cr_RetiredAt r).

Definition has_key (c : AccessCredential) : bool :=
  bool_decide (cr_KeyCiphertext c <> "") && bool_decide (cr_KeyNonce c <> "").
Definition has_any_key (c : AccessCredential) : bool :=
  bool_decide (cr_KeyCiphertext c <> "") || bool_decide (cr_KeyNonce c <> "").

(** The loop of [ValidateCredentialSet] with its two counters. *)
Fixpoint credential_loop (credentials : list AccessCredential) (pending active : Z) : Res (Z * Z) :=
  match credentials with
  | [] => Ok (pending, active)
  | c :: rest =>
      if cr_Version c <? 1 then Err (InvalidStateError "credential version must be positive")
      else if bool_decide (cr_State c = CredentialDestroyed) && has_any_key c then
        Err (InvalidStateError "destroyed credential retains key material")
      else if bool_decide (cr_State c <> CredentialDestroyed) && negb (has_key c) then
        Err (InvalidStateError "usable credential lacks key material")
      else match cr_State c with
           | CredentialPending => credential_loop rest (pending + 1) active
           | CredentialActive => credential_loop rest pending (active + 1)
           | _ => credential_loop rest pending active
           end
  end.

Definition ValidateCredentialSet (credentials : list AccessCredential) : Res unit :=
  '(pending, active) ← credential_loop credentials 0 0;
  if (1 <? pending) || (1 <? active) then
    Err (InvalidStateError "allocation has multiple pending or active credentials")
  else Ok tt.

(** ** Properties *)

(** The state shown for a user reads the truth table and the projection:
    "active" exactly when the inbound should listen and is confirmed present,
    "enabling" exactly when it should listen and is not confirmed; a user who
    should not listen is shown deleted, disabled or over quota, whichever of
    the three facts blocks it first in that order. *)
Theorem DisplayState_reads_intent a u :
  (DisplayState a u = DisplayActive <->
     DesiredPresent a u = true /\ a_ProjectionState a = ProjectionPresent) /\
  (DisplayState a u = DisplayEnabling <->
     DesiredPresent a u = true /\ a_ProjectionState a <> ProjectionPresent) /\
  (DisplayState a u = DisplayDeleted <-> u_Lifecycle u = LifecycleDeleted) /\
  (DisplayState a u = DisplayDisabling \/ DisplayState a u = DisplayDisabled <->
     u_Lifecycle u = LifecycleActive /\ a_AdminEnabled a = false) /\
  (DisplayState a u = DisplayQuotaDisabling \/ DisplayState a u = DisplayQuotaExceeded <->
     u_Lifecycle u = LifecycleActive /\ a_AdminEnabled a = true /\ a_QuotaState a = QuotaExceeded).
Proof.
  destruct a as [? ? ? ? enabled quota proj], u as [? ? ? life].
  destruct life, enabled, quota, proj; vm_compute; intuition (congruence || discriminate).
Qed.

Definition credential_ok (c : AccessCredential) : Prop :=
  1 <= cr_Version c /\
  (cr_State c = CredentialDestroyed -> cr_KeyCiphertext c = "" /\ cr_KeyNonce c = "") /\
  (cr_State c <> CredentialDestroyed -> cr_KeyCiphertext c <> "" /\ cr_KeyNonce c <> "").

Definition count_state (s : CredentialState) (l : list AccessCredential) : Z :=
  Z.of_nat (length (List.filter (fun c => bool_decide (cr_State c = s)) l)).

Lemma count_state_cons s c l :
  count_state s (c :: l) = count_state s l + (if bool_decide (cr_State c = s) then 1 else 0).
Proof. unfold count_state. cbn [List.filter]. destruct (bool_decide _); cbn [length]; lia. Qed.

Lemma credential_check c :
  credential_ok c <->
  (cr_Version c <? 1) = false /\
  bool_decide (cr_State c = CredentialDestroyed) && has_any_key c = false /\
  bool_decide (cr_State c <> CredentialDestroyed) && negb (has_key c) = false.
Proof.
  unfold credential_ok, has_key, has_any_key.
  rewrite Z.ltb_ge, !andb_false_iff, negb_false_iff, andb_true_iff, orb_false_iff,
    !bool_decide_eq_false, !bool_decide_eq_true.
  destruct (decide (cr_KeyCiphertext c = "")), (decide (cr_KeyNonce c = "")),
    (decide (cr_State c = CredentialDestroyed)); tauto.
Qed.

Lemma credential_loop_ok l p q p' q' :
  credential_loop l p q = Ok (p', q') <->
  Forall credential_ok l /\ p' = p + count_state CredentialPending l /\
  q' = q + count_state CredentialActive l.
Proof.
  revert p q. induction l as [|c l IH]; intros p q.
  - cbn. unfold count_state. cbn. rewrite Forall_nil. split; [intros [= <- <-]; lia|].
    intros (_ & -> & ->). f_equal. f_equal; lia.
  - rewrite Forall_cons, credential_check, !count_state_cons. cbn [credential_loop].
    destruct (cr_Version c <? 1); [split; [discriminate|naive_solver]|].
    destruct (_ && has_any_key c); [split; [discriminate|naive_solver]|].
    destruct (_ && negb (has_key c)); [split; [discriminate|naive_solver]|].
    destruct (cr_State c) eqn:E; rewrite IH;
      repeat (case_bool_decide; [try congruence|try congruence]); intuition lia.
Qed.

(** A set of credentials is accepted exactly when every version is
    positive, destroyed credentials keep no key material while all others keep
    both parts, and at most one is pending and at most one active. *)
Theorem ValidateCredentialSet_ok l :
  ValidateCredentialSet l = Ok tt <->
  Forall credential_ok l /\ count_state CredentialPending l <= 1 /\ count_state CredentialActive l <= 1.
Proof.
  unfold ValidateCredentialSet. split.
  - intros H. inv_ok H. destruct a as [p q]. apply credential_loop_ok in E as (Hf & -> & ->).
    case_if_in H; [done|]. to_prop. split; [done|lia].
  - intros (Hf & Hp & Hq).
    rewrite (proj2 (credential_loop_ok l 0 0 _ _) (conj Hf (conj eq_refl eq_refl))).
    cbn. case_if; [|done]. apply orb_true_iff in Eif. rewrite !Z.ltb_lt in Eif. lia.
Qed.
