(* ===== verification/Sync.v ===== *)
(** * Synchronization operations: internal/domain/sync.go

    An operation is one durable intent of the outbox: bring the dedicated
    inbound of an allocation to a desired presence at a desired revision. *)

From Stdlib Require Import ZArith Lia Ascii.
From S2P Require Import Prelude GoTypes Identity.

Inductive SyncReason : Set :=
| SyncCreate | SyncEnable | SyncDisable | SyncQuotaBlock | SyncQuotaRestore
| SyncRotate | SyncDelete | SyncReconcile | SyncPortChange.
Inductive SyncPhase : Set :=
| SyncCreateInbound | SyncRemoveInbound | SyncRemoveOld | SyncAddDesired | SyncConfirm | SyncDone.
Inductive SyncState : Set :=
| SyncPending | SyncLeased | SyncRetryWait | SyncSucceeded | SyncSuperseded | SyncPermanentFailed.
#[global] Instance SyncReason_eq_dec : EqDecision SyncReason. Proof. solve_decision. Defined.
#[global] Instance SyncPhase_eq_dec : EqDecision SyncPhase. Proof. solve_decision. Defined.
#[global] Instance SyncState_eq_dec : EqDecision SyncState. Proof. solve_decision. Defined.

Definition reason_string (r : SyncReason) : string :=
  match r with
  | SyncCreate => "create" | SyncEnable => "enable" | SyncDisable => "disable"
  | SyncQuotaBlock => "quota_block" | SyncQuotaRestore => "quota_restore"
  | SyncRotate => "rotate" | SyncDelete => "delete" | SyncReconcile => "reconcile"
  | SyncPortChange => "port_change"
  end.
Definition phase_string (p : SyncPhase) : string :=
  match p with
  | SyncCreateInbound => "create_inbound" | SyncRemoveInbound => "remove_inbound"
  | SyncRemoveOld => "remove_old" | SyncAddDesired => "add_desired"
  | SyncConfirm => "confirm" | SyncDone => "done"
  end.

(** An absent lease owner is the empty string of the Go struct. *)
Record SynchronizationOperation := mkOperation {
  op_ID : ID;
  op_AllocationID : ID;
  op_DesiredRevision : Revision;
  op_DesiredPresence : bool;
  op_DesiredCredentialVersion : option Z;
  op_Reason : SyncReason;
  op_Phase : SyncPhase;
  op_State : SyncState;
  op_IdempotencyKey : string;
  op_AttemptCount : Z;
  op_NextAttemptAt : Time;
  op_LeaseOwner : string;
  op_LeaseExpiresAt : option Time;
  op_LastErrorCode : string;
  op_LastErrorSummary : string;
  op_CreatedAt : Time;
  op_StartedAt : option Time;
  op_CompletedAt : option Time }.
#[global] Instance eta_SynchronizationOperation : Eta SynchronizationOperation := fun r =>
  mkOperation (op_ID r) (op_AllocationID r) (op_DesiredRevision r) (op_DesiredPresence r)
    (op_DesiredCredentialVersion r) (op_Reason r) (op_Phase r) (op_State r) (op_IdempotencyKey r)
    (op_AttemptCount r) (op_NextAttemptAt r) (op_LeaseOwner r) (op_LeaseExpiresAt r)
    (op_LastErrorCode r) (op_LastErrorSummary r) (op_CreatedAt r) (op_StartedAt r)
    (op_CompletedAt r).

Definition InboundPhaseFor (present : bool) : SyncPhase :=
  if present then SyncCreateInbound else SyncRemoveInbound.

(** [fmt.Sprintf("%s:%d:%s", ...)] *)
Definition SyncIdempotencyKey (allocationID : ID) (revision : Revision) (phase : SyncPhase) : string :=
  allocationID +:+ ":" +:+ pretty revision +:+ ":" +:+ phase_string phase.

Definition NewSynchronizationOperation (id allocationID : ID) (revision : Revision) (present : bool)
    (credentialVersion : option Z) (reason : SyncReason) (phase : SyncPhase) (now : Time)
    : SynchronizationOperation :=
  mkOperation id allocationID revision present credentialVersion reason phase SyncPending
    (SyncIdempotencyKey allocationID revision phase) 0 now "" None "" "" now None None.

(** The receiver is updated in place: the new operation is returned with the
    boolean. *)
Definition Supersede (o : SynchronizationOperation) (current : Revision) (now : Time)
    : SynchronizationOperation * bool :=
  if (current <=? op_DesiredRevision o) || bool_decide (op_State o = SyncSucceeded) ||
     bool_decide (op_State o = SyncSuperseded)
  then (o, false)
  else (o <| op_State := SyncSuperseded |> <| op_CompletedAt := Some now |>
          <| op_LeaseOwner := "" |> <| op_LeaseExpiresAt := None |>, true).

(** The doubling loop of [NextBackoff]: [fuel] is the number of iterations
    left, [attempt - i]. *)
Fixpoint backoff_loop (fuel : nat) (max capDuration : Duration) : Duration :=
  match fuel with
  | O => capDuration
  | S fuel =>
      if capDuration <? max then
        if max ÷ 2 <? capDuration then max
        else backoff_loop fuel max (mul64 capDuration 2)
      else capDuration
  end.

Definition NextBackoff (attempt : Z) (max : Duration) (random : option (Z -> Z)) : Duration :=
  let max := if max <=? 0 then 30 * Second else max in
  let attempt := if attempt <? 0 then 0 else attempt in
  let capDuration := backoff_loop (Z.to_nat attempt) max Second in
  let capDuration := if max <? capDuration then max else capDuration in
  match random with
  | None => capDuration
  | Some random =>
      let value := random (add64 capDuration 1) in
      let value := if value <? 0 then wrap64 (- value) else value in
      Z.rem value (add64 capDuration 1)
  end.

(** ** Idempotency keys *)
Definition is_digit (c : ascii) : bool := (48 <=? byte_of c) && (byte_of c <=? 57).
Definition not_number_char (c : ascii) : bool := negb (is_digit c || bool_decide (c = "-"%char)).

Lemma pretty_N_char_number (x : N) : not_number_char (pretty_N_char x) = false.
Proof. unfold pretty_N_char. by repeat case_match. Qed.

Lemma pretty_N_go_number y s :
  string_existsb not_number_char s = false ->
  string_existsb not_number_char (pretty_N_go y s) = false.
Proof.
  revert s. induction (N.lt_wf_0 y) as [y _ IH]. intros s Hs.
  destruct (decide (0 < y)%N) as [Hy|Hy].
  - rewrite pretty_N_go_step by done. apply IH; [apply N.div_lt; lia|].
    cbn [string_existsb]. by rewrite Hs, pretty_N_char_number.
  - replace y with 0%N by lia. by rewrite pretty_N_go_0.
Qed.

Lemma pretty_N_number (x : N) : string_existsb not_number_char (pretty x) = false.
Proof. unfold pretty, pretty_N. case_decide; [done|]. by apply pretty_N_go_number. Qed.

Lemma pretty_Z_number (z : Z) : string_existsb not_number_char (pretty z) = false.
Proof.
  destruct z; [done|apply pretty_N_number|].
  change (pretty (Z.neg p)) with ("-" +:+ pretty (N.pos p)).
  rewrite string_existsb_app, pretty_N_number. done.
Qed.

Lemma string_existsb_mono f g s :
  (forall c, f c = true -> g c = true) ->
  string_existsb g s = false -> string_existsb f s = false.
Proof.
  intros Hfg. induction s as [|c s IH]; [done|]. cbn.
  rewrite !orb_false_iff. intros [Hc Hs]. split; [|auto].
  destruct (f c) eqn:E; [|done]. apply Hfg in E. congruence.
Qed.

Definition is_colon (c : ascii) : bool := bool_decide (c = ":"%char).

Lemma pretty_Z_no_colon (z : Z) : string_existsb is_colon (pretty z) = false.
Proof.
  apply (string_existsb_mono _ not_number_char); [|apply pretty_Z_number].
  unfold is_colon. by intros c ->%bool_decide_eq_true.
Qed.

Lemma valid_chars_no_colon i s : valid_chars i s = true -> string_existsb is_colon s = false.
Proof.
  revert i. induction s as [|c s IH]; intros i H; [done|].
  cbn in *. apply andb_true_iff in H as [Hc H]. rewrite (IH _ H), orb_false_r.
  unfold is_colon. apply bool_decide_eq_false. intros ->. by case_if_in Hc.
Qed.

Lemma Valid_no_colon id : Valid id = true -> string_existsb is_colon id = false.
Proof. intros [_ H]%andb_true_iff. by eapply valid_chars_no_colon. Qed.

Lemma phase_string_inj p q : phase_string p = phase_string q -> p = q.
Proof. by destruct p, q. Qed.

(** Two intents share an idempotency key exactly when they concern the same
    allocation, revision and phase, so the UNIQUE constraint on the key refuses
    precisely the repetition of an intent. *)
Theorem SyncIdempotencyKey_injective a1 a2 r1 r2 p1 p2 :
  Valid a1 = true -> Valid a2 = true ->
  (SyncIdempotencyKey a1 r1 p1 = SyncIdempotencyKey a2 r2 p2 <-> a1 = a2 /\ r1 = r2 /\ p1 = p2).
Proof.
  intros H1%Valid_no_colon H2%Valid_no_colon. split; [|by intros (-> & -> & ->)].
  intros H. unfold SyncIdempotencyKey in H.
  apply (string_split_at ":") in H as [-> H]; [|done|done].
  apply (string_split_at ":") in H as [Hr%(inj pretty) Hp%phase_string_inj];
    [done|apply pretty_Z_no_colon|apply pretty_Z_no_colon].
Qed.

(** ** Backoff *)

(** The reference: the doubled second, capped. *)
Definition backoff_cap (attempt : Z) (max : Duration) : Duration :=
  Z.min (if max <=? 0 then 30 * Second else max) (2 ^ Z.max 0 attempt * Second).

Lemma backoff_loop_min fuel max cap :
  0 < cap -> max <= MaxInt64 ->
  Z.min max (backoff_loop fuel max cap) = Z.min max (2 ^ Z.of_nat fuel * cap).
Proof.
  rewrite MaxInt64_eq. revert cap. induction fuel as [|fuel IH]; intros cap Hc Hm; [cbn; lia|].
  rewrite Nat2Z.inj_succ, Z.pow_succ_r by lia.
  pose proof (Z.pow_pos_nonneg 2 (Z.of_nat fuel) ltac:(lia) ltac:(lia)) as Hp.
  cbn [backoff_loop]. destruct (Z.ltb_spec cap max) as [Hlt|Hge]; [|nia].
  rewrite Z.quot_div_nonneg by lia.
  destruct (Z.ltb_spec (max / 2) cap) as [Hh|Hh].
  - assert (max < 2 * cap) by (pose proof (Z.div_mod max 2); pose proof (Z.mod_pos_bound max 2); lia).
    nia.
  - pose proof (Z.mul_div_le max 2 ltac:(lia)).
    unfold mul64. rewrite wrap64_id by (unfold in_int64; rewrite MaxInt64_eq, MinInt64_eq; lia).
    rewrite IH by lia. f_equal. lia.
Qed.

Lemma NextBackoff_none attempt max :
  max <= MaxInt64 -> NextBackoff attempt max None = backoff_cap attempt max.
Proof.
  intros Hm. unfold NextBackoff, backoff_cap.
  set (m := if max <=? 0 then _ else _).
  set (a := if attempt <? 0 then _ else _).
  assert (a = Z.max 0 attempt) as -> by (unfold a; destruct (Z.ltb_spec attempt 0); lia).
  pose proof (backoff_loop_min (Z.to_nat (Z.max 0 attempt)) m Second) as H.
  rewrite Z2Nat.id in H by lia. rewrite <- H.
  - destruct (Z.ltb_spec m (backoff_loop (Z.to_nat (Z.max 0 attempt)) m Second)); lia.
  - done.
  - unfold m. case_if; [done|lia].
Qed.

Lemma backoff_cap_bounds attempt max : max <= MaxInt64 -> 0 < backoff_cap attempt max <= MaxInt64.
Proof.
  intros Hm. unfold backoff_cap.
  pose proof (Z.pow_pos_nonneg 2 (Z.max 0 attempt) ltac:(lia) ltac:(lia)).
  assert (0 < Second) by done. destruct (Z.leb_spec max 0); [|lia].
  split; [lia|]. etransitivity; [apply Z.le_min_l|]. by vm_compute.
Qed.

(** The retry delay. Without a random source it is exactly
    min(max, 2^attempt seconds); with one, whatever 64-bit value but the least
    the source returns, it lies between zero and that cap: no attempt number
    overflows into a negative or an over-long delay. *)
Theorem NextBackoff_capped attempt max random :
  max < MaxInt64 -> (forall n, MinInt64 < random n <= MaxInt64) ->
  NextBackoff attempt max None = backoff_cap attempt max /\
  0 <= NextBackoff attempt max (Some random) <= backoff_cap attempt max.
Proof.
  intros Hm Hr. pose proof (NextBackoff_none attempt max ltac:(lia)) as Hnone.
  split; [done|]. pose proof (backoff_cap_bounds attempt max ltac:(lia)) as Hb.
  revert Hnone. unfold NextBackoff. set (m := if max <=? 0 then _ else _).
  set (cap := if m <? _ then _ else _). intros Hcap.
  assert (cap < MaxInt64) as Hlt.
  { rewrite Hcap. unfold backoff_cap. destruct (Z.leb_spec max 0); [|lia].
    eapply Z.le_lt_trans; [apply Z.le_min_l|]. by vm_compute. }
  rewrite MaxInt64_eq in *.
  unfold add64. rewrite wrap64_id by (unfold in_int64; rewrite MaxInt64_eq, MinInt64_eq; lia).
  pose proof (Hr (cap + 1)) as Hv. rewrite MinInt64_eq in Hv.
  set (v := random (cap + 1)) in *. rewrite <- Hcap in *.
  assert (0 <= (if v <? 0 then wrap64 (- v) else v)) as Hv0.
  { destruct (Z.ltb_spec v 0); [|lia].
    rewrite wrap64_id by (unfold in_int64; rewrite MaxInt64_eq, MinInt64_eq; lia). lia. }
  pose proof (Z.rem_bound_pos (if v <? 0 then wrap64 (- v) else v) (cap + 1)). lia.
Qed.

Lemma Supersede_true o current now :
  (Supersede o current now).2 = true <->
  op_DesiredRevision o < current /\ op_State o <> SyncSucceeded /\ op_State o <> SyncSuperseded.
Proof.
  unfold Supersede. case_if; cbn.
  - split; [done|]. intros (H1 & H2 & H3). apply orb_true_iff in Eif as [[?|?]%orb_true_iff|?]; to_prop; [lia|done|done].
  - to_prop. split; [|done]. intros _. done.
Qed.

Lemma SyncIdempotencyKey_injective_witness :
  SyncIdempotencyKey "c8c9cacb-cccd-4ecf-90d1-d2d3d4d5d6d7" 1 SyncAddDesired <>
  SyncIdempotencyKey "c8c9cacb-cccd-4ecf-90d1-d2d3d4d5d6d7" 11 SyncAddDesired.
Proof.
  intros H. apply (SyncIdempotencyKey_injective "c8c9cacb-cccd-4ecf-90d1-d2d3d4d5d6d7"
    "c8c9cacb-cccd-4ecf-90d1-d2d3d4d5d6d7" 1 11 SyncAddDesired SyncAddDesired) in H as (_ & H & _);
    [discriminate|reflexivity|reflexivity].
Defined.

Lemma NextBackoff_capped_witness :
  NextBackoff 40 (60 * Second) None = 60 * Second /\
  0 <= NextBackoff 40 (60 * Second) (Some (fun n => Z.max (-5) (Z.min 5 n))) <= 60 * Second.
Proof.
  apply (NextBackoff_capped 40 (60 * Second) (fun n => Z.max (-5) (Z.min 5 n))).
  - reflexivity.
  - intros n. rewrite MaxInt64_eq, MinInt64_eq. lia.
Defined.
