(* ===== verification/Quota.v ===== *)
(** * Quota policies and transitions: internal/domain/quota.go

    The calendar functions of the same file are in [Cycle]. *)

From Stdlib Require Import ZArith Lia.
From S2P Require Import Prelude GoTypes Identity Inbound Sync.

Definition MaxLimitBytes : Z := Z.shiftl 1 62.

Definition ValidateQuotaPolicy (limit : option Z) (resetDay : Z) : Res unit :=
  if (resetDay <? 1) || (28 <? resetDay) then
    Err (ValidationError "reset_day" "reset day must be between 1 and 28")
  else match limit with
       | Some limit =>
           if (limit <=? 0) || (MaxLimitBytes <? limit) then
             Err (ValidationError "limit_bytes" "quota must be positive and at most 2^62 bytes")
           else Ok tt
       | None => Ok tt
       end.

(** [(sum, overflow)] *)
Definition addBytes (a b : Z) : Z * bool :=
  if (a <? 0) || (b <? 0) then (0, true)
  else if wrap64 (MaxInt64 - b) <? a then (0, true)
  else (add64 a b, false).

Definition IsQuotaExceeded (limit : option Z) (accountedUplink accountedDownlink : Z) : bool :=
  match limit with
  | None => false
  | Some limit =>
      let '(total, overflow) := addBytes accountedUplink accountedDownlink in
      if overflow then true else limit <=? total
  end.

Record AllocationFacts := mkFacts {
  f_Lifecycle : LifecycleState;
  f_AdminEnabled : bool;
  f_QuotaState : QuotaState;
  f_DesiredRevision : Revision;
  f_DesiredCredentialVersion : Z }.
#[global] Instance eta_AllocationFacts : Eta AllocationFacts := fun r =>
  mkFacts (f_Lifecycle r) (f_AdminEnabled r) (f_QuotaState r) (f_DesiredRevision r)
    (f_DesiredCredentialVersion r).

(** The reason and the phase are empty strings when nothing is to be done:
    [None] here. *)
Record TransitionDecision := mkDecision {
  d_QuotaState : QuotaState;
  d_WasPresent : bool;
  d_WillBePresent : bool;
  d_Reason : option SyncReason;
  d_Phase : option SyncPhase }.

Definition NeedsOperation (d : TransitionDecision) : bool :=
  bool_decide (d_WasPresent d <> d_WillBePresent d).

Definition DecideTransition (before : AllocationFacts) (adminEnabled exceeded : bool) : TransitionDecision :=
  let quota := if exceeded then QuotaExceeded else QuotaWithinLimit in
  let active := bool_decide (f_Lifecycle before = LifecycleActive) in
  let was := active && f_AdminEnabled before && bool_decide (f_QuotaState before = QuotaWithinLimit) in
  let will := active && adminEnabled && bool_decide (quota = QuotaWithinLimit) in
  if was && negb will then
    mkDecision quota was will
      (Some (if exceeded && bool_decide (f_QuotaState before = QuotaWithinLimit) && adminEnabled
             then SyncQuotaBlock else SyncDisable))
      (Some (InboundPhaseFor false))
  else if negb was && will then
    mkDecision quota was will
      (Some (if bool_decide (f_QuotaState before = QuotaExceeded) && negb exceeded &&
                f_AdminEnabled before && adminEnabled
             then SyncQuotaRestore else SyncEnable))
      (Some (InboundPhaseFor true))
  else mkDecision quota was will None None.

(** ** Arithmetic *)
Lemma addBytes_ok a b :
  0 <= a <= MaxInt64 -> 0 <= b <= MaxInt64 -> a + b <= MaxInt64 -> addBytes a b = (a + b, false).
Proof.
  rewrite MaxInt64_eq. intros Ha Hb Hab. unfold addBytes, add64.
  rewrite !wrap64_id by (unfold in_int64; rewrite MaxInt64_eq, MinInt64_eq; lia).
  rewrite MaxInt64_eq. repeat case_if; try done.
  - apply orb_true_iff in Eif. rewrite !Z.ltb_lt in Eif. lia.
  - to_prop. lia.
Qed.

Lemma addBytes_sum a b s :
  in_int64 a -> in_int64 b -> addBytes a b = (s, false) -> s = a + b /\ 0 <= a /\ 0 <= b /\ s <= MaxInt64.
Proof.
  unfold in_int64. rewrite MaxInt64_eq, MinInt64_eq. intros Ha Hb. unfold addBytes, add64.
  repeat case_if; try done. to_prop. intros [= <-].
  rewrite wrap64_id in Eif0 by (unfold in_int64; rewrite MaxInt64_eq, MinInt64_eq; lia).
  rewrite MaxInt64_eq in Eif0.
  rewrite wrap64_id by (unfold in_int64; rewrite MaxInt64_eq, MinInt64_eq; lia). lia.
Qed.

Lemma addBytes_overflow a b :
  0 <= a <= MaxInt64 -> 0 <= b <= MaxInt64 -> MaxInt64 < a + b -> addBytes a b = (0, true).
Proof.
  intros Ha Hb Hab. unfold addBytes. case_if; [done|].
  rewrite MaxInt64_eq in *.
  rewrite wrap64_id by (unfold in_int64; rewrite MaxInt64_eq, MinInt64_eq; lia).
  case_if; [done|]. to_prop. lia.
Qed.

Lemma ValidateQuotaPolicy_ok limit resetDay :
  ValidateQuotaPolicy limit resetDay = Ok tt <->
  1 <= resetDay <= 28 /\ match limit with Some l => 1 <= l <= 2 ^ 62 | None => True end.
Proof.
  unfold ValidateQuotaPolicy. change MaxLimitBytes with (2 ^ 62).
  repeat case_if; to_prop.
  - split; [done|]. apply orb_true_iff in Eif. rewrite !Z.ltb_lt in Eif. lia.
  - destruct limit as [l|]; [|split; [intros _; split; [lia|done]|done]].
    case_if; to_prop.
    + split; [done|]. apply orb_true_iff in Eif. rewrite Z.leb_le, Z.ltb_lt in Eif. lia.
    + split; [lia|done].
Qed.

(** For a policy the panel accepts and any counters it can store, an
    account is over quota exactly when it has a limit and the true sum of the
    two directions reaches it: neither the 64-bit addition nor its overflow
    guard changes the answer. *)
Theorem IsQuotaExceeded_exact limit resetDay up down :
  ValidateQuotaPolicy limit resetDay = Ok tt ->
  0 <= up <= MaxInt64 -> 0 <= down <= MaxInt64 ->
  (IsQuotaExceeded limit up down = true <-> exists l, limit = Some l /\ l <= up + down).
Proof.
  rewrite ValidateQuotaPolicy_ok. intros [_ Hl] Hu Hd. destruct limit as [l|]; [|naive_solver].
  unfold IsQuotaExceeded.
  destruct (Z.le_gt_cases (up + down) MaxInt64) as [Hs|Hs].
  - rewrite addBytes_ok by done. rewrite Z.leb_le. naive_solver.
  - rewrite addBytes_overflow by done. split; [|done]. intros _. exists l.
    rewrite MaxInt64_eq in *. split; [done|lia].
Qed.

Lemma IsQuotaExceeded_exact_witness :
  ValidateQuotaPolicy (Some (2 ^ 62)) 1 = Ok tt /\
  (IsQuotaExceeded (Some (2 ^ 62)) MaxInt64 MaxInt64 = true <->
   exists l, Some (2 ^ 62) = Some l /\ l <= MaxInt64 + MaxInt64).
Proof.
  split; [reflexivity|]. apply (IsQuotaExceeded_exact _ 1); [reflexivity| |];
    rewrite MaxInt64_eq; lia.
Defined.

(** ** Transitions *)

(** The facts a decision leaves behind. *)
Definition facts_after (before : AllocationFacts) (adminEnabled exceeded : bool) : AllocationFacts :=
  before <| f_AdminEnabled := adminEnabled |>
         <| f_QuotaState := d_QuotaState (DecideTransition before adminEnabled exceeded) |>.

Lemma DecideTransition_present before e x :
  d_WillBePresent (DecideTransition before e x) =
  InboundDesiredPresent (f_Lifecycle before) e (if x then QuotaExceeded else QuotaWithinLimit).
Proof. destruct before as [[] [] [] ? ?], e, x; reflexivity. Qed.

Lemma DecideTransition_was before e x :
  d_WasPresent (DecideTransition before e x) =
  InboundDesiredPresent (f_Lifecycle before) (f_AdminEnabled before) (f_QuotaState before).
Proof. destruct before as [[] [] [] ? ?], e, x; reflexivity. Qed.

Lemma DecideTransition_quota before e x :
  d_QuotaState (DecideTransition before e x) = if x then QuotaExceeded else QuotaWithinLimit.
Proof. destruct before as [[] [] [] ? ?], e, x; reflexivity. Qed.

Lemma DecideTransition_phase before e x :
  d_Phase (DecideTransition before e x) =
  if NeedsOperation (DecideTransition before e x)
  then Some (InboundPhaseFor (d_WillBePresent (DecideTransition before e x))) else None.
Proof. destruct before as [[] [] [] ? ?], e, x; reflexivity. Qed.

