(* ===== verification/Traffic.v ===== *)
(** * Traffic deltas: internal/domain/traffic.go

    The rule that turns absolute counters into increments, and a model of the
    counter it reads ([Meter]) against which the increments are shown never to
    exceed the bytes that were really carried. *)

From Stdlib Require Import ZArith Lia.
From S2P Require Import Prelude GoTypes Quota.

Record TrafficDirectionCursor := mkDirCursor { dc_Counter : option Z; dc_Epoch : Z }.
#[global] Instance eta_TrafficDirectionCursor : Eta TrafficDirectionCursor := fun r =>
  mkDirCursor (dc_Counter r) (dc_Epoch r).

(** [Bytes] is a uint64. *)
Record TrafficSample := mkSample { s_Found : bool; s_Bytes : Z }.

Inductive ContinuityType : Set :=
| EventCounterDecrease | EventMissing | EventReappeared | EventBoundaryGap
| EventNodeRestart | EventBaseline | EventOverflow.
#[global] Instance ContinuityType_eq_dec : EqDecision ContinuityType. Proof. solve_decision. Defined.

Record ContinuityEvent := mkContinuity {
  e_Type : ContinuityType;
  e_Direction : string;
  e_OldCounter : option Z;
  e_NewCounter : option Z;
  e_CounterEpoch : Z;
  e_Summary : string }.

Record DeltaResult := mkDelta {
  r_Delta : Z;
  r_Cursor : TrafficDirectionCursor;
  r_Missing : bool;
  r_Events : list ContinuityEvent }.

Definition ApplySample (direction : string) (cursor : TrafficDirectionCursor) (sample : TrafficSample)
    (restartConfirmed wasMissing : bool) : DeltaResult :=
  if negb (s_Found sample) then
    mkDelta 0 cursor true
      (if bool_decide (dc_Counter cursor <> None) && negb wasMissing then
         [mkContinuity EventMissing direction (dc_Counter cursor) None (dc_Epoch cursor)
            "counter temporarily missing"]
       else [])
  else if MaxInt64 <? s_Bytes sample then
    let epoch := add64 (dc_Epoch cursor) 1 in
    mkDelta 0 (cursor <| dc_Epoch := epoch |>) false
      [mkContinuity EventOverflow direction (dc_Counter cursor) None epoch
         "counter exceeded the representable range"]
  else
    let current := s_Bytes sample in
    let moved := cursor <| dc_Counter := Some current |> in
    let reappeared :=
      if wasMissing && bool_decide (dc_Counter cursor <> None) then
        [mkContinuity EventReappeared direction (dc_Counter cursor) (Some current) (dc_Epoch cursor)
           "counter reappeared"]
      else [] in
    let epoch := add64 (dc_Epoch cursor) 1 in
    match dc_Counter cursor with
    | None =>
        mkDelta current moved false
          (reappeared ++ [mkContinuity EventBaseline direction None (Some current) (dc_Epoch cursor)
                            "first sample established the baseline"])
    | Some old =>
        if restartConfirmed then
          mkDelta current (moved <| dc_Epoch := epoch |>) false
            (reappeared ++ [mkContinuity EventNodeRestart direction (Some old) (Some current) epoch
                              "node restarted; counting resumed from the new epoch"])
        else if current <? old then
          mkDelta 0 (moved <| dc_Epoch := epoch |>) false
            (reappeared ++ [mkContinuity EventCounterDecrease direction (Some old) (Some current) epoch
                              "counter decreased without a confirmed restart; new baseline established"])
        else mkDelta (add64 current (- old)) moved false reappeared
    end.

Definition CapabilityGenerationTolerance : Duration := Second.

Definition RestartConfirmed (stored observed : Time) (known : bool) (interval : Duration) : bool :=
  if negb known || IsZero stored then false
  else
    let difference := time_sub observed stored in
    let difference := if difference <? 0 then wrap64 (- difference) else difference in
    interval <? difference.

Definition BoundaryGap (previous current : Time) (interval : Duration) : bool :=
  if IsZero previous || (interval <=? 0) then false
  else mul64 2 interval <? time_sub current previous.

Definition AddDelta (base delta : Z) : Res Z :=
  let '(total, overflow) := addBytes base delta in
  if overflow then Err (PlainError "traffic aggregate overflow") else Ok total.

Lemma AddDelta_ok base delta total :
  in_int64 base -> in_int64 delta -> AddDelta base delta = Ok total ->
  total = base + delta /\ 0 <= base /\ 0 <= delta /\ total <= MaxInt64.
Proof.
  intros Hb Hd. unfold AddDelta. destruct (addBytes base delta) as [s []] eqn:E; [done|].
  intros [= <-]. by apply addBytes_sum.
Qed.

(** ** The counter of a node

    [Meter] pairs the statistics counter of one direction of one user with
    what the panel made of it. [m_truth] counts the bytes really carried and
    [m_restarted] remembers a restart no found sample has followed yet. *)
Record Meter := mkMeter {
  m_counter : Z;
  m_truth : Z;
  m_restarted : bool;
  m_cursor : TrafficDirectionCursor;
  m_accounted : Z }.
#[global] Instance eta_Meter : Eta Meter := fun r =>
  mkMeter (m_counter r) (m_truth r) (m_restarted r) (m_cursor r) (m_accounted r).

Inductive MeterEvent : Type :=
| Carry (bytes : N)
| Restart
| Collect (found restartConfirmed wasMissing : bool).

Definition meter_step (direction : string) (m : Meter) (e : MeterEvent) : Meter :=
  match e with
  | Carry bytes => m <| m_counter := m_counter m + Z.of_N bytes |> <| m_truth := m_truth m + Z.of_N bytes |>
  | Restart => m <| m_counter := 0 |> <| m_restarted := true |>
  | Collect found confirmed missing =>
      let r := ApplySample direction (m_cursor m) (mkSample found (m_counter m)) confirmed missing in
      m <| m_cursor := r_Cursor r |> <| m_accounted := m_accounted m + r_Delta r |>
        <| m_restarted := m_restarted m && negb found |>
  end.
Definition meter_run (direction : string) : Meter -> list MeterEvent -> Meter :=
  foldl (meter_step direction).

Definition new_meter : Meter := mkMeter 0 0 false (mkDirCursor None 0) 0.

(** A restart is only confirmed to a sample when the node restarted since the
    last found one. *)
Fixpoint sound_confirmations (direction : string) (m : Meter) (es : list MeterEvent) : Prop :=
  match es with
  | [] => True
  | e :: es =>
      match e with Collect _ true _ => m_restarted m = true | _ => True end /\
      sound_confirmations direction (meter_step direction m e) es
  end.

(** A trace without restarts. *)
Definition undisturbed (es : list MeterEvent) : bool :=
  forallb (fun e => match e with Restart | Collect _ true _ => false | _ => true end) es.

(** Bytes the counter holds beyond the last sample. *)
Definition unseen (m : Meter) : Z :=
  if m_restarted m then m_counter m
  else match dc_Counter (m_cursor m) with Some c => m_counter m - c | None => m_counter m end.

Definition MeterInv (m : Meter) : Prop :=
  0 <= m_counter m /\ m_accounted m + unseen m <= m_truth m /\
  match dc_Counter (m_cursor m) with
  | Some c => 0 <= c <= MaxInt64 /\ (m_restarted m = false -> c <= m_counter m)
  | None => True
  end.

Lemma sub64 a b : 0 <= b <= a -> a <= MaxInt64 -> add64 a (- b) = a - b.
Proof.
  rewrite MaxInt64_eq. intros. unfold add64.
  rewrite wrap64_id; [lia|]. unfold in_int64. rewrite MaxInt64_eq, MinInt64_eq. lia.
Qed.

Lemma unseen_nonneg m : MeterInv m -> 0 <= unseen m.
Proof.
  intros (Hc & _ & Hd). unfold unseen. destruct (m_restarted m); [done|].
  destruct (dc_Counter _); [|done]. destruct Hd as [_ Hd]. specialize (Hd eq_refl). lia.
Qed.

Ltac meter_arith := repeat (intros || split); destruct_and?; simplify_eq; try done; try lia; auto with lia.

(** A found sample adds at most the unseen bytes. *)
Lemma MeterInv_step direction m e :
  match e with Collect _ true _ => m_restarted m = true | _ => True end ->
  MeterInv m -> MeterInv (meter_step direction m e).
Proof.
  destruct m as [counter truth restarted [old epoch] accounted].
  unfold MeterInv, unseen. cbn. intros Hs (Hc & Ha & Hd).
  destruct e as [n| |found confirmed missing]; cbn.
  - destruct restarted, old; split_and!; try lia; meter_arith.
  - destruct old, restarted; split_and!; meter_arith.
  - unfold ApplySample. cbn. destruct found; cbn.
    2: { rewrite andb_true_r, Z.add_0_r. done. }
    rewrite andb_false_r.
    destruct (Z.ltb_spec MaxInt64 counter); cbn.
    { destruct old; destruct restarted; split_and!; meter_arith. }
    destruct old as [old|]; cbn; [|destruct restarted; split_and!; meter_arith].
    destruct confirmed; cbn; [subst restarted; split_and!; meter_arith|].
    destruct (Z.ltb_spec counter old); cbn.
    + destruct restarted; split_and!; meter_arith.
    + rewrite sub64 by lia. destruct restarted; split_and!; meter_arith.
Qed.

Lemma MeterInv_run direction m es :
  sound_confirmations direction m es -> MeterInv m -> MeterInv (meter_run direction m es).
Proof.
  revert m. induction es as [|e es IH]; intros m Hs Hm; [done|].
  destruct Hs as [He Hs]. apply IH; [done|]. by apply MeterInv_step.
Qed.

(** Without restarts and overflow the cursor and the account move together. *)
Definition Exact (m : Meter) : Prop :=
  m_counter m = m_truth m /\ m_accounted m = default 0 (dc_Counter (m_cursor m)) /\
  0 <= m_accounted m <= m_truth m.

Lemma truth_mono direction m es : m_truth m <= m_truth (meter_run direction m es).
Proof.
  revert m. induction es as [|e es IH]; intros m; [done|].
  etransitivity; [|apply IH]. destruct e; cbn; lia.
Qed.

Lemma Exact_step direction m e :
  undisturbed [e] = true -> m_truth m <= MaxInt64 -> Exact m -> Exact (meter_step direction m e).
Proof.
  destruct m as [counter truth restarted [old epoch] accounted].
  unfold Exact. cbn. intros Hu Ht (-> & -> & Ha).
  destruct e as [n| |found [] missing]; cbn in *; try done; [lia|].
  unfold ApplySample. cbn. destruct found; cbn; [|lia].
  destruct (Z.ltb_spec MaxInt64 truth); [lia|]. destruct old as [old|]; cbn in *; [|lia].
  destruct (Z.ltb_spec truth old); cbn; [lia|]. rewrite sub64; lia.
Qed.

Lemma Exact_run direction m es :
  undisturbed es = true -> m_truth (meter_run direction m es) <= MaxInt64 ->
  Exact m -> Exact (meter_run direction m es).
Proof.
  revert m. induction es as [|e es IH]; intros m Hu Ht Hm; [done|].
  apply andb_true_iff in Hu as [He Hu]. apply IH; [done|done|].
  apply Exact_step; [by cbn; rewrite He| |done].
  etransitivity; [|exact Ht]. etransitivity; [|apply truth_mono].
  destruct e; cbn; lia.
Qed.

(** C24: whatever the order of traffic, restarts, lost samples and collections,
    the increments accounted for a direction never exceed the bytes really
    carried, provided restarts are only confirmed when they happened. *)
Theorem ApplySample_never_overcounts direction es :
  sound_confirmations direction new_meter es ->
  m_accounted (meter_run direction new_meter es) <= m_truth (meter_run direction new_meter es).
Proof.
  intros Hs. assert (MeterInv (meter_run direction new_meter es)) as Hi.
  { apply MeterInv_run; [done|]. unfold MeterInv, unseen. cbn. lia. }
  pose proof (unseen_nonneg _ Hi). destruct Hi as (_ & Hi & _). lia.
Qed.

(** While the node does not restart and its counter is representable, the
    increments are exact: after any found sample everything carried so far is
    accounted, however many samples were missing before it. *)
Theorem ApplySample_exact direction es missing :
  undisturbed es = true ->
  m_truth (meter_run direction new_meter es) <= MaxInt64 ->
  m_accounted (meter_run direction new_meter (es ++ [Collect true false missing])) =
  m_truth (meter_run direction new_meter es).
Proof.
  intros Hu Ht. assert (Exact (meter_run direction new_meter es)) as (Hc & Ha & Hb).
  { apply Exact_run; done. }
  unfold meter_run in *. rewrite foldl_app. cbn.
  set (m := foldl _ _ _) in *. clearbody m.
  destruct m as [counter truth restarted [old epoch] accounted]. cbn in *. subst.
  unfold ApplySample. cbn. destruct (Z.ltb_spec MaxInt64 truth); [lia|].
  destruct old as [old|]; cbn in *; [|lia].
  destruct (Z.ltb_spec truth old); cbn; [lia|]. rewrite sub64; lia.
Qed.

Definition sample_trace : list MeterEvent :=
  [Carry 10; Collect true false false; Carry 7; Restart; Carry 5; Collect false false false;
   Collect true true true; Carry 3; Collect true false false].

Lemma ApplySample_never_overcounts_witness :
  m_accounted (meter_run "uplink" new_meter sample_trace) = 18 /\
  m_accounted (meter_run "uplink" new_meter sample_trace) <=
    m_truth (meter_run "uplink" new_meter sample_trace).
Proof.
  split; [reflexivity|]. apply ApplySample_never_overcounts. vm_compute. intuition.
Defined.

Lemma ApplySample_exact_witness :
  m_accounted (meter_run "uplink" new_meter
    ([Carry 10; Collect true false false; Carry 4; Collect false false false; Carry 1]
     ++ [Collect true false true])) = 15.
Proof.
  apply (ApplySample_exact "uplink"
    [Carry 10; Collect true false false; Carry 4; Collect false false false; Carry 1] true).
  - reflexivity.
  - vm_compute. discriminate.
Defined.
