(* ===== verification/Template.v ===== *)
(** * Inbound templates: internal/domain/template.go

    With [net.ParseIP], which decides what a listen address is. Compatibility
    states and networks are the strings of the source. *)

From Stdlib Require Import ZArith Lia Ascii.
From S2P Require Import Prelude GoTypes Identity Ports Text Inbound Tokens.

Abbreviation CompatibilityState := string.
Definition CompatibilityUnverified : CompatibilityState := "unverified".
Definition CompatibilityCompatible : CompatibilityState := "compatible".
Definition CompatibilityIncompatible : CompatibilityState := "incompatible".
Definition CompatibilityUnreachable : CompatibilityState := "unreachable".

Abbreviation Network := string.
Definition NetworkTCP : Network := "tcp".
Definition NetworkUDP : Network := "udp".
Definition NetworkTCPUDP : Network := "tcp_udp".

(** ** IP literals *)
Definition is_decimal (c : ascii) : bool := between 48 (byte_of c) 57.
Definition is_hex_digit (c : ascii) : bool :=
  is_decimal c || between 97 (byte_of c) 102 || between 65 (byte_of c) 70.

Fixpoint decimal_value (acc : Z) (s : string) : Z :=
  match s with
  | EmptyString => acc
  | String c s => decimal_value (acc * 10 + (byte_of c - 48)) s
  end.

(** One field of a dotted quad: digits only, no leading zero, at most 255. *)
Definition is_octet (s : string) : bool :=
  bool_decide (s <> "") && negb (string_existsb (fun c => negb (is_decimal c)) s) &&
  (bool_decide (String.length s = 1%nat) || negb (HasPrefix s "0")) && (decimal_value 0 s <=? 255).

Definition parseIPv4 (s : string) : option (list Z) :=
  let fields := Split s "." in
  if bool_decide (length fields = 4%nat) && forallb is_octet fields then Some (decimal_value 0 <$> fields) else None.

(** The hexadecimal digits a string starts with, and the rest. *)
Fixpoint span_hex (s : string) : string * string :=
  match s with
  | String c s' => if is_hex_digit c then let '(d, r) := span_hex s' in (String c d, r) else ("", s)
  | EmptyString => ("", "")
  end.

Definition hex_digit_value (c : ascii) : Z :=
  let b := byte_of c in if b <=? 57 then b - 48 else if b <=? 70 then b - 55 else b - 87.
Fixpoint hex_number (acc : Z) (s : string) : Z :=
  match s with EmptyString => acc | String c s => hex_number (acc * 16 + hex_digit_value c) s end.

(** The zeros that "::" stands for, at its position. *)
Definition expand_ipv6 (ellipsis : option nat) (ip : list Z) (s : string) : option (list Z) :=
  if negb (bool_decide (s = "")) then None
  else
    match ellipsis with
    | Some e => if bool_decide (length ip < 16)%nat then Some (take e ip ++ repeat 0 (16 - length ip) ++ drop e ip) else None
    | None => if bool_decide (length ip < 16)%nat then None else Some ip
    end.

(** The group loop of [netip.parseIPv6]: [ip] holds the bytes so far,
    [ellipsis] where "::" was seen; a group takes at least two bytes, so eight
    iterations are enough. *)
Fixpoint ipv6_groups (fuel : nat) (ip : list Z) (ellipsis : option nat) (s : string) : option (list Z) :=
  match fuel with
  | O => expand_ipv6 ellipsis ip s
  | S fuel =>
      if bool_decide (16 <= length ip)%nat then expand_ipv6 ellipsis ip s
      else
        let '(digits, rest) := span_hex s in
        if bool_decide (digits = "") || bool_decide (4 < String.length digits)%nat then None
        else
          let value := hex_number 0 digits in
          let ip' := ip ++ [value / 256; value mod 256] in
          match rest with
          | String "." _ =>
              if negb (bool_decide (is_Some ellipsis)) && negb (bool_decide (length ip = 12%nat)) then None
              else if bool_decide (16 < length ip + 4)%nat then None
              else bytes ← parseIPv4 s; expand_ipv6 ellipsis (ip ++ bytes) ""
          | EmptyString => expand_ipv6 ellipsis ip' ""
          | String ":" EmptyString => None
          | String ":" (String ":" rest) =>
              match ellipsis with
              | Some _ => None
              | None => match rest with
                        | EmptyString => expand_ipv6 (Some (length ip')) ip' ""
                        | _ => ipv6_groups fuel ip' (Some (length ip')) rest
                        end
              end
          | String ":" rest => ipv6_groups fuel ip' ellipsis rest
          | String _ _ => None
          end
  end.

Definition parseIPv6 (s : string) : option (list Z) :=
  match s with
  | String ":" (String ":" EmptyString) => Some (repeat 0 16)
  | String ":" (String ":" rest) => ipv6_groups 9 [] (Some 0%nat) rest
  | _ => ipv6_groups 9 [] None s
  end.

(** The first of the characters that decide the family; a zone is refused. *)
Fixpoint ip_family (s : string) : option ascii :=
  match s with
  | EmptyString => None
  | String c s => if bool_decide (c = "."%char \/ c = ":"%char \/ c = "%"%char) then Some c else ip_family s
  end.

(** [net.ParseIP]: sixteen bytes, an IPv4 address mapped into IPv6. *)
Definition parse_ip (s : string) : option (list Z) :=
  match ip_family s with
  | Some "."%char => ip ← parseIPv4 s; Some (repeat 0 10 ++ [255; 255] ++ ip)
  | Some ":"%char => if string_existsb (fun c => bool_decide (c = "%"%char)) s then None else parseIPv6 s
  | _ => None
  end.
Definition ParseIP (s : string) : bool := match parse_ip s with Some _ => true | None => false end.

(** [IP.To4], [IP.IsLoopback], [IP.IsUnspecified] of sixteen bytes. *)
Definition To4 (ip : list Z) : option (list Z) :=
  if bool_decide (take 12 ip = repeat 0 10 ++ [255; 255]) then Some (drop 12 ip) else None.
Definition IsLoopback (ip : list Z) : bool :=
  match To4 ip with
  | Some ip4 => bool_decide (head ip4 = Some 127)
  | None => bool_decide (ip = repeat 0 15 ++ [1])
  end.
Definition IsUnspecified (ip : list Z) : bool :=
  bool_decide (To4 ip = Some (repeat 0 4)) || bool_decide (ip = repeat 0 16).

Definition in_set (cutset : string) (c : ascii) : bool := string_existsb (fun d => bool_decide (d = c)) cutset.
Fixpoint string_rev_append (s acc : string) : string :=
  match s with EmptyString => acc | String c s => string_rev_append s (String c acc) end.
Fixpoint TrimLeft (s cutset : string) : string :=
  match s with
  | EmptyString => EmptyString
  | String c s' => if in_set cutset c then TrimLeft s' cutset else s
  end.
(** [strings.Trim] for an ASCII cutset *)
Definition Trim (s cutset : string) : string :=
  string_rev_append (TrimLeft (string_rev_append (TrimLeft s cutset) "") cutset) "".
(** [strings.ContainsAny] for ASCII characters *)
Definition ContainsAny (s chars : string) : bool := string_existsb (in_set chars) s.

(** ** Templates *)
Record InboundTemplate := mkTemplate {
  t_ID : ID;
  t_InstanceID : ID;
  t_Name : string;
  t_NormalizedName : string;
  t_PublicHost : string;
  t_ListenAddress : string;
  t_Pool : PortPool;
  t_Method : string;
  t_Network : Network;
  t_Compatibility : CompatibilityState;
  t_CompatibilityReason : string;
  t_LastValidatedAt : option Time;
  t_ValidatedGeneration : Z;
  t_Revision : Revision;
  t_ArchivedAt : option Time;
  t_CreatedAt : Time;
  t_UpdatedAt : Time }.
#[global] Instance eta_InboundTemplate : Eta InboundTemplate := fun r =>
  mkTemplate (t_ID r) (t_InstanceID r) (t_Name r) (t_NormalizedName r) (t_PublicHost r)
    (t_ListenAddress r) (t_Pool r) (t_Method r) (t_Network r) (t_Compatibility r)
    (t_CompatibilityReason r) (t_LastValidatedAt r) (t_ValidatedGeneration r) (t_Revision r)
    (t_ArchivedAt r) (t_CreatedAt r) (t_UpdatedAt r).

Definition NewInboundTemplate `{Unicode} (id instanceID : ID) (name publicHost listenAddress : string)
    (poolStart poolEnd : Z) (method : string) (network : Network) (now : Time) : Res InboundTemplate :=
  match NormalizeDisplayName name with
  | Err err => Err (ValidationError "name" (error_text err))
  | Ok normalized =>
      if bool_decide (TrimSpace publicHost = "") then
        Err (ValidationError "public_host" "public host is required")
      else if negb (ParseIP (Trim publicHost "[]")) && ContainsAny publicHost " /?#" then
        Err (ValidationError "public_host" "public host is invalid")
      else
        let listen := TrimSpace listenAddress in
        if negb (ParseIP listen) then
          Err (ValidationError "listen_address" "listen address must be an IP literal")
        else
          pool ← NewPortPool poolStart poolEnd;
          if bool_decide (method <> MethodAES128) && bool_decide (method <> MethodAES256) then
            Err (ValidationError "method" "unsupported Shadowsocks 2022 method")
          else if bool_decide (network <> NetworkTCP) && bool_decide (network <> NetworkUDP) &&
                  bool_decide (network <> NetworkTCPUDP) then
            Err (ValidationError "network" "network must be tcp, udp, or tcp_udp")
          else Ok (mkTemplate id instanceID (TrimSpace name) normalized (TrimSpace publicHost) listen
                     pool method network CompatibilityUnverified "" None 0 0 None now now)
  end.

Definition ApplyCompatibility (p : InboundTemplate) (state : CompatibilityState) (reason : string)
    (now : Time) : Res InboundTemplate :=
  if bool_decide (state <> CompatibilityCompatible) && bool_decide (state <> CompatibilityIncompatible) &&
     bool_decide (state <> CompatibilityUnreachable) && bool_decide (state <> CompatibilityUnverified) then
    Err (InvalidStateError "unknown profile compatibility state")
  else Ok (p <| t_Compatibility := state |> <| t_CompatibilityReason := reason |>
             <| t_LastValidatedAt := Some now |> <| t_UpdatedAt := now |>).

Inductive IdentityKind : Set := IdentityManaged.
#[global] Instance IdentityKind_eq_dec : EqDecision IdentityKind. Proof. solve_decision. Defined.

Record XrayUserIdentity := mkIdentity {
  i_ID : ID;
  i_InstanceID : ID;
  i_TemplateID : ID;
  i_StatisticsID : string;
  i_Kind : IdentityKind;
  i_CreatedAt : Time }.
#[global] Instance eta_XrayUserIdentity : Eta XrayUserIdentity := fun r =>
  mkIdentity (i_ID r) (i_InstanceID r) (i_TemplateID r) (i_StatisticsID r) (i_Kind r) (i_CreatedAt r).

(** ** Facts *)

Example ParseIP_examples :
  map ParseIP ["127.0.0.1"; "0.0.0.0"; "::"; "::1"; "2001:db8::8:800:200c:417a"; "::ffff:1.2.3.4";
               "1:2:3:4:5:6:7:8"; "1:2:3:4:5:6:1.2.3.4"]
    = repeat true 8 /\
  map ParseIP [""; "localhost"; "1.2.3"; "1.2.3.04"; "256.1.1.1"; ":::"; "1::2::3"; "fe80::1%eth0";
               "1:2:3:4:5:6:7:8:9"; "::12345"; "1:2:3:4:5:6:7"; "1:"; "1:2:3:4:5:6:7::8"]
    = repeat false 12 ++ [false].
Proof. split; reflexivity. Qed.
Example parse_ip_examples :
  parse_ip "1.2.3.4" = Some (repeat 0 10 ++ [255; 255; 1; 2; 3; 4]) /\ parse_ip "::ffff:1.2.3.4" = parse_ip "1.2.3.4" /\
  parse_ip "2001:DB8::1" = Some ([32; 1; 13; 184] ++ repeat 0 11 ++ [1]) /\
  (IsLoopback <$> parse_ip "127.8.0.1") = Some true /\ (IsLoopback <$> parse_ip "::1") = Some true /\
  (IsLoopback <$> parse_ip "10.0.0.1") = Some false /\ (IsUnspecified <$> parse_ip "::") = Some true /\
  (IsUnspecified <$> parse_ip "0.0.0.0") = Some true /\ (IsUnspecified <$> parse_ip "::1") = Some false.
Proof. by vm_compute. Qed.

(** A template the constructor accepts: its method has a key length, its pool
    holds assignable ports only, its listen address is an IP literal, and it
    waits for the capability gate. *)
Lemma NewInboundTemplate_ok `{Unicode} id inst name host listen ps pe method network now t :
  NewInboundTemplate id inst name host listen ps pe method network now = Ok t ->
  t_Compatibility t = CompatibilityUnverified /\ t_ValidatedGeneration t = 0 /\ t_Revision t = 0 /\
  ParseIP (t_ListenAddress t) = true /\ NewPortPool ps pe = Ok (t_Pool t) /\
  is_ok (methodKeyLength (t_Method t)) = true /\ t_Method t = method /\ t_ArchivedAt t = None.
Proof.
  unfold NewInboundTemplate. destruct (NormalizeDisplayName name) as [n|]; [|done].
  do 3 (case_if; [done|]). intros Hb. inv_ok Hb. revert Hb.
  case_if; [done|]. case_if; [done|]. intros [= <-]. cbn.
  apply negb_false_iff in Eif1. split_and!; try done.
  apply andb_false_iff in Eif2. unfold methodKeyLength.
  destruct Eif2 as [Hm|Hm]; apply bool_decide_eq_false, dec_stable in Hm; subst; done.
Qed.
