(* ===== verification/Net.v ===== *)
(** * Addresses and decimal numbers: the functions of net and strconv that the panel uses *)

From Stdlib Require Import ZArith Lia Ascii.
From S2P Require Import Prelude GoTypes Text Template.

Definition has_char (c : ascii) (s : string) : bool := string_existsb (fun d => bool_decide (d = c)) s.

(** [strings.Cut] at a character. *)
Fixpoint cut_at (c : ascii) (s : string) : option (string * string) :=
  match s with
  | EmptyString => None
  | String d s => if bool_decide (d = c) then Some ("", s) else '(l, r) ← cut_at c s; Some (String d l, r)
  end.

(** [strings.LastIndexByte] *)
Fixpoint cut_last (c : ascii) (s : string) : option (string * string) :=
  match s with
  | EmptyString => None
  | String d s' =>
      match cut_last c s' with
      | Some (l, r) => Some (String d l, r)
      | None => if bool_decide (d = c) then Some ("", s') else None
      end
  end.

Definition JoinHostPort (host port : string) : string :=
  if has_char ":" host then "[" +:+ host +:+ "]:" +:+ port else host +:+ ":" +:+ port.

(** [net.SplitHostPort]: the port follows the last colon; a host with a colon
    stands in brackets, and there are no other brackets. *)
Definition SplitHostPort (hostport : string) : option (string * string) :=
  match cut_last ":" hostport with
  | None => None
  | Some (before, port) =>
      match hostport with
      | String "["%char rest =>
          match cut_at "]" rest with
          | Some (host, after) =>
              if bool_decide (after = String ":" port) && negb (has_char "[" rest) && negb (has_char "]" after)
              then Some (host, port) else None
          | None => None
          end
      | _ =>
          if has_char ":" before || has_char "[" hostport || has_char "]" hostport then None else Some (before, port)
      end
  end.

(** ** Facts *)
Lemma cut_at_app c l r : has_char c l = false -> cut_at c (l +:+ String c r) = Some (l, r).
Proof.
  induction l as [|d l IH]; intros H.
  { change (cut_at c (String c r) = Some ("", r)). cbn. by rewrite bool_decide_eq_true_2. }
  rewrite string_app_cons. cbn [cut_at]. cbn in H. apply orb_false_iff in H as [Hd Hl]. rewrite Hd, IH by done. done.
Qed.
Lemma has_char_app c s t : has_char c (s +:+ t) = has_char c s || has_char c t.
Proof. apply string_existsb_app. Qed.
Lemma cut_last_app c l r : has_char c r = false -> cut_last c (l +:+ String c r) = Some (l, r).
Proof.
  intros Hr. induction l as [|d l IH].
  - change (cut_last c (String c r) = Some ("", r)). cbn [cut_last].
    assert (cut_last c r = None) as ->; [|by rewrite bool_decide_eq_true_2].
    clear -Hr. induction r as [|d r IH]; [done|]. cbn in Hr |- *. apply orb_false_iff in Hr as [Hd Hr].
    by rewrite IH, Hd.
  - rewrite string_app_cons. cbn [cut_last]. by rewrite IH.
Qed.

(** What [JoinHostPort] writes is read back. *)
Lemma SplitHostPort_JoinHostPort host port : has_char "[" host = false -> has_char "]" host = false ->
  has_char ":" port = false -> has_char "[" port = false -> has_char "]" port = false ->
  SplitHostPort (JoinHostPort host port) = Some (host, port).
Proof.
  intros H1 H2 H3 H4 H5. unfold JoinHostPort. destruct (has_char ":" host) eqn:Hc.
  - assert ("[" +:+ host +:+ "]:" +:+ port = String "[" (host +:+ String "]" (String ":" port))) as E by done.
    assert (("[" +:+ host +:+ "]") +:+ String ":" port = "[" +:+ host +:+ "]:" +:+ port) as E2 by (by rewrite <- !string_app_assoc).
    unfold SplitHostPort. rewrite <- E2 at 1. rewrite cut_last_app by done. rewrite E, cut_at_app by done.
    rewrite bool_decide_eq_true_2 by done. rewrite !has_char_app, H1. cbn. fold (has_char "[" port) (has_char "]" port). by rewrite H4, H5.
  - change (host +:+ ":" +:+ port) with (host +:+ String ":" port). unfold SplitHostPort. rewrite cut_last_app by done.
    rewrite Hc, !has_char_app, H1, H2. cbn. fold (has_char "[" port) (has_char "]" port). rewrite H4, H5.
    destruct host as [|c host]; [done|]. cbn in H1. apply orb_false_iff in H1 as [H1 _]. apply bool_decide_eq_false in H1.
    destruct c as [[] [] [] [] [] [] [] []]; done.
Qed.

Example SplitHostPort_examples :
  SplitHostPort "127.0.0.1:10085" = Some ("127.0.0.1", "10085") /\ SplitHostPort "[::1]:80" = Some ("::1", "80") /\
  SplitHostPort ":8080" = Some ("", "8080") /\ SplitHostPort "host:" = Some ("host", "") /\
  SplitHostPort "host" = None /\ SplitHostPort "::1:80" = None /\ SplitHostPort "[::1]" = None /\
  SplitHostPort "[::1]80:90" = None /\ SplitHostPort "[a]b:1" = None /\ SplitHostPort "a]:1" = None.
Proof. by vm_compute. Qed.

(** ** Decimal numbers *)
(** Decimal text is read back. *)
Lemma decimal_value_go (x : N) s : decimal_value 0 (pretty_N_go x s) = decimal_value (Z.of_N x) s.
Proof.
  revert s. induction (N.lt_wf_0 x) as [x _ IH]; intros s. destruct (decide (0 < x)%N) as [Hx|Hx].
  - rewrite pretty_N_go_step by done. rewrite IH by (apply N.div_lt; lia). cbn [decimal_value]. f_equal.
    assert (byte_of (pretty_N_char (x mod 10)) - 48 = Z.of_N (x mod 10)) as ->.
    { assert (x mod 10 < 10)%N as Hm by (by apply N.mod_lt). revert Hm. generalize (x mod 10)%N. intros d Hd.
      assert (d = 0 \/ d = 1 \/ d = 2 \/ d = 3 \/ d = 4 \/ d = 5 \/ d = 6 \/ d = 7 \/ d = 8 \/ d = 9)%N as H by lia.
      by repeat (destruct H as [->|H]; [done|]); subst. }
    rewrite N2Z.inj_div, N2Z.inj_mod. pose proof (Z.div_mod (Z.of_N x) 10 ltac:(lia)). lia.
  - replace x with 0%N by lia. by rewrite pretty_N_go_0.
Qed.
Lemma decimal_value_pretty z : 0 < z -> decimal_value 0 (pretty z) = z.
Proof.
  destruct z as [|p|p]; [lia| |lia]. intros _. change (pretty (Z.pos p)) with (pretty (N.pos p)).
  unfold pretty, pretty_N. rewrite decide_False by done. by rewrite decimal_value_go.
Qed.
Lemma decimal_value_N (x : N) : decimal_value 0 (pretty x) = Z.of_N x.
Proof. unfold pretty, pretty_N. case_decide; [by subst|]. by rewrite decimal_value_go. Qed.

Definition no_decimal (c : ascii) : bool := negb (is_decimal c).
(** The number a text writes, of any size. *)
Definition signed_decimal (s : string) : option Z :=
  let '(negative, digits) := match s with
                             | String "-" r => (true, r)
                             | String "+" r => (false, r)
                             | _ => (false, s)
                             end in
  if bool_decide (digits = "") || string_existsb no_decimal digits then None
  else let v := decimal_value 0 digits in Some (if (negative : bool) then - v else v).
(** [strconv.ParseInt(s, 10, 64)] and [strconv.Atoi] on a 64-bit machine *)
Definition ParseInt (s : string) : option Z :=
  v ← signed_decimal s; if bool_decide (in_int64 v) then Some v else None.
(** [strconv.Atoi] with its error ignored: 0 for a syntax error, the nearest
    bound for a number out of range. *)
Definition Atoi (s : string) : Z :=
  match signed_decimal s with Some v => Z.max MinInt64 (Z.min MaxInt64 v) | None => 0 end.

Lemma pretty_N_go_decimal y s : string_existsb no_decimal s = false -> string_existsb no_decimal (pretty_N_go y s) = false.
Proof.
  revert s. induction (N.lt_wf_0 y) as [y _ IH]. intros s Hs. destruct (decide (0 < y)%N) as [Hy|Hy].
  - rewrite pretty_N_go_step by done. apply IH; [apply N.div_lt; lia|]. cbn [string_existsb]. rewrite Hs.
    assert (no_decimal (pretty_N_char (y mod 10)) = false) as -> by (unfold pretty_N_char; by repeat case_match). done.
  - replace y with 0%N by lia. by rewrite pretty_N_go_0.
Qed.
Lemma pretty_N_decimal (x : N) : string_existsb no_decimal (pretty x) = false /\ pretty x <> "".
Proof.
  unfold pretty, pretty_N. case_decide as Hx; [done|]. split; [by apply pretty_N_go_decimal|].
  intros H. pose proof (decimal_value_go x "") as Hv. rewrite H in Hv. cbn in Hv. lia.
Qed.
Lemma signed_decimal_N (x : N) : signed_decimal (pretty x) = Some (Z.of_N x).
Proof.
  destruct (pretty_N_decimal x) as [Hd Hn]. unfold signed_decimal.
  assert (forall c r, pretty x = String c r -> c <> "-"%char /\ c <> "+"%char) as Hs.
  { intros c r E. rewrite E in Hd. cbn in Hd. apply orb_false_iff in Hd as [Hc _]. by split; intros ->. }
  rewrite <- decimal_value_N. destruct (pretty x) as [|c r] eqn:E; [done|]. destruct (Hs c r eq_refl) as [Hm Hp].
  assert (match String c r with String "-" r => (true, r) | String "+" r => (false, r) | _ => (false, String c r) end
    = (false, String c r)) as ->.
  { destruct c as [[] [] [] [] [] [] [] []]; try reflexivity; by (destruct Hm || destruct Hp). }
  by rewrite Hd.
Qed.
Lemma signed_decimal_pretty z : signed_decimal (pretty z) = Some z.
Proof.
  destruct z as [|p|p]; [done|exact (signed_decimal_N (N.pos p))|].
  change (pretty (Z.neg p)) with (String "-" (pretty (N.pos p))). destruct (pretty_N_decimal (N.pos p)) as [Hd Hn].
  unfold signed_decimal. rewrite Hd. rewrite bool_decide_eq_false_2 by done. cbn. by rewrite decimal_value_N.
Qed.
