(* ===== verification/Cycle.v ===== *)
(** * Quota cycles and days: the calendar functions of internal/domain/quota.go

    [time.Location], [time.Date] and the civil calendar of Go's package time
    are modelled first: a location is its first offset and its list of
    transitions, and [Date] resolves a local time with the two look-ups of the
    library, so that non-existing and repeated local times behave as in Go. *)

From Stdlib Require Import ZArith Lia Ascii.
From S2P Require Import Prelude GoTypes.

(** ** The proleptic Gregorian calendar *)
Definition isLeap (year : Z) : bool :=
  (year `mod` 4 =? 0) && (negb (year `mod` 100 =? 0) || (year `mod` 400 =? 0)).

(** [daysBefore]: days of a common year before the month with this index. *)
Definition daysBefore (m : Z) : Z :=
  nth (Z.to_nat m) [0; 31; 59; 90; 120; 151; 181; 212; 243; 273; 304; 334; 365] 365.

(** Days from 0001-01-01 to the first day of a year. *)
Definition days_before_year (year : Z) : Z :=
  let y := year - 1 in 365 * y + y / 4 - y / 100 + y / 400.

(** Days of the year before a month, 1..12. *)
Definition month_begin (leap : bool) (month : Z) : Z :=
  daysBefore (month - 1) + (if leap && (2 <? month) then 1 else 0).

(** Days from 0001-01-01 to the given date; the month is 1..12. *)
Definition days_of (year month day : Z) : Z :=
  days_before_year year + month_begin (isLeap year) month + (day - 1).

(** [absDate], first part: the year of a day number and the day of that year,
    by cutting off 400-, 100-, 4- and 1-year cycles. *)
Definition year_day (d : Z) : Z * Z :=
  let n400 := d / 146097 in
  let d := d - 146097 * n400 in
  let n100 := d / 36524 in
  let n100 := n100 - Z.shiftr n100 2 in
  let d := d - 36524 * n100 in
  let n4 := d / 1461 in
  let d := d - 1461 * n4 in
  let n1 := d / 365 in
  let n1 := n1 - Z.shiftr n1 2 in
  (400 * n400 + 100 * n100 + 4 * n4 + n1 + 1, d - 365 * n1).

(** [absDate], second part: month and day in the month of a day of a year,
    guessing the month from 31-day months. *)
Definition month_day (leap : bool) (day : Z) : Z * Z :=
  if leap && (day =? 59) then (2, 29)
  else
    let day := if leap && (59 <? day) then day - 1 else day in
    let month := day / 31 in
    let end_ := daysBefore (month + 1) in
    let '(month, begin) := if end_ <=? day then (month + 1, end_) else (month, daysBefore month) in
    (month + 1, day - begin + 1).

Definition civil (d : Z) : Z * Z * Z :=
  let '(year, yday) := year_day d in
  let '(month, day) := month_day (isLeap year) yday in
  (year, month, day).

(** Days from 0001-01-01 to the Unix epoch. *)
Definition epoch_day : Z := 719162.

(** ** Locations *)
Record Location := mkLocation { firstOffset : Z; transitions : list (Z * Z) }.
Definition UTC : Location := mkLocation 0 [].

Definition alpha : Z := - 2 ^ 63.
Definition omega : Z := 2 ^ 63 - 1.

(** [(offset, start, end)] of the zone in force at a Unix second. *)
Fixpoint lookup_from (offset start : Z) (tx : list (Z * Z)) (sec : Z) : Z * Z * Z :=
  match tx with
  | [] => (offset, start, omega)
  | (when, next) :: tx =>
      if sec <? when then (offset, start, when) else lookup_from next when tx sec
  end.
Definition lookup_zone (l : Location) (sec : Z) : Z * Z * Z :=
  lookup_from (firstOffset l) alpha (transitions l) sec.

Definition offset_at (l : Location) (sec : Z) : Z := (lookup_zone l sec).1.1.

Definition unix_sec (t : Time) : Z := t / Second.
(** The seconds the local clock shows, counted from the epoch. *)
Definition local_sec (l : Location) (t : Time) : Z := unix_sec t + offset_at l (unix_sec t).

(** [t.In(l).Date()] *)
Definition local_date (l : Location) (t : Time) : Z * Z * Z :=
  civil (local_sec l t / 86400 + epoch_day).

(** Seconds of the local midnight of a date, its month normalised to 1..12. *)
Definition midnight (year month day : Z) : Z :=
  let m := month - 1 in
  (days_of (year + m / 12) (m `mod` 12 + 1) day - epoch_day) * 86400.

(** The Unix second [time.Date] takes for local seconds counted from the epoch. *)
Definition resolve (l : Location) (unix : Z) : Z :=
  let '(offset, start, end_) := lookup_zone l unix in
  if offset =? 0 then unix
  else
    let utc := unix - offset in
    let offset := if (utc <? start) || (end_ <=? utc) then offset_at l utc else offset in
    unix - offset.

(** [time.Date(year, month, day, 0, 0, 0, 0, l)] *)
Definition Date (l : Location) (year month day : Z) : Time :=
  resolve l (midnight year month day) * Second.

(** [t.AddDate(0, months, 0)] in the zone of [t]: the clock is kept. *)
Definition AddMonths (l : Location) (t : Time) (months : Z) : Time :=
  let '(year, month, day) := local_date l t in
  resolve l (midnight year (month + months) day + local_sec l t `mod` 86400) * Second + t `mod` Second.

(** ** internal/domain/quota.go *)

Definition or_utc (location : option Location) : Location :=
  match location with Some l => l | None => UTC end.

Definition NextCycleStart (start : Time) (location : option Location) (resetDay : Z) : Time :=
  let l := or_utc location in
  let '(year, month, _) := local_date l start in
  Date l year (month + 1) resetDay.

Definition CycleBounds (now : Time) (location : option Location) (resetDay : Z) : Res (Time * Time) :=
  let l := or_utc location in
  if (resetDay <? 1) || (28 <? resetDay) then
    Err (PlainError ("invalid reset day " +:+ pretty resetDay))
  else
    let '(year, month, _) := local_date l now in
    let start := Date l year month resetDay in
    let start := if Before now start then Date l year (month - 1) resetDay else start in
    let end_ := NextCycleStart start (Some l) resetDay in
    if negb (After end_ start) then Err (PlainError "invalid quota cycle")
    else Ok (start, end_).

(** Decimal text of a non-negative number, padded with zeros to a width. *)
Fixpoint pad (width : nat) (s : string) : string :=
  match width with
  | O => s
  | S width => if bool_decide (String.length s <= width)%nat then String "0"%char (pad width s) else s
  end.

Definition DayBounds (at_ : Time) (location : option Location) : Time * string :=
  let l := or_utc location in
  let '(year, month, day) := local_date l at_ in
  let start := Date l year month day in
  let '(year, month, day) := local_date l start in
  (start, pad 4 (pretty year) +:+ "-" +:+ pad 2 (pretty month) +:+ "-" +:+ pad 2 (pretty day)).

(** ** The calendar is right *)
Definition year_length (year : Z) : Z := if isLeap year then 366 else 365.
Definition month_length (leap : bool) (month : Z) : Z :=
  if month =? 12 then 31 else month_begin leap (month + 1) - month_begin leap month.

Lemma days_before_year_succ y : days_before_year (y + 1) = days_before_year y + year_length y.
Proof.
  unfold days_before_year, year_length, isLeap.
  replace (y + 1 - 1) with y by lia.
  destruct (Z.eqb_spec (y mod 4) 0), (Z.eqb_spec (y mod 100) 0), (Z.eqb_spec (y mod 400) 0);
    cbn [andb orb negb]; Z.to_euclidean_division_equations; lia.
Qed.

Lemma days_before_year_mono y y' : y <= y' -> days_before_year y <= days_before_year y'.
Proof.
  intros H. unfold days_before_year. Z.to_euclidean_division_equations; lia.
Qed.

Lemma shiftr2_small n : 0 <= n <= 4 -> n - Z.shiftr n 2 = Z.min n 3.
Proof.
  intros H. rewrite Z.shiftr_div_pow2 by lia. change (2 ^ 2) with 4.
  Z.to_euclidean_division_equations; lia.
Qed.

Lemma days_before_year_cycles a b c e : 0 <= b <= 3 -> 0 <= c <= 24 -> 0 <= e <= 3 ->
  days_before_year (400 * a + 100 * b + 4 * c + e + 1) = 146097 * a + 36524 * b + 1461 * c + 365 * e.
Proof. intros. unfold days_before_year. Z.to_euclidean_division_equations; lia. Qed.

(** [year_day] finds the year whose days contain the day number. *)
Lemma year_day_spec d :
  let '(y, yday) := year_day d in
  d = days_before_year y + yday /\ 0 <= yday < year_length y.
Proof.
  unfold year_day. set (a := d / 146097). set (d1 := d - 146097 * a).
  assert (0 <= d1 < 146097) as H1 by (subst d1 a; Z.to_euclidean_division_equations; lia).
  assert (0 <= d1 / 36524 <= 4) as Hb by (Z.to_euclidean_division_equations; lia).
  rewrite (shiftr2_small (d1 / 36524)) by done. set (b := Z.min (d1 / 36524) 3).
  set (d2 := d1 - 36524 * b).
  assert (0 <= b <= 3 /\ 0 <= d2 <= 36524 /\ (b <> 3 -> d2 < 36524)) as (Hb3 & H2 & H2')
    by (subst d2 b; Z.to_euclidean_division_equations; lia).
  set (c := d2 / 1461). set (d3 := d2 - 1461 * c).
  assert (0 <= c <= 24 /\ 0 <= d3 < 1461) as (Hc & H3)
    by (subst d3 c; Z.to_euclidean_division_equations; lia).
  assert (c = 24 -> b <> 3 -> d3 < 1460) as H3' by (subst d3; lia).
  assert (0 <= d3 / 365 <= 4) as He by (Z.to_euclidean_division_equations; lia).
  rewrite (shiftr2_small (d3 / 365)) by done. set (e := Z.min (d3 / 365) 3).
  assert (0 <= e <= 3 /\ 0 <= d3 - 365 * e <= 365 /\ (e <> 3 -> d3 - 365 * e < 365)) as (He3 & H4 & H4')
    by (subst e; Z.to_euclidean_division_equations; lia).
  split; [rewrite days_before_year_cycles by lia; subst d3 d2 d1; lia|].
  split; [lia|].
  pose proof (days_before_year_succ (400 * a + 100 * b + 4 * c + e + 1)) as Hs.
  rewrite days_before_year_cycles in Hs by lia.
  assert (146097 * a + 36524 * b + 1461 * c + d3 <
    days_before_year (400 * a + 100 * b + 4 * c + e + 1 + 1)) as Hlt; [|lia].
  clear Hs. unfold days_before_year. Z.to_euclidean_division_equations; lia.
Qed.

Definition month_day_ok (leap : bool) (day : Z) : bool :=
  let '(m, d) := month_day leap day in
  (month_begin leap m + (d - 1) =? day) && (1 <=? m) && (m <=? 12) && (1 <=? d) &&
  (d <=? month_length leap m).

Definition valid_date (y m d : Z) : Prop :=
  1 <= m <= 12 /\ 1 <= d <= month_length (isLeap y) m.

Lemma Z_range_forallb (f : Z -> bool) n z :
  forallb f (seqZ 0 n) = true -> 0 <= z < n -> f z = true.
Proof.
  intros Hf Hz. rewrite forallb_forall in Hf. apply Hf, list_elem_of_In, elem_of_seqZ. lia.
Qed.

Lemma month_day_spec (leap : bool) day : 0 <= day < (if leap then 366 else 365) ->
  let '(m, d) := month_day leap day in
  day = month_begin leap m + (d - 1) /\ 1 <= m <= 12 /\ 1 <= d <= month_length leap m.
Proof.
  intros H. assert (month_day_ok leap day = true) as Hok.
  { destruct leap; [apply (Z_range_forallb _ 366)|apply (Z_range_forallb _ 365)];
      [reflexivity|done|reflexivity|done]. }
  unfold month_day_ok in Hok. destruct (month_day leap day) as [m d]. to_prop. lia.
Qed.

Lemma month_cases m : 1 <= m <= 12 ->
  m ∈@{list Z} [1; 2; 3; 4; 5; 6; 7; 8; 9; 10; 11; 12].
Proof. intros H. change [1; 2; 3; 4; 5; 6; 7; 8; 9; 10; 11; 12] with (seqZ 1 12). rewrite elem_of_seqZ. lia. Qed.

Lemma month_length_bounds leap m : 1 <= m <= 12 -> 28 <= month_length leap m <= 31.
Proof.
  intros H%month_cases. repeat (apply elem_of_cons in H as [->|H]; [destruct leap; vm_compute; intuition congruence|]).
  by apply elem_of_nil in H.
Qed.

(** Consecutive months follow each other. *)
Lemma month_begin_succ leap m : 1 <= m < 12 ->
  month_begin leap (m + 1) = month_begin leap m + month_length leap m.
Proof. intros H. unfold month_length. destruct (Z.eqb_spec m 12); lia. Qed.

Lemma month_begin_first leap : month_begin leap 1 = 0.
Proof. by destruct leap. Qed.
Lemma month_begin_last leap : month_begin leap 12 + 31 = if leap then 366 else 365.
Proof. by destruct leap. Qed.

Lemma civil_days d :
  let '(y, m, dd) := civil d in valid_date y m dd /\ days_of y m dd = d.
Proof.
  unfold civil. pose proof (year_day_spec d) as H. destruct (year_day d) as [y yday].
  destruct H as [Hd Hy]. pose proof (month_day_spec (isLeap y) yday) as Hm.
  unfold year_length in Hy. specialize (Hm Hy). destruct (month_day _ _) as [m dd].
  unfold valid_date, days_of. lia.
Qed.

(** The day of a year at which a valid date falls. *)
Lemma valid_date_yday y m d : valid_date y m d ->
  0 <= month_begin (isLeap y) m + (d - 1) < year_length y.
Proof.
  intros [Hm Hd]. unfold year_length, month_length in *.
  assert (0 <= month_begin (isLeap y) m /\
    month_begin (isLeap y) m + (if m =? 12 then 31 else month_begin (isLeap y) (m + 1) - month_begin (isLeap y) m)
      <= if isLeap y then 366 else 365) as [H1 H2]; [|lia].
  apply month_cases in Hm. clear Hd.
  repeat (apply elem_of_cons in Hm as [->|Hm]; [destruct (isLeap y); vm_compute; intuition congruence|]).
  by apply elem_of_nil in Hm.
Qed.

Lemma month_start_unique (leap : bool) m d m' d' : 1 <= m <= 12 -> 1 <= m' <= 12 ->
  1 <= d <= month_length leap m -> 1 <= d' <= month_length leap m' ->
  month_begin leap m + (d - 1) = month_begin leap m' + (d' - 1) -> m = m' /\ d = d'.
Proof.
  intros Hm Hm' Hd Hd' He.
  assert (forall a b, 1 <= a -> a < b -> b <= 12 ->
    month_begin leap a + month_length leap a <= month_begin leap b) as Hmono.
  { clear. intros a b Ha Hab Hb. assert (a ∈ seqZ 1 12) as Ha' by (rewrite elem_of_seqZ; lia).
    assert (b ∈ seqZ 1 12) as Hb' by (rewrite elem_of_seqZ; lia).
    assert (forallb (fun a => forallb (fun b => (b <=? a) ||
      (month_begin leap a + month_length leap a <=? month_begin leap b)) (seqZ 1 12)) (seqZ 1 12) = true) as Hall
      by (destruct leap; reflexivity).
    rewrite forallb_forall in Hall. apply list_elem_of_In in Ha', Hb'.
    specialize (Hall _ Ha'). rewrite forallb_forall in Hall. specialize (Hall _ Hb').
    apply orb_true_iff in Hall as [?|?]; to_prop; lia. }
  destruct (Z.lt_trichotomy m m') as [H|[->|H]]; [|lia|].
  - specialize (Hmono m m' ltac:(lia) H ltac:(lia)). lia.
  - specialize (Hmono m' m ltac:(lia) H ltac:(lia)). lia.
Qed.

Lemma days_of_inj y m d y' m' d' : valid_date y m d -> valid_date y' m' d' ->
  days_of y m d = days_of y' m' d' -> (y, m, d) = (y', m', d').
Proof.
  intros H H' He. pose proof (valid_date_yday _ _ _ H). pose proof (valid_date_yday _ _ _ H').
  unfold days_of in He.
  assert (y = y') as <-.
  { destruct (Z.lt_trichotomy y y') as [Hlt|[->|Hlt]]; [|done|].
    - pose proof (days_before_year_mono (y + 1) y' ltac:(lia)).
      rewrite days_before_year_succ in *. lia.
    - pose proof (days_before_year_mono (y' + 1) y ltac:(lia)).
      rewrite days_before_year_succ in *. lia. }
  destruct H as [Hm Hd], H' as [Hm' Hd'].
  destruct (month_start_unique (isLeap y) m d m' d') as [-> ->]; [done..|lia|done].
Qed.

Lemma civil_of_days y m d : valid_date y m d -> civil (days_of y m d) = (y, m, d).
Proof.
  intros H. pose proof (civil_days (days_of y m d)) as Hc.
  destruct (civil (days_of y m d)) as [[y' m'] d']. destruct Hc as [Hv He].
  symmetry. by apply days_of_inj.
Qed.

(** ** Midnights *)
Lemma midnight_valid y m d : 1 <= m <= 12 -> midnight y m d = (days_of y m d - epoch_day) * 86400.
Proof.
  intros H. unfold midnight. rewrite Z.div_small, Z.mod_small by lia.
  replace (y + 0) with y by lia. by replace (m - 1 + 1) with m by lia.
Qed.

(** The midnights of the same day in two consecutive months. *)
Lemma midnight_next y m d : 1 <= m <= 12 ->
  midnight y (m + 1) d = midnight y m d + 86400 * month_length (isLeap y) m.
Proof.
  intros H. rewrite (midnight_valid y m) by done. destruct (decide (m = 12)) as [->|].
  - unfold midnight. change ((12 + 1 - 1) / 12) with 1. change ((12 + 1 - 1) mod 12 + 1) with 1.
    unfold days_of. rewrite days_before_year_succ, month_begin_first.
    pose proof (month_begin_last (isLeap y)). unfold year_length, month_length. cbn [Z.eqb Pos.eqb]. lia.
  - rewrite midnight_valid by lia. unfold days_of. rewrite month_begin_succ by lia. lia.
Qed.

Lemma midnight_prev y m d : 1 <= m <= 12 ->
  exists y' m', 1 <= m' <= 12 /\ midnight y (m - 1) d = midnight y' m' d /\
    midnight y' (m' + 1) d = midnight y m d.
Proof.
  intros H. destruct (decide (m = 1)) as [->|].
  - exists (y - 1), 12. split; [lia|].
    split.
    + rewrite (midnight_valid _ 12) by lia. unfold midnight.
      change ((1 - 1 - 1) / 12) with (-1). by change ((1 - 1 - 1) mod 12 + 1) with 12.
    + rewrite (midnight_valid _ 1) by lia. unfold midnight.
      change ((12 + 1 - 1) / 12) with 1. change ((12 + 1 - 1) mod 12 + 1) with 1.
      by replace (y - 1 + 1) with y by lia.
  - exists y, (m - 1). split; [lia|]. split; [done|]. f_equal; lia.
Qed.

(** ** Locations with a fixed offset *)
Definition Fixed (offset : Z) : Location := mkLocation offset [].

Lemma Date_fixed o y m d : Date (Fixed o) y m d = (midnight y m d - o) * Second.
Proof.
  unfold Date, resolve. cbn. destruct (Z.eqb_spec o 0) as [->|]; [f_equal; lia|].
  case_if; done.
Qed.

Lemma second_pos : 0 < Second.
Proof. done. Qed.

Lemma unix_sec_Date o s : unix_sec ((s - o) * Second) = s - o.
Proof. unfold unix_sec. apply Z.div_mul. unfold Second, Millisecond. lia. Qed.

Lemma local_date_fixed o y m d : valid_date y m d ->
  local_date (Fixed o) (Date (Fixed o) y m d) = (y, m, d).
Proof.
  intros H. unfold local_date, local_sec. rewrite Date_fixed, unix_sec_Date.
  change (offset_at (Fixed o) _) with o. rewrite midnight_valid by apply H.
  replace (_ - o + o) with ((days_of y m d - epoch_day) * 86400) by lia.
  rewrite Z.div_mul by lia. replace (_ - _ + _) with (days_of y m d) by lia.
  by apply civil_of_days.
Qed.

(** The local clock of an instant lies in the day [local_date] names. *)
Lemma local_date_bounds o t y m d : local_date (Fixed o) t = (y, m, d) ->
  valid_date y m d /\ midnight y m d <= unix_sec t + o < midnight y m d + 86400.
Proof.
  unfold local_date, local_sec. change (offset_at (Fixed o) (unix_sec t)) with o. intros H.
  pose proof (civil_days ((unix_sec t + o) / 86400 + epoch_day)) as Hc. rewrite H in Hc.
  destruct Hc as [Hv Hd]. split; [done|]. rewrite midnight_valid by apply Hv. rewrite Hd.
  pose proof (Z.div_mod (unix_sec t + o) 86400). pose proof (Z.mod_pos_bound (unix_sec t + o) 86400).
  lia.
Qed.

Lemma resetDay_valid y m rd : 1 <= m <= 12 -> 1 <= rd <= 28 -> valid_date y m rd.
Proof. intros Hm Hr. split; [done|]. pose proof (month_length_bounds (isLeap y) m Hm). lia. Qed.

Lemma Date_before o y m d t : Before t (Date (Fixed o) y m d) = (unix_sec t + o <? midnight y m d).
Proof.
  unfold Before, unix_sec. rewrite Date_fixed.
  pose proof (Z.div_mod t Second). pose proof (Z.mod_pos_bound t Second second_pos).
  pose proof second_pos. set (q := t / Second) in *.
  apply eq_true_iff_eq. rewrite !Z.ltb_lt. nia.
Qed.

Lemma midnight_day y m d d' : midnight y m d' = midnight y m d + (d' - d) * 86400.
Proof. unfold midnight, days_of. lia. Qed.

(** The month whose reset day opens the cycle of an instant. *)
Lemma cycle_month o now rd y m d : 1 <= rd <= 28 ->
  local_date (Fixed o) now = (y, m, d) ->
  exists y' m', 1 <= m' <= 12 /\
    (if Before now (Date (Fixed o) y m rd) then Date (Fixed o) y (m - 1) rd else Date (Fixed o) y m rd)
      = Date (Fixed o) y' m' rd /\
    midnight y' m' rd <= unix_sec now + o < midnight y' (m' + 1) rd.
Proof.
  intros Hr H. apply local_date_bounds in H as [[Hm Hd] Hb].
  rewrite Date_before. pose proof (midnight_day y m d rd) as Hrd.
  pose proof (midnight_next y m rd Hm) as Hn.
  pose proof (month_length_bounds (isLeap y) m Hm).
  destruct (Z.ltb_spec (unix_sec now + o) (midnight y m rd)).
  - destruct (midnight_prev y m rd Hm) as (y' & m' & Hm' & Hp & Hq).
    exists y', m'. split; [done|]. rewrite !Date_fixed, Hp. split; [done|].
    pose proof (midnight_next y' m' rd Hm'). pose proof (month_length_bounds (isLeap y') m' Hm').
    pose proof (midnight_day y m d 1). lia.
  - exists y, m. split; [done|]. split; [done|]. lia.
Qed.

(** In a location with a fixed offset the cycle of an instant is the
    natural month of the reset day around it: it opens and ends at the local
    midnight of that day in two consecutive months, contains the instant, and
    the next cycle opens where it ends. *)
Theorem CycleBounds_fixed o now rd :
  1 <= rd <= 28 ->
  exists y m, 1 <= m <= 12 /\
    CycleBounds now (Some (Fixed o)) rd = Ok (Date (Fixed o) y m rd, Date (Fixed o) y (m + 1) rd) /\
    local_date (Fixed o) (Date (Fixed o) y m rd) = (y, m, rd) /\
    Date (Fixed o) y m rd <= now < Date (Fixed o) y (m + 1) rd /\
    NextCycleStart (Date (Fixed o) y m rd) (Some (Fixed o)) rd = Date (Fixed o) y (m + 1) rd.
Proof.
  intros Hr. unfold CycleBounds. cbn [or_utc].
  destruct (local_date (Fixed o) now) as [[y0 m0] d0] eqn:Hnow.
  destruct (cycle_month o now rd y0 m0 d0 Hr Hnow) as (y & m & Hm & Hs & Hb).
  exists y, m. split; [done|].
  pose proof (local_date_fixed o y m rd (resetDay_valid y m rd Hm Hr)) as Hl.
  assert (NextCycleStart (Date (Fixed o) y m rd) (Some (Fixed o)) rd = Date (Fixed o) y (m + 1) rd) as Hnext.
  { unfold NextCycleStart. cbn [or_utc]. by rewrite Hl. }
  rewrite Hs. rewrite Hnext.
  destruct (Z.ltb_spec rd 1), (Z.ltb_spec 28 rd); try lia. cbn [orb].
  assert (Date (Fixed o) y m rd <= now < Date (Fixed o) y (m + 1) rd) as Hin.
  { pose proof (Date_before o y m rd now) as H1. pose proof (Date_before o y (m + 1) rd now) as H2.
    unfold Before in *. destruct (Z.ltb_spec now (Date (Fixed o) y m rd)),
      (Z.ltb_spec now (Date (Fixed o) y (m + 1) rd)); lia. }
  unfold After. destruct (Z.ltb_spec (Date (Fixed o) y m rd) (Date (Fixed o) y (m + 1) rd)); [|lia].
  done.
Qed.

Lemma CycleBounds_fixed_witness :
  exists y m, 1 <= m <= 12 /\
    CycleBounds 0 (Some (Fixed 3600)) 28 = Ok (Date (Fixed 3600) y m 28, Date (Fixed 3600) y (m + 1) 28).
Proof.
  destruct (CycleBounds_fixed 3600 0 28 ltac:(lia)) as (y & m & Hm & H & _).
  exists y, m. split; [exact Hm|exact H].
Defined.

(** ** Locations with transitions *)

Definition whole_second (t : Time) : Prop := exists s, t = s * Second.

Lemma Date_whole l y m d : whole_second (Date l y m d).
Proof. unfold Date, resolve. destruct (lookup_zone l (midnight y m d)) as [[? ?] ?]. by eexists. Qed.

(** Whatever the location, an accepted cycle runs forward and its bounds are
    whole seconds, which the millisecond columns of the database keep. *)
Lemma CycleBounds_ok now l rd start end_ :
  CycleBounds now l rd = Ok (start, end_) -> start < end_ /\ whole_second start /\ whole_second end_.
Proof.
  unfold CycleBounds. case_if; [done|].
  destruct (local_date (or_utc l) now) as [[y m] d]. cbn zeta.
  destruct (negb _) eqn:Ha; [done|]. intros [= <- <-].
  unfold After in Ha. to_prop. split; [done|]. split; [case_if; apply Date_whole|].
  unfold NextCycleStart. destruct (local_date _ _) as [[? ?] ?]. apply Date_whole.
Qed.

Lemma fromMillis_millis_whole t : whole_second t -> fromMillis (millis t) = t.
Proof.
  intros [s ->]. unfold fromMillis, millis, Second.
  replace (s * (1000 * Millisecond)) with ((s * 1000) * Millisecond) by lia.
  rewrite Z.div_mul; [done|]. unfold Millisecond. lia.
Qed.

(** A zone whose clock jumps from 00:00 to 01:00 on 1 October 2023 (offset
    -4 h before, -3 h after), as Paraguay's did. *)
Definition midnight_gap : Location := mkLocation (-14400) [(1696132800, -10800)].

(** Where daylight saving skips the local midnight of the reset day and
    that day is the first of the month, the resolved start falls on the evening
    before, the next boundary computed from it is the start itself, and no
    instant of that month has a cycle: the function fails (here on every day
    of October 2023), and the day of the jump is filed under the day before. *)
Theorem CycleBounds_midnight_gap :
  Forall (fun day => CycleBounds (1696132800 * Second + day * 24 * Hour) (Some midnight_gap) 1
                     = Err (PlainError "invalid quota cycle")) (seqZ 0 31) /\
  is_ok (CycleBounds (1696132800 * Second) (Some midnight_gap) 2) = true /\
  DayBounds (1696132800 * Second) (Some midnight_gap) = (1696129200 * Second, "2023-09-30").
Proof.
  split; [|split; reflexivity].
  repeat (apply Forall_cons; split; [vm_compute; reflexivity|]). apply Forall_nil. done.
Qed.
