(* ===== verification/Records.v ===== *)
(** * The records services and store exchange: internal/ports/store.go *)

From Stdlib Require Import ZArith.
From S2P Require Import Prelude GoTypes Identity Ports Inbound User Sync Quota Traffic Template.

Record AdministratorRecord := mkAdministrator {
  ad_ID : ID;
  ad_Username : string;
  ad_PasswordHash : string;
  ad_PasswordVersion : Z;
  ad_CreatedAt : Time;
  ad_UpdatedAt : Time }.
#[global] Instance eta_AdministratorRecord : Eta AdministratorRecord := fun r =>
  mkAdministrator (ad_ID r) (ad_Username r) (ad_PasswordHash r) (ad_PasswordVersion r)
    (ad_CreatedAt r) (ad_UpdatedAt r).

Record SessionRecord := mkSession {
  se_ID : ID;
  se_TokenDigest : string;
  se_Data : string;
  se_CreatedAt : Time;
  se_LastSeenAt : Time;
  se_IdleExpiresAt : Time;
  se_AbsoluteExpiresAt : Time }.

Record PanelSettingsRecord := mkSettings {
  ps_QuotaTimezone : string;
  ps_KeyVerifier : string;
  ps_KeyVerifierNonce : string;
  ps_KeyEncryptionVersion : Z;
  ps_Revision : Z;
  ps_CreatedAt : Time;
  ps_UpdatedAt : Time }.
#[global] Instance eta_PanelSettingsRecord : Eta PanelSettingsRecord := fun r =>
  mkSettings (ps_QuotaTimezone r) (ps_KeyVerifier r) (ps_KeyVerifierNonce r)
    (ps_KeyEncryptionVersion r) (ps_Revision r) (ps_CreatedAt r) (ps_UpdatedAt r).

(** A boot epoch is kept as RFC 3339 text of whole seconds: here the instant,
    [None] for the empty string. [mi_UptimeSeconds] is the column
    last_uptime_seconds. *)
Record ManagedInstanceRecord := mkInstance {
  mi_ID : ID;
  mi_Name : string;
  mi_APIEndpoint : string;
  mi_SupportedRuntimeVersion : string;
  mi_HealthState : string;
  mi_BootEpoch : option Time;
  mi_CapabilityGeneration : Z;
  mi_UptimeSeconds : Z;
  mi_LastSuccessAt : option Time;
  mi_LastErrorCode : string;
  mi_LastErrorSummary : string;
  mi_UpdatedAt : Time }.
#[global] Instance eta_ManagedInstanceRecord : Eta ManagedInstanceRecord := fun r =>
  mkInstance (mi_ID r) (mi_Name r) (mi_APIEndpoint r) (mi_SupportedRuntimeVersion r)
    (mi_HealthState r) (mi_BootEpoch r) (mi_CapabilityGeneration r) (mi_UptimeSeconds r)
    (mi_LastSuccessAt r) (mi_LastErrorCode r) (mi_LastErrorSummary r) (mi_UpdatedAt r).

Record CapabilitySignal := mkSignal {
  sg_BootEpoch : Time;
  sg_UptimeSeconds : Z;
  sg_Known : bool;
  sg_SuspectedRestart : bool }.

Record InboundRecord := mkInboundRecord {
  ir_Inbound : DedicatedInbound;
  ir_ServerKeyCiphertext : string;
  ir_ServerKeyNonce : string;
  ir_KeyEncryptionVersion : Z }.
#[global] Instance eta_InboundRecord : Eta InboundRecord := fun r =>
  mkInboundRecord (ir_Inbound r) (ir_ServerKeyCiphertext r) (ir_ServerKeyNonce r)
    (ir_KeyEncryptionVersion r).

Record PortPoolUsage := mkUsage {
  pu_Capacity : Z; pu_Assigned : Z; pu_Remaining : Z; pu_Outside : list Z }.

Record UserFilter := mkFilter { uf_Query : string; uf_Status : string; uf_IncludeDeleted : bool }.

Record QuotaPolicyRecord := mkPolicy {
  qp_AllocationID : ID;
  qp_LimitBytes : option Z;
  qp_ResetDay : Z;
  qp_Revision : Revision;
  qp_CreatedAt : Time;
  qp_UpdatedAt : Time }.
#[global] Instance eta_QuotaPolicyRecord : Eta QuotaPolicyRecord := fun r =>
  mkPolicy (qp_AllocationID r) (qp_LimitBytes r) (qp_ResetDay r) (qp_Revision r)
    (qp_CreatedAt r) (qp_UpdatedAt r).

(** The status column is "open" or "closed". *)
Inductive CycleStatus : Set := CycleOpen | CycleClosed.
#[global] Instance CycleStatus_eq_dec : EqDecision CycleStatus. Proof. solve_decision. Defined.

Record QuotaCycleRecord := mkCycle {
  qc_ID : ID;
  qc_AllocationID : ID;
  qc_StartsAt : Time;
  qc_EndsAt : Time;
  qc_Timezone : string;
  qc_ResetDay : Z;
  qc_Status : CycleStatus;
  qc_GrossUplinkBytes : Z;
  qc_GrossDownlinkBytes : Z;
  qc_AccountedUplinkBytes : Z;
  qc_AccountedDownlinkBytes : Z;
  qc_ManualResetCount : Z;
  qc_OpenedAt : Time;
  qc_ClosedAt : option Time }.
#[global] Instance eta_QuotaCycleRecord : Eta QuotaCycleRecord := fun r =>
  mkCycle (qc_ID r) (qc_AllocationID r) (qc_StartsAt r) (qc_EndsAt r) (qc_Timezone r)
    (qc_ResetDay r) (qc_Status r) (qc_GrossUplinkBytes r) (qc_GrossDownlinkBytes r)
    (qc_AccountedUplinkBytes r) (qc_AccountedDownlinkBytes r) (qc_ManualResetCount r)
    (qc_OpenedAt r) (qc_ClosedAt r).

Record UserCreateRecord := mkUserCreate {
  uc_User : ManagedUser;
  uc_Identity : XrayUserIdentity;
  uc_Allocation : AccessAllocation;
  uc_Inbound : InboundRecord;
  uc_Credential : AccessCredential;
  uc_Policy : QuotaPolicyRecord;
  uc_Cycle : QuotaCycleRecord;
  uc_Operation : SynchronizationOperation;
  uc_Command : DomainCommand;
  uc_Audit : AuditEvent;
  uc_PortAudit : AuditEvent }.

(** [TemplateRecord] wraps a template; it is the template here. *)
Record UserRecord := mkUserRecord {
  ur_User : ManagedUser;
  ur_Identity : XrayUserIdentity;
  ur_Inbound : InboundRecord;
  ur_Allocation : AccessAllocation;
  ur_Credential : AccessCredential;
  ur_Template : InboundTemplate;
  ur_Policy : QuotaPolicyRecord;
  ur_Cycle : QuotaCycleRecord }.

Record SyncWork := mkSyncWork {
  sw_Operation : SynchronizationOperation;
  sw_User : ManagedUser;
  sw_Allocation : AccessAllocation;
  sw_Identity : XrayUserIdentity;
  sw_Template : InboundTemplate;
  sw_Inbound : InboundRecord;
  sw_Credential : AccessCredential }.

Record TrafficCursorRecord := mkCursor {
  tc_AllocationID : ID;
  tc_BootEpoch : option Time;
  tc_UplinkCounter : option Z;
  tc_DownlinkCounter : option Z;
  tc_UplinkEpoch : Z;
  tc_DownlinkEpoch : Z;
  tc_LastObservedAt : option Time;
  tc_LastSuccessAt : option Time;
  tc_MissingSince : option Time }.
#[global] Instance eta_TrafficCursorRecord : Eta TrafficCursorRecord := fun r =>
  mkCursor (tc_AllocationID r) (tc_BootEpoch r) (tc_UplinkCounter r) (tc_DownlinkCounter r)
    (tc_UplinkEpoch r) (tc_DownlinkEpoch r) (tc_LastObservedAt r) (tc_LastSuccessAt r)
    (tc_MissingSince r).

Record CollectionTarget := mkTarget {
  ct_User : ManagedUser;
  ct_Allocation : AccessAllocation;
  ct_Identity : XrayUserIdentity;
  ct_ProfileTag : string;
  ct_Policy : QuotaPolicyRecord;
  ct_Cycle : QuotaCycleRecord;
  ct_Cursor : TrafficCursorRecord;
  ct_TotalUplink : Z;
  ct_TotalDownlink : Z }.
#[global] Instance eta_CollectionTarget : Eta CollectionTarget := fun r =>
  mkTarget (ct_User r) (ct_Allocation r) (ct_Identity r) (ct_ProfileTag r) (ct_Policy r) (ct_Cycle r)
    (ct_Cursor r) (ct_TotalUplink r) (ct_TotalDownlink r).

Record ContinuityEventRecord := mkEventRecord {
  ce_ID : ID;
  ce_AllocationID : ID;
  ce_Event : ContinuityEvent;
  ce_OccurredAt : Time }.

Record TrafficUpdate := mkTrafficUpdate {
  tu_AllocationID : ID;
  tu_Cursor : TrafficCursorRecord;
  tu_UplinkDelta : Z;
  tu_DownlinkDelta : Z;
  tu_DayStartUTC : Time;
  tu_LocalDate : string;
  tu_Timezone : string;
  tu_Events : list ContinuityEventRecord;
  tu_QuotaBlock : option SynchronizationOperation;
  tu_Audit : option AuditEvent }.

Record TrafficBatch := mkBatch { tb_ObservedAt : Time; tb_Updates : list TrafficUpdate }.

Record UserUpdateRecord := mkUserUpdate {
  uu_UserID : ID;
  uu_ExpectedRevision : Revision;
  uu_DisplayName : string;
  uu_NormalizedName : string;
  uu_LimitBytes : option Z;
  uu_ResetDay : Z;
  uu_AdminEnabled : bool;
  uu_OperationTemplate : SynchronizationOperation;
  uu_QuotaAudit : option AuditEvent;
  uu_Command : DomainCommand;
  uu_Audits : list AuditEvent;
  uu_Now : Time }.

Record QuotaResetRecord := mkQuotaReset {
  qr_AllocationID : ID;
  qr_CycleID : ID;
  qr_EventID : ID;
  qr_ActorID : ID;
  qr_Command : DomainCommand;
  qr_OperationTemplate : SynchronizationOperation;
  qr_Audit : AuditEvent;
  qr_Now : Time }.

Record CycleRollover := mkRollover {
  ro_AllocationID : ID;
  ro_OperationTemplate : SynchronizationOperation;
  ro_Audit : option AuditEvent;
  ro_Now : Time }.

Record TrafficCommitResult := mkCommitResult { cres_Blocked : Z; cres_Rolled : Z; cres_Restored : Z }.
#[global] Instance eta_TrafficCommitResult : Eta TrafficCommitResult := fun r =>
  mkCommitResult (cres_Blocked r) (cres_Rolled r) (cres_Restored r).

Record RotationRecord := mkRotation {
  rr_UserID : ID;
  rr_AllocationID : ID;
  rr_ExpectedRevision : Revision;
  rr_Credential : AccessCredential;
  rr_Operation : SynchronizationOperation;
  rr_Command : DomainCommand;
  rr_Audit : AuditEvent;
  rr_Now : Time }.

Record PortChangeRecord := mkPortChange {
  pc_UserID : ID;
  pc_AllocationID : ID;
  pc_ExpectedRevision : Revision;
  pc_OldPort : Z;
  pc_NewPort : Z;
  pc_Operation : SynchronizationOperation;
  pc_Command : DomainCommand;
  pc_Audit : AuditEvent;
  pc_Now : Time }.

Record DeleteRecord := mkDelete {
  dr_UserID : ID;
  dr_AllocationID : ID;
  dr_ExpectedRevision : Revision;
  dr_Operation : SynchronizationOperation;
  dr_Command : DomainCommand;
  dr_Audit : AuditEvent;
  dr_Now : Time }.

(** The kind of a drift removal: a client inside a panel inbound, or an orphan
    inbound. The row of drift_removals keeps the columns the removal record of
    a worker is read from. *)
Inductive DriftKind : Set := DriftIdentity | DriftInbound.
#[global] Instance DriftKind_eq_dec : EqDecision DriftKind. Proof. solve_decision. Defined.

Record DriftRow := mkDrift {
  df_ID : ID;
  df_TemplateID : option ID;
  df_InboundTag : string;
  df_Kind : DriftKind;
  df_StatisticsID : string;
  df_State : SyncState;
  df_AttemptCount : Z;
  df_NextAttemptAt : Time;
  df_LeaseOwner : option string;
  df_LeaseExpiresAt : option Time;
  df_LastErrorCode : string;
  df_LastErrorSummary : string;
  df_CreatedAt : Time;
  df_CompletedAt : option Time;
  df_SupersededBy : option ID }.
#[global] Instance eta_DriftRow : Eta DriftRow := fun r =>
  mkDrift (df_ID r) (df_TemplateID r) (df_InboundTag r) (df_Kind r) (df_StatisticsID r)
    (df_State r) (df_AttemptCount r) (df_NextAttemptAt r) (df_LeaseOwner r) (df_LeaseExpiresAt r)
    (df_LastErrorCode r) (df_LastErrorSummary r) (df_CreatedAt r) (df_CompletedAt r)
    (df_SupersededBy r).

Record DriftRemoval := mkDriftRemoval {
  rm_ID : ID;
  rm_TemplateID : ID;
  rm_InboundTag : string;
  rm_Kind : DriftKind;
  rm_StatisticsID : string;
  rm_State : SyncState;
  rm_AttemptCount : Z;
  rm_NextAttemptAt : Time;
  rm_ExpectedStatisticsID : string;
  rm_Reclaimed : bool }.

Record ValidationOutcome := mkOutcome {
  vo_TemplateID : ID;
  vo_ExpectedRevision : Revision;
  vo_State : CompatibilityState;
  vo_Reason : string;
  vo_ValidatedAt : Time;
  vo_Health : string;
  vo_BootEpoch : option Time;
  vo_CapabilityGeneration : Z;
  vo_ErrorCode : string;
  vo_ErrorSummary : string;
  vo_SuccessAt : option Time;
  vo_Audit : AuditEvent }.

(** The rows of the remaining tables. *)
Record TotalsRow := mkTotals { tt_UplinkBytes : Z; tt_DownlinkBytes : Z; tt_UpdatedAt : Time }.
Record DailyRow := mkDaily {
  da_LocalDate : string; da_Timezone : string; da_UplinkBytes : Z; da_DownlinkBytes : Z; da_UpdatedAt : Time }.
Record ResetRow := mkReset {
  re_ID : ID;
  re_AllocationID : ID;
  re_CycleID : ID;
  re_CommandID : ID;
  re_PreviousUplink : Z;
  re_PreviousDownlink : Z;
  re_UplinkCursor : option Z;
  re_DownlinkCursor : option Z;
  re_ActorID : ID;
  re_OccurredAt : Time }.

Record SessionRow := mkSessionRow {
  sr_ID : ID;
  sr_AdministratorID : ID;
  sr_TokenDigest : string;
  sr_PasswordVersion : Z;
  sr_Data : string;
  sr_CreatedAt : Time;
  sr_LastSeenAt : Time;
  sr_IdleExpiresAt : Time;
  sr_AbsoluteExpiresAt : Time;
  sr_RevokedAt : option Time }.
#[global] Instance eta_SessionRow : Eta SessionRow := fun r =>
  mkSessionRow (sr_ID r) (sr_AdministratorID r) (sr_TokenDigest r) (sr_PasswordVersion r)
    (sr_Data r) (sr_CreatedAt r) (sr_LastSeenAt r) (sr_IdleExpiresAt r) (sr_AbsoluteExpiresAt r)
    (sr_RevokedAt r).
