(* ===== verification/Database.v ===== *)
(** * The database: tables, constraints and transactions

    The state of internal/persistence/sqlite: one finite map per table, keyed
    by the primary key, and the constraints of migrations/*.sql (unique
    indexes, CHECK and FOREIGN KEY clauses) as one decidable predicate that
    the engine evaluates after every writing statement. A transaction is a
    state and error computation; [WithWriteTx] commits its changes or, on an
    error, leaves the tables as they were. The count of random draws is not
    part of the tables and survives a roll-back. *)

From Stdlib Require Import ZArith Lia.
From stdpp Require Import sorting.
From S2P Require Import Prelude GoTypes Identity Ports Text Inbound Tokens User Sync Quota Traffic Template Records.

Record DB := mkDB {
  db_users : gmap ID ManagedUser;
  db_identities : gmap ID XrayUserIdentity;
  db_templates : gmap ID InboundTemplate;
  db_allocations : gmap ID AccessAllocation;
  db_inbounds : gmap ID InboundRecord;
  db_credentials : gmap ID AccessCredential;
  db_policies : gmap ID QuotaPolicyRecord;
  db_cycles : gmap ID QuotaCycleRecord;
  db_totals : gmap ID TotalsRow;
  db_cursors : gmap ID TrafficCursorRecord;
  db_daily : gmap (ID * Z) DailyRow;
  db_events : gmap ID ContinuityEventRecord;
  db_operations : gmap ID SynchronizationOperation;
  db_commands : gmap ID DomainCommand;
  db_resets : gmap ID ResetRow;
  db_audits : gmap ID AuditEvent;
  db_drift : gmap ID DriftRow;
  db_administrators : gmap ID AdministratorRecord;
  db_sessions : gmap ID SessionRow;
  db_instance : option ManagedInstanceRecord;
  db_settings : option PanelSettingsRecord }.
#[global] Instance eta_DB : Eta DB := fun r =>
  mkDB (db_users r) (db_identities r) (db_templates r) (db_allocations r) (db_inbounds r)
    (db_credentials r) (db_policies r) (db_cycles r) (db_totals r) (db_cursors r) (db_daily r)
    (db_events r) (db_operations r) (db_commands r) (db_resets r) (db_audits r) (db_drift r)
    (db_administrators r) (db_sessions r) (db_instance r) (db_settings r).

Definition empty_db : DB :=
  mkDB ∅ ∅ ∅ ∅ ∅ ∅ ∅ ∅ ∅ ∅ ∅ ∅ ∅ ∅ ∅ ∅ ∅ ∅ ∅ None None.

(** Instants are stored in milliseconds. *)
Definition ms (t : Time) : Time := fromMillis (millis t).
Definition ms_opt (t : option Time) : option Time := ms <$> t.

(** ** Constraints *)

(** A unique index over the rows that satisfy a condition. *)
Definition unique_on {K R C} `{Countable K} `{EqDecision C} (cond : R -> bool) (col : R -> C) (m : gmap K R) : Prop :=
  map_Forall (fun k r => map_Forall (fun k' r' =>
    cond r = true -> cond r' = true -> col r = col r' -> k = k') m) m.
#[global] Instance unique_on_dec {K R C} `{Countable K} `{EqDecision C} (cond : R -> bool) (col : R -> C) (m : gmap K R) :
  Decision (unique_on cond col m).
Proof. unfold unique_on. apply _. Defined.

Definition every {R} (r : R) : bool := true.
Definition live_state (s : SyncState) : bool :=
  bool_decide (s = SyncPending \/ s = SyncLeased \/ s = SyncRetryWait).
Definition is_open (c : QuotaCycleRecord) : bool := bool_decide (qc_Status c = CycleOpen).
Definition unreleased (r : InboundRecord) : bool := Assigned (ir_Inbound r).

Definition bytes_ok (z : Z) : Prop := 0 <= z <= MaxInt64.
#[global] Instance bytes_ok_dec z : Decision (bytes_ok z).
Proof. unfold bytes_ok. apply _. Defined.
Definition counter_ok (o : option Z) : Prop := match o with Some z => bytes_ok z | None => True end.
#[global] Instance counter_ok_dec o : Decision (counter_ok o).
Proof. destruct o; apply _. Defined.
Definition key_ok (c : AccessCredential) : Prop :=
  if bool_decide (cr_State c = CredentialDestroyed)
  then cr_KeyCiphertext c = "" /\ cr_KeyNonce c = ""
  else cr_KeyCiphertext c <> "" /\ cr_KeyNonce c <> "".
#[global] Instance key_ok_dec c : Decision (key_ok c).
Proof. unfold key_ok. destruct (bool_decide _); apply _. Defined.

(** managed_users: primary key, active names, revisions. *)
Definition users_ok (m : gmap ID ManagedUser) : Prop :=
  map_Forall (fun k u => u_ID u = k /\ 0 <= u_Revision u) m /\
  unique_on (fun u => bool_decide (u_DeletedAt u = None)) u_NormalizedName m.

Definition templates_ok (m : gmap ID InboundTemplate) : Prop :=
  map_Forall (fun k t => t_ID t = k /\ 0 <= t_Revision t /\
    1024 <= Start (t_Pool t) <= 65535 /\ 1024 <= End (t_Pool t) <= 65535 /\
    Start (t_Pool t) <= End (t_Pool t) /\
    (t_Method t = MethodAES128 \/ t_Method t = MethodAES256)) m /\
  unique_on (fun t => bool_decide (t_ArchivedAt t = None)) t_NormalizedName m.

Definition identities_ok (db : DB) : Prop :=
  map_Forall (fun k i => i_ID i = k /\ i_StatisticsID i <> "" /\
    Contains (i_StatisticsID i) ">>>" = false /\ is_Some (db_templates db !! i_TemplateID i)) (db_identities db) /\
  unique_on every (fun i => (i_InstanceID i, i_StatisticsID i)) (db_identities db).

Definition allocations_ok (db : DB) : Prop :=
  map_Forall (fun k a => a_ID a = k /\ 0 <= a_DesiredRevision a /\ 0 <= a_SyncedRevision a /\
    0 < a_DesiredCredentialVersion a /\ is_Some (db_users db !! a_UserID a) /\
    is_Some (db_templates db !! a_TemplateID a) /\ is_Some (db_identities db !! a_IdentityID a)) (db_allocations db) /\
  unique_on every a_UserID (db_allocations db) /\ unique_on every a_IdentityID (db_allocations db).

Definition inbounds_ok (db : DB) : Prop :=
  map_Forall (fun k r => in_AllocationID (ir_Inbound r) = k /\ 1024 <= in_Port (ir_Inbound r) <= 65535 /\
    0 < ir_KeyEncryptionVersion r /\ is_Some (db_allocations db !! k) /\
    is_Some (db_templates db !! in_TemplateID (ir_Inbound r))) (db_inbounds db) /\
  unique_on every (fun r => in_InboundTag (ir_Inbound r)) (db_inbounds db) /\
  unique_on unreleased (fun r => (in_ListenAddress (ir_Inbound r), in_Port (ir_Inbound r))) (db_inbounds db).

Definition credentials_ok (db : DB) : Prop :=
  map_Forall (fun k c => cr_ID c = k /\ 0 < cr_Version c /\ key_ok c /\
    is_Some (db_allocations db !! cr_AllocationID c)) (db_credentials db) /\
  unique_on every (fun c => (cr_AllocationID c, cr_Version c)) (db_credentials db) /\
  unique_on (fun c => bool_decide (cr_State c = CredentialPending)) cr_AllocationID (db_credentials db) /\
  unique_on (fun c => bool_decide (cr_State c = CredentialActive)) cr_AllocationID (db_credentials db).

Definition limit_ok (l : option Z) : Prop :=
  match l with Some z => 0 < z <= 4611686018427387904 | None => True end.
#[global] Instance limit_ok_dec l : Decision (limit_ok l).
Proof. destruct l; apply _. Defined.

Definition policies_ok (db : DB) : Prop :=
  map_Forall (fun k p => qp_AllocationID p = k /\ limit_ok (qp_LimitBytes p) /\
    1 <= qp_ResetDay p <= 28 /\ 0 <= qp_Revision p /\ is_Some (db_allocations db !! k)) (db_policies db).

Definition cycle_bytes_ok (c : QuotaCycleRecord) : Prop :=
  bytes_ok (qc_GrossUplinkBytes c) /\ bytes_ok (qc_GrossDownlinkBytes c) /\
  bytes_ok (qc_AccountedUplinkBytes c) /\ bytes_ok (qc_AccountedDownlinkBytes c) /\
  bytes_ok (qc_ManualResetCount c).

Definition cycles_ok (db : DB) : Prop :=
  map_Forall (fun k c => qc_ID c = k /\ qc_StartsAt c < qc_EndsAt c /\ 1 <= qc_ResetDay c <= 28 /\
    cycle_bytes_ok c /\ is_Some (db_allocations db !! qc_AllocationID c)) (db_cycles db) /\
  unique_on every (fun c => (qc_AllocationID c, qc_StartsAt c)) (db_cycles db) /\
  unique_on is_open qc_AllocationID (db_cycles db).

Definition traffic_ok (db : DB) : Prop :=
  map_Forall (fun k t => bytes_ok (tt_UplinkBytes t) /\ bytes_ok (tt_DownlinkBytes t) /\
    is_Some (db_allocations db !! k)) (db_totals db) /\
  map_Forall (fun k c => counter_ok (tc_UplinkCounter c) /\
    counter_ok (tc_DownlinkCounter c) /\ 0 <= tc_UplinkEpoch c /\
    0 <= tc_DownlinkEpoch c /\ is_Some (db_allocations db !! k)) (db_cursors db) /\
  map_Forall (fun k d => bytes_ok (da_UplinkBytes d) /\ bytes_ok (da_DownlinkBytes d) /\
    is_Some (db_allocations db !! k.1)) (db_daily db) /\
  map_Forall (fun k e => ce_ID e = k /\ is_Some (db_allocations db !! ce_AllocationID e)) (db_events db).

Definition operations_ok (db : DB) : Prop :=
  map_Forall (fun k o => op_ID o = k /\ 0 <= op_AttemptCount o /\
    is_Some (db_allocations db !! op_AllocationID o)) (db_operations db) /\
  unique_on every op_IdempotencyKey (db_operations db) /\
  unique_on every (fun o => (op_AllocationID o, op_DesiredRevision o)) (db_operations db).

Definition resets_ok (db : DB) : Prop :=
  map_Forall (fun k r => re_ID r = k /\ 0 <= re_PreviousUplink r /\ 0 <= re_PreviousDownlink r /\
    is_Some (db_allocations db !! re_AllocationID r) /\ is_Some (db_cycles db !! re_CycleID r) /\
    is_Some (db_commands db !! re_CommandID r) /\ is_Some (db_administrators db !! re_ActorID r)) (db_resets db) /\
  unique_on every re_CommandID (db_resets db).

(** The grouping key of drift removals: COALESCE(template_id, ''). *)
Definition drift_owner (d : DriftRow) : ID := default "" (df_TemplateID d).
Definition drift_ok (db : DB) : Prop :=
  map_Forall (fun k d => df_ID d = k /\ df_StatisticsID d <> "" /\ Contains (df_StatisticsID d) ">>>" = false /\
    0 <= df_AttemptCount d /\ df_State d <> SyncSuperseded /\
    (forall t, df_TemplateID d = Some t -> is_Some (db_templates db !! t)) /\
    (forall s, df_SupersededBy d = Some s -> is_Some (db_drift db !! s))) (db_drift db) /\
  unique_on (fun d => live_state (df_State d)) (fun d => (drift_owner d, df_StatisticsID d)) (db_drift db).

Definition log_ok (db : DB) : Prop :=
  map_Forall (fun k c => cmd_ID c = k) (db_commands db) /\
  map_Forall (fun k a => au_ID a = k) (db_audits db) /\
  map_Forall (fun k a => ad_ID a = k /\ 0 < ad_PasswordVersion a) (db_administrators db) /\
  unique_on every ad_Username (db_administrators db) /\
  map_Forall (fun k s => sr_ID s = k /\ 0 < sr_PasswordVersion s /\
    is_Some (db_administrators db !! sr_AdministratorID s)) (db_sessions db) /\
  unique_on every sr_TokenDigest (db_sessions db).

Record Constraints (db : DB) : Prop := {
  con_users : users_ok (db_users db);
  con_templates : templates_ok (db_templates db);
  con_identities : identities_ok db;
  con_allocations : allocations_ok db;
  con_inbounds : inbounds_ok db;
  con_credentials : credentials_ok db;
  con_policies : policies_ok db;
  con_cycles : cycles_ok db;
  con_traffic : traffic_ok db;
  con_operations : operations_ok db;
  con_resets : resets_ok db;
  con_drift : drift_ok db;
  con_log : log_ok db }.

#[global] Instance some_implies_dec {A} (o : option A) (P : A -> Prop) `{forall a, Decision (P a)} :
  Decision (forall a, o = Some a -> P a).
Proof.
  destruct o as [a|].
  - destruct (decide (P a)); [left|right]; naive_solver.
  - left. done.
Defined.
#[global] Instance users_ok_dec (m : gmap ID ManagedUser) : Decision (users_ok m). Proof. unfold users_ok. apply _. Defined.
#[global] Instance templates_ok_dec (m : gmap ID InboundTemplate) : Decision (templates_ok m). Proof. unfold templates_ok. apply _. Defined.
#[global] Instance identities_ok_dec db : Decision (identities_ok db). Proof. unfold identities_ok. apply _. Defined.
#[global] Instance allocations_ok_dec db : Decision (allocations_ok db). Proof. unfold allocations_ok. apply _. Defined.
#[global] Instance inbounds_ok_dec db : Decision (inbounds_ok db). Proof. unfold inbounds_ok. apply _. Defined.
#[global] Instance credentials_ok_dec db : Decision (credentials_ok db). Proof. unfold credentials_ok. apply _. Defined.
#[global] Instance policies_ok_dec db : Decision (policies_ok db). Proof. unfold policies_ok. apply _. Defined.
#[global] Instance cycles_ok_dec db : Decision (cycles_ok db). Proof. unfold cycles_ok, cycle_bytes_ok. apply _. Defined.
#[global] Instance traffic_ok_dec db : Decision (traffic_ok db). Proof. unfold traffic_ok. apply _. Defined.
#[global] Instance operations_ok_dec db : Decision (operations_ok db). Proof. unfold operations_ok. apply _. Defined.
#[global] Instance resets_ok_dec db : Decision (resets_ok db). Proof. unfold resets_ok. apply _. Defined.
#[global] Instance drift_ok_dec db : Decision (drift_ok db). Proof. unfold drift_ok. apply _. Defined.
#[global] Instance log_ok_dec db : Decision (log_ok db). Proof. unfold log_ok. apply _. Defined.

Lemma Constraints_unfold db :
  Constraints db <->
  users_ok (db_users db) /\ templates_ok (db_templates db) /\ identities_ok db /\ allocations_ok db /\
  inbounds_ok db /\ credentials_ok db /\ policies_ok db /\ cycles_ok db /\ traffic_ok db /\
  operations_ok db /\ resets_ok db /\ drift_ok db /\ log_ok db.
Proof. split; [intros []; tauto|intros; split; tauto]. Qed.

#[global] Instance Constraints_dec db : Decision (Constraints db).
Proof.
  refine (cast_if (decide (users_ok (db_users db) /\ templates_ok (db_templates db) /\ identities_ok db /\
    allocations_ok db /\ inbounds_ok db /\ credentials_ok db /\ policies_ok db /\ cycles_ok db /\
    traffic_ok db /\ operations_ok db /\ resets_ok db /\ drift_ok db /\ log_ok db)));
    by rewrite Constraints_unfold.
Defined.

(** ** Transactions *)
Record Conn := mkConn { conn_db : DB; conn_rand : nat }.
#[global] Instance eta_Conn : Eta Conn := fun r => mkConn (conn_db r) (conn_rand r).

(** A step on the connection: its answer or its error, and the connection it
    leaves (also after an error). *)
Definition Tx (A : Type) : Type := Conn -> Res A * Conn.

#[global] Instance tx_ret : MRet Tx := fun A a c => (Ok a, c).
#[global] Instance tx_bind : MBind Tx := fun A B k m c =>
  match m c with (Ok a, c') => k a c' | (Err e, c') => (Err e, c') end.

Definition tx_fail {A} (e : error) : Tx A := fun c => (Err e, c).
Definition tx_lift {A} (r : Res A) : Tx A := fun c => (r, c).
(** [SELECT] *)
Definition tx_read {A} (f : DB -> A) : Tx A := fun c => (Ok (f (conn_db c)), c).

Definition no_rows_text : string := "sql: no rows in result set".
Definition ErrNoRows : error := SqlError no_rows_text.
Definition tx_row {A} (f : DB -> option A) : Tx A := fun c =>
  match f (conn_db c) with Some a => (Ok a, c) | None => (Err ErrNoRows, c) end.

Definition constraint_failed : error := SqlError "constraint failed".

(** A writing statement: the engine refuses it when the resulting tables break
    a constraint. *)
Definition tx_exec (f : DB -> DB) : Tx unit := fun c =>
  if decide (Constraints (f (conn_db c))) then (Ok tt, c <| conn_db := f (conn_db c) |>)
  else (Err constraint_failed, c).

(** [INSERT]: the primary key must be free. *)
Definition insert_row {K R} `{Countable K} (table : DB -> gmap K R) (set : gmap K R -> DB -> DB)
    (k : K) (r : R) : Tx unit := fun c =>
  match table (conn_db c) !! k with
  | Some _ => (Err constraint_failed, c)
  | None => tx_exec (fun db => set (<[k := r]> (table db)) db) c
  end.

(** [UPDATE ... WHERE] over a table, and the number of rows it affects. *)
Definition update_rows {K R} `{Countable K} (cond : R -> bool) (f : R -> R) (m : gmap K R) : gmap K R :=
  (fun r => if cond r then f r else r) <$> m.
Definition count_rows {K R} `{Countable K} (cond : R -> bool) (m : gmap K R) : Z :=
  Z.of_nat (length (List.filter (fun kr => cond kr.2) (map_to_list m))).

(** [UPDATE ... WHERE] with the primary key given. *)
Definition update_at {K R} `{Countable K} (k : K) (cond : R -> bool) (f : R -> R) (m : gmap K R) : gmap K R :=
  match m !! k with Some r => if cond r then <[k := f r]> m else m | None => m end.
Definition count_at {K R} `{Countable K} (k : K) (cond : R -> bool) (m : gmap K R) : Z :=
  match m !! k with Some r => if cond r then 1 else 0 | None => 0 end.

#[global] Arguments update_rows : simpl never.
#[global] Arguments update_at : simpl never.

(** The rows that satisfy a condition, and one of them. *)
Definition select {K R} `{Countable K} (cond : R -> bool) (m : gmap K R) : list R :=
  List.filter cond ((map_to_list m).*2).
Definition find_row {K R} `{Countable K} (cond : R -> bool) (m : gmap K R) : option R :=
  head (select cond m).

(** internal/persistence/sqlite/store.go: commit on success, roll back the
    tables on an error. *)
Definition WithWriteTx {A} (fn : Tx A) : Tx A := fun c =>
  match fn c with
  | (Ok a, c') => (Ok a, c')
  | (Err e, c') => (Err e, c' <| conn_db := conn_db c |>)
  end.
Definition WithReadTx {A} (fn : Tx A) : Tx A := WithWriteTx fn.

(** store_templates.go *)
Definition translateConstraint {A} (m : Tx A) (message : string) : Tx A := fun c =>
  match m c with
  | (Err (SqlError text), c') =>
      if Contains text "UNIQUE constraint" || Contains text "constraint failed"
      then (Err (ConflictError message), c') else (Err (SqlError text), c')
  | r => r
  end.

(** [fmt.Errorf("...: %w", err)] *)
Definition tx_wrap {A} (prefix : string) (m : Tx A) : Tx A := fun c =>
  match m c with
  | (Err e, c') => (Err (PlainError (prefix +:+ ": " +:+ error_text e)), c')
  | r => r
  end.

(** [errors.Is(err, sql.ErrNoRows)] replaced by another error. *)
Definition on_no_rows {A} (m : Tx A) (e : error) : Tx A := fun c =>
  match m c with
  | (Err (SqlError text), c') =>
      if bool_decide (text = no_rows_text) then (Err e, c') else (Err (SqlError text), c')
  | r => r
  end.

(** ** Random identifiers *)

(** The bytes of the n-th draw from the system's random source, of the given
    size. *)
Class Entropy := rand_read : nat -> nat -> option (list Z).
(** crypto/rand: a successful read fills the whole buffer. *)
Class EntropyFull `{Entropy} := rand_full : forall n size bytes,
  rand_read n size = Some bytes -> length bytes = size /\ Forall is_byte bytes.

(** [rand.Read] of [size] bytes. *)
Definition tx_rand `{Entropy} (size : nat) : Tx (option (list Z)) := fun c =>
  (Ok (rand_read (conn_rand c) size), c <| conn_rand := S (conn_rand c) |>).

Definition NewID_tx `{Entropy} : Tx ID := fun c =>
  (NewID (rand_read (conn_rand c) 16), c <| conn_rand := S (conn_rand c) |>).

(** ** Reasoning about transactions *)
Lemma tx_bind_ok {A B} (m : Tx A) (k : A -> Tx B) c b c2 :
  mbind k m c = (Ok b, c2) -> exists a c1, m c = (Ok a, c1) /\ k a c1 = (Ok b, c2).
Proof. cbn. unfold mbind, tx_bind. destruct (m c) as [[a|e] c1]; [eauto|done]. Qed.

Lemma tx_exec_ok f c r c2 :
  tx_exec f c = (Ok r, c2) ->
  conn_db c2 = f (conn_db c) /\ Constraints (f (conn_db c)) /\ conn_rand c2 = conn_rand c.
Proof. unfold tx_exec. destruct (decide _); [|done]. by intros [= <- <-]. Qed.

Lemma insert_row_ok {K R} `{Countable K} (table : DB -> gmap K R) set k (row : R) c r c2 :
  insert_row table set k row c = (Ok r, c2) ->
  table (conn_db c) !! k = None /\
  conn_db c2 = set (<[k := row]> (table (conn_db c))) (conn_db c) /\
  Constraints (conn_db c2) /\ conn_rand c2 = conn_rand c.
Proof.
  unfold insert_row. destruct (table (conn_db c) !! k) eqn:E; [done|].
  intros (H1 & H2 & H3)%tx_exec_ok. rewrite H1. done.
Qed.

Lemma tx_ret_ok {A} (x : A) c a c2 : (mret x : Tx A) c = (Ok a, c2) -> a = x /\ c2 = c.
Proof. by intros [= <- <-]. Qed.

Lemma tx_read_ok {A} (f : DB -> A) c a c2 : tx_read f c = (Ok a, c2) -> a = f (conn_db c) /\ c2 = c.
Proof. by intros [= <- <-]. Qed.

Lemma tx_row_ok {A} (f : DB -> option A) c a c2 :
  tx_row f c = (Ok a, c2) -> f (conn_db c) = Some a /\ c2 = c.
Proof. unfold tx_row. destruct (f _); [|done]. by intros [= <- <-]. Qed.

Lemma translate_ok {A} (m : Tx A) msg c a c2 :
  translateConstraint m msg c = (Ok a, c2) -> m c = (Ok a, c2).
Proof. unfold translateConstraint. destruct (m c) as [[?|[]] ?]; try done. by case_match. Qed.

Lemma wrap_ok {A} p (m : Tx A) c a c2 : tx_wrap p m c = (Ok a, c2) -> m c = (Ok a, c2).
Proof. unfold tx_wrap. by destruct (m c) as [[?|?] ?]. Qed.

Lemma on_no_rows_ok {A} (m : Tx A) e c a c2 : on_no_rows m e c = (Ok a, c2) -> m c = (Ok a, c2).
Proof. unfold on_no_rows. destruct (m c) as [[?|[]] ?]; try done. by case_match. Qed.

Lemma WithWriteTx_ok {A} (fn : Tx A) c a c2 : WithWriteTx fn c = (Ok a, c2) -> fn c = (Ok a, c2).
Proof. unfold WithWriteTx. by destruct (fn c) as [[?|?] ?]. Qed.

(** A failed transaction leaves the tables untouched. *)
Lemma WithWriteTx_err {A} (fn : Tx A) c e c2 :
  WithWriteTx fn c = (Err e, c2) -> conn_db c2 = conn_db c.
Proof. unfold WithWriteTx. destruct (fn c) as [[?|?] ?]; [done|]. by intros [= <- <-]. Qed.

Lemma elem_of_select {K R} `{Countable K} (cond : R -> bool) (m : gmap K R) r :
  r ∈ select cond m <-> cond r = true /\ exists k, m !! k = Some r.
Proof.
  unfold select. rewrite list_elem_of_In, filter_In, <- list_elem_of_In, list_elem_of_fmap.
  split.
  - intros [([k r'] & -> & Hin) Hc]. split; [done|]. exists k. by apply elem_of_map_to_list.
  - intros (Hc & k & Hk). split; [|done]. exists (k, r). split; [done|]. by apply elem_of_map_to_list.
Qed.

Lemma find_row_some {K R} `{Countable K} (cond : R -> bool) (m : gmap K R) r :
  find_row cond m = Some r -> cond r = true /\ exists k, m !! k = Some r.
Proof.
  intros Hr. apply elem_of_select. unfold find_row in Hr. destruct (select cond m); [done|].
  injection Hr as ->. by left.
Qed.

Lemma find_row_none {K R} `{Countable K} (cond : R -> bool) (m : gmap K R) k r :
  find_row cond m = None -> m !! k = Some r -> cond r = false.
Proof.
  unfold find_row. intros Hn Hk. destruct (cond r) eqn:E; [|done].
  assert (r ∈ select cond m) as Hin by (apply elem_of_select; eauto).
  destruct (select cond m); [by apply elem_of_nil in Hin|done].
Qed.

Lemma lookup_update_at {K R} `{Countable K} (k k' : K) cond (f : R -> R) m :
  update_at k cond f m !! k' =
  (if decide (k = k') then (fun r => if cond r then f r else r) <$> m !! k' else m !! k').
Proof.
  unfold update_at. destruct (decide (k = k')) as [<-|Hk].
  - destruct (m !! k) as [r|] eqn:E; [|by rewrite E]. destruct (cond r) eqn:Ec.
    + rewrite lookup_insert_eq. cbn. by rewrite Ec.
    + rewrite E. cbn. by rewrite Ec.
  - destruct (m !! k) as [r|]; [|done]. destruct (cond r); [|done]. by rewrite lookup_insert_ne.
Qed.

Lemma update_at_miss {K R} `{Countable K} (k : K) cond (f : R -> R) m :
  (count_at k cond m =? 1) = false -> update_at k cond f m = m.
Proof.
  unfold count_at, update_at. destruct (m !! k) as [r|]; [|done]. by destruct (cond r).
Qed.

Lemma count_at_1 {K R} `{Countable K} (k : K) cond (m : gmap K R) :
  (count_at k cond m =? 1) = true <-> exists r, m !! k = Some r /\ cond r = true.
Proof.
  unfold count_at. destruct (m !! k) as [r|].
  - destruct (cond r) eqn:E; split; [eauto|done|done|]. intros (? & [= <-] & ?). congruence.
  - split; [done|]. by intros (? & ? & ?).
Qed.

(** Tactics: take the successful run of a transaction apart. *)
Ltac tx_step H :=
  let a := fresh "a" in let c := fresh "c" in let E := fresh "E" in
  apply tx_bind_ok in H as (a & c & E & H).


(** ** What a computation leaves alone *)

(** Whatever its answer, the computation does not change the part [g]. *)
Definition leaves {A T} (g : DB -> T) (m : Tx A) : Prop := forall c, g (conn_db (m c).2) = g (conn_db c).

Lemma leaves_run {A T} (g : DB -> T) (m : Tx A) c r c2 : leaves g m -> m c = (r, c2) -> g (conn_db c2) = g (conn_db c).
Proof. intros Hm He. specialize (Hm c). by rewrite He in Hm. Qed.

Section Leaves.
Context {T : Type} (g : DB -> T).

Lemma leaves_bind {A B} (m : Tx A) (k : A -> Tx B) : leaves g m -> (forall a, leaves g (k a)) -> leaves g (mbind k m).
Proof.
  intros Hm Hk c. unfold mbind, tx_bind. destruct (m c) as [[a|e] c1] eqn:E;
    pose proof (leaves_run _ _ _ _ _ Hm E) as H1; [|done]. by rewrite Hk.
Qed.
Lemma leaves_ret {A} (a : A) : leaves g (mret a). Proof. by intros c. Qed.
Lemma leaves_fail {A} e : leaves g (tx_fail (A := A) e). Proof. by intros c. Qed.
Lemma leaves_lift {A} (r : Res A) : leaves g (tx_lift r). Proof. by intros c. Qed.
Lemma leaves_read {A} (f : DB -> A) : leaves g (tx_read f). Proof. by intros c. Qed.
Lemma leaves_row {A} (f : DB -> option A) : leaves g (tx_row f).
Proof. intros c. unfold tx_row. by destruct (f _). Qed.
Lemma leaves_NewID {En : Entropy} : leaves g NewID_tx. Proof. by intros c. Qed.
Lemma leaves_wrap {A} p (m : Tx A) : leaves g m -> leaves g (tx_wrap p m).
Proof. intros Hm c. specialize (Hm c). unfold tx_wrap. by destruct (m c) as [[?|?] ?]. Qed.
Lemma leaves_translate {A} msg (m : Tx A) : leaves g m -> leaves g (translateConstraint m msg).
Proof.
  intros Hm c. specialize (Hm c). unfold translateConstraint.
  destruct (m c) as [[?|[]] ?]; try done. by case_match.
Qed.
Lemma leaves_on_no_rows {A} e (m : Tx A) : leaves g m -> leaves g (on_no_rows m e).
Proof.
  intros Hm c. specialize (Hm c). unfold on_no_rows.
  destruct (m c) as [[?|[]] ?]; try done. by case_match.
Qed.
Lemma leaves_tx {A} (fn : Tx A) : leaves g fn -> leaves g (WithWriteTx fn).
Proof. intros Hm c. specialize (Hm c). unfold WithWriteTx. by destruct (fn c) as [[?|?] ?]. Qed.
Lemma leaves_exec f : (forall db, g (f db) = g db) -> leaves g (tx_exec f).
Proof. intros Hf c. unfold tx_exec. destruct (decide _); [apply Hf|done]. Qed.
Lemma leaves_insert {K R} `{Countable K} table set (k : K) (r : R) :
  (forall m db, g (set m db) = g db) -> leaves g (insert_row table set k r).
Proof.
  intros Hs c. unfold insert_row. destruct (table (conn_db c) !! k); [done|].
  by apply (leaves_exec (fun db => set (<[k:=r]> (table db)) db)).
Qed.
End Leaves.

Create HintDb leaves.
#[export] Hint Resolve leaves_ret leaves_fail leaves_lift leaves_read leaves_row leaves_NewID : leaves.

(** Walk through a computation that never writes a part of the tables. *)
Ltac leaves_walk :=
  repeat first
    [ match goal with |- forall _, _ => intro end
    | solve [eauto with leaves]
    | apply leaves_bind | apply leaves_tx | apply leaves_wrap | apply leaves_translate | apply leaves_on_no_rows
    | apply leaves_exec; intros; done
    | apply leaves_insert; intros; done
    | match goal with
      | |- leaves _ (if ?b then _ else _) => destruct b
      | |- leaves _ (match ?x with _ => _ end) => destruct x
      end ].
