(* ===== verification/Secrets.v ===== *)
(** * Secrets: internal/security/secrets.go and the keys of tokens.go

    The root key file, the keyring that seals the fields of the tables, and the
    user keys handed to Xray. The AEAD and the key derivation come from other
    packages ([Aead], [Hkdf]); base64, with and without padding, is the encoding
    of the language's library. Then the random tokens. *)


From Stdlib Require Import ZArith Lia Ascii.
From S2P Require Import Prelude GoTypes Identity Text Inbound Tokens Database.

(** ** encoding/base64, standard alphabet with padding *)
Definition alphabet : string := "ABCDEFGHIJKLMNOPQRSTUVWXYZabcdefghijklmnopqrstuvwxyz0123456789+/".
Definition encode_sextet (v : Z) : ascii := default "="%char (String.get (Z.to_nat v) alphabet).
Definition decode_sextet (c : ascii) : option Z :=
  let b := byte_of c in
  if between 65 b 90 then Some (b - 65)
  else if between 97 b 122 then Some (b - 71)
  else if between 48 b 57 then Some (b + 4)
  else if b =? 43 then Some 62
  else if b =? 47 then Some 63
  else None.

Fixpoint encode64 (l : list Z) : string :=
  match l with
  | [] => EmptyString
  | [b0] =>
      String (encode_sextet (b0 / 4)) (String (encode_sextet (b0 mod 4 * 16)) "==")
  | [b0; b1] =>
      String (encode_sextet (b0 / 4)) (String (encode_sextet (b0 mod 4 * 16 + b1 / 16))
        (String (encode_sextet (b1 mod 16 * 4)) "="))
  | b0 :: b1 :: b2 :: l =>
      String (encode_sextet (b0 / 4)) (String (encode_sextet (b0 mod 4 * 16 + b1 / 16))
        (String (encode_sextet (b1 mod 16 * 4 + b2 / 64)) (String (encode_sextet (b2 mod 64)) (encode64 l))))
  end.

Fixpoint decode_quanta (s : string) : option (list Z) :=
  match s with
  | EmptyString => Some []
  | String c0 (String c1 (String c2 (String c3 s))) =>
      x ← decode_sextet c0;
      y ← decode_sextet c1;
      if bool_decide (c2 = "="%char) then
        if bool_decide (c3 = "="%char) && bool_decide (s = "") then Some [x * 4 + y / 16] else None
      else
        z ← decode_sextet c2;
        if bool_decide (c3 = "="%char) then
          if bool_decide (s = "") then Some [x * 4 + y / 16; y mod 16 * 16 + z / 4] else None
        else
          w ← decode_sextet c3;
          rest ← decode_quanta s;
          Some (x * 4 + y / 16 :: y mod 16 * 16 + z / 4 :: z mod 4 * 64 + w :: rest)
  | _ => None
  end.

(** Line breaks are skipped wherever they stand. *)
Fixpoint skip_newlines (s : string) : string :=
  match s with
  | EmptyString => EmptyString
  | String c s => if (byte_of c =? 10) || (byte_of c =? 13) then skip_newlines s else String c (skip_newlines s)
  end.
Definition decode64 (s : string) : option (list Z) := decode_quanta (skip_newlines s).

(** ** The root key *)
Definition newline : ascii := "010"%char.

(** [stat]: whether the file is regular, and its permission bits. *)
Definition LoadRootKey (stat : option (bool * Z)) (content : option string) : Res (list Z) :=
  match stat with
  | None => Err (PlainError "root key file is unavailable")
  | Some (regular, perm) =>
      if negb regular || negb (Z.land perm 63 =? 0) then
        Err (PlainError "root key file must be regular and accessible only by its owner")
      else
        match content with
        | None => Err (PlainError "read root key file")
        | Some encoded =>
            let n := String.length encoded in
            if (Z.of_nat n <? 2) || negb (bool_decide (String.get (n - 1) encoded = Some newline)) ||
               bool_decide (String.get (n - 2) encoded = Some newline)
            then Err (PlainError "root key file must contain one Base64 line ending in a newline")
            else
              match decode64 (String.substring 0 (n - 1) encoded) with
              | Some raw =>
                  if Z.of_nat (length raw) =? 32 then Ok raw
                  else Err (PlainError "root key must decode to exactly 32 bytes")
              | None => Err (PlainError "root key must decode to exactly 32 bytes")
              end
        end
  end.

(** ** The keyring *)

(** golang.org/x/crypto/hkdf over SHA-256: the bytes for a root key, a label and a size. *)
Class Hkdf := hkdf : list Z -> string -> nat -> list Z.
(** It fills the buffer it is asked to fill. *)
Class HkdfOk `{Hkdf} := hkdf_length : forall root label size, length (hkdf root label size) = size.
(** golang.org/x/crypto/chacha20poly1305 with extended nonces: key, nonce,
    plaintext or ciphertext, additional data. *)
Class Aead := { Seal : list Z -> list Z -> string -> string -> string;
                Open : list Z -> list Z -> string -> string -> option string }.
(** Opening with the key, the nonce and the data of the sealing gives the
    plaintext back. *)
Class AeadOk `{Aead} := open_seal : forall key nonce plaintext aad,
  Open key nonce (Seal key nonce plaintext aad) aad = Some plaintext.

Record Keyring := mkKeyring { fieldKey : list Z; csrfKey : list Z }.

Definition KeySize : nat := 32.
Definition NonceSizeX : nat := 24.

Definition NewKeyring `{Hkdf} (root : list Z) : Res Keyring :=
  if negb (Z.of_nat (length root) =? 32) then Err (PlainError "root key must be 32 bytes")
  else Ok (mkKeyring (hkdf root "xpanel-field-aead-v1" KeySize) (hkdf root "xpanel-csrf-v1" 32)).

Definition bad_key : error := PlainError "chacha20poly1305: bad key length".

(** [Encrypt] returns the ciphertext and the nonce; a stored nonce is a string
    of bytes. *)
Definition Encrypt `{Aead} {En : Entropy} (k : Keyring) (plaintext aad : string) : Tx (string * string) :=
  if negb (bool_decide (length (fieldKey k) = KeySize)) then tx_fail bad_key
  else
    nonce ← tx_rand NonceSizeX;
    match nonce with
    | None => tx_fail (PlainError "generate secret nonce")
    | Some nonce => mret (Seal (fieldKey k) nonce plaintext aad, string_of_bytes nonce)
    end.

Definition Decrypt `{Aead} (k : Keyring) (ciphertext nonce aad : string) : Res string :=
  if negb (bool_decide (length (fieldKey k) = KeySize)) then Err bad_key
  else
    match Open (fieldKey k) (bytes_of nonce) ciphertext aad with
    | None => Err (PlainError "secret authentication failed")
    | Some plaintext => Ok plaintext
    end.

Definition NUL : string := String "000"%char "".
Definition SecretAAD (entity rowID field : string) (version : Z) : string :=
  entity +:+ NUL +:+ rowID +:+ NUL +:+ field +:+ NUL +:+ pretty version.

Definition verifierPlaintext : string := "xpanel-root-key-verifier".
Definition verifier_aad : string := SecretAAD "panel_settings" "1" "key_verifier" 1.
Definition NewVerifier `{Aead} {En : Entropy} (k : Keyring) : Tx (string * string) :=
  Encrypt k verifierPlaintext verifier_aad.
Definition Verify `{Aead} (k : Keyring) (ciphertext nonce : string) : Res unit :=
  match Decrypt k ciphertext nonce verifier_aad with
  | Ok plaintext => if bool_decide (plaintext = verifierPlaintext) then Ok tt else Err (PlainError "root_key_mismatch")
  | Err _ => Err (PlainError "root_key_mismatch")
  end.

(** ** User keys (tokens.go) *)
Definition GenerateUserKey {En : Entropy} (method : string) : Tx RedactedString :=
  length ← tx_lift (methodKeyLength method);
  key ← tx_rand (Z.to_nat length);
  match key with
  | None => tx_fail (PlainError "generate Shadowsocks user key")
  | Some key => mret (NewRedactedString (encode64 key))
  end.

Definition ValidateUserKey (method encoded : string) : Res unit :=
  match methodKeyLength method with
  | Err e => Err e
  | Ok len =>
      match decode64 encoded with
      | Some key => if Z.of_nat (length key) =? len then Ok tt else Err (PlainError ("invalid key for " +:+ method))
      | None => Err (PlainError ("invalid key for " +:+ method))
      end
  end.

Lemma string_drop_app a b : string_drop (String.length a) (a +:+ b) = b.
Proof. by induction a. Qed.

(** ** The encoding *)
#[local] Ltac Zify.zify_post_hook ::= Z.to_euclidean_division_equations.

Definition sextet_ok (v : Z) : bool :=
  bool_decide (decode_sextet (encode_sextet v) = Some v) && negb (bool_decide (encode_sextet v = "="%char)) &&
  negb ((byte_of (encode_sextet v) =? 10) || (byte_of (encode_sextet v) =? 13)).
Lemma sextets_ok : forallb sextet_ok (seqZ 0 64) = true.
Proof. by vm_compute. Qed.

Lemma sextet v : 0 <= v < 64 ->
  decode_sextet (encode_sextet v) = Some v /\ encode_sextet v <> "="%char /\
  (byte_of (encode_sextet v) =? 10) || (byte_of (encode_sextet v) =? 13) = false.
Proof.
  intros Hv. pose proof sextets_ok as H. rewrite forallb_forall in H.
  specialize (H v). rewrite <- list_elem_of_In, elem_of_seqZ in H. specialize (H ltac:(lia)).
  apply andb_true_iff in H as [[H1%bool_decide_eq_true H2]%andb_true_iff H3].
  apply negb_true_iff in H2, H3. apply bool_decide_eq_false in H2. done.
Qed.

Lemma list_triple_ind (P : list Z -> Prop) :
  P [] -> (forall a, P [a]) -> (forall a b, P [a; b]) -> (forall a b c l, P l -> P (a :: b :: c :: l)) -> forall l, P l.
Proof.
  intros H0 H1 H2 H3. fix IH 1. intros [|a [|b [|c l]]]; [done|apply H1|apply H2|apply H3, IH].
Qed.

Lemma skip_encode64 l : Forall is_byte l -> skip_newlines (encode64 l) = encode64 l.
Proof.
  induction l as [|a|a b|a b c l IH] using list_triple_ind; intros Hl; [done| | |].
  - apply Forall_cons_1 in Hl as [Ha _]. unfold is_byte in *.
    destruct (sextet (a / 4)) as (_ & _ & H1); [lia|].
    destruct (sextet (a mod 4 * 16)) as (_ & _ & H2); [lia|].
    cbn -[encode_sextet Z.div Z.modulo Z.mul]. rewrite H1, H2. done.
  - apply Forall_cons_1 in Hl as [Ha [Hb _]%Forall_cons_1]. unfold is_byte in *.
    destruct (sextet (a / 4)) as (_ & _ & H1); [lia|].
    destruct (sextet (a mod 4 * 16 + b / 16)) as (_ & _ & H2); [lia|].
    destruct (sextet (b mod 16 * 4)) as (_ & _ & H3); [lia|].
    cbn -[encode_sextet Z.div Z.modulo Z.mul Z.add]. rewrite H1, H2, H3. done.
  - apply Forall_cons_1 in Hl as [Ha [Hb [Hc Hl]%Forall_cons_1]%Forall_cons_1]. unfold is_byte in *.
    destruct (sextet (a / 4)) as (_ & _ & H1); [lia|].
    destruct (sextet (a mod 4 * 16 + b / 16)) as (_ & _ & H2); [lia|].
    destruct (sextet (b mod 16 * 4 + c / 64)) as (_ & _ & H3); [lia|].
    destruct (sextet (c mod 64)) as (_ & _ & H4); [lia|].
    cbn -[encode_sextet Z.div Z.modulo Z.mul Z.add]. rewrite H1, H2, H3, H4, IH by done. done.
Qed.

Lemma decode_encode_quanta l : Forall is_byte l -> decode_quanta (encode64 l) = Some l.
Proof.
  induction l as [|a|a b|a b c l IH] using list_triple_ind; intros Hl; [done| | |].
  - apply Forall_cons_1 in Hl as [Ha _]. unfold is_byte in *.
    destruct (sextet (a / 4)) as (H1 & _ & _); [lia|].
    destruct (sextet (a mod 4 * 16)) as (H2 & _ & _); [lia|].
    cbn -[encode_sextet decode_sextet Z.div Z.modulo Z.mul Z.add]. rewrite H1. cbn -[encode_sextet decode_sextet Z.div Z.modulo Z.mul Z.add].
    rewrite H2. cbn -[Z.div Z.modulo Z.mul Z.add]. do 2 f_equal. lia.
  - apply Forall_cons_1 in Hl as [Ha [Hb _]%Forall_cons_1]. unfold is_byte in *.
    destruct (sextet (a / 4)) as (H1 & _ & _); [lia|].
    destruct (sextet (a mod 4 * 16 + b / 16)) as (H2 & _ & _); [lia|].
    destruct (sextet (b mod 16 * 4)) as (H3 & N3 & _); [lia|].
    cbn -[encode_sextet decode_sextet Z.div Z.modulo Z.mul Z.add]. rewrite H1. cbn -[encode_sextet decode_sextet Z.div Z.modulo Z.mul Z.add].
    rewrite H2. cbn -[encode_sextet decode_sextet Z.div Z.modulo Z.mul Z.add]. rewrite bool_decide_eq_false_2 by done. rewrite H3.
    cbn -[Z.div Z.modulo Z.mul Z.add]. f_equal. f_equal; [lia|]. f_equal. lia.
  - apply Forall_cons_1 in Hl as [Ha [Hb [Hc Hl]%Forall_cons_1]%Forall_cons_1]. unfold is_byte in *.
    destruct (sextet (a / 4)) as (H1 & _ & _); [lia|].
    destruct (sextet (a mod 4 * 16 + b / 16)) as (H2 & _ & _); [lia|].
    destruct (sextet (b mod 16 * 4 + c / 64)) as (H3 & N3 & _); [lia|].
    destruct (sextet (c mod 64)) as (H4 & N4 & _); [lia|].
    cbn -[encode_sextet decode_sextet Z.div Z.modulo Z.mul Z.add]. rewrite H1. cbn -[encode_sextet decode_sextet Z.div Z.modulo Z.mul Z.add].
    rewrite H2. cbn -[encode_sextet decode_sextet Z.div Z.modulo Z.mul Z.add]. rewrite bool_decide_eq_false_2 by done. rewrite H3.
    cbn -[encode_sextet decode_sextet Z.div Z.modulo Z.mul Z.add]. rewrite bool_decide_eq_false_2 by done. rewrite H4, (IH Hl).
    cbn -[Z.div Z.modulo Z.mul Z.add]. f_equal. f_equal; [lia|]. f_equal; [lia|]. f_equal; lia.
Qed.

Lemma decode64_encode64 l : Forall is_byte l -> decode64 (encode64 l) = Some l.
Proof. intros Hl. unfold decode64. by rewrite skip_encode64, decode_encode_quanta. Qed.

Lemma bytes_of_bytes s : Forall is_byte (bytes_of s).
Proof.
  induction s as [|c s IH]; cbn; constructor; [|done]. unfold is_byte, byte_of.
  pose proof (Ascii.nat_ascii_bounded c). lia.
Qed.
Lemma string_of_bytes_of s : string_of_bytes (bytes_of s) = s.
Proof.
  induction s as [|c s IH]; [done|]. cbn. rewrite IH. f_equal. unfold byte_of. by rewrite Nat2Z.id, ascii_nat_embedding.
Qed.
Lemma bytes_of_string_of_bytes l : Forall is_byte l -> bytes_of (string_of_bytes l) = l.
Proof.
  induction 1 as [|b l Hb _ IH]; [done|]. cbn. rewrite IH. f_equal.
  unfold byte_of. rewrite Ascii.nat_ascii_embedding; unfold is_byte in Hb; lia.
Qed.

Section Sealed.
Context {Ae : Aead} {Aok : AeadOk} {En : Entropy} {Eok : EntropyFull}.

Lemma Encrypt_Decrypt k plaintext aad c ct nonce c2 :
  Encrypt k plaintext aad c = (Ok (ct, nonce), c2) -> Decrypt k ct nonce aad = Ok plaintext.
Proof.
  unfold Encrypt, Decrypt. destruct (bool_decide (length (fieldKey k) = KeySize)); [|done]. cbn [negb].
  intros H. tx_step H. injection E as <- <-. destruct (rand_read _ _) as [bytes|] eqn:Er; [|done].
  injection H as <- <- _. apply rand_full in Er as [_ Hb]. rewrite bytes_of_string_of_bytes by done.
  by rewrite open_seal.
Qed.

Lemma GenerateUserKey_valid method c key c2 :
  GenerateUserKey method c = (Ok key, c2) -> ValidateUserKey method (Reveal key) = Ok tt.
Proof.
  unfold GenerateUserKey, ValidateUserKey. intros H. tx_step H. injection E as E <-. rewrite E.
  tx_step H. injection E0 as <- <-. destruct (rand_read _ _) as [bytes|] eqn:Er; [|done].
  injection H as <- _. apply rand_full in Er as [Hl Hb]. cbn [Reveal]. rewrite decode64_encode64 by done.
  rewrite Hl, Z2Nat.id, Z.eqb_refl; [done|]. unfold methodKeyLength in E. repeat case_bool_decide; by simplify_eq.
Qed.

Lemma LoadRootKey_ok stat content raw :
  LoadRootKey stat content = Ok raw -> length raw = 32%nat.
Proof.
  unfold LoadRootKey. intros H. repeat case_match; try done. injection H as ->. lia.
Qed.

(** With the root key file accepted and the random source available, a
    user key the panel generates for a supported method is a valid key for
    that method, and the keyring recovers it from what it stored under the
    additional data of its row; no table is touched. *)
Theorem user_key_end_to_end {Hk : Hkdf} {Hok : HkdfOk} stat content raw method row c :
  LoadRootKey stat content = Ok raw ->
  is_ok (methodKeyLength method) ->
  (forall n size, is_Some (rand_read n size)) ->
  exists k key c1 ct nonce c2,
    NewKeyring raw = Ok k /\
    GenerateUserKey method c = (Ok key, c1) /\
    Encrypt k (Reveal key) (SecretAAD "access_credentials" row "user_key" 1) c1 = (Ok (ct, nonce), c2) /\
    ValidateUserKey method (Reveal key) = Ok tt /\
    Decrypt k ct nonce (SecretAAD "access_credentials" row "user_key" 1) = Ok (Reveal key) /\
    conn_db c2 = conn_db c.
Proof.
  intros Hl%LoadRootKey_ok Hm Hr. unfold NewKeyring. rewrite Hl. cbn [Z.of_nat Z.eqb negb].
  set (k := mkKeyring _ _). destruct (methodKeyLength method) as [n|] eqn:Em; [|done].
  destruct (Hr (conn_rand c) (Z.to_nat n)) as [bytes Hb].
  destruct (Hr (S (conn_rand c)) NonceSizeX) as [nonce Hn].
  assert (GenerateUserKey method c = (Ok (NewRedactedString (encode64 bytes)), c <| conn_rand := S (conn_rand c) |>)) as Hg.
  { unfold GenerateUserKey. rewrite Em. unfold mbind, tx_bind, tx_lift, tx_rand. by rewrite Hb. }
  set (c1 := c <| conn_rand := S (conn_rand c) |>) in Hg.
  assert (exists ct nc c2, Encrypt k (encode64 bytes) (SecretAAD "access_credentials" row "user_key" 1) c1 = (Ok (ct, nc), c2) /\
    conn_db c2 = conn_db c) as (ct & nc & c2 & He & Hc).
  { unfold Encrypt. rewrite bool_decide_eq_true_2 by apply hkdf_length. cbn [negb].
    unfold mbind, tx_bind, tx_rand. change (conn_rand c1) with (S (conn_rand c)). rewrite Hn. eauto. }
  exists k, (NewRedactedString (encode64 bytes)), c1, ct, nc, c2.
  split_and!; [done..|by eapply GenerateUserKey_valid|by eapply Encrypt_Decrypt|done].
Qed.
End Sealed.

(** A concrete keyring: the nonce and the data are written in front of the
    plaintext. *)
Section SealedWitness.
#[local] Instance demo_hkdf : Hkdf := fun root _ size => repeat (Z.of_nat (length root)) size.
#[local] Instance demo_hkdf_ok : HkdfOk. Proof. intros root label size. apply repeat_length. Qed.
#[local] Instance demo_aead : Aead := {
  Seal key nonce plaintext aad := aad +:+ plaintext;
  Open key nonce ciphertext aad :=
    if HasPrefix ciphertext aad then Some (string_drop (String.length aad) ciphertext) else None }.
#[local] Instance demo_aead_ok : AeadOk.
Proof. intros key nonce plaintext aad. cbn. by rewrite HasPrefix_app, string_drop_app. Qed.
#[local] Instance demo_entropy : Entropy := fun n size => Some (repeat (Z.of_nat (n mod 256)) size).
#[local] Instance demo_entropy_full : EntropyFull.
Proof.
  intros n size bytes [= <-]. split; [apply repeat_length|]. apply Forall_forall. intros b ->%list_elem_of_In%repeat_spec.
  unfold is_byte. pose proof (Nat.mod_upper_bound n 256). lia.
Qed.

Definition demo_root_file : string := encode64 (repeat 7 32) +:+ String newline "".

Lemma user_key_end_to_end_witness :
  LoadRootKey (Some (true, 384)) (Some demo_root_file) = Ok (repeat 7 32) /\
  exists k key c1 ct nonce c2,
    NewKeyring (repeat 7 32) = Ok k /\
    GenerateUserKey MethodAES256 (mkConn empty_db 0) = (Ok key, c1) /\
    Encrypt k (Reveal key) (SecretAAD "access_credentials" "a" "user_key" 1) c1 = (Ok (ct, nonce), c2) /\
    ValidateUserKey MethodAES256 (Reveal key) = Ok tt /\
    Decrypt k ct nonce (SecretAAD "access_credentials" "a" "user_key" 1) = Ok (Reveal key) /\
    conn_db c2 = empty_db.
Proof.
  assert (LoadRootKey (Some (true, 384)) (Some demo_root_file) = Ok (repeat 7 32)) as H by reflexivity.
  split; [exact H|].
  apply (user_key_end_to_end _ _ _ MethodAES256 "a" (mkConn empty_db 0) H); [done|].
  intros n size. by eexists.
Defined.
End SealedWitness.

(** * Base64 without padding, random tokens

    [RawStdEncoding] and [RawURLEncoding] of encoding/base64, and [RandomToken]
    of internal/security/tokens.go. *)

(** The alphabet of URLs has "-" and "_" in the places of "+" and "/". *)
Definition raw_char (url : bool) (v : Z) : ascii :=
  if url && (v =? 62) then "-"%char else if url && (v =? 63) then "_"%char else encode_sextet v.
Definition raw_value (url : bool) (c : ascii) : option Z :=
  if url then
    if bool_decide (c = "-"%char) then Some 62
    else if bool_decide (c = "_"%char) then Some 63
    else if bool_decide (c = "+"%char \/ c = "/"%char) then None
    else decode_sextet c
  else decode_sextet c.

Fixpoint EncodeRaw (url : bool) (l : list Z) : string :=
  let char := raw_char url in
  match l with
  | [] => EmptyString
  | [b0] => String (char (b0 / 4)) (String (char (b0 mod 4 * 16)) "")
  | [b0; b1] => String (char (b0 / 4)) (String (char (b0 mod 4 * 16 + b1 / 16)) (String (char (b1 mod 16 * 4)) ""))
  | b0 :: b1 :: b2 :: l =>
      String (char (b0 / 4)) (String (char (b0 mod 4 * 16 + b1 / 16))
        (String (char (b1 mod 16 * 4 + b2 / 64)) (String (char (b2 mod 64)) (EncodeRaw url l))))
  end.

(** The unused bits of the last character are not looked at. *)
Fixpoint raw_quanta (url : bool) (s : string) : option (list Z) :=
  match s with
  | EmptyString => Some []
  | String c0 (String c1 EmptyString) =>
      x ← raw_value url c0; y ← raw_value url c1; Some [x * 4 + y / 16]
  | String c0 (String c1 (String c2 EmptyString)) =>
      x ← raw_value url c0; y ← raw_value url c1; z ← raw_value url c2;
      Some [x * 4 + y / 16; y mod 16 * 16 + z / 4]
  | String c0 (String c1 (String c2 (String c3 s))) =>
      x ← raw_value url c0; y ← raw_value url c1; z ← raw_value url c2; w ← raw_value url c3;
      rest ← raw_quanta url s;
      Some (x * 4 + y / 16 :: y mod 16 * 16 + z / 4 :: z mod 4 * 64 + w :: rest)
  | _ => None
  end.
Definition DecodeRaw (url : bool) (s : string) : option (list Z) := raw_quanta url (skip_newlines s).

Definition RandomToken {En : Entropy} (bytes : Z) : Tx RedactedString :=
  if bytes <? 16 then tx_fail (PlainError "token entropy must be at least 16 bytes")
  else
    value ← tx_rand (Z.to_nat bytes);
    match value with
    | None => tx_fail (PlainError "generate random token")
    | Some value => mret (NewRedactedString (EncodeRaw true value))
    end.

(** ** The round trip *)
#[local] Ltac Zify.zify_post_hook ::= Z.to_euclidean_division_equations.

Definition raw_char_ok (url : bool) (v : Z) : bool :=
  bool_decide (raw_value url (raw_char url v) = Some v) &&
  negb ((byte_of (raw_char url v) =? 10) || (byte_of (raw_char url v) =? 13)).
Lemma raw_chars_ok : forallb (fun v => raw_char_ok true v && raw_char_ok false v) (seqZ 0 64) = true.
Proof. by vm_compute. Qed.
Lemma raw_sextet url v : 0 <= v < 64 -> raw_value url (raw_char url v) = Some v /\
  (byte_of (raw_char url v) =? 10) || (byte_of (raw_char url v) =? 13) = false.
Proof.
  intros Hv. pose proof raw_chars_ok as H. rewrite forallb_forall in H. specialize (H v).
  rewrite <- list_elem_of_In, elem_of_seqZ in H. specialize (H ltac:(lia)). apply andb_true_iff in H as [H1 H2].
  destruct url; [clear H2; rename H1 into H|clear H1; rename H2 into H];
    apply andb_true_iff in H as [H1%bool_decide_eq_true H2%negb_true_iff]; done.
Qed.

(** A test that no character of the alphabet passes. *)
Lemma EncodeRaw_free url f l : (forall v, 0 <= v < 64 -> f (raw_char url v) = false) -> Forall is_byte l ->
  string_existsb f (EncodeRaw url l) = false.
Proof.
  intros Hf. induction l as [|a|a b|a b c l IH] using list_triple_ind; intros Hl; [done| | |];
    repeat (apply Forall_cons_1 in Hl as [? Hl]); unfold is_byte in *;
    cbn -[raw_char Z.div Z.modulo Z.mul Z.add]; rewrite !Hf by lia; [done..|]. by apply IH.
Qed.

Ltac raw_step := match goal with
  | |- context [raw_char ?u ?v] =>
      let H1 := fresh "H" in let H2 := fresh "H" in
      destruct (raw_sextet u v) as [H1 H2]; [lia|]; revert H1 H2; generalize (raw_char u v); intros ? H1 H2
  end.
Lemma skip_EncodeRaw url l : Forall is_byte l -> skip_newlines (EncodeRaw url l) = EncodeRaw url l.
Proof.
  induction l as [|a|a b|a b c l IH] using list_triple_ind; intros Hl; [done| | |];
    repeat (apply Forall_cons_1 in Hl as [? Hl]); unfold is_byte in *;
    cbn -[raw_char Z.div Z.modulo Z.mul Z.add]; repeat raw_step;
    repeat match goal with H : (byte_of _ =? 10) || _ = false |- _ => rewrite H; clear H end; [done..|]. by rewrite IH.
Qed.
Lemma DecodeRaw_EncodeRaw url l : Forall is_byte l -> DecodeRaw url (EncodeRaw url l) = Some l.
Proof.
  intros Hl. unfold DecodeRaw. rewrite skip_EncodeRaw by done. revert Hl.
  induction l as [|a|a b|a b c l IH] using list_triple_ind; intros Hl; [done| | |];
    repeat (apply Forall_cons_1 in Hl as [? Hl]); unfold is_byte in *.
  - cbn -[raw_char raw_value Z.div Z.modulo Z.mul Z.add]. repeat raw_step.
    rewrite H0. cbn -[Z.div Z.modulo Z.mul Z.add]. rewrite H2. cbn -[Z.div Z.modulo Z.mul Z.add]. do 2 f_equal. lia.
  - cbn -[raw_char raw_value Z.div Z.modulo Z.mul Z.add]. repeat raw_step.
    repeat match goal with H : raw_value _ _ = Some _ |- _ => rewrite H; clear H; cbn -[raw_value Z.div Z.modulo Z.mul Z.add] end.
    f_equal. f_equal; [lia|]. f_equal. lia.
  - cbn -[raw_char raw_value Z.div Z.modulo Z.mul Z.add]. repeat raw_step.
    repeat match goal with H : raw_value _ _ = Some _ |- _ => rewrite H; clear H; cbn -[raw_value Z.div Z.modulo Z.mul Z.add] end.
    rewrite IH by done. cbn -[Z.div Z.modulo Z.mul Z.add]. f_equal. f_equal; [lia|]. f_equal; [lia|]. f_equal. lia.
Qed.
