(* ===== verification/Url.v ===== *)
(** * Escaped text and forms: the functions of net/url that the panel uses

    Percent-encoding of path segments and of form values, and [url.Values] with
    its encoding and its parser, which reads every encoded form back. *)

From Stdlib Require Import ZArith Lia Ascii Sorting.Sorted.
From stdpp Require Import sorting.
From S2P Require Import Prelude GoTypes Identity Text Template Net Secrets.

(** ** Percent-encoding *)
Definition upper_hex (v : Z) : ascii := default "0"%char (String.get (Z.to_nat v) "0123456789ABCDEF").
Definition hex_value (c : ascii) : option Z :=
  let b := byte_of c in
  if between 48 b 57 then Some (b - 48) else if between 65 b 70 then Some (b - 55)
  else if between 97 b 102 then Some (b - 87) else None.

Section Encoding.
(** The bytes that stay as they are, and whether a space becomes "+". *)
Context (keep : ascii -> bool) (plus : bool).

Definition escape_char (c : ascii) : string :=
  if plus && bool_decide (c = " "%char) then "+"
  else if keep c then String c ""
  else String "%" (String (upper_hex (byte_of c / 16)) (String (upper_hex (byte_of c mod 16)) "")).
Fixpoint escape (s : string) : string :=
  match s with
  | EmptyString => EmptyString
  | String c s => escape_char c +:+ escape s
  end.
Definition plain_char (c : ascii) : ascii := if plus && bool_decide (c = "+"%char) then " "%char else c.
Fixpoint unescape (s : string) : option string :=
  match s with
  | EmptyString => Some EmptyString
  | String "%"%char (String h (String l s)) =>
      x ← hex_value h; y ← hex_value l; rest ← unescape s;
      Some (String (ascii_of_nat (Z.to_nat (x * 16 + y))) rest)
  | String "%"%char _ => None
  | String c s => rest ← unescape s; Some (String (plain_char c) rest)
  end.

(** Every byte is read back from its escape. *)
Definition escape_ok (c : ascii) : bool := bool_decide (unescape (escape_char c) = Some (String c "")).
Context (all_ok : forallb (fun b => escape_ok (ascii_of_nat (Z.to_nat b))) (seqZ 0 256) = true).

Lemma escape_char_ok c : escape_ok c = true.
Proof.
  pose proof all_ok as H. rewrite forallb_forall in H.
  assert (is_byte (byte_of c)) as Hb by (pose proof (bytes_of_bytes (String c "")) as Hf; by apply Forall_cons_1 in Hf as [? _]).
  specialize (H (byte_of c)). rewrite <- list_elem_of_In, elem_of_seqZ in H. unfold is_byte in Hb.
  specialize (H ltac:(lia)). unfold byte_of in H. by rewrite Nat2Z.id, ascii_nat_embedding in H.
Qed.
Lemma unescape_plain c s : c <> "%"%char -> unescape (String c s) = (rest ← unescape s; Some (String (plain_char c) rest)).
Proof. intros Hc. destruct c as [[] [] [] [] [] [] [] []]; try reflexivity. by destruct Hc. Qed.
Lemma unescape_one c s : c <> "%"%char -> unescape (String c "") = Some (String s "") -> plain_char c = s.
Proof. intros Hc. rewrite unescape_plain by done. cbn. by intros [= ->]. Qed.
Lemma unescape_escape s : unescape (escape s) = Some s.
Proof.
  induction s as [|c s IH]; [done|]. pose proof (escape_char_ok c) as Hc.
  apply bool_decide_eq_true in Hc. cbn [escape]. revert Hc. unfold escape_char.
  case_if; [|case_if].
  - intros Hc%unescape_one; [|done]. change ("+" +:+ escape s) with (String "+" (escape s)).
    rewrite unescape_plain by done. by rewrite IH, Hc.
  - change (String c "" +:+ escape s) with (String c (escape s)).
    destruct (decide (c = "%"%char)) as [->|Hp]; [done|]. intros Hc%unescape_one; [|done].
    rewrite unescape_plain by done. by rewrite IH, Hc.
  - generalize (upper_hex (byte_of c / 16)) (upper_hex (byte_of c mod 16)). intros h l.
    change (String "%" (String h (String l "")) +:+ escape s) with (String "%" (String h (String l (escape s)))).
    cbn -[hex_value ascii_of_nat Z.to_nat Z.mul Z.add]. destruct (hex_value h) as [x|]; [|cbn; discriminate].
    destruct (hex_value l) as [y|]; [|cbn; discriminate].
    cbn -[hex_value ascii_of_nat Z.to_nat Z.mul Z.add]. rewrite IH. cbn -[ascii_of_nat Z.to_nat Z.mul Z.add]. by intros [= ->].
Qed.
(** A character that no escape contains. *)
Lemma escape_free d : forallb (fun b => negb (has_char d (escape_char (ascii_of_nat (Z.to_nat b))))) (seqZ 0 256) = true ->
  forall s, has_char d (escape s) = false.
Proof.
  intros H s. induction s as [|c s IH]; [done|]. cbn [escape]. rewrite has_char_app, IH, orb_false_r.
  rewrite forallb_forall in H.
  assert (is_byte (byte_of c)) as Hb by (pose proof (bytes_of_bytes (String c "")) as Hf; by apply Forall_cons_1 in Hf as [? _]).
  specialize (H (byte_of c)). rewrite <- list_elem_of_In, elem_of_seqZ in H. unfold is_byte in Hb.
  specialize (H ltac:(lia)). unfold byte_of in H. rewrite Nat2Z.id, ascii_nat_embedding in H. by apply negb_true_iff.
Qed.
End Encoding.

Definition alphanumeric (c : ascii) : bool :=
  let b := byte_of c in between 97 b 122 || between 65 b 90 || between 48 b 57.
(** [url.PathEscape] and [url.QueryEscape] *)
Definition path_kept (c : ascii) : bool := alphanumeric c || has_char c "-_.~$&+=:@".
Definition query_kept (c : ascii) : bool := alphanumeric c || has_char c "-_.~".
Definition PathEscape : string -> string := escape path_kept false.
Definition PathUnescape : string -> option string := unescape false.
Definition QueryEscape : string -> string := escape query_kept true.
Definition QueryUnescape : string -> option string := unescape true.

Lemma PathUnescape_PathEscape s : PathUnescape (PathEscape s) = Some s.
Proof. apply unescape_escape. by vm_compute. Qed.
Lemma PathEscape_no_hash s : has_char "#" (PathEscape s) = false.
Proof. apply escape_free. by vm_compute. Qed.
Lemma QueryUnescape_QueryEscape s : QueryUnescape (QueryEscape s) = Some s.
Proof. apply unescape_escape. by vm_compute. Qed.
Lemma QueryEscape_free d s : d ∈ ["&"; "="; ";"; "000"]%char -> has_char d (QueryEscape s) = false.
Proof. intros Hd. apply escape_free. rewrite !elem_of_cons, elem_of_nil in Hd. by destruct Hd as [->|[->|[->|[->|[]]]]]; vm_compute. Qed.

(** ** Forms *)
Abbreviation Values := (gmap string (list string)).
Definition Get (v : Values) (key : string) : string :=
  match v !! key with Some (value :: _) => value | _ => "" end.
(** [m[key] = append(m[key], value)] *)
Definition Add (v : Values) (kv : string * string) : Values :=
  <[kv.1 := default [] (v !! kv.1) ++ [kv.2]]> v.

(** The pairs in the order of the keys. *)
Definition before (x y : string) : Prop := String.leb x y = true.
#[export] Instance before_dec x y : Decision (before x y) := decide (String.leb x y = true).
Definition sorted_keys (v : Values) : list string := merge_sort before (map_to_list v).*1.
Definition key_pairs (v : Values) (key : string) : list (string * string) := (fun value => (key, value)) <$> default [] (v !! key).
Definition pairs_of (v : Values) : list (string * string) := key ← sorted_keys v; key_pairs v key.
Definition encode_pair (kv : string * string) : string := QueryEscape kv.1 +:+ "=" +:+ QueryEscape kv.2.
Definition Encode (v : Values) : string := Join (encode_pair <$> pairs_of v) "&".

(** The pieces between the separators. *)
Fixpoint split_char (c : ascii) (s : string) : list string :=
  match s with
  | EmptyString => [""]
  | String d s =>
      if bool_decide (d = c) then "" :: split_char c s
      else match split_char c s with
           | piece :: pieces => String d piece :: pieces
           | [] => [String d ""]
           end
  end.
(** [url.ParseQuery]: the form of the well-formed pairs, and whether all are. *)
Definition parse_pair (piece : string) : option (string * string) :=
  if has_char ";" piece then None
  else
    let '(key, value) := default (piece, "") (cut_at "=" piece) in
    key ← QueryUnescape key; value ← QueryUnescape value; Some (key, value).
Definition parse_piece (acc : Values * bool) (piece : string) : Values * bool :=
  if bool_decide (piece = "") then acc
  else match parse_pair piece with
       | Some kv => (Add acc.1 kv, acc.2)
       | None => (acc.1, false)
       end.
Definition ParseQuery (query : string) : Values * bool := foldl parse_piece (∅, true) (split_char "&" query).

Lemma split_char_app c p s : has_char c p = false -> split_char c (p +:+ String c s) = p :: split_char c s.
Proof.
  induction p as [|d p IH]; intros Hp.
  - change ("" +:+ String c s) with (String c s). cbn. by rewrite bool_decide_eq_true_2.
  - unfold has_char in Hp. cbn in Hp. apply orb_false_iff in Hp as [Hd Hp]. rewrite string_app_cons. cbn. rewrite Hd. by rewrite IH.
Qed.
Lemma split_char_last c p : has_char c p = false -> split_char c p = [p].
Proof.
  induction p as [|d p IH]; intros Hp; [done|]. unfold has_char in Hp. cbn in *. apply orb_false_iff in Hp as [Hd Hp].
  rewrite Hd. by rewrite IH.
Qed.

Lemma encode_pair_free kv d : d ∈ ["&"; ";"; "000"]%char -> has_char d (encode_pair kv) = false.
Proof.
  intros Hd. unfold encode_pair. rewrite !has_char_app, !QueryEscape_free; [|set_solver..].
  rewrite !elem_of_cons, elem_of_nil in Hd. by destruct Hd as [->|[->|[->|[]]]].
Qed.
Lemma parse_encode_pair acc kv : parse_piece acc (encode_pair kv) = (Add acc.1 kv, acc.2).
Proof.
  unfold parse_piece, parse_pair. rewrite bool_decide_eq_false_2 by (unfold encode_pair; by destruct (QueryEscape kv.1)).
  rewrite encode_pair_free by set_solver. unfold encode_pair.
  change (QueryEscape kv.1 +:+ "=" +:+ QueryEscape kv.2) with (QueryEscape kv.1 +:+ String "=" (QueryEscape kv.2)).
  rewrite cut_at_app by (apply QueryEscape_free; set_solver). cbn. rewrite !QueryUnescape_QueryEscape. cbn. by destruct kv.
Qed.
Lemma ParseQuery_pairs pairs : ParseQuery (Join (encode_pair <$> pairs) "&") = (foldl Add ∅ pairs, true).
Proof.
  unfold ParseQuery. destruct pairs as [|kv pairs]; [done|]. generalize (∅ : Values). revert kv.
  induction pairs as [|kv' pairs IH]; intros kv acc.
  - cbn [Join fmap list_fmap]. rewrite split_char_last by (apply encode_pair_free; set_solver). cbn.
    by rewrite parse_encode_pair.
  - change (Join (encode_pair <$> kv :: kv' :: pairs) "&")
      with (encode_pair kv +:+ String "&" (Join (encode_pair <$> kv' :: pairs) "&")).
    rewrite split_char_app by (apply encode_pair_free; set_solver). cbn [foldl]. rewrite parse_encode_pair. apply IH.
Qed.

(** A form as a parser makes it: every key has a value. *)
Definition proper (v : Values) : Prop := forall key, v !! key <> Some [].
Lemma proper_Add v kv : proper v -> proper (Add v kv).
Proof.
  intros Hv key. unfold Add. destruct (decide (kv.1 = key)) as [<-|Hk].
  - rewrite lookup_insert_eq. intros [= H]. by apply app_eq_nil in H as [_ H].
  - by rewrite lookup_insert_ne.
Qed.
Lemma ParseQuery_proper query : proper (ParseQuery query).1.
Proof.
  unfold ParseQuery. assert (proper (∅ : Values, true).1) as H by (intros key; cbn; by rewrite lookup_empty).
  revert H. generalize ((∅ : Values), true). induction (split_char "&" query) as [|piece pieces IH]; intros acc H; [done|].
  apply IH. unfold parse_piece. case_if; [done|]. destruct (parse_pair piece); [by apply proper_Add|done].
Qed.

Lemma foldl_key_pairs m v key : m !! key = None -> v !! key <> Some [] ->
  foldl Add m (key_pairs v key) = match v !! key with Some l => <[key := l]> m | None => m end.
Proof.
  intros Hm Hv. unfold key_pairs. destruct (v !! key) as [l|] eqn:E; [|done]. destruct l as [|x l]; [done|]. cbn -[Add].
  assert (forall l l0 m, foldl Add (<[key := l0]> m) ((fun value => (key, value)) <$> l) = <[key := l0 ++ l]> m) as Hgen.
  { clear. induction l as [|x l IH]; intros l0 m; cbn -[Add]; [by rewrite app_nil_r|].
    unfold Add at 2. cbn. rewrite lookup_insert_eq. cbn. rewrite insert_insert_eq, IH. by rewrite <- app_assoc. }
  unfold Add at 2. cbn. rewrite Hm. cbn. apply Hgen.
Qed.
Lemma foldl_pairs v keys m : proper v -> NoDup keys -> (forall key, key ∈ keys -> m !! key = None) ->
  forall key, foldl Add m (k ← keys; key_pairs v k) !! key = if bool_decide (key ∈ keys) then v !! key else m !! key.
Proof.
  intros Hv. revert m. induction keys as [|k keys IH]; intros m Hnd Hm key; [done|].
  apply NoDup_cons in Hnd as [Hk Hnd]. cbn -[Add]. rewrite foldl_app, foldl_key_pairs by (first [apply Hv|apply Hm; left]).
  rewrite IH; [|done|].
  - destruct (decide (key = k)) as [->|Hne].
    + rewrite bool_decide_eq_false_2 by done. rewrite bool_decide_eq_true_2 by by left.
      destruct (v !! k) eqn:E; [by rewrite lookup_insert_eq|]. apply Hm. by left.
    + rewrite (bool_decide_ext (key ∈ k :: keys) (key ∈ keys)) by (rewrite elem_of_cons; naive_solver).
      case_if; [done|]. destruct (v !! k); [by rewrite lookup_insert_ne|done].
  - intros key' Hk'. assert (k <> key') by (by intros ->). destruct (v !! k); [rewrite lookup_insert_ne by done|]; (apply Hm; by right).
Qed.
(** An encoded form is read back. *)
Lemma ParseQuery_Encode v : proper v -> ParseQuery (Encode v) = (v, true).
Proof.
  intros Hv. unfold Encode. rewrite ParseQuery_pairs. f_equal. apply map_eq. intros key.
  unfold pairs_of. rewrite foldl_pairs; [|done| |intros; apply lookup_empty].
  2:{ unfold sorted_keys. rewrite merge_sort_Permutation. apply NoDup_fst_map_to_list. }
  assert (key ∈ sorted_keys v <-> is_Some (v !! key)) as Hin.
  { unfold sorted_keys. rewrite merge_sort_Permutation, list_elem_of_fmap. split.
    - intros ([k l] & -> & Hl%elem_of_map_to_list). by exists l.
    - intros [l Hl]. exists (key, l). by rewrite elem_of_map_to_list. }
  case_if; to_prop; [done|]. rewrite lookup_empty. destruct (v !! key) eqn:E; [|done]. destruct Eif. apply Hin. by eexists.
Qed.
Lemma Encode_inj v w : proper v -> proper w -> Encode v = Encode w -> v = w.
Proof. intros Hv Hw H. apply (f_equal ParseQuery) in H. rewrite !ParseQuery_Encode in H by done. by injection H. Qed.
