(* ===== verification/Password.v ===== *)
(** * Passwords: internal/security/password.go

    The hash is Argon2id of golang.org/x/crypto ([Argon2]); the simple case
    folding of package unicode is [Folding]. *)

From Stdlib Require Import ZArith Lia Ascii.
From S2P Require Import Prelude GoTypes Identity Text Inbound Tokens Template Net Database Secrets.

(** [argon2.IDKey]: password, salt, iterations, memory, parallelism, length. *)
Class Argon2 := argon_key : string -> list Z -> Z -> Z -> Z -> Z -> list Z.
(** It returns as many bytes as it is asked for. *)
Class Argon2Ok `{Argon2} := argon_bytes : forall password salt t m p n, 0 <= n ->
  Z.of_nat (length (argon_key password salt t m p n)) = n /\ Forall is_byte (argon_key password salt t m p n).

(** [unicode.SimpleFold] *)
Class Folding := simple_fold : Z -> Z.

Definition argonMemory : Z := 64 * 1024.
Definition argonIterations : Z := 3.
Definition argonParallelism : Z := 4.
Definition argonSaltLength : nat := 16.
Definition argonKeyLength : Z := 32.

(** ** Names *)
Section Names.
Context {Un : Unicode} {Fo : Folding}.

Definition NormalizeUsername (username : string) : Res string :=
  let value := ToLower (TrimSpace (NFKC username)) in
  let count := RuneCount value in
  if (count <? 1) || (64 <? count) then Err (PlainError "username must contain 1 to 64 characters") else Ok value.

(** The orbit of a rune under simple folding has at most four members. *)
Fixpoint folds_to (fuel : nat) (start r target : Z) : bool :=
  match fuel with
  | O => r =? target
  | S fuel => if negb (r =? start) && (r <? target) then folds_to fuel start (simple_fold r) target else r =? target
  end.
Definition same_letter (s t : Z) : bool :=
  if s =? t then true
  else
    let lo := Z.min s t in
    let hi := Z.max s t in
    if hi <? 128 then between 65 lo 90 && (hi =? lo + 32)
    else folds_to 4 lo (simple_fold lo) hi.
Fixpoint equal_runes (s t : list Z) : bool :=
  match s, t with
  | [], [] => true
  | r :: s, q :: t => same_letter r q && equal_runes s t
  | _, _ => false
  end.
(** [strings.EqualFold] *)
Definition EqualFold (s t : string) : bool := equal_runes (runes s) (runes t).

Definition ValidatePassword (username password : string) : Res unit :=
  let n := Z.of_nat (String.length password) in
  if (n <? 12) || (256 <? n) then Err (PlainError "password must contain 12 to 256 bytes")
  else
    normalized ← NormalizeUsername username;
    if EqualFold (TrimSpace (NFKC password)) normalized then Err (PlainError "password must not equal username") else Ok tt.
End Names.

(** ** Hashes *)
Section Hashes.
Context {Ar : Argon2} {En : Entropy}.

Definition hash_parameters : string :=
  "m=" +:+ pretty argonMemory +:+ ",t=" +:+ pretty argonIterations +:+ ",p=" +:+ pretty argonParallelism.
Definition encoded_hash (salt hash : list Z) : string :=
  "$argon2id$v=19$" +:+ hash_parameters +:+ "$" +:+ EncodeRaw false salt +:+ "$" +:+ EncodeRaw false hash.

Definition HashPassword (password : string) : Tx string :=
  salt ← tx_rand argonSaltLength;
  match salt with
  | None => tx_fail (PlainError "generate password salt")
  | Some salt =>
      mret (encoded_hash salt (argon_key password salt argonIterations argonMemory argonParallelism argonKeyLength))
  end.

(** [strconv.ParseUint(s, 10, 32)] *)
Definition ParseUint32 (s : string) : option Z :=
  if bool_decide (s = "") || string_existsb (fun c => negb (is_decimal c)) s then None
  else if 2 ^ 32 - 1 <? decimal_value 0 s then None else Some (decimal_value 0 s).

Record ArgonParameters := mkArgon { ar_memory : Z; ar_iterations : Z; ar_parallelism : Z }.
Definition bad_parameters : error := PlainError "invalid password hash parameters".
Fixpoint parse_parameters (items : list string) (p : ArgonParameters) : Res ArgonParameters :=
  match items with
  | [] => Ok p
  | item :: items =>
      match cut_at "=" item with
      | None => Err bad_parameters
      | Some (name, text) =>
          match ParseUint32 text with
          | None => Err bad_parameters
          | Some value =>
              if bool_decide (name = "m") then parse_parameters items (mkArgon value (ar_iterations p) (ar_parallelism p))
              else if bool_decide (name = "t") then parse_parameters items (mkArgon (ar_memory p) value (ar_parallelism p))
              else if bool_decide (name = "p") then parse_parameters items (mkArgon (ar_memory p) (ar_iterations p) value)
              else Err bad_parameters
          end
      end
  end.

Definition ComparePassword (encoded password : string) : Res bool :=
  match Split encoded "$" with
  | [_; name; version; parameters; salt; value] =>
      if bool_decide (name <> "argon2id") || bool_decide (version <> "v=19") then Err (PlainError "invalid password hash format")
      else
        p ← parse_parameters (Split parameters ",") (mkArgon 0 0 0);
        if (ar_memory p =? 0) || (ar_iterations p =? 0) || (ar_parallelism p =? 0) || (255 <? ar_parallelism p)
        then Err bad_parameters
        else
          match DecodeRaw false salt with
          | None => Err (PlainError "invalid password hash salt")
          | Some salt =>
              if bool_decide (length salt < 8)%nat then Err (PlainError "invalid password hash salt")
              else
                match DecodeRaw false value with
                | None => Err (PlainError "invalid password hash value")
                | Some want =>
                    if bool_decide (want = []) then Err (PlainError "invalid password hash value")
                    else
                      let got := argon_key password salt (ar_iterations p) (ar_memory p) (ar_parallelism p) (Z.of_nat (length want)) in
                      Ok (bool_decide (got = want))
                end
          end
  | _ => Err (PlainError "invalid password hash format")
  end.

(** ** What is hashed is recognised *)
Lemma hash_piece fuel c l rest acc : string_existsb (fun d => bool_decide (d = c)) l = false ->
  (String.length (l +:+ String c rest) <= fuel)%nat ->
  split_loop fuel (l +:+ String c rest) (String c "") acc =
  (acc +:+ l) :: split_loop (fuel - String.length l - 1) rest (String c "") "".
Proof.
  revert fuel acc. induction l as [|d l IH]; intros fuel acc Hl Hf; rewrite string_length_app in Hf.
  - destruct fuel as [|fuel]; [cbn in Hf; lia|].
    change (("" +:+ String c rest)) with (String c rest). cbn [split_loop HasPrefix].
    rewrite bool_decide_eq_true_2 by done. cbn [andb]. rewrite string_app_nil_r. f_equal.
    change (string_drop (String.length (String c "")) (String c rest)) with rest.
    replace (S fuel - String.length "" - 1)%nat with fuel by (simpl; lia). by destruct rest.
  - destruct fuel as [|fuel]; [cbn in Hf; lia|]. cbn in Hl. apply orb_false_iff in Hl as [Hd Hl].
    rewrite string_app_cons. cbn [split_loop HasPrefix]. apply bool_decide_eq_false in Hd.
    rewrite bool_decide_eq_false_2 by congruence. cbn [andb].
    rewrite IH; [|done|rewrite string_length_app; cbn [String.length] in *; lia].
    by rewrite <- string_app_assoc.
Qed.
Lemma hash_last fuel c l acc : string_existsb (fun d => bool_decide (d = c)) l = false ->
  (String.length l <= fuel)%nat -> split_loop fuel l (String c "") acc = [acc +:+ l].
Proof.
  revert fuel acc. induction l as [|d l IH]; intros fuel acc Hl Hf.
  - destruct fuel; cbn; by rewrite string_app_nil_r.
  - destruct fuel as [|fuel]; [cbn in Hf; lia|]. cbn in Hl. apply orb_false_iff in Hl as [Hd Hl].
    cbn [split_loop HasPrefix]. apply bool_decide_eq_false in Hd. rewrite bool_decide_eq_false_2 by congruence.
    cbn [andb]. rewrite IH; [|done|cbn in Hf; lia]. by rewrite <- string_app_assoc.
Qed.

Lemma raw_no_dollar l : Forall is_byte l -> string_existsb (fun d => bool_decide (d = "$"%char)) (EncodeRaw false l) = false.
Proof.
  intros Hl. apply EncodeRaw_free; [|done]. intros v Hv. apply bool_decide_eq_false.
  assert (forallb (fun v => negb (bool_decide (raw_char false v = "$"%char))) (seqZ 0 64) = true) as H by (by vm_compute).
  rewrite forallb_forall in H. specialize (H v). rewrite <- list_elem_of_In, elem_of_seqZ in H.
  specialize (H ltac:(lia)). by apply negb_true_iff, bool_decide_eq_false in H.
Qed.

Lemma split_piece c l rest : string_existsb (fun d => bool_decide (d = c)) l = false ->
  Split (l +:+ String c rest) (String c "") = l :: Split rest (String c "").
Proof.
  intros Hl. unfold Split. rewrite hash_piece by done. f_equal.
  rewrite string_length_app. cbn [String.length]. f_equal. lia.
Qed.
Lemma split_last c l : string_existsb (fun d => bool_decide (d = c)) l = false -> Split l (String c "") = [l].
Proof. intros Hl. unfold Split. by rewrite hash_last. Qed.

Lemma split_encoded salt hash : Forall is_byte salt -> Forall is_byte hash ->
  Split (encoded_hash salt hash) "$" =
  [""; "argon2id"; "v=19"; hash_parameters; EncodeRaw false salt; EncodeRaw false hash].
Proof.
  intros Hs Hh.
  assert (encoded_hash salt hash = "" +:+ String "$" ("argon2id" +:+ String "$" ("v=19" +:+ String "$"
    (hash_parameters +:+ String "$" (EncodeRaw false salt +:+ String "$" (EncodeRaw false hash)))))) as -> by done.
  rewrite !split_piece; [|by apply raw_no_dollar|by vm_compute..].
  by rewrite split_last by by apply raw_no_dollar.
Qed.

(** The hash stored for a password is recognised by it. *)
Lemma ComparePassword_HashPassword `{!Argon2Ok} `{!EntropyFull} password c hash c' :
  HashPassword password c = (Ok hash, c') -> ComparePassword hash password = Ok true.
Proof.
  unfold HashPassword, mbind, tx_bind, tx_rand. destruct (rand_read _ _) as [salt|] eqn:Hr; [|done].
  intros [= <- <-]. apply rand_full in Hr as [Hlen Hs].
  destruct (argon_bytes password salt argonIterations argonMemory argonParallelism argonKeyLength ltac:(done)) as [Hn Hb].
  unfold ComparePassword. rewrite split_encoded by done. cbn [bool_decide].
  rewrite (bool_decide_eq_false_2 ("argon2id" <> "argon2id")), (bool_decide_eq_false_2 ("v=19" <> "v=19")) by tauto.
  assert (parse_parameters (Split hash_parameters ",") (mkArgon 0 0 0) =
          Ok (mkArgon argonMemory argonIterations argonParallelism)) as -> by by vm_compute.
  cbn [orb mbind result_bind rbind ar_memory ar_iterations ar_parallelism].
  change ((argonMemory =? 0) || (argonIterations =? 0) || (argonParallelism =? 0) || (255 <? argonParallelism)) with false.
  rewrite !DecodeRaw_EncodeRaw by done. cbv iota.
  rewrite bool_decide_eq_false_2 by (rewrite Hlen; unfold argonSaltLength; lia).
  rewrite bool_decide_eq_false_2 by (intros E; rewrite E in Hn; done).
  rewrite Hn. cbv zeta. by rewrite bool_decide_eq_true_2.
Qed.
End Hashes.
