(* ===== verification/Logging.v ===== *)
(** * The log: internal/logging

    What the log handler lets through to the handler that writes the line. The
    attributes are a tree; a value of another kind than text or group is
    written as it is, and the name of a group opened by [WithGroup] is not
    taken for a key. *)

From Stdlib Require Import ZArith Lia Ascii.
From S2P Require Import Prelude GoTypes Identity Text Inbound Tokens Template Net Database Secrets Password.

(** ** Redaction (redact.go) *)

(** The pattern of the keys is matched at every rune, in any letter case. *)
Definition sensitive_words : list string := ["password"; "passwd"; "secret"; "key"; "token"; "authorization"; "cookie"; "csrf"].
Fixpoint starts_with {Fo : Folding} (word text : list Z) : bool :=
  match word, text with
  | [], _ => true
  | r :: word, q :: text => same_letter r q && starts_with word text
  | _, [] => false
  end.
Fixpoint somewhere (p : list Z -> bool) (text : list Z) : bool :=
  p text || match text with [] => false | _ :: text => somewhere p text end.
Definition IsSensitiveKey {Fo : Folding} (key : string) : bool :=
  somewhere (fun text => existsb (fun word => starts_with (runes word) text) sensitive_words) (runes key).

(** [ss://] and at least one character that is neither blank nor a quote. *)
Definition uri_char (c : ascii) : bool :=
  let b := byte_of c in
  negb (between 9 b 10 || between 12 b 13 || (b =? 32) || (b =? 34) || (b =? 39)).
Definition starts_uri (s : string) : bool :=
  match s with
  | String "s" (String "s" (String ":" (String "/" (String "/" (String c _))))) => uri_char c
  | _ => false
  end.
(** [ReplaceAllString]: from the left, each match as long as it gets. *)
Fixpoint replace_uris (inside : bool) (s : string) : string :=
  match s with
  | EmptyString => ""
  | String c rest =>
      if inside && uri_char c then replace_uris true rest
      else if starts_uri s then "[REDACTED_URI]" +:+ replace_uris true rest
      else String c (replace_uris false rest)
  end.
Definition RedactText (value : string) : string := replace_uris false value.

Section Logging.
Context {Fo : Folding}.

Inductive AnyValue : Type := AnyString (text : string) | AnyStringer (text : string) | AnyOther (text : string).
Definition RedactValue (key : string) (value : AnyValue) : AnyValue :=
  if IsSensitiveKey key then AnyString "[REDACTED]"
  else match value with
       | AnyString text | AnyStringer text => AnyString (RedactText text)
       | AnyOther _ => value
       end.

(** ** The handler (logging.go) *)
Inductive Value : Type :=
| StringValue (text : string)
| GroupValue (attrs : list (string * Value))
| OtherValue (text : string).
Abbreviation Attr := (string * Value)%type.

Fixpoint redact_value (key : string) (value : Value) : Value :=
  if IsSensitiveKey key then StringValue "[REDACTED]"
  else match value with
       | GroupValue group => GroupValue (List.map (fun attr => (attr.1, redact_value attr.1 attr.2)) group)
       | StringValue text => StringValue (RedactText text)
       | OtherValue _ => value
       end.
Definition redactAttr (attr : Attr) : Attr := (attr.1, redact_value attr.1 attr.2).

(** How a handler was derived from the first one. *)
Inductive Derived : Type := WithAttrs (attrs : list Attr) | WithGroup (name : string).
Record redactingHandler := mkHandler { next : list Derived }.
Record LogRecord := mkRecord { lr_Message : string; lr_Attrs : list Attr }.

Definition derive (h : redactingHandler) (d : Derived) : redactingHandler :=
  match d with
  | WithAttrs attrs => mkHandler (next h ++ [WithAttrs (List.map redactAttr attrs)])
  | WithGroup name => mkHandler (next h ++ [WithGroup name])
  end.
(** What the next handler is asked to write. *)
Definition Handle (h : redactingHandler) (record : LogRecord) : list Derived * LogRecord :=
  (next h, mkRecord (RedactText (lr_Message record)) (List.map redactAttr (lr_Attrs record))).
Definition New : redactingHandler := mkHandler [].
Definition log_line (steps : list Derived) (record : LogRecord) : list Derived * LogRecord := Handle (foldl derive New steps) record.

(** ** What a line may hold *)
Fixpoint holds_uri (s : string) : bool :=
  starts_uri s || match s with EmptyString => false | String _ rest => holds_uri rest end.

(** Nothing under a sensitive key, and no connection address in a text, at
    any depth. *)
Inductive clean : string -> Value -> Prop :=
| clean_hidden key : IsSensitiveKey key = true -> clean key (StringValue "[REDACTED]")
| clean_text key text : IsSensitiveKey key = false -> holds_uri text = false -> clean key (StringValue text)
| clean_group key group : IsSensitiveKey key = false -> Forall (fun attr => clean attr.1 attr.2) group -> clean key (GroupValue group)
| clean_other key text : IsSensitiveKey key = false -> clean key (OtherValue text).
Definition clean_attrs (attrs : list Attr) : Prop := Forall (fun attr => clean attr.1 attr.2) attrs.
Definition clean_step (d : Derived) : Prop := match d with WithAttrs attrs => clean_attrs attrs | WithGroup _ => True end.
Definition clean_line (line : list Derived * LogRecord) : Prop :=
  Forall clean_step line.1 /\ holds_uri (lr_Message line.2) = false /\ clean_attrs (lr_Attrs line.2).

(** *** Texts *)
Definition first_is (p : ascii -> bool) (s : string) : bool := match s with EmptyString => false | String c _ => p c end.

Lemma starts_uri_inv s : starts_uri s = true <-> exists rest, s = "ss://" +:+ rest /\ first_is uri_char rest = true.
Proof.
  split.
  - intros H. unfold starts_uri in H. repeat case_match; try done. subst. eexists. split; [reflexivity|done].
  - intros (rest & -> & H). by destruct rest.
Qed.
Lemma not_uri_not_s c rest : uri_char c = false -> starts_uri (String c rest) = false.
Proof. intros Hc. apply not_true_iff_false. intros (t & [= -> _] & _)%starts_uri_inv. done. Qed.

(** Outside of a match a character other than the mark's is copied. *)
Lemma replace_literal c s t : replace_uris false s = String c t -> c <> "["%char ->
  exists s', s = String c s' /\ t = replace_uris false s' /\ starts_uri s = false.
Proof.
  destruct s as [|d s]; [done|]. cbn [replace_uris andb]. destruct (starts_uri (String d s)) eqn:E.
  - intros H Hc. exfalso. apply Hc. revert H. cbn. by intros [= <- _].
  - intros [= -> <-] _. by exists s.
Qed.
Lemma replace_first s : first_is uri_char (replace_uris false s) = true -> first_is uri_char s = true.
Proof.
  destruct s as [|d s]; [done|]. cbn [replace_uris andb]. destruct (starts_uri (String d s)) eqn:E; [|done].
  intros _. apply starts_uri_inv in E as (rest & [= -> _] & _). done.
Qed.
Lemma replace_starts s : starts_uri (replace_uris false s) = false.
Proof.
  apply not_true_iff_false. intros (rest & H & Hf)%starts_uri_inv.
  apply replace_literal in H as (s1 & -> & H & Hs); [|done]. symmetry in H. do 4 (apply replace_literal in H as (? & -> & H & _); [|done]; symmetry in H).
  rewrite <- H in Hf. apply replace_first in Hf. enough (false = true) by done. rewrite <- Hs. apply starts_uri_inv.
  eexists. split; [reflexivity|done].
Qed.
(** After a match the text goes on with a character that ends it. *)
Lemma replace_inside s : exists s', replace_uris true s = replace_uris false s' /\ first_is uri_char s' = false.
Proof.
  induction s as [|c s IH]; [by exists ""|]. cbn [replace_uris andb]. destruct (uri_char c) eqn:Ec; [exact IH|].
  exists (String c s). split; [|done]. cbn [replace_uris andb]. by rewrite not_uri_not_s.
Qed.
Lemma replace_clean s : forall inside, holds_uri (replace_uris inside s) = false.
Proof.
  induction s as [|c s IH]; intros inside; [done|]. cbn [replace_uris].
  destruct (inside && uri_char c) eqn:Ei; [apply IH|]. destruct (starts_uri (String c s)) eqn:Es; [cbn; apply IH|].
  cbn [holds_uri]. rewrite IH, orb_false_r. apply andb_false_iff in Ei as [->|Hc]; [|by apply not_uri_not_s].
  pose proof (replace_starts (String c s)) as Hr. cbn [replace_uris andb] in Hr. by rewrite Es in Hr.
Qed.
Lemma replace_nothing s : holds_uri s = false -> replace_uris false s = s.
Proof. induction s as [|c s IH]; [done|]. cbn [holds_uri replace_uris andb]. intros [-> Hs]%orb_false_iff. by rewrite IH. Qed.

(** *** Attributes *)
Lemma value_induction (P : Value -> Prop) : (forall text, P (StringValue text)) -> (forall text, P (OtherValue text)) ->
  (forall group, Forall (fun attr => P attr.2) group -> P (GroupValue group)) -> forall v, P v.
Proof.
  intros Hs Ho Hg. fix IH 1. intros [text|group|text]; [apply Hs| |apply Ho]. apply Hg.
  induction group as [|attr group IHg]; constructor; [apply IH|exact IHg].
Qed.
Lemma redact_clean v : forall key, clean key (redact_value key v).
Proof.
  induction v as [text|text|group IH] using value_induction; intros key; cbn [redact_value];
    (destruct (IsSensitiveKey key) eqn:E; [by apply clean_hidden|]).
  - apply clean_text; [done|]. apply replace_clean.
  - by apply clean_other.
  - apply clean_group; [done|]. induction IH as [|attr group Ha _ IHg]; [apply Forall_nil; exact I|].
    apply Forall_cons. split; [apply Ha|exact IHg].
Qed.
Lemma redact_unchanged v : forall key, clean key v -> redact_value key v = v.
Proof.
  induction v as [text|text|group IH] using value_induction; intros key Hc; inversion Hc as [k Hk|k s Hk Hu|k g Hk Hg|k s Hk]; subst;
    cbn [redact_value]; rewrite Hk; try done.
  - f_equal. by apply replace_nothing.
  - f_equal. clear Hc. induction IH as [|[k v] group Ha _ IHg]; [done|]. apply Forall_cons in Hg as [Hv Hg]. cbn. f_equal; [|by apply IHg].
    f_equal. by apply Ha.
Qed.
Lemma redact_attrs_clean attrs : clean_attrs (List.map redactAttr attrs).
Proof. induction attrs as [|attr attrs IH]; [apply Forall_nil; exact I|]. apply Forall_cons. split; [apply redact_clean|exact IH]. Qed.
Lemma redact_attrs_unchanged attrs : clean_attrs attrs -> List.map redactAttr attrs = attrs.
Proof.
  intros Hc. induction Hc as [|[key v] attrs Ha _ IH]; [done|]. cbn [List.map]. rewrite IH. f_equal. unfold redactAttr. cbn.
  f_equal. by apply redact_unchanged.
Qed.
Lemma derived_clean steps h : Forall clean_step (next h) -> Forall clean_step (next (foldl derive h steps)).
Proof.
  revert h. induction steps as [|d steps IH]; intros h Hh; [done|]. apply IH. destruct d; cbn; apply Forall_app;
    (split; [done|]); apply Forall_singleton; [apply redact_attrs_clean|exact I].
Qed.
Lemma derived_unchanged steps h : Forall clean_step steps -> next (foldl derive h steps) = next h ++ steps.
Proof.
  intros Hs. revert h. induction Hs as [|d steps Hd _ IH]; intros h; [by rewrite app_nil_r|]. cbn [foldl]. rewrite IH.
  destruct d; cbn; rewrite <- app_assoc; [by rewrite redact_attrs_unchanged|done].
Qed.

(** C20: Whatever is logged, through however derived a logger, reaches the
    handler that writes the line without a value under a sensitive key and
    without a connection address in the message or in any text, at any depth
    of the groups; and a line that was clean to begin with is written as it
    is, so that redacting a second time changes nothing. *)
Theorem logged_lines_are_clean steps record :
  clean_line (log_line steps record) /\ (clean_line (steps, record) -> log_line steps record = (steps, record)).
Proof.
  split.
  - split_and!; [by apply derived_clean, Forall_nil|apply replace_clean|apply redact_attrs_clean].
  - intros (Hs & Hm & Ha). unfold log_line, Handle. rewrite derived_unchanged by done. cbn.
    rewrite redact_attrs_unchanged by done. unfold RedactText. rewrite replace_nothing by done. by destruct record.
Qed.
End Logging.

Example uri_is_redacted : RedactText "user connected via ss://YWVz@vpn.example.com:8388#alice 'ss://x' ss:// done" =
  "user connected via [REDACTED_URI] '[REDACTED_URI]' ss:// done".
Proof. reflexivity. Qed.
