(* ===== verification/StoreCore.v ===== *)
(** * Commands, audit, administrators, settings: internal/persistence/sqlite/store.go *)

From Stdlib Require Import ZArith Lia.
From S2P Require Import Prelude GoTypes Identity Text User Sync Quota Traffic Template Records Database.

(** ** Idempotent commands *)
Definition FindCommand (id : ID) : Tx (option DomainCommand) := tx_read (fun db => db_commands db !! id).

Definition reuse_conflict : error :=
  ConflictError "request identifier was reused with different input".

Definition store_command (c : DomainCommand) : DomainCommand :=
  mkCommand (cmd_ID c) (cmd_ActorType c) (cmd_ActorID c) (cmd_CommandType c) (cmd_TargetType c)
    (cmd_TargetID c) (cmd_RequestFingerprint c) (cmd_State c) (cmd_ResultReference c)
    (ms (cmd_CreatedAt c)) (ms_opt (cmd_CompletedAt c)).

Definition SaveCommand (command : DomainCommand) : Tx unit :=
  existing ← FindCommand (cmd_ID command);
  match existing with
  | Some existing =>
      if bool_decide (cmd_RequestFingerprint existing <> cmd_RequestFingerprint command)
      then tx_fail reuse_conflict else mret tt
  | None =>
      insert_row db_commands (fun m db => db <| db_commands := m |>) (cmd_ID command) (store_command command)
  end.

(** store_templates.go, [commandReplay] *)
Definition commandReplay (command : DomainCommand) : Tx bool :=
  existing ← FindCommand (cmd_ID command);
  match existing with
  | None => mret false
  | Some existing =>
      if bool_decide (cmd_RequestFingerprint existing <> cmd_RequestFingerprint command)
      then tx_fail reuse_conflict else mret true
  end.

Definition AppendAudit (event : AuditEvent) : Tx unit :=
  insert_row db_audits (fun m db => db <| db_audits := m |>) (au_ID event)
    (event <| au_OccurredAt := ms (au_OccurredAt event) |>).

(** [Store.AppendAudit] *)
Definition Store_AppendAudit (event : AuditEvent) : Tx unit := WithWriteTx (AppendAudit event).

(** ** Administrators and sessions *)
Definition Administrator : Tx (option AdministratorRecord) :=
  tx_read (fun db => find_row every (db_administrators db)).

Definition CreateAdministrator (admin : AdministratorRecord) : Tx unit :=
  insert_row db_administrators (fun m db => db <| db_administrators := m |>) (ad_ID admin)
    (admin <| ad_CreatedAt := ms (ad_CreatedAt admin) |> <| ad_UpdatedAt := ms (ad_UpdatedAt admin) |>).

Definition UpdateAdministratorPassword (id : ID) (hash : string) (version : Z) (now : Time) : Tx unit :=
  rows ← tx_read (fun db => count_at id every (db_administrators db));
  _ ← tx_exec (fun db => db <| db_administrators := update_at id every
         (fun a => a <| ad_PasswordHash := hash |> <| ad_PasswordVersion := version |>
                     <| ad_UpdatedAt := ms now |>) (db_administrators db) |>);
  if rows =? 1 then mret tt else tx_fail (NotFoundError "administrator").

(** The upsert on token_digest never revives a revoked session. *)
Definition InsertSession (record : SessionRecord) : Tx unit :=
  admin ← tx_row (fun db => find_row every (db_administrators db));
  existing ← tx_read (fun db => find_row (fun s => bool_decide (sr_TokenDigest s = se_TokenDigest record)) (db_sessions db));
  match existing with
  | None =>
      insert_row db_sessions (fun m db => db <| db_sessions := m |>) (se_ID record)
        (mkSessionRow (se_ID record) (ad_ID admin) (se_TokenDigest record) (ad_PasswordVersion admin)
           (se_Data record) (ms (se_CreatedAt record)) (ms (se_LastSeenAt record))
           (ms (se_IdleExpiresAt record)) (ms (se_AbsoluteExpiresAt record)) None)
  | Some s =>
      tx_exec (fun db => db <| db_sessions := update_at (sr_ID s)
        (fun s => bool_decide (sr_RevokedAt s = None))
        (fun s => s <| sr_Data := se_Data record |> <| sr_LastSeenAt := ms (se_LastSeenAt record) |>
                    <| sr_IdleExpiresAt := ms (se_IdleExpiresAt record) |>
                    <| sr_AbsoluteExpiresAt := ms (se_AbsoluteExpiresAt record) |>) (db_sessions db) |>)
  end.

Definition RevokeSession (tokenDigest : string) (now : Time) : Tx bool :=
  let cond s := bool_decide (sr_TokenDigest s = tokenDigest) && bool_decide (sr_RevokedAt s = None) in
  rows ← tx_read (fun db => count_rows cond (db_sessions db));
  _ ← tx_exec (fun db => db <| db_sessions := update_rows cond
         (fun s => s <| sr_RevokedAt := Some (ms now) |>) (db_sessions db) |>);
  mret (rows =? 1).

Definition RevokeAllSessions (id : ID) (now : Time) : Tx unit :=
  tx_exec (fun db => db <| db_sessions := update_rows
    (fun s => bool_decide (sr_AdministratorID s = id) && bool_decide (sr_RevokedAt s = None))
    (fun s => s <| sr_RevokedAt := Some (ms now) |>) (db_sessions db) |>).

(** ** Singletons and settings *)
Definition PanelSettings : Tx PanelSettingsRecord := tx_row db_settings.
Definition Settings : Tx PanelSettingsRecord := WithReadTx PanelSettings.

Definition EnsureSingletons `{Entropy} (timezone endpoint version : string) (verifier nonce : string)
    (now : Time) : Tx unit :=
  WithWriteTx (
    _ ← tx_exec (fun db => match db_settings db with
                          | Some _ => db
                          | None => db <| db_settings := Some (mkSettings timezone verifier nonce 1 0 (ms now) (ms now)) |>
                          end);
    instance ← tx_read db_instance;
    match instance with
    | None =>
        newID ← NewID_tx;
        tx_exec (fun db => db <| db_instance :=
          Some (mkInstance newID "local-xray" endpoint version "unknown" None 1 0 None "" "" (ms now)) |>)
    | Some i =>
        tx_exec (fun db => db <| db_instance :=
          Some (i <| mi_APIEndpoint := endpoint |> <| mi_SupportedRuntimeVersion := version |>
                  <| mi_UpdatedAt := ms now |>) |>)
    end).

(** [verify] is the callback of the key verifier. *)
Definition VerifyKey (verify : string -> string -> Res unit) : Tx unit :=
  settings ← Settings;
  tx_wrap "root key verifier" (tx_lift (verify (ps_KeyVerifier settings) (ps_KeyVerifierNonce settings))).

Definition UpdateSettings (timezone : string) (expected : Revision) (command : DomainCommand)
    (audit : AuditEvent) : Tx bool :=
  WithWriteTx (
    replay ← commandReplay command;
    if (replay : bool) then mret true
    else
      let hit db := match db_settings db with Some s => ps_Revision s =? expected | None => false end in
      matched ← tx_read hit;
      _ ← tx_exec (fun db => if hit db then
             db <| db_settings := (fun s => s <| ps_QuotaTimezone := timezone |>
                     <| ps_Revision := ps_Revision s + 1 |>
                     <| ps_UpdatedAt := ms (au_OccurredAt audit) |>) <$> db_settings db |> else db);
      if negb matched then tx_fail (ConflictError "settings changed since the page was loaded")
      else
        _ ← SaveCommand command;
        _ ← AppendAudit audit;
        mret false).

(** ** Facts *)
Lemma SaveCommand_ok command c r c2 :
  SaveCommand command c = (Ok r, c2) ->
  (conn_db c2 = conn_db c \/
   conn_db c2 = (conn_db c) <| db_commands := <[cmd_ID command := store_command command]> (db_commands (conn_db c)) |>) /\
  (exists e, db_commands (conn_db c2) !! cmd_ID command = Some e /\
     cmd_RequestFingerprint e = cmd_RequestFingerprint command).
Proof.
  unfold SaveCommand. intros H. tx_step H. apply tx_read_ok in E as [-> ->].
  destruct (db_commands (conn_db c) !! cmd_ID command) as [e|] eqn:E.
  - case_bool_decide as Hf; [done|]. injection H as <- <-. split; [by left|].
    by exists e.
  - apply insert_row_ok in H as (_ & H & _). rewrite H. split; [by right|].
    eexists. cbn. rewrite lookup_insert_eq. done.
Qed.

Lemma commandReplay_ok command c b c2 :
  commandReplay command c = (Ok b, c2) ->
  c2 = c /\ (b = true <-> is_Some (db_commands (conn_db c) !! cmd_ID command)).
Proof.
  unfold commandReplay. intros H. tx_step H. apply tx_read_ok in E as [-> ->].
  destruct (db_commands (conn_db c) !! cmd_ID command) as [e|] eqn:E.
  - case_bool_decide; [done|]. injection H as <- <-. split; [done|]. split; [by eexists|done].
  - injection H as <- <-. split; [done|]. split; [done|]. by intros [? ?].
Qed.

Lemma AppendAudit_ok event c r c2 :
  AppendAudit event c = (Ok r, c2) ->
  exists row, conn_db c2 = (conn_db c) <| db_audits := <[au_ID event := row]> (db_audits (conn_db c)) |> /\
    row = event <| au_OccurredAt := ms (au_OccurredAt event) |> /\
    db_audits (conn_db c) !! au_ID event = None.
Proof. intros (Hn & H & _)%insert_row_ok. eauto. Qed.
