(* ===== verification/StoreSync.v ===== *)
(** * Inbounds and synchronization operations

    internal/persistence/sqlite/store_inbounds.go and store_sync.go, with the
    joined user record of store_users.go ([loadUser]) the lease returns. *)

From Stdlib Require Import ZArith Lia.
From stdpp Require Import sorting.
From S2P Require Import Prelude GoTypes Identity Ports Text Inbound User Sync Quota Traffic Template Records Database StoreCore.

Definition set_inbounds m db := db <| db_inbounds := m |>.
Definition set_operations m db := db <| db_operations := m |>.
Definition set_allocations m db := db <| db_allocations := m |>.
Definition set_credentials m db := db <| db_credentials := m |>.

(** ** Dedicated inbounds *)
Definition store_inbound (r : InboundRecord) : InboundRecord :=
  r <| ir_Inbound := (ir_Inbound r) <| in_LastSyncAt := ms_opt (in_LastSyncAt (ir_Inbound r)) |>
        <| in_ReleasedAt := ms_opt (in_ReleasedAt (ir_Inbound r)) |>
        <| in_CreatedAt := ms (in_CreatedAt (ir_Inbound r)) |>
        <| in_UpdatedAt := ms (in_UpdatedAt (ir_Inbound r)) |> |>.

Definition insertDedicatedInbound (record : InboundRecord) : Tx unit :=
  let i := ir_Inbound record in
  _ ← tx_lift (ValidateInboundTag (in_InboundTag i));
  translateConstraint
    (insert_row db_inbounds set_inbounds (in_AllocationID i) (store_inbound record))
    "port is already assigned to another user".

(** The fields of the inbound inside its row. *)
Definition on_inbound (f : DedicatedInbound -> DedicatedInbound) (r : InboundRecord) : InboundRecord :=
  r <| ir_Inbound := f (ir_Inbound r) |>.

Definition setInboundDesired (allocationID : ID) (desired : bool) (now : Time) : Tx unit :=
  tx_exec (fun db => set_inbounds (update_at allocationID unreleased
    (on_inbound (fun i => i <| in_DesiredPresent := desired |> <| in_UpdatedAt := ms now |>))
    (db_inbounds db)) db).

Definition releaseInboundPort (allocationID : ID) (now : Time) : Tx unit :=
  tx_exec (fun db => set_inbounds (update_at allocationID unreleased
    (on_inbound (fun i => i <| in_ReleasedAt := Some (ms now) |> <| in_DesiredPresent := false |>
                            <| in_ObservedPresent := Some false |> <| in_UpdatedAt := ms now |>))
    (db_inbounds db)) db).

Definition confirmInboundPresence (allocationID : ID) (present : bool) (now : Time) : Tx unit :=
  tx_exec (fun db => set_inbounds (update_at allocationID unreleased
    (on_inbound (fun i => i <| in_ObservedPresent := Some present |> <| in_LastSyncAt := Some (ms now) |>
                            <| in_UpdatedAt := ms now |>))
    (db_inbounds db)) db).
Definition ConfirmInboundPresence (allocationID : ID) (present : bool) (now : Time) : Tx unit :=
  confirmInboundPresence allocationID present now.

Definition assigned_at (listen : string) (db : DB) : list Z :=
  (fun r => in_Port (ir_Inbound r)) <$>
    select (fun r => unreleased r && bool_decide (in_ListenAddress (ir_Inbound r) = listen)) (db_inbounds db).

(** The sub-query is NULL for an unknown template, and no row matches it. *)
Definition AssignedPorts (templateID : ID) : Tx (list Z) :=
  tx_read (fun db => match db_templates db !! templateID with
                     | Some t => merge_sort Z.le (assigned_at (t_ListenAddress t) db)
                     | None => []
                     end).

Definition DedicatedInboundOf (allocationID : ID) : Tx DedicatedInbound :=
  on_no_rows (tx_row (fun db => ir_Inbound <$> db_inbounds db !! allocationID)) (NotFoundError "dedicated inbound").

Definition inbound_before (i j : DedicatedInbound) : Prop :=
  String.leb (in_ListenAddress i) (in_ListenAddress j) = true /\
  (in_ListenAddress i = in_ListenAddress j -> in_Port i <= in_Port j).
#[global] Instance inbound_before_dec : RelDecision inbound_before.
Proof. intros i j. unfold inbound_before. apply _. Defined.

Definition PanelInbounds : Tx (list DedicatedInbound) :=
  tx_read (fun db => merge_sort inbound_before (ir_Inbound <$> select unreleased (db_inbounds db))).

Definition PortPoolUsageOf (templateID : ID) : Tx PortPoolUsage :=
  t ← on_no_rows (tx_row (fun db => db_templates db !! templateID)) (NotFoundError "inbound template");
  let pool := mkPortPool (Start (t_Pool t)) (End (t_Pool t)) in
  assigned ← AssignedPorts templateID;
  let capacity := Capacity pool in
  let inside := Z.of_nat (length (List.filter (PoolContains pool) assigned)) in
  let remaining := capacity - inside in
  mret (mkUsage capacity inside (if remaining <? 0 then 0 else remaining) (OutsidePoolPorts pool assigned)).

Definition TemplateCounterEvidence (templateID : ID) : Tx (Z * Z) :=
  tx_read (fun db =>
    let rows := List.filter (fun a => bool_decide (a_TemplateID a = templateID) &&
                   match db_inbounds db !! a_ID a with Some r => unreleased r | None => false end)
                  (select every (db_allocations db)) in
    let listening a := match db_inbounds db !! a_ID a with
                       | Some r => bool_decide (in_ObservedPresent (ir_Inbound r) = Some true)
                       | None => false end in
    let observed a := match db_cursors db !! a_ID a with
                      | Some c => bool_decide (tc_UplinkCounter c <> None) || bool_decide (tc_DownlinkCounter c <> None)
                      | None => false end in
    (Z.of_nat (length (List.filter listening rows)), Z.of_nat (length (List.filter observed rows)))).

(** ** The joined record of a user (store_users.go) *)
Definition open_cycle (allocationID : ID) (db : DB) : option QuotaCycleRecord :=
  find_row (fun c => bool_decide (qc_AllocationID c = allocationID) && is_open c) (db_cycles db).
Definition credential_of (allocationID : ID) (version : Z) (db : DB) : option AccessCredential :=
  find_row (fun c => bool_decide (cr_AllocationID c = allocationID) && bool_decide (cr_Version c = version))
    (db_credentials db).

(** The query does not select validated_generation. *)
Definition join_user (a : AccessAllocation) (db : DB) : option UserRecord :=
  u ← db_users db !! a_UserID a;
  i ← db_identities db !! a_IdentityID a;
  t ← db_templates db !! a_TemplateID a;
  d ← db_inbounds db !! a_ID a;
  c ← credential_of (a_ID a) (a_DesiredCredentialVersion a) db;
  qp ← db_policies db !! a_ID a;
  qc ← open_cycle (a_ID a) db;
  Some (mkUserRecord u i d a c (t <| t_ValidatedGeneration := 0 |>) qp qc).

Definition not_found_user : error := NotFoundError "user".
(** [loadUser] with the condition [a.id=?], and [User] with [u.id=?]. *)
Definition loadUserByAllocation (allocationID : ID) : Tx UserRecord :=
  on_no_rows (tx_row (fun db => a ← db_allocations db !! allocationID; join_user a db)) not_found_user.
Definition allocation_of_user (userID : ID) (db : DB) : option AccessAllocation :=
  find_row (fun a => bool_decide (a_UserID a = userID)) (db_allocations db).
Definition GetUser (userID : ID) : Tx UserRecord :=
  on_no_rows (tx_row (fun db => a ← allocation_of_user userID db; join_user a db)) not_found_user.

(** ** Operations *)
Definition store_operation (o : SynchronizationOperation) : SynchronizationOperation :=
  o <| op_NextAttemptAt := ms (op_NextAttemptAt o) |> <| op_LeaseExpiresAt := ms_opt (op_LeaseExpiresAt o) |>
    <| op_CreatedAt := ms (op_CreatedAt o) |> <| op_StartedAt := ms_opt (op_StartedAt o) |>
    <| op_CompletedAt := ms_opt (op_CompletedAt o) |>.

Definition insertOperation (operation : SynchronizationOperation) : Tx unit :=
  _ ← setInboundDesired (op_AllocationID operation) (op_DesiredPresence operation) (op_CreatedAt operation);
  insert_row db_operations set_operations (op_ID operation) (store_operation operation).

(** The states a newer intent supersedes. *)
Definition supersedable (s : SyncState) : bool :=
  bool_decide (s = SyncPending \/ s = SyncLeased \/ s = SyncRetryWait \/ s = SyncPermanentFailed).
Definition older_live (allocationID : ID) (revision : Revision) (o : SynchronizationOperation) : bool :=
  bool_decide (op_AllocationID o = allocationID) && (op_DesiredRevision o <? revision) && supersedable (op_State o).
Definition superseded_at (now : Time) (o : SynchronizationOperation) : SynchronizationOperation :=
  o <| op_State := SyncSuperseded |> <| op_LeaseOwner := "" |> <| op_LeaseExpiresAt := None |>
    <| op_CompletedAt := Some (ms now) |>.

(** store_traffic.go *)
Definition supersedeOlder (allocationID : ID) (revision : Revision) (now : Time) : Tx unit :=
  tx_exec (fun db => set_operations
    (update_rows (older_live allocationID revision) (superseded_at now) (db_operations db)) db).

Definition Store_Supersede (allocationID : ID) (revision : Revision) (now : Time) : Tx Z :=
  rows ← tx_read (fun db => count_rows (older_live allocationID revision) (db_operations db));
  _ ← supersedeOlder allocationID revision now;
  mret rows.

Definition Enqueue (operation : SynchronizationOperation) : Tx unit :=
  WithWriteTx (
    _ ← supersedeOlder (op_AllocationID operation) (op_DesiredRevision operation) (op_CreatedAt operation);
    insertOperation operation).

Definition due_sync (now : Time) (db : DB) (o : SynchronizationOperation) : bool :=
  ((bool_decide (op_State o = SyncPending \/ op_State o = SyncRetryWait) && (op_NextAttemptAt o <=? ms now)) ||
   (bool_decide (op_State o = SyncLeased) &&
    match op_LeaseExpiresAt o with Some t => t <=? ms now | None => false end)) &&
  match db_allocations db !! op_AllocationID o with
  | Some a => match db_templates db !! a_TemplateID a with
              | Some t => bool_decide (t_Compatibility t <> CompatibilityIncompatible)
              | None => false
              end
  | None => false
  end.

Definition op_before (o p : SynchronizationOperation) : Prop :=
  op_NextAttemptAt o < op_NextAttemptAt p \/
  (op_NextAttemptAt o = op_NextAttemptAt p /\ op_CreatedAt o <= op_CreatedAt p).
#[global] Instance op_before_dec : RelDecision op_before.
Proof. intros o p. unfold op_before. apply _. Defined.

Definition next_due_sync (now : Time) (db : DB) : option SynchronizationOperation :=
  head (merge_sort op_before (select (due_sync now db) (db_operations db))).

(** The condition of the compare-and-swap of the lease. *)
Definition lease_condition (now : Time) (previousOwner : string) (o : SynchronizationOperation) : bool :=
  (bool_decide (op_State o = SyncPending \/ op_State o = SyncRetryWait) && (op_NextAttemptAt o <=? ms now)) ||
  (bool_decide (op_State o = SyncLeased) &&
   match op_LeaseExpiresAt o with Some t => t <=? ms now | None => false end &&
   bool_decide (op_LeaseOwner o = previousOwner)).
Definition leased_by (owner : string) (now : Time) (leaseDuration : Duration) (o : SynchronizationOperation) :=
  o <| op_State := SyncLeased |> <| op_LeaseOwner := owner |>
    <| op_LeaseExpiresAt := Some (ms (now + leaseDuration)) |>
    <| op_StartedAt := Some (default (ms now) (op_StartedAt o)) |>.

(** The transaction of [LeaseDueSync]: the operation as it was read, before
    the lease was taken. *)
Definition lease_tx (owner : string) (now : Time) (leaseDuration : Duration) : Tx (option SynchronizationOperation) :=
  WithWriteTx (
    due ← tx_read (next_due_sync now);
    match due with
    | None => mret None
    | Some operation =>
        let cond := lease_condition now (op_LeaseOwner operation) in
        rows ← tx_read (fun db => count_at (op_ID operation) cond (db_operations db));
        _ ← tx_exec (fun db => set_operations
               (update_at (op_ID operation) cond (leased_by owner now leaseDuration) (db_operations db)) db);
        mret (if rows =? 1 then Some operation else None)
    end).

Definition LeaseDueSync (owner : string) (now : Time) (leaseDuration : Duration) : Tx (option SyncWork) :=
  leased ← lease_tx owner now leaseDuration;
  match leased with
  | None => mret None
  | Some operation =>
      user ← loadUserByAllocation (op_AllocationID operation);
      mret (Some (mkSyncWork operation (ur_User user) (ur_Allocation user) (ur_Identity user)
                    (ur_Template user) (ur_Inbound user) (ur_Credential user)))
  end.

(** ** Confirmation *)
Definition destroyed_at (now : Time) (c : AccessCredential) : AccessCredential :=
  c <| cr_State := CredentialDestroyed |> <| cr_KeyCiphertext := "" |> <| cr_KeyNonce := "" |>
    <| cr_KeyEncryptionVersion := 0 |> <| cr_RetiredAt := Some (ms now) |>.

Definition destroy_credentials (cond : AccessCredential -> bool) (now : Time) : Tx unit :=
  tx_exec (fun db => set_credentials (update_rows
    (fun c => cond c && bool_decide (cr_State c <> CredentialDestroyed)) (destroyed_at now) (db_credentials db)) db).

Definition activate_credential (allocationID : ID) (version : Z) (now : Time) : Tx unit :=
  tx_exec (fun db => set_credentials (update_rows
    (fun c => bool_decide (cr_AllocationID c = allocationID) && (cr_Version c =? version) &&
              bool_decide (cr_State c = CredentialPending))
    (fun c => c <| cr_State := CredentialActive |> <| cr_ActivatedAt := Some (ms now) |>) (db_credentials db)) db).

(** The operation is leased to this worker. *)
Definition owned_by (owner : string) (o : SynchronizationOperation) : bool :=
  bool_decide (op_State o = SyncLeased) && bool_decide (op_LeaseOwner o <> "") && bool_decide (op_LeaseOwner o = owner).

Definition supersede_operation (id : ID) (now : Time) : Tx unit :=
  tx_exec (fun db => set_operations (update_at id every (superseded_at now) (db_operations db)) db).

Definition op_with_allocation (id : ID) (db : DB) : option (SynchronizationOperation * AccessAllocation) :=
  o ← db_operations db !! id;
  a ← db_allocations db !! op_AllocationID o;
  Some (o, a).

(** What a confirmation does to the credentials and, for a removed user, to
    the port. *)
Definition confirm_credentials (allocationID : ID) (credentialVersion : Z) (present : bool) (now : Time) : Tx unit :=
  if present then
    _ ← destroy_credentials (fun c => bool_decide (cr_AllocationID c = allocationID) &&
                                      (cr_Version c <? credentialVersion)) now;
    activate_credential allocationID credentialVersion now
  else
    user ← tx_row (fun db => a ← db_allocations db !! allocationID; db_users db !! a_UserID a);
    if bool_decide (u_Lifecycle user = LifecycleDeleted) then
      _ ← destroy_credentials (fun c => bool_decide (cr_AllocationID c = allocationID)) now;
      releaseInboundPort allocationID now
    else mret tt.

Definition confirmed_allocation (revision : Revision) (credentialVersion : Z) (present : bool) (now : Time)
    (a : AccessAllocation) : AccessAllocation :=
  a <| a_ProjectionState := if present then ProjectionPresent else ProjectionAbsent |>
    <| a_ObservedPresent := Some present |> <| a_SyncedRevision := revision |>
    <| a_SyncedCredentialVersion := if present then Some credentialVersion else None |>
    <| a_LastSyncAt := Some (ms now) |> <| a_LastSyncErrorCode := "" |> <| a_LastSyncErrorSummary := "" |>
    <| a_UpdatedAt := ms now |>.
Definition succeeded_operation (now : Time) (o : SynchronizationOperation) : SynchronizationOperation :=
  o <| op_State := SyncSucceeded |> <| op_Phase := SyncDone |> <| op_LeaseOwner := "" |>
    <| op_LeaseExpiresAt := None |> <| op_LastErrorCode := "" |> <| op_LastErrorSummary := "" |>
    <| op_CompletedAt := Some (ms now) |>.

Definition ConfirmSync (operationID : ID) (owner : string) (revision : Revision) (credentialVersion : Z)
    (present : bool) (now : Time) : Tx bool :=
  WithWriteTx (
    '(o, a) ← tx_row (op_with_allocation operationID);
    let allocationID := op_AllocationID o in
    if negb (owned_by owner o) then mret false
    else if bool_decide (a_DesiredRevision a <> revision) then
      _ ← supersede_operation operationID now;
      mret false
    else
      _ ← confirm_credentials allocationID credentialVersion present now;
      _ ← confirmInboundPresence allocationID present now;
      _ ← tx_exec (fun db => set_allocations (update_at allocationID every
             (confirmed_allocation revision credentialVersion present now) (db_allocations db)) db);
      _ ← tx_exec (fun db => set_operations (update_at operationID every (succeeded_operation now)
             (db_operations db)) db);
      mret true).

(** ** Leases, retries and failures *)
Definition renew_condition (owner : string) (db : DB) (o : SynchronizationOperation) : bool :=
  bool_decide (op_State o = SyncLeased) && bool_decide (op_LeaseOwner o = owner) &&
  match db_allocations db !! op_AllocationID o with
  | Some a => op_DesiredRevision o =? a_DesiredRevision a
  | None => false
  end.

Definition RenewSyncLease (id : ID) (owner : string) (now : Time) (lease : Duration) : Tx bool :=
  rows ← tx_read (fun db => count_at id (renew_condition owner db) (db_operations db));
  _ ← tx_exec (fun db => set_operations (update_at id (renew_condition owner db)
         (fun o => o <| op_LeaseExpiresAt := Some (ms (now + lease)) |>) (db_operations db)) db);
  mret (rows =? 1).

(** [wall] is the reading of the clock [finishLeased] takes itself. *)
Definition finishLeased (id : ID) (owner : string) (wall : Time) (apply : ID -> Tx unit) : Tx unit :=
  WithWriteTx (
    '(o, a) ← tx_row (op_with_allocation id);
    if negb (owned_by owner o) then mret tt
    else if bool_decide (op_DesiredRevision o <> a_DesiredRevision a) then supersede_operation id wall
    else apply (op_AllocationID o)).

Definition RescheduleSync (id : ID) (owner : string) (attempts : Z) (next : Time) (code summary : string)
    (wall : Time) : Tx unit :=
  finishLeased id owner wall (fun allocationID =>
    _ ← tx_exec (fun db => set_operations (update_at id every
           (fun o => o <| op_State := SyncRetryWait |> <| op_AttemptCount := attempts |>
                       <| op_NextAttemptAt := ms next |> <| op_LeaseOwner := "" |> <| op_LeaseExpiresAt := None |>
                       <| op_LastErrorCode := code |> <| op_LastErrorSummary := summary |>) (db_operations db)) db);
    tx_exec (fun db => set_allocations (update_at allocationID every
      (fun a => a <| a_ProjectionState := ProjectionPending |> <| a_LastSyncErrorCode := code |>
                  <| a_LastSyncErrorSummary := summary |> <| a_UpdatedAt := ms next |>) (db_allocations db)) db)).

Definition FailSync (id : ID) (owner code summary : string) (now wall : Time) : Tx unit :=
  finishLeased id owner wall (fun allocationID =>
    _ ← tx_exec (fun db => set_operations (update_at id every
           (fun o => o <| op_State := SyncPermanentFailed |> <| op_LeaseOwner := "" |> <| op_LeaseExpiresAt := None |>
                       <| op_LastErrorCode := code |> <| op_LastErrorSummary := summary |>
                       <| op_CompletedAt := Some (ms now) |>) (db_operations db)) db);
    tx_exec (fun db => set_allocations (update_at allocationID every
      (fun a => a <| a_ProjectionState := ProjectionError |> <| a_LastSyncErrorCode := code |>
                  <| a_LastSyncErrorSummary := summary |> <| a_UpdatedAt := ms now |>) (db_allocations db)) db)).

Definition HasOpenRotation (allocationID : ID) : Tx bool :=
  tx_read (fun db => 0 <? count_rows (fun o => bool_decide (op_AllocationID o = allocationID) &&
    bool_decide (op_Reason o = SyncRotate) && live_state (op_State o)) (db_operations db)).
Definition HasOpenOperation (allocationID : ID) : Tx bool :=
  tx_read (fun db => 0 <? count_rows (fun o => bool_decide (op_AllocationID o = allocationID) &&
    live_state (op_State o)) (db_operations db)).

Definition EnqueueReconcile (allocationID : ID) (expected : Revision) (op : SynchronizationOperation)
    (now : Time) : Tx bool :=
  WithWriteTx (
    let cond a := a_DesiredRevision a =? expected in
    rows ← tx_read (fun db => count_at allocationID cond (db_allocations db));
    _ ← tx_exec (fun db => set_allocations (update_at allocationID cond
           (fun a => a <| a_DesiredRevision := op_DesiredRevision op |> <| a_ProjectionState := ProjectionPending |>
                       <| a_UpdatedAt := ms now |>) (db_allocations db)) db);
    if negb (rows =? 1) then mret false
    else
      _ ← supersedeOlder allocationID (op_DesiredRevision op) now;
      _ ← insertOperation op;
      mret true).

Definition RecordObservation (allocationID : ID) (present : bool) (now : Time) : Tx unit :=
  tx_exec (fun db => set_allocations (update_at allocationID every
    (fun a => a <| a_ObservedPresent := Some present |>
      <| a_ProjectionState :=
           if a_DesiredRevision a =? a_SyncedRevision a
           then (if present then ProjectionPresent else ProjectionAbsent) else a_ProjectionState a |>
      <| a_UpdatedAt := ms now |>) (db_allocations db)) db).
