(* ===== verification/StoreQuota.v ===== *)
(** * Quota transactions

    [readFacts] and [applyDecision] of store_traffic.go and the transactions of
    internal/persistence/sqlite/store_quota.go. *)

From Stdlib Require Import ZArith Lia.
From stdpp Require Import sorting.
From S2P Require Import Prelude GoTypes Identity Ports Text Inbound User Sync Quota Traffic Template Cycle Records Database StoreCore StoreSync.

Definition set_users m db := db <| db_users := m |>.
Definition set_policies m db := db <| db_policies := m |>.
Definition set_cycles m db := db <| db_cycles := m |>.
Definition set_resets m db := db <| db_resets := m |>.

(** [time.LoadLocation]: the time zone database of the host. *)
Class Zones := LoadLocation : string -> option Location.

(** ** Facts and decisions (store_traffic.go) *)
Record allocationFacts := mkAllocationFacts {
  facts : AllocationFacts;
  fx_limit : option Z;
  fx_accountedUplink : Z;
  fx_accountedDownlink : Z }.

Definition facts_row (allocationID : ID) (db : DB) : option allocationFacts :=
  a ← db_allocations db !! allocationID;
  u ← db_users db !! a_UserID a;
  qp ← db_policies db !! allocationID;
  qc ← open_cycle allocationID db;
  Some (mkAllocationFacts
    (mkFacts (u_Lifecycle u) (a_AdminEnabled a) (a_QuotaState a) (a_DesiredRevision a) (a_DesiredCredentialVersion a))
    (qp_LimitBytes qp) (qc_AccountedUplinkBytes qc) (qc_AccountedDownlinkBytes qc)).

Definition readFacts (allocationID : ID) : Tx allocationFacts :=
  tx_wrap "read allocation facts" (tx_row (facts_row allocationID)).

(** The operation [applyDecision] derives from its template. *)
Definition decided_operation (template : SynchronizationOperation) (allocationID : ID) (f : allocationFacts)
    (d : TransitionDecision) (reason : SyncReason) (phase : SyncPhase) (now : Time) : SynchronizationOperation :=
  let revision := f_DesiredRevision (facts f) + 1 in
  template <| op_AllocationID := allocationID |> <| op_DesiredRevision := revision |>
    <| op_DesiredPresence := d_WillBePresent d |>
    <| op_DesiredCredentialVersion := Some (f_DesiredCredentialVersion (facts f)) |>
    <| op_Reason := reason |> <| op_Phase := phase |> <| op_State := SyncPending |>
    <| op_IdempotencyKey := SyncIdempotencyKey allocationID revision phase |>
    <| op_AttemptCount := 0 |> <| op_LeaseOwner := "" |> <| op_LeaseExpiresAt := None |>
    <| op_NextAttemptAt := now |>
    <| op_CreatedAt := if IsZero (op_CreatedAt template) then now else op_CreatedAt template |>.

(** The reason and the phase of a decision that needs an operation are never
    empty; empty ones would be refused by the CHECK clauses of the table. *)
Definition applyDecision (allocationID : ID) (f : allocationFacts) (d : TransitionDecision) (adminEnabled : bool)
    (template : option SynchronizationOperation) (now : Time) : Tx bool :=
  match NeedsOperation d, template with
  | true, Some template =>
      match d_Reason d, d_Phase d with
      | Some reason, Some phase =>
          let op := decided_operation template allocationID f d reason phase now in
          _ ← supersedeOlder allocationID (op_DesiredRevision op) now;
          _ ← insertOperation op;
          _ ← tx_exec (fun db => set_allocations (update_at allocationID every
                 (fun a => a <| a_AdminEnabled := adminEnabled |> <| a_QuotaState := d_QuotaState d |>
                             <| a_DesiredRevision := op_DesiredRevision op |>
                             <| a_ProjectionState := ProjectionPending |> <| a_UpdatedAt := ms now |>)
                 (db_allocations db)) db);
          mret true
      | _, _ => tx_fail constraint_failed
      end
  | _, _ =>
      _ ← tx_exec (fun db => set_allocations (update_at allocationID every
             (fun a => a <| a_AdminEnabled := adminEnabled |> <| a_QuotaState := d_QuotaState d |>
                         <| a_UpdatedAt := ms now |>) (db_allocations db)) db);
      mret false
  end.

(** ** UpdateUser *)

(** [UPDATE managed_users ... WHERE id=? AND revision=? AND deleted_at IS NULL] *)
Definition user_current (expected : Revision) (u : ManagedUser) : bool :=
  (u_Revision u =? expected) && bool_decide (u_DeletedAt u = None).
Definition update_user (id : ID) (expected : Revision) (f : ManagedUser -> ManagedUser) : Tx Z :=
  rows ← tx_read (fun db => count_at id (user_current expected) (db_users db));
  _ ← tx_exec (fun db => set_users (update_at id (user_current expected) f (db_users db)) db);
  mret rows.
Definition user_changed : error := ConflictError "user changed since the page was loaded".

Definition with_operation (created : bool) (id : ID) (audit : AuditEvent) : AuditEvent :=
  if created then audit <| au_OperationID := Some id |> else audit.

Fixpoint append_all (audits : list AuditEvent) : Tx unit :=
  match audits with
  | [] => mret tt
  | audit :: audits => _ ← AppendAudit audit; append_all audits
  end.

(** The audit event of a change of the quota state. *)
Definition quota_audit (audit : option AuditEvent) (exceeded : bool) (before : QuotaState) : option AuditEvent :=
  a ← audit;
  if exceeded && bool_decide (before = QuotaWithinLimit) then
    Some (a <| au_Action := ActionQuotaExceeded |>
            <| au_SafeSummary := "quota lowered to or below current usage; removal requested" |>)
  else if negb exceeded && bool_decide (before = QuotaExceeded) then
    Some (a <| au_Action := ActionCycleRestored |>
            <| au_SafeSummary := "quota raised above current usage; access restore requested" |>)
  else None.

(** [(replay, operationCreated)] *)
Definition UpdateUser (record : UserUpdateRecord) : Tx (bool * bool) :=
  let now := uu_Now record in
  let template := uu_OperationTemplate record in
  WithWriteTx (
    replay ← commandReplay (uu_Command record);
    if (replay : bool) then mret (true, false)
    else
      rows ← translateConstraint
        (update_user (uu_UserID record) (uu_ExpectedRevision record)
           (fun u => u <| u_DisplayName := uu_DisplayName record |> <| u_NormalizedName := uu_NormalizedName record |>
                       <| u_Revision := u_Revision u + 1 |> <| u_UpdatedAt := ms now |>))
        "user name already exists";
      if negb (rows =? 1) then tx_fail user_changed
      else
        a ← tx_row (allocation_of_user (uu_UserID record));
        let allocationID := a_ID a in
        _ ← tx_exec (fun db => set_policies (update_at allocationID every
               (fun p => p <| qp_LimitBytes := uu_LimitBytes record |> <| qp_ResetDay := uu_ResetDay record |>
                           <| qp_Revision := qp_Revision p + 1 |> <| qp_UpdatedAt := ms now |>) (db_policies db)) db);
        f ← readFacts allocationID;
        let exceeded := IsQuotaExceeded (fx_limit f) (fx_accountedUplink f) (fx_accountedDownlink f) in
        let decision := DecideTransition (facts f) (uu_AdminEnabled record) exceeded in
        created ← applyDecision allocationID f decision (uu_AdminEnabled record) (Some template) now;
        _ ← match quota_audit (uu_QuotaAudit record) exceeded (f_QuotaState (facts f)) with
            | Some audit => AppendAudit (with_operation created (op_ID template) audit)
            | None => mret tt
            end;
        _ ← SaveCommand (uu_Command record);
        _ ← append_all (map (with_operation created (op_ID template)) (uu_Audits record));
        mret (false, created)).

(** ** ResetCycleTraffic *)
Definition reset_cycle (c : QuotaCycleRecord) : QuotaCycleRecord :=
  c <| qc_AccountedUplinkBytes := 0 |> <| qc_AccountedDownlinkBytes := 0 |>
    <| qc_ManualResetCount := qc_ManualResetCount c + 1 |>.

Definition ResetCycleTraffic (record : QuotaResetRecord) : Tx (bool * bool) :=
  let now := qr_Now record in
  let template := qr_OperationTemplate record in
  WithWriteTx (
    replay ← commandReplay (qr_Command record);
    if (replay : bool) then mret (true, false)
    else
      cycle ← on_no_rows
        (tx_row (fun db => c ← db_cycles db !! qr_CycleID record; if is_open c then Some c else None))
        (ConflictError "quota cycle is no longer open");
      cursor ← tx_row (fun db => db_cursors db !! qr_AllocationID record);
      _ ← SaveCommand (qr_Command record);
      _ ← insert_row db_resets set_resets (qr_EventID record)
             (mkReset (qr_EventID record) (qr_AllocationID record) (qr_CycleID record) (cmd_ID (qr_Command record))
                (qc_AccountedUplinkBytes cycle) (qc_AccountedDownlinkBytes cycle)
                (tc_UplinkCounter cursor) (tc_DownlinkCounter cursor) (qr_ActorID record) (ms now));
      _ ← tx_exec (fun db => set_cycles (update_at (qr_CycleID record) every reset_cycle (db_cycles db)) db);
      f ← readFacts (qr_AllocationID record);
      let decision := DecideTransition (facts f) (f_AdminEnabled (facts f)) false in
      created ← applyDecision (qr_AllocationID record) f decision (f_AdminEnabled (facts f)) (Some template) now;
      _ ← AppendAudit (with_operation created (op_ID template) (qr_Audit record));
      mret (false, created)).

(** ** Cycles *)
Definition cycle_order (p q : QuotaCycleRecord * UserRecord) : Prop :=
  qc_EndsAt p.1 < qc_EndsAt q.1 \/
  (qc_EndsAt p.1 = qc_EndsAt q.1 /\ String.leb (u_ID (ur_User p.2)) (u_ID (ur_User q.2)) = true).
#[global] Instance cycle_order_dec : RelDecision cycle_order.
Proof. intros p q. unfold cycle_order. apply _. Defined.

Definition DueCycles (now : Time) : Tx (list UserRecord) :=
  tx_read (fun db =>
    (merge_sort cycle_order
      (omap (fun a => r ← join_user a db;
                      if qc_EndsAt (ur_Cycle r) <=? ms now then Some (ur_Cycle r, r) else None)
            (select every (db_allocations db)))).*2).

Definition NextCycleEnd : Tx (option Time) :=
  tx_read (fun db => head (merge_sort Z.le (qc_EndsAt <$> select is_open (db_cycles db)))).

Section Settle.
Context {Zn : Zones} {En : Entropy}.

(** One turn of the loop of [settleCycles]: [false] when the open cycle has
    not ended, [true] when it was closed and the next one opened. *)
Definition settle_step (allocationID : ID) (now : Time) : Tx bool :=
  cycle ← tx_wrap "read open cycle" (tx_row (open_cycle allocationID));
  let start := qc_EndsAt cycle in
  if After start now then mret false
  else
    '(resetDay, timezone) ← tx_wrap "read quota policy"
      (tx_row (fun db => qp ← db_policies db !! allocationID; s ← db_settings db;
                         Some (qp_ResetDay qp, ps_QuotaTimezone s)));
    let location := match LoadLocation timezone with Some l => l | None => UTC end in
    '(_, end_) ← tx_lift (CycleBounds start (Some location) resetDay);
    if negb (After end_ start) then tx_fail (PlainError "computed cycle end is not after its start")
    else
      _ ← tx_exec (fun db => set_cycles (update_at (qc_ID cycle) is_open
             (fun c => c <| qc_Status := CycleClosed |> <| qc_ClosedAt := Some (ms now) |>) (db_cycles db)) db);
      id ← NewID_tx;
      _ ← tx_wrap "open cycle" (insert_row db_cycles set_cycles id
             (mkCycle id allocationID (ms start) (ms end_) timezone resetDay CycleOpen 0 0 0 0 0 (ms now) None));
      mret true.

(** The steps the loop may need: every turn moves the end of the open cycle
    by at least a millisecond. *)
Definition settle_fuel (allocationID : ID) (now : Time) (db : DB) : positive :=
  match open_cycle allocationID db with
  | Some c => Z.to_pos ((now - qc_EndsAt c) / Millisecond + 3)
  | None => 1%positive
  end.

Definition settle_turn (allocationID : ID) (now : Time) (s : Z * Conn) : (Z * Conn) + (Res Z * Conn) :=
  match settle_step allocationID now s.2 with
  | (Ok true, c') => inl (s.1 + 1, c')
  | (Ok false, c') => inr (Ok s.1, c')
  | (Err e, c') => inr (Err e, c')
  end.

Definition settle_loop (allocationID : ID) (now : Time) : Tx Z := fun c =>
  match run_until (settle_fuel allocationID now (conn_db c)) (settle_turn allocationID now) (0, c) with
  | inr r => r
  | inl (_, c') => (Err (PlainError "out of fuel"), c')
  end.

(** [(rolled, restored)]; absent template and audit are generated here. *)
Definition settleCycles (allocationID : ID) (now : Time) (template : option SynchronizationOperation)
    (audit : option AuditEvent) : Tx (Z * bool) :=
  rolled ← settle_loop allocationID now;
  if rolled =? 0 then mret (0, false)
  else
    f ← readFacts allocationID;
    let decision := DecideTransition (facts f) (f_AdminEnabled (facts f)) false in
    template ← match template with
               | Some t => mret t
               | None => id ← NewID_tx;
                         mret (mkOperation id "" 0 false None SyncReconcile SyncDone SyncPending "" 0 zero_time
                                 "" None "" "" now None None)
               end;
    restored ← applyDecision allocationID f decision (f_AdminEnabled (facts f)) (Some template) now;
    if negb restored then mret (rolled, false)
    else
      audit ← match audit with
              | Some a => mret a
              | None =>
                  id ← NewID_tx;
                  a ← tx_row (fun db => db_allocations db !! allocationID);
                  mret (mkAudit id now ActorSystem None "user" (a_UserID a) ActionCycleRestored AuditAccepted
                          None None "new quota cycle opened; access restore requested")
              end;
      _ ← AppendAudit (with_operation true (op_ID template) audit);
      mret (rolled, restored).

Definition RolloverCycle (rollover : CycleRollover) : Tx (Z * bool) :=
  WithWriteTx (settleCycles (ro_AllocationID rollover) (ro_Now rollover)
    (Some (ro_OperationTemplate rollover)) (ro_Audit rollover)).
End Settle.
