(* ===== verification/StoreUsers.v ===== *)
(** * User transactions: internal/persistence/sqlite/store_users.go *)

From Stdlib Require Import ZArith Lia Ascii.
From stdpp Require Import sorting.
From S2P Require Import Prelude GoTypes Identity Ports Text Inbound Tokens User Sync Quota Traffic Template Net Records Database StoreCore StoreSync StoreQuota.

Definition set_identities m db := db <| db_identities := m |>.
Definition set_totals m db := db <| db_totals := m |>.
Definition set_cursors m db := db <| db_cursors := m |>.

(** Rows as they are stored: instants in milliseconds. *)
Definition store_user (u : ManagedUser) : ManagedUser :=
  u <| u_CreatedAt := ms (u_CreatedAt u) |> <| u_UpdatedAt := ms (u_UpdatedAt u) |>
    <| u_DeletedAt := ms_opt (u_DeletedAt u) |>.
Definition store_allocation (a : AccessAllocation) : AccessAllocation :=
  a <| a_LastSyncAt := ms_opt (a_LastSyncAt a) |> <| a_CreatedAt := ms (a_CreatedAt a) |>
    <| a_UpdatedAt := ms (a_UpdatedAt a) |>.
Definition store_credential (c : AccessCredential) : AccessCredential :=
  c <| cr_CreatedAt := ms (cr_CreatedAt c) |> <| cr_ActivatedAt := ms_opt (cr_ActivatedAt c) |>
    <| cr_RetiredAt := ms_opt (cr_RetiredAt c) |>.
Definition store_policy (p : QuotaPolicyRecord) : QuotaPolicyRecord :=
  p <| qp_CreatedAt := ms (qp_CreatedAt p) |> <| qp_UpdatedAt := ms (qp_UpdatedAt p) |>.
Definition store_cycle (c : QuotaCycleRecord) : QuotaCycleRecord :=
  c <| qc_StartsAt := ms (qc_StartsAt c) |> <| qc_EndsAt := ms (qc_EndsAt c) |>
    <| qc_OpenedAt := ms (qc_OpenedAt c) |> <| qc_ClosedAt := ms_opt (qc_ClosedAt c) |>.

(** The rows of a new user, in the order of the source. *)
Definition insert_user_rows (record : UserCreateRecord) : Tx unit :=
  let u := uc_User record in
  let i := uc_Identity record in
  let a := uc_Allocation record in
  _ ← translateConstraint (insert_row db_users set_users (u_ID u) (store_user u)) "user name already exists";
  _ ← translateConstraint
        (insert_row db_identities set_identities (i_ID i) (i <| i_CreatedAt := ms (i_CreatedAt i) |>))
        "statistics identity already exists";
  _ ← insert_row db_allocations set_allocations (a_ID a) (store_allocation a);
  _ ← insertDedicatedInbound (uc_Inbound record);
  _ ← insert_row db_credentials set_credentials (cr_ID (uc_Credential record)) (store_credential (uc_Credential record));
  _ ← insert_row db_policies set_policies (qp_AllocationID (uc_Policy record)) (store_policy (uc_Policy record));
  _ ← insert_row db_cycles set_cycles (qc_ID (uc_Cycle record)) (store_cycle (uc_Cycle record));
  _ ← insert_row db_totals set_totals (a_ID a) (mkTotals 0 0 (ms (a_CreatedAt a)));
  insert_row db_cursors set_cursors (a_ID a) (mkCursor (a_ID a) None None None 0 0 None None None).

(** [(id, replay)] *)
Definition CreateUser (record : UserCreateRecord) : Tx (ID * bool) :=
  WithWriteTx (
    existing ← FindCommand (cmd_ID (uc_Command record));
    match existing with
    | Some existing =>
        if bool_decide (cmd_RequestFingerprint existing <> cmd_RequestFingerprint (uc_Command record))
        then tx_fail reuse_conflict
        else mret (cmd_TargetID existing, true)
    | None =>
        _ ← insert_user_rows record;
        _ ← insertOperation (uc_Operation record);
        _ ← SaveCommand (uc_Command record);
        _ ← AppendAudit (uc_Audit record);
        _ ← AppendAudit (uc_PortAudit record);
        mret (u_ID (uc_User record), false)
    end).

(** ** Listing *)
Definition matchesStatus (record : UserRecord) (status : string) : bool :=
  let state := DisplayState (ur_Allocation record) (ur_User record) in
  if bool_decide (status = "") then true
  else if bool_decide (status = "pending") then
    bool_decide (u_Lifecycle (ur_User record) <> LifecycleDeleted) && PendingSync (ur_Allocation record)
  else if bool_decide (status = "active") then DesiredPresent (ur_Allocation record) (ur_User record)
  else if bool_decide (status = "disabled") then
    bool_decide (state = DisplayDisabled) || bool_decide (state = DisplayDisabling)
  else if bool_decide (status = "quota_exceeded") then
    bool_decide (state = DisplayQuotaExceeded) || bool_decide (state = DisplayQuotaDisabling)
  else if bool_decide (status = "deleted") then bool_decide (state = DisplayDeleted)
  else false.

Fixpoint without (drop : string) (s : string) : string :=
  match s with
  | EmptyString => EmptyString
  | String c s => if in_set drop c then without drop s else String c (without drop s)
  end.

Definition user_before (p q : UserRecord) : Prop :=
  String.leb (u_NormalizedName (ur_User p)) (u_NormalizedName (ur_User q)) = true /\
  (u_NormalizedName (ur_User p) = u_NormalizedName (ur_User q) ->
   String.leb (u_ID (ur_User p)) (u_ID (ur_User q)) = true).
#[global] Instance user_before_dec : RelDecision user_before.
Proof. intros p q. unfold user_before. apply _. Defined.

(** The pattern of LIKE is the name without its wildcards, matched without
    regard to ASCII case. *)
Definition list_condition `{Unicode} (filter : UserFilter) (r : UserRecord) : bool :=
  let name := match NormalizeDisplayName (uf_Query filter) with Ok n => n | Err _ => "" end in
  let pattern := without "%_" name in
  let normalized := if bool_decide (TrimSpace (uf_Query filter) = "") then "" else name in
  let port := Atoi (TrimSpace (uf_Query filter)) in
  (bool_decide (normalized = "") ||
   Contains (ascii_lower (u_NormalizedName (ur_User r))) (ascii_lower pattern) ||
   (negb (port =? 0) && (in_Port (ir_Inbound (ur_Inbound r)) =? port))) &&
  (uf_IncludeDeleted filter || bool_decide (u_DeletedAt (ur_User r) = None)).

Definition user_records (db : DB) : list UserRecord :=
  omap (fun a => join_user a db) (select every (db_allocations db)).

Definition ListUsers `{Unicode} (filter : UserFilter) : Tx (list UserRecord) :=
  tx_read (fun db =>
    List.filter (fun r => matchesStatus r (uf_Status filter))
      (merge_sort user_before (List.filter (list_condition filter) (user_records db)))).

(** ** Port change, rotation and deletion *)
Definition bump (now : Time) (u : ManagedUser) : ManagedUser :=
  u <| u_Revision := u_Revision u + 1 |> <| u_UpdatedAt := ms now |>.

Definition pool_of_allocation (allocationID : ID) (db : DB) : option PortPool :=
  a ← db_allocations db !! allocationID;
  t ← db_templates db !! a_TemplateID a;
  Some (mkPortPool (Start (t_Pool t)) (End (t_Pool t))).

Definition port_condition (oldPort : Z) (r : InboundRecord) : bool :=
  unreleased r && (in_Port (ir_Inbound r) =? oldPort).
Definition change_port (newPort : Z) (now : Time) : InboundRecord -> InboundRecord :=
  on_inbound (fun i => i <| in_Port := newPort |> <| in_ObservedPresent := Some false |> <| in_UpdatedAt := ms now |>).

Definition ChangeInboundPort (record : PortChangeRecord) : Tx bool :=
  let now := pc_Now record in
  let allocationID := pc_AllocationID record in
  let op := pc_Operation record in
  WithWriteTx (
    replay ← commandReplay (pc_Command record);
    if (replay : bool) then mret true
    else
      rows ← update_user (pc_UserID record) (pc_ExpectedRevision record) (bump now);
      if negb (rows =? 1) then tx_fail user_changed
      else
        pool ← tx_row (pool_of_allocation allocationID);
        if negb (PoolContains pool (pc_NewPort record)) then
          tx_fail (ValidationError "port" "port is outside the template port pool")
        else
          changed ← tx_read (fun db => count_at allocationID (port_condition (pc_OldPort record)) (db_inbounds db));
          _ ← translateConstraint
                (tx_exec (fun db => set_inbounds (update_at allocationID (port_condition (pc_OldPort record))
                   (change_port (pc_NewPort record) now) (db_inbounds db)) db))
                "port is already assigned to another user";
          if negb (changed =? 1) then
            tx_fail (ConflictError "port assignment changed since the page was loaded")
          else
            _ ← supersedeOlder (op_AllocationID op) (op_DesiredRevision op) now;
            _ ← insertOperation op;
            _ ← tx_exec (fun db => set_allocations (update_at allocationID every
                   (fun a => a <| a_DesiredRevision := op_DesiredRevision op |>
                               <| a_ProjectionState := ProjectionPending |>
                               <| a_ObservedPresent := Some false |> <| a_UpdatedAt := ms now |>)
                   (db_allocations db)) db);
            _ ← SaveCommand (pc_Command record);
            _ ← AppendAudit (pc_Audit record);
            mret false).

Definition pending_count (allocationID : ID) (db : DB) : Z :=
  count_rows (fun c => bool_decide (cr_AllocationID c = allocationID) &&
    bool_decide (cr_State c = CredentialPending)) (db_credentials db).
Definition rotation_in_progress : error := ConflictError "credential rotation already in progress".

Definition RotateCredential (record : RotationRecord) : Tx bool :=
  let now := rr_Now record in
  let allocationID := rr_AllocationID record in
  let op := rr_Operation record in
  let c := rr_Credential record in
  WithWriteTx (
    replay ← commandReplay (rr_Command record);
    if (replay : bool) then mret true
    else
      rows ← update_user (rr_UserID record) (rr_ExpectedRevision record) (bump now);
      if negb (rows =? 1) then tx_fail user_changed
      else
        pending ← tx_read (pending_count allocationID);
        if 0 <? pending then tx_fail rotation_in_progress
        else
          _ ← translateConstraint
                (insert_row db_credentials set_credentials (cr_ID c)
                   (c <| cr_CreatedAt := ms (cr_CreatedAt c) |> <| cr_ActivatedAt := None |> <| cr_RetiredAt := None |>))
                "credential rotation already in progress";
          _ ← supersedeOlder (op_AllocationID op) (op_DesiredRevision op) now;
          _ ← insertOperation op;
          _ ← tx_exec (fun db => set_allocations (update_at allocationID every
                 (fun a => a <| a_DesiredCredentialVersion := cr_Version c |>
                             <| a_DesiredRevision := op_DesiredRevision op |>
                             <| a_ProjectionState := ProjectionPending |> <| a_UpdatedAt := ms now |>)
                 (db_allocations db)) db);
          _ ← SaveCommand (rr_Command record);
          _ ← AppendAudit (rr_Audit record);
          mret false).

Definition SoftDeleteUser (record : DeleteRecord) : Tx bool :=
  let now := dr_Now record in
  let allocationID := dr_AllocationID record in
  let op := dr_Operation record in
  WithWriteTx (
    replay ← commandReplay (dr_Command record);
    if (replay : bool) then mret true
    else
      rows ← update_user (dr_UserID record) (dr_ExpectedRevision record)
               (fun u => u <| u_Lifecycle := LifecycleDeleted |> <| u_DeletedAt := Some (ms now) |>
                           <| u_Revision := u_Revision u + 1 |> <| u_UpdatedAt := ms now |>);
      if negb (rows =? 1) then tx_fail user_changed
      else
        _ ← supersedeOlder (op_AllocationID op) (op_DesiredRevision op) now;
        _ ← insertOperation op;
        _ ← tx_exec (fun db => set_allocations (update_at allocationID every
               (fun a => a <| a_AdminEnabled := false |> <| a_DesiredRevision := op_DesiredRevision op |>
                           <| a_ProjectionState := ProjectionPending |> <| a_UpdatedAt := ms now |>)
               (db_allocations db)) db);
        _ ← SaveCommand (dr_Command record);
        _ ← AppendAudit (dr_Audit record);
        mret false).
