(* ===== verification/StoreTraffic.v ===== *)
(** * Traffic transactions: internal/persistence/sqlite/store_traffic.go *)

From Stdlib Require Import ZArith Lia.
From stdpp Require Import sorting.
From S2P Require Import Prelude GoTypes Identity Inbound User Sync Quota Traffic Template Cycle Records Database StoreCore StoreSync StoreQuota StoreUsers.

Definition set_daily m db := db <| db_daily := m |>.
Definition set_events m db := db <| db_events := m |>.

Definition target_of (a : AccessAllocation) (db : DB) : option CollectionTarget :=
  u ← db_users db !! a_UserID a;
  i ← db_identities db !! a_IdentityID a;
  d ← db_inbounds db !! a_ID a;
  qp ← db_policies db !! a_ID a;
  qc ← open_cycle (a_ID a) db;
  tc ← db_cursors db !! a_ID a;
  tt ← db_totals db !! a_ID a;
  if unreleased d && bool_decide (u_DeletedAt u = None) && bool_decide (a_ProjectionState a = ProjectionPresent)
  then Some (mkTarget u a i (in_InboundTag (ir_Inbound d)) qp qc tc (tt_UplinkBytes tt) (tt_DownlinkBytes tt))
  else None.

Definition target_before (p q : CollectionTarget) : Prop :=
  String.leb (u_NormalizedName (ct_User p)) (u_NormalizedName (ct_User q)) = true.
#[global] Instance target_before_dec : RelDecision target_before.
Proof. intros p q. unfold target_before. apply _. Defined.

Definition CollectionTargets : Tx (list CollectionTarget) :=
  tx_read (fun db => merge_sort target_before
    (omap (fun a => target_of a db) (select every (db_allocations db)))).

Definition store_cursor (c : TrafficCursorRecord) (row : TrafficCursorRecord) : TrafficCursorRecord :=
  mkCursor (tc_AllocationID row) (tc_BootEpoch c) (tc_UplinkCounter c) (tc_DownlinkCounter c)
    (tc_UplinkEpoch c) (tc_DownlinkEpoch c) (ms_opt (tc_LastObservedAt c)) (ms_opt (tc_LastSuccessAt c))
    (ms_opt (tc_MissingSince c)).

Definition add_totals (up down : Z) (now : Time) (t : TotalsRow) : TotalsRow :=
  mkTotals (tt_UplinkBytes t + up) (tt_DownlinkBytes t + down) (ms now).
Definition add_daily (up down : Z) (now : Time) (d : DailyRow) : DailyRow :=
  mkDaily (da_LocalDate d) (da_Timezone d) (da_UplinkBytes d + up) (da_DownlinkBytes d + down) (ms now).
Definition add_cycle (up down : Z) (c : QuotaCycleRecord) : QuotaCycleRecord :=
  c <| qc_GrossUplinkBytes := qc_GrossUplinkBytes c + up |>
    <| qc_GrossDownlinkBytes := qc_GrossDownlinkBytes c + down |>
    <| qc_AccountedUplinkBytes := qc_AccountedUplinkBytes c + up |>
    <| qc_AccountedDownlinkBytes := qc_AccountedDownlinkBytes c + down |>.
Definition cycle_of (allocationID : ID) (c : QuotaCycleRecord) : bool :=
  bool_decide (qc_AllocationID c = allocationID) && is_open c.

(** The upsert of the daily aggregate. *)
Definition upsert_daily (u : TrafficUpdate) (now : Time) (m : gmap (ID * Z) DailyRow) : gmap (ID * Z) DailyRow :=
  let key := (tu_AllocationID u, ms (tu_DayStartUTC u)) in
  <[key := match m !! key with
           | Some d => add_daily (tu_UplinkDelta u) (tu_DownlinkDelta u) now d
           | None => mkDaily (tu_LocalDate u) (tu_Timezone u) (tu_UplinkDelta u) (tu_DownlinkDelta u) (ms now)
           end]> m.

Definition add_traffic (u : TrafficUpdate) (now : Time) : Tx unit :=
  let up := tu_UplinkDelta u in
  let down := tu_DownlinkDelta u in
  if bool_decide (up <> 0) || bool_decide (down <> 0) then
    _ ← tx_wrap "update totals" (tx_exec (fun db => set_totals
          (update_at (tu_AllocationID u) every (add_totals up down now) (db_totals db)) db));
    _ ← tx_wrap "update daily aggregate" (tx_exec (fun db => set_daily (upsert_daily u now (db_daily db)) db));
    tx_wrap "update cycle" (tx_exec (fun db => set_cycles
      (update_rows (cycle_of (tu_AllocationID u)) (add_cycle up down) (db_cycles db)) db))
  else mret tt.

Definition insertContinuityEvent (record : ContinuityEventRecord) : Tx unit :=
  insert_row db_events set_events (ce_ID record)
    (mkEventRecord (ce_ID record) (ce_AllocationID record) (ce_Event record) (ms (ce_OccurredAt record))).

Fixpoint insert_events (events : list ContinuityEventRecord) : Tx unit :=
  match events with
  | [] => mret tt
  | e :: events => _ ← insertContinuityEvent e; insert_events events
  end.

Section Commit.
Context {Zn : Zones} {En : Entropy}.

(** The quota decision at the end of one update. *)
Definition block_if_exceeded (u : TrafficUpdate) (now : Time) (result : TrafficCommitResult) : Tx TrafficCommitResult :=
  f ← readFacts (tu_AllocationID u);
  let exceeded := IsQuotaExceeded (fx_limit f) (fx_accountedUplink f) (fx_accountedDownlink f) in
  if negb exceeded || bool_decide (f_QuotaState (facts f) <> QuotaWithinLimit) then mret result
  else
    let decision := DecideTransition (facts f) (f_AdminEnabled (facts f)) true in
    created ← applyDecision (tu_AllocationID u) f decision (f_AdminEnabled (facts f)) (tu_QuotaBlock u) now;
    let result := if (created : bool) then result <| cres_Blocked := cres_Blocked result + 1 |> else result in
    _ ← match tu_Audit u with
        | Some audit =>
            AppendAudit (match tu_QuotaBlock u with
                         | Some block => with_operation created (op_ID block) audit
                         | None => audit
                         end)
        | None => mret tt
        end;
    mret result.

Definition commit_update (now : Time) (result : TrafficCommitResult) (u : TrafficUpdate) : Tx TrafficCommitResult :=
  '(rolled, restored) ← settleCycles (tu_AllocationID u) now None None;
  let result := result <| cres_Rolled := cres_Rolled result + rolled |>
                       <| cres_Restored := cres_Restored result + (if (restored : bool) then 1 else 0) |> in
  _ ← tx_wrap "update cursor" (tx_exec (fun db => set_cursors
        (update_at (tu_AllocationID u) every (store_cursor (tu_Cursor u)) (db_cursors db)) db));
  _ ← add_traffic u now;
  _ ← insert_events (tu_Events u);
  block_if_exceeded u now result.

Fixpoint commit_updates (now : Time) (result : TrafficCommitResult) (us : list TrafficUpdate) : Tx TrafficCommitResult :=
  match us with
  | [] => mret result
  | u :: us => result ← commit_update now result u; commit_updates now result us
  end.

Definition CommitTrafficBatch (batch : TrafficBatch) : Tx TrafficCommitResult :=
  match tb_Updates batch with
  | [] => mret (mkCommitResult 0 0 0)
  | us => WithWriteTx (commit_updates (tb_ObservedAt batch) (mkCommitResult 0 0 0) us)
  end.
End Commit.
