(* ===== verification/StoreDrift.v ===== *)
(** * Drift removals: internal/persistence/sqlite/store_drift.go *)

From Stdlib Require Import ZArith Lia.
From stdpp Require Import sorting.
From S2P Require Import Prelude GoTypes Identity Inbound User Sync Quota Traffic Template Records Database StoreCore StoreSync.

Definition set_drift m db := db <| db_drift := m |>.

Definition null_string (s : string) : option string := if bool_decide (s = "") then None else Some s.

Definition same_target (owner : ID) (statisticsID : string) (d : DriftRow) : bool :=
  bool_decide (drift_owner d = owner) && bool_decide (df_StatisticsID d = statisticsID).

Section Enqueue.
Context `{Entropy}.

(** An open removal of the same target turns the insertion into nothing. *)
Definition EnqueueDriftRemoval (templateID : ID) (inboundTag : string) (kind : DriftKind)
    (statisticsID : string) (now : Time) : Tx bool :=
  id ← NewID_tx;
  WithWriteTx (
    open ← tx_read (fun db => find_row (fun d => same_target templateID statisticsID d && live_state (df_State d)) (db_drift db));
    match open with
    | Some _ => mret false
    | None =>
        _ ← insert_row db_drift set_drift id
              (mkDrift id (null_string templateID) inboundTag kind statisticsID SyncPending 0 (ms now) None None
                 "" "" (ms now) None None);
        _ ← tx_exec (fun db => set_drift (update_rows
              (fun d => same_target templateID statisticsID d && bool_decide (df_State d = SyncPermanentFailed) &&
                        bool_decide (df_SupersededBy d = None) && bool_decide (df_ID d <> id))
              (fun d => d <| df_SupersededBy := Some id |>) (db_drift db)) db);
        mret true
    end).
End Enqueue.

Definition drift_due (now : Time) (d : DriftRow) : bool :=
  (bool_decide (df_State d = SyncPending \/ df_State d = SyncRetryWait) && (df_NextAttemptAt d <=? ms now)) ||
  (bool_decide (df_State d = SyncLeased) &&
   match df_LeaseExpiresAt d with Some t => t <=? ms now | None => false end).

(** The compatibility of the template only restrains removals of a client. *)
Definition drift_allowed (db : DB) (d : DriftRow) : bool :=
  bool_decide (df_Kind d = DriftInbound) ||
  match df_TemplateID d with
  | Some t => match db_templates db !! t with
              | Some t => bool_decide (t_Compatibility t <> CompatibilityIncompatible)
              | None => false
              end
  | None => false
  end.

Definition drift_before (d e : DriftRow) : Prop :=
  df_NextAttemptAt d < df_NextAttemptAt e \/
  (df_NextAttemptAt d = df_NextAttemptAt e /\ df_CreatedAt d <= df_CreatedAt e).
#[global] Instance drift_before_dec : RelDecision drift_before.
Proof. intros d e. unfold drift_before. apply _. Defined.

(** The statistics identity of the user the inbound belongs to. *)
Definition expected_identity (inboundTag : string) (db : DB) : string :=
  default "" (r ← find_row (fun r => bool_decide (in_InboundTag (ir_Inbound r) = inboundTag) && unreleased r) (db_inbounds db);
              a ← db_allocations db !! in_AllocationID (ir_Inbound r);
              i ← db_identities db !! a_IdentityID a;
              Some (i_StatisticsID i)).

Definition drift_lease_condition (now : Time) (previousOwner : string) (d : DriftRow) : bool :=
  (bool_decide (df_State d = SyncPending \/ df_State d = SyncRetryWait) && (df_NextAttemptAt d <=? ms now)) ||
  (bool_decide (df_State d = SyncLeased) &&
   match df_LeaseExpiresAt d with Some t => t <=? ms now | None => false end &&
   bool_decide (default "" (df_LeaseOwner d) = previousOwner)).

Definition LeaseDueDriftRemoval (owner : string) (now : Time) (lease : Duration) : Tx (option DriftRemoval) :=
  WithWriteTx (
    due ← tx_read (fun db => head (merge_sort drift_before
             (select (fun d => drift_due now d && drift_allowed db d) (db_drift db))));
    match due with
    | None => mret None
    | Some d =>
        expected ← tx_read (expected_identity (df_InboundTag d));
        let cond := drift_lease_condition now (default "" (df_LeaseOwner d)) in
        rows ← tx_read (fun db => count_at (df_ID d) cond (db_drift db));
        _ ← tx_exec (fun db => set_drift (update_at (df_ID d) cond
               (fun d => d <| df_State := SyncLeased |> <| df_LeaseOwner := Some owner |>
                           <| df_LeaseExpiresAt := Some (ms (now + lease)) |>) (db_drift db)) db);
        mret (if rows =? 1 then
                Some (mkDriftRemoval (df_ID d) (drift_owner d) (df_InboundTag d) (df_Kind d) (df_StatisticsID d)
                        SyncLeased (df_AttemptCount d) (df_NextAttemptAt d) expected
                        (bool_decide (df_State d = SyncLeased)))
              else None)
    end).

Definition drift_owned (owner : string) (d : DriftRow) : bool :=
  bool_decide (df_State d = SyncLeased) && bool_decide (df_LeaseOwner d = Some owner).

Definition RenewDriftRemovalLease (id : ID) (owner : string) (now : Time) (lease : Duration) : Tx bool :=
  rows ← tx_read (fun db => count_at id (drift_owned owner) (db_drift db));
  _ ← tx_exec (fun db => set_drift (update_at id (drift_owned owner)
         (fun d => d <| df_LeaseExpiresAt := Some (ms (now + lease)) |>) (db_drift db)) db);
  mret (rows =? 1).

Definition finishDriftRemoval (id : ID) (owner : string) (apply : Tx unit) : Tx unit :=
  WithWriteTx (
    d ← tx_row (fun db => db_drift db !! id);
    if negb (drift_owned owner d) then mret tt else apply).

Definition update_drift (id : ID) (f : DriftRow -> DriftRow) : Tx unit :=
  tx_exec (fun db => set_drift (update_at id every f (db_drift db)) db).

Definition CompleteDriftRemoval (id : ID) (owner : string) (now : Time) (audit : AuditEvent) : Tx unit :=
  finishDriftRemoval id owner (
    _ ← update_drift id (fun d => d <| df_State := SyncSucceeded |> <| df_LeaseOwner := None |>
           <| df_LeaseExpiresAt := None |> <| df_LastErrorCode := "" |> <| df_LastErrorSummary := "" |>
           <| df_CompletedAt := Some (ms now) |>);
    AppendAudit audit).

Definition RescheduleDriftRemoval (id : ID) (owner : string) (attempts : Z) (next : Time) (code summary : string) : Tx unit :=
  finishDriftRemoval id owner
    (update_drift id (fun d => d <| df_State := SyncRetryWait |> <| df_AttemptCount := attempts |>
       <| df_NextAttemptAt := ms next |> <| df_LeaseOwner := None |> <| df_LeaseExpiresAt := None |>
       <| df_LastErrorCode := code |> <| df_LastErrorSummary := summary |>)).

Definition FailDriftRemoval (id : ID) (owner code summary : string) (now : Time) (audit : AuditEvent) : Tx unit :=
  finishDriftRemoval id owner (
    _ ← update_drift id (fun d => d <| df_State := SyncPermanentFailed |> <| df_LeaseOwner := None |>
           <| df_LeaseExpiresAt := None |> <| df_LastErrorCode := code |> <| df_LastErrorSummary := summary |>
           <| df_CompletedAt := Some (ms now) |>);
    AppendAudit audit).

Definition stale_before (d e : DriftRow) : Prop :=
  df_CreatedAt d < df_CreatedAt e \/
  (df_CreatedAt d = df_CreatedAt e /\ String.leb (df_ID d) (df_ID e) = true).
#[global] Instance stale_before_dec : RelDecision stale_before.
Proof. intros d e. unfold stale_before. apply _. Defined.

Definition stale (d : DriftRow) : bool :=
  bool_decide (df_State d = SyncPermanentFailed) && bool_decide (df_SupersededBy d = None).
Definition removal_of (d : DriftRow) : DriftRemoval :=
  mkDriftRemoval (df_ID d) (drift_owner d) (df_InboundTag d) (df_Kind d) (df_StatisticsID d) (df_State d)
    (df_AttemptCount d) (df_NextAttemptAt d) "" false.

Definition OrphanStaleDriftRemovals : Tx (list DriftRemoval) :=
  tx_read (fun db => removal_of <$> merge_sort stale_before
    (select (fun d => bool_decide (df_TemplateID d = None) && stale d) (db_drift db))).
Definition StaleDriftRemovals (profileID : ID) : Tx (list DriftRemoval) :=
  tx_read (fun db => match db_templates db !! profileID with
    | Some _ => removal_of <$> merge_sort stale_before
        (select (fun d => bool_decide (df_TemplateID d = Some profileID) && stale d) (db_drift db))
    | None => []
    end).
