(* ===== verification/StoreTemplates.v ===== *)
(** * Template transactions and the capability generation

    internal/persistence/sqlite/store_templates.go. *)

From Stdlib Require Import ZArith Lia.
From stdpp Require Import sorting.
From S2P Require Import Prelude GoTypes Identity Ports Text Inbound User Sync Quota Traffic Template Records Database StoreCore StoreSync StoreQuota StoreDrift.

Definition set_templates m db := db <| db_templates := m |>.
Definition set_instance m db := db <| db_instance := m |>.

Definition ManagedInstance : Tx ManagedInstanceRecord := tx_row db_instance.

Definition update_instance (f : ManagedInstanceRecord -> ManagedInstanceRecord) : Tx unit :=
  tx_exec (fun db => set_instance (f <$> db_instance db) db).

Definition SetInstanceHealth (health : string) (bootEpoch : option Time) (errorCode : string)
    (successAt : option Time) (summary : string) (now : Time) : Tx unit :=
  known ← tx_read (fun db => bool_decide (is_Some (db_instance db)));
  _ ← update_instance (fun i => i <| mi_HealthState := health |> <| mi_BootEpoch := bootEpoch |>
         <| mi_LastSuccessAt := ms_opt successAt |> <| mi_LastErrorCode := errorCode |>
         <| mi_LastErrorSummary := summary |> <| mi_UpdatedAt := ms now |>);
  if negb known then tx_fail (NotFoundError "Xray instance") else mret tt.

(** Only a missing anchor is written. *)
Definition keep_anchor (old new : option Time) : option Time :=
  match old with Some _ => old | None => new end.

Definition MarkInstanceHealthy (bootEpoch : option Time) (now : Time) : Tx unit :=
  update_instance (fun i => i <| mi_HealthState := "healthy" |>
    <| mi_BootEpoch := keep_anchor (mi_BootEpoch i) bootEpoch |> <| mi_LastSuccessAt := Some (ms now) |>
    <| mi_LastErrorCode := "" |> <| mi_LastErrorSummary := "" |> <| mi_UpdatedAt := ms now |>).

Definition MarkInstanceUnreachable (code summary : string) (now : Time) : Tx unit :=
  update_instance (fun i => i <| mi_HealthState := "unreachable" |> <| mi_LastErrorCode := code |>
    <| mi_LastErrorSummary := summary |> <| mi_UpdatedAt := ms now |>).

(** ** Templates *)
Definition store_template (t : InboundTemplate) : InboundTemplate :=
  t <| t_LastValidatedAt := ms_opt (t_LastValidatedAt t) |> <| t_ArchivedAt := ms_opt (t_ArchivedAt t) |>
    <| t_CreatedAt := ms (t_CreatedAt t) |> <| t_UpdatedAt := ms (t_UpdatedAt t) |>
    <| t_ValidatedGeneration := 0 |>.

(** [(id, replayed)] *)
Definition CreateTemplate (record : InboundTemplate) (command : DomainCommand) (audit : AuditEvent) : Tx (ID * bool) :=
  WithWriteTx (
    existing ← FindCommand (cmd_ID command);
    match existing with
    | Some existing =>
        if bool_decide (cmd_RequestFingerprint existing <> cmd_RequestFingerprint command)
        then tx_fail reuse_conflict else mret (cmd_TargetID existing, true)
    | None =>
        _ ← translateConstraint (insert_row db_templates set_templates (t_ID record) (store_template record))
              "inbound template already exists";
        _ ← SaveCommand command;
        _ ← AppendAudit audit;
        mret (t_ID record, false)
    end).

(** The three counts that freeze the method and the listen address. *)
Definition maybe_present (db : DB) (a : AccessAllocation) : bool :=
  match db_users db !! a_UserID a with
  | Some u => bool_decide (u_DeletedAt u = None) || bool_decide (a_ProjectionState a <> ProjectionAbsent) ||
              bool_decide (a_SyncedRevision a <> a_DesiredRevision a) ||
              bool_decide (a_ObservedPresent a = Some true)
  | None => false
  end.
Definition liveAllocations (templateID : ID) (db : DB) : Z :=
  count_rows (fun a => bool_decide (a_TemplateID a = templateID) && maybe_present db a) (db_allocations db).
Definition openOperations (templateID : ID) (db : DB) : Z :=
  count_rows (fun o => live_state (op_State o) &&
    match db_allocations db !! op_AllocationID o with
    | Some a => bool_decide (a_TemplateID a = templateID) | None => false end) (db_operations db).
Definition openRemovals (templateID : ID) (db : DB) : Z :=
  count_rows (fun d => bool_decide (df_TemplateID d = Some templateID) &&
    (live_state (df_State d) || stale d)) (db_drift db).

Definition template_current (expected : Revision) (t : InboundTemplate) : bool :=
  (t_Revision t =? expected) && bool_decide (t_ArchivedAt t = None).

Definition UpdateTemplate (record : InboundTemplate) (expected : Revision) (command : DomainCommand)
    (audit : AuditEvent) : Tx unit :=
  WithWriteTx (
    replay ← commandReplay command;
    if (replay : bool) then mret tt
    else
      current ← on_no_rows (tx_row (fun db => db_templates db !! t_ID record)) (NotFoundError "inbound template");
      live ← tx_read (liveAllocations (t_ID record));
      operations ← tx_read (openOperations (t_ID record));
      removals ← tx_read (openRemovals (t_ID record));
      let contractChanged := bool_decide (t_Method current <> t_Method record) ||
                             bool_decide (t_ListenAddress current <> t_ListenAddress record) in
      if contractChanged && ((0 <? live) || (0 <? operations) || (0 <? removals)) then
        tx_fail (ConflictError ("template still has users, unconfirmed removals or pending synchronization; " +:+
                                "method and listen address cannot change until they are confirmed absent"))
      else
        rows ← tx_read (fun db => count_at (t_ID record) (template_current expected) (db_templates db));
        _ ← translateConstraint (tx_exec (fun db => set_templates (update_at (t_ID record) (template_current expected)
               (fun t => t <| t_Name := t_Name record |> <| t_NormalizedName := t_NormalizedName record |>
                           <| t_PublicHost := t_PublicHost record |> <| t_ListenAddress := t_ListenAddress record |>
                           <| t_Pool := t_Pool record |> <| t_Method := t_Method record |>
                           <| t_Network := t_Network record |> <| t_Compatibility := t_Compatibility record |>
                           <| t_CompatibilityReason := t_CompatibilityReason record |>
                           <| t_LastValidatedAt := ms_opt (t_LastValidatedAt record) |>
                           <| t_Revision := t_Revision t + 1 |> <| t_UpdatedAt := ms (t_UpdatedAt record) |>)
               (db_templates db)) db)) "inbound template already exists";
        if negb (rows =? 1) then tx_fail (ConflictError "inbound template changed since the page was loaded")
        else
          _ ← SaveCommand command;
          AppendAudit audit).

Definition GetTemplate (id : ID) : Tx InboundTemplate :=
  on_no_rows (tx_row (fun db => db_templates db !! id)) (NotFoundError "inbound template").

Definition template_before (t s : InboundTemplate) : Prop :=
  String.leb (t_NormalizedName t) (t_NormalizedName s) = true /\
  (t_NormalizedName t = t_NormalizedName s -> String.leb (t_ID t) (t_ID s) = true).
#[global] Instance template_before_dec : RelDecision template_before.
Proof. intros t s. unfold template_before. apply _. Defined.

Definition Templates (compatibleOnly : bool) : Tx (list InboundTemplate) :=
  tx_read (fun db => merge_sort template_before (select (fun t => bool_decide (t_ArchivedAt t = None) &&
    (negb compatibleOnly || bool_decide (t_Compatibility t = CompatibilityCompatible))) (db_templates db))).

(** A template with a live user is not archived. *)
Definition has_active_user (templateID : ID) (db : DB) : bool :=
  0 <? count_rows (fun a => bool_decide (a_TemplateID a = templateID) &&
    match db_users db !! a_UserID a with Some u => bool_decide (u_DeletedAt u = None) | None => false end)
    (db_allocations db).
Definition ArchiveTemplate (id : ID) (revision : Revision) (now : Time) : Tx unit :=
  let cond db t := template_current revision t && negb (has_active_user id db) in
  rows ← tx_read (fun db => count_at id (cond db) (db_templates db));
  _ ← tx_exec (fun db => set_templates (update_at id (cond db)
         (fun t => t <| t_ArchivedAt := Some (ms now) |> <| t_Revision := t_Revision t + 1 |>
                     <| t_UpdatedAt := ms now |>) (db_templates db)) db);
  if negb (rows =? 1) then tx_fail (ConflictError "inbound template changed or still has managed users") else mret tt.

Definition SetTemplateCompatibility (id : ID) (state : CompatibilityState) (reason : string) (now : Time) : Tx unit :=
  rows ← tx_read (fun db => count_at id every (db_templates db));
  _ ← tx_exec (fun db => set_templates (update_at id every
         (fun t => t <| t_Compatibility := state |> <| t_CompatibilityReason := reason |>
                     <| t_LastValidatedAt := Some (ms now) |> <| t_UpdatedAt := ms now |>) (db_templates db)) db);
  if negb (rows =? 1) then tx_fail (NotFoundError "inbound template") else mret tt.

(** ** The capability gate *)
Definition CompleteTemplateValidation (outcome : ValidationOutcome) : Tx bool :=
  let generation := if bool_decide (vo_State outcome = CompatibilityCompatible) && (0 <? vo_CapabilityGeneration outcome)
                    then vo_CapabilityGeneration outcome else 0 in
  let cond := template_current (vo_ExpectedRevision outcome) in
  WithWriteTx (
    rows ← tx_read (fun db => count_at (vo_TemplateID outcome) cond (db_templates db));
    _ ← tx_exec (fun db => set_templates (update_at (vo_TemplateID outcome) cond
           (fun t => t <| t_Compatibility := vo_State outcome |> <| t_CompatibilityReason := vo_Reason outcome |>
                       <| t_LastValidatedAt := Some (ms (vo_ValidatedAt outcome)) |>
                       <| t_ValidatedGeneration := generation |>
                       <| t_UpdatedAt := ms (vo_ValidatedAt outcome) |>) (db_templates db)) db);
    if negb (rows =? 1) then mret false
    else
      _ ← update_instance (fun i => i <| mi_HealthState := vo_Health outcome |>
             <| mi_BootEpoch := keep_anchor (mi_BootEpoch i) (vo_BootEpoch outcome) |>
             <| mi_LastSuccessAt := match vo_SuccessAt outcome with Some t => Some (ms t) | None => mi_LastSuccessAt i end |>
             <| mi_LastErrorCode := vo_ErrorCode outcome |> <| mi_LastErrorSummary := vo_ErrorSummary outcome |>
             <| mi_UpdatedAt := ms (vo_ValidatedAt outcome) |>);
      let audit := (vo_Audit outcome) <| au_SafeSummary := vo_Reason outcome |> in
      let audit := if bool_decide (vo_State outcome <> CompatibilityCompatible)
                   then audit <| au_Result := AuditFailed |> else audit in
      _ ← AppendAudit audit;
      mret true).

Definition RequestRevalidation (id : ID) (expected : Revision) (command : DomainCommand) (audit : AuditEvent) : Tx bool :=
  WithWriteTx (
    replay ← commandReplay command;
    if (replay : bool) then mret true
    else
      rows ← tx_read (fun db => count_at id (template_current expected) (db_templates db));
      _ ← tx_exec (fun db => set_templates (update_at id (template_current expected)
             (fun t => t <| t_Compatibility := CompatibilityUnverified |> <| t_CompatibilityReason := "" |>
                         <| t_LastValidatedAt := None |> <| t_Revision := t_Revision t + 1 |>
                         <| t_UpdatedAt := ms (au_OccurredAt audit) |>) (db_templates db)) db);
      if negb (rows =? 1) then tx_fail (ConflictError "inbound template changed since the page was loaded")
      else
        _ ← SaveCommand command;
        _ ← AppendAudit audit;
        mret false).

(** RFC 3339 text keeps whole seconds. *)
Definition epoch_text (t : Time) : Time := t / Second * Second.

(** [(generation, advanced)] *)
Definition AdvanceCapabilityGeneration (signal : CapabilitySignal) (tolerance : Duration) (now : Time) : Tx (Z * bool) :=
  WithWriteTx (
    i ← tx_row db_instance;
    let generation := mi_CapabilityGeneration i in
    if negb (sg_Known signal) then mret (generation, false)
    else
      let anchor := default zero_time (mi_BootEpoch i) in
      let uptime := sg_UptimeSeconds signal in
      if IsZero anchor then
        _ ← update_instance (fun i => i <| mi_BootEpoch := Some (epoch_text (sg_BootEpoch signal)) |>
               <| mi_UptimeSeconds := uptime |> <| mi_UpdatedAt := ms now |>);
        mret (generation, false)
      else
        let restarted := RestartConfirmed anchor (sg_BootEpoch signal) true tolerance ||
                         ((0 <? mi_UptimeSeconds i) && (uptime <? mi_UptimeSeconds i)) || sg_SuspectedRestart signal in
        if negb restarted then
          if mi_UptimeSeconds i <? uptime then
            _ ← update_instance (fun i => i <| mi_UptimeSeconds := uptime |> <| mi_UpdatedAt := ms now |>);
            mret (generation, false)
          else mret (generation, false)
        else
          let generation := add64 generation 1 in
          _ ← update_instance (fun i => i <| mi_BootEpoch := Some (epoch_text (sg_BootEpoch signal)) |>
                 <| mi_CapabilityGeneration := generation |> <| mi_UptimeSeconds := uptime |>
                 <| mi_UpdatedAt := ms now |>);
          mret (generation, true)).

Definition stale_evidence (generation : Z) (t : InboundTemplate) : bool :=
  bool_decide (t_ArchivedAt t = None) && bool_decide (t_Compatibility t = CompatibilityCompatible) &&
  negb (t_ValidatedGeneration t =? generation).

Definition stale_reason : string :=
  "node restarted; capability gate must run again on the current Xray process".
Definition revoke_evidence (now : Time) (t : InboundTemplate) : InboundTemplate :=
  t <| t_Compatibility := CompatibilityUnverified |> <| t_CompatibilityReason := stale_reason |>
    <| t_LastValidatedAt := None |> <| t_ValidatedGeneration := 0 |>
    <| t_Revision := t_Revision t + 1 |> <| t_UpdatedAt := ms now |>.

Definition InvalidateStaleCapabilityEvidence (generation : Z) (now : Time) : Tx (list ID) :=
  if generation <=? 0 then mret []
  else
    WithWriteTx (
      stale ← tx_read (fun db => t_ID <$> select (stale_evidence generation) (db_templates db));
      match stale with
      | [] => mret []
      | _ => _ ← tx_exec (fun db => set_templates (update_rows (stale_evidence generation) (revoke_evidence now)
                    (db_templates db)) db);
             mret stale
      end).
