(* ===== verification/StoreListings.v ===== *)
(** * Read-only listings

    internal/persistence/sqlite/store_dashboard.go and store_audit.go, with the
    rows they return (internal/ports/store.go). Rows that a query leaves
    unordered come in the order of their keys. *)

From Stdlib Require Import ZArith Lia.
From stdpp Require Import sorting.
From S2P Require Import Prelude GoTypes Identity Ports Text Inbound User Sync Quota Traffic Template Records Database.

Record FailedOperationRecord := mkFailed {
  fo_UserID : ID;
  fo_DisplayName : string;
  fo_Reason : SyncReason;
  fo_State : SyncState;
  fo_ErrorCode : string;
  fo_ErrorSummary : string;
  fo_AttemptCount : Z;
  fo_NextAttemptAt : Time;
  fo_UpdatedAt : Time }.

Record DailyAggregateRecord := mkAggregate {
  dl_DayStartUTC : Time; dl_LocalDate : string; dl_Timezone : string; dl_UplinkBytes : Z; dl_DownlinkBytes : Z }.
Record ContinuityEventListRecord := mkEventListed {
  el_Type : ContinuityType; el_Direction : string; el_OccurredAt : Time; el_Summary : string }.

Record AuditCursor := mkAuditCursor { ac_OccurredAt : Time; ac_ID : ID }.
Record AuditFilter := mkAuditFilter {
  af_TargetID : ID;
  af_Action : string;
  af_Result : string;
  af_Before : option AuditCursor;
  af_Limit : Z }.
#[global] Instance eta_AuditFilter : Eta AuditFilter := fun r =>
  mkAuditFilter (af_TargetID r) (af_Action r) (af_Result r) (af_Before r) (af_Limit r).

(** [LIMIT n] *)
Definition limited_to {A} (n : Z) (rows : list A) : list A := take (Z.to_nat n) rows.

(** ** The dashboard *)
Definition failed_operation (o : SynchronizationOperation) : bool :=
  bool_decide (op_State o = SyncRetryWait \/ op_State o = SyncPermanentFailed) ||
  (bool_decide (op_State o = SyncPending \/ op_State o = SyncLeased) && bool_decide (op_LastErrorCode o <> "")).
Definition failed_row (db : DB) (o : SynchronizationOperation) : option FailedOperationRecord :=
  a ← db_allocations db !! op_AllocationID o;
  u ← db_users db !! a_UserID a;
  let updated := match op_CompletedAt o with
                 | Some t => t
                 | None => match op_StartedAt o with Some t => t | None => op_CreatedAt o end
                 end in
  Some (mkFailed (u_ID u) (u_DisplayName u) (op_Reason o) (op_State o) (op_LastErrorCode o) (op_LastErrorSummary o)
          (op_AttemptCount o) (op_NextAttemptAt o) updated).

Definition attempt_after (x y : FailedOperationRecord) : Prop := millis (fo_NextAttemptAt y) <= millis (fo_NextAttemptAt x).
#[global] Instance attempt_after_dec : RelDecision attempt_after.
Proof. intros x y. unfold attempt_after. apply _. Defined.

Definition FailedOperations (limit : Z) : Tx (list FailedOperationRecord) :=
  let limit := if limit <=? 0 then 5 else limit in
  tx_read (fun db => limited_to limit (merge_sort attempt_after
    (omap (failed_row db) (select failed_operation (db_operations db))))).

(** [SELECT MAX(...)], NULL when every value is NULL. *)
Definition later_of (x y : option Time) : option Time :=
  match x, y with
  | Some t, Some t' => Some (if millis t <? millis t' then t' else t)
  | Some t, None => Some t
  | None, y => y
  end.
Definition LastCollectionAt : Tx (option Time) :=
  tx_read (fun db => foldr later_of None (tc_LastSuccessAt <$> select every (db_cursors db))).

Definition day_before (x y : DailyAggregateRecord) : Prop := dl_DayStartUTC x <= dl_DayStartUTC y.
#[global] Instance day_before_dec : RelDecision day_before.
Proof. intros x y. unfold day_before. apply _. Defined.
Definition aggregate_of (key : ID * Z) (d : DailyRow) : DailyAggregateRecord :=
  mkAggregate key.2 (da_LocalDate d) (da_Timezone d) (da_UplinkBytes d) (da_DownlinkBytes d).
Definition DailyAggregates (allocationID : ID) (from to : Time) : Tx (list DailyAggregateRecord) :=
  let inside (key : ID * Z) := bool_decide (key.1 = allocationID) && (millis from <=? millis key.2) && (millis key.2 <? millis to) in
  tx_read (fun db => merge_sort day_before
    ((fun '(key, d) => aggregate_of key d) <$> List.filter (fun '(key, _) => inside key) (map_to_list (db_daily db)))).

(** Newest first, [id DESC] among equals. *)
Definition newest (x y : Time * ID) : Prop :=
  millis y.1 < millis x.1 \/ (millis x.1 = millis y.1 /\ String.leb y.2 x.2 = true).
#[global] Instance newest_dec : RelDecision newest.
Proof. intros x y. unfold newest. apply _. Defined.

Definition event_key (e : ContinuityEventRecord) : Time * ID := (ce_OccurredAt e, ce_ID e).
Definition event_newest (x y : ContinuityEventRecord) : Prop := newest (event_key x) (event_key y).
#[global] Instance event_newest_dec : RelDecision event_newest.
Proof. intros x y. unfold event_newest. apply _. Defined.
Definition ContinuityEvents (allocationID : ID) (limit : Z) : Tx (list ContinuityEventListRecord) :=
  let limit := if limit <=? 0 then 20 else limit in
  let listed e := mkEventListed (e_Type (ce_Event e)) (e_Direction (ce_Event e)) (ce_OccurredAt e) (e_Summary (ce_Event e)) in
  tx_read (fun db => limited_to limit (listed <$> merge_sort event_newest
    (select (fun e => bool_decide (ce_AllocationID e = allocationID)) (db_events db)))).

Definition newer_operation (x y : SynchronizationOperation) : Prop :=
  op_DesiredRevision y < op_DesiredRevision x \/
  (op_DesiredRevision x = op_DesiredRevision y /\ millis (op_CreatedAt y) <= millis (op_CreatedAt x)).
#[global] Instance newer_operation_dec : RelDecision newer_operation.
Proof. intros x y. unfold newer_operation. apply _. Defined.
Definition SyncOperations (allocationID : ID) (limit : Z) : Tx (list SynchronizationOperation) :=
  let limit := if limit <=? 0 then 10 else limit in
  tx_read (fun db => limited_to limit (merge_sort newer_operation
    (select (fun o => bool_decide (op_AllocationID o = allocationID)) (db_operations db)))).

(** ** The audit trail *)
Definition audit_key (e : AuditEvent) : Time * ID := (au_OccurredAt e, au_ID e).
Definition audit_newest (x y : AuditEvent) : Prop := newest (audit_key x) (audit_key y).
#[global] Instance audit_newest_dec : RelDecision audit_newest.
Proof. intros x y. unfold audit_newest. apply _. Defined.

Definition audit_result_text (r : AuditResult) : string :=
  match r with
  | AuditAccepted => "accepted" | AuditSucceeded => "succeeded" | AuditFailed => "failed" | AuditSuperseded => "superseded"
  end.
Definition or_empty (wanted value : string) : bool := bool_decide (wanted = "") || bool_decide (value = wanted).
Definition audit_matches (f : AuditFilter) (e : AuditEvent) : bool :=
  or_empty (af_TargetID f) (au_TargetID e) && or_empty (af_Action f) (au_Action e) && or_empty (af_Result f) (audit_result_text (au_Result e)).
Definition after_cursor (before : option AuditCursor) (e : AuditEvent) : bool :=
  match before with
  | None => true
  | Some c => (millis (au_OccurredAt e) <? millis (ac_OccurredAt c)) ||
              ((millis (au_OccurredAt e) =? millis (ac_OccurredAt c)) && String.ltb (au_ID e) (ac_ID c))
  end.
Definition page_size (f : AuditFilter) : Z := if (af_Limit f <=? 0) || (200 <? af_Limit f) then 50 else af_Limit f.

(** The page and the cursor of the next one. *)
Definition AuditEvents (filter : AuditFilter) : Tx (list AuditEvent * option AuditCursor) :=
  let limit := page_size filter in
  tx_read (fun db =>
    let result := limited_to (limit + 1) (merge_sort audit_newest
      (select (fun e => audit_matches filter e && after_cursor (af_Before filter) e) (db_audits db))) in
    match result !! Z.to_nat limit with
    | Some _ =>
        match result !! Z.to_nat (limit - 1) with
        | Some last => (limited_to limit result, Some (mkAuditCursor (au_OccurredAt last) (au_ID last)))
        | None => (limited_to limit result, None)
        end
    | None => (result, None)
    end).
