(* ===== verification/Paging.v ===== *)
(** * The pages of the audit trail

    Following the cursors of [AuditEvents] from page to page gives every
    matching event once, newest first: the pages are the unpaged listing. *)

From Stdlib Require Import ZArith Lia.
From stdpp Require Import sorting.
From S2P Require Import Prelude GoTypes Identity Ports Text Inbound User Sync Quota Traffic Template Records Database StoreListings.

(** ** The order of the listing *)
Lemma string_ltb_leb x y : String.ltb x y = negb (String.leb y x).
Proof.
  unfold String.ltb, String.leb. rewrite (String.compare_antisym x y). by destruct (String.compare y x).
Qed.

#[global] Instance newest_trans : Transitive newest.
Proof.
  intros x y z [Hxy|[Exy Hxy]] [Hyz|[Eyz Hyz]]; unfold newest; [lia..|]. right. split; [lia|].
  apply Is_true_true. apply (transitivity (R := String.le) (y := y.2)); by apply Is_true_true.
Qed.
Lemma newest_total x y : newest x y \/ newest y x.
Proof.
  unfold newest. destruct (Z.lt_trichotomy (millis x.1) (millis y.1)) as [?|[E|?]]; [tauto| |tauto].
  destruct (String.leb_total x.2 y.2); [right|left]; right; by split.
Qed.
#[global] Instance audit_newest_trans : Transitive audit_newest.
Proof. intros x y z. unfold audit_newest. apply newest_trans. Qed.
#[global] Instance audit_newest_total : Total audit_newest.
Proof. intros x y. apply newest_total. Qed.
Lemma newest_antisym x y : newest x y -> newest y x -> x.2 = y.2.
Proof. intros [?|[? ?]] [?|[? ?]]; [lia..|]. by apply String.leb_antisym. Qed.

Definition cursor_of (e : AuditEvent) : AuditCursor := mkAuditCursor (au_OccurredAt e) (au_ID e).
Lemma after_not_newest e x : after_cursor (Some (cursor_of e)) x = negb (bool_decide (audit_newest x e)).
Proof.
  apply eq_true_iff_eq. rewrite negb_true_iff, bool_decide_eq_false. unfold after_cursor. cbn.
  rewrite orb_true_iff, andb_true_iff, Z.ltb_lt, Z.eqb_eq, string_ltb_leb, negb_true_iff, <- not_true_iff_false.
  unfold audit_newest, newest, audit_key. cbn. split; [intros [?|[? ?]] [?|[? ?]]; lia || done|].
  intros Hn. destruct (Z.lt_trichotomy (millis (au_OccurredAt x)) (millis (au_OccurredAt e))) as [?|[E|?]]; [by left| |tauto].
  right. split; [done|]. intros Hl. apply Hn. by right.
Qed.

Lemma StronglySorted_filter {A} (R : relation A) (f : A -> bool) l :
  StronglySorted R l -> StronglySorted R (List.filter f l).
Proof.
  induction 1 as [|x l Hl IH Hx]; cbn; [constructor|]. destruct (f x); [|done]. constructor; [done|].
  rewrite Forall_forall in *. intros y Hy%list_elem_of_In%filter_In. apply Hx, list_elem_of_In, Hy.
Qed.
Lemma StronglySorted_merge {A} (R : relation A) `{!RelDecision R, !Transitive R, !Total R} l : StronglySorted R (merge_sort R l).
Proof. apply StronglySorted_merge_sort; apply _. Qed.

(** ** The listing and its pages *)
Definition audit_trail (filter : AuditFilter) (db : DB) : list AuditEvent :=
  merge_sort audit_newest (select (audit_matches filter) (db_audits db)).

(** The pages a reader sees who follows every cursor. *)
Fixpoint all_pages (fuel : nat) (filter : AuditFilter) : Tx (list AuditEvent) :=
  match fuel with
  | O => mret []
  | S fuel =>
      '(page, next) ← AuditEvents filter;
      match next with
      | None => mret page
      | Some cursor => rest ← all_pages fuel (filter <| af_Before := Some cursor |>); mret (page ++ rest)
      end
  end.

Section Paging.
Context (db : DB) (Hlog : map_Forall (fun k e => au_ID e = k) (db_audits db)).

(** Two events with one identifier are the same row. *)
Lemma audit_same x y cond cond' : x ∈ select cond (db_audits db) -> y ∈ select cond' (db_audits db) -> au_ID x = au_ID y -> x = y.
Proof.
  intros (_ & k & Hk)%elem_of_select (_ & k' & Hk')%elem_of_select E.
  pose proof (Hlog _ _ Hk) as H1. pose proof (Hlog _ _ Hk') as H2. cbn in *. congruence.
Qed.

Lemma select_and {R} (f g : R -> bool) (m : gmap ID R) : select (fun r => f r && g r) m = List.filter g (select f m).
Proof.
  unfold select. induction ((map_to_list m).*2) as [|x l IH]; [done|]. cbn.
  destruct (f x); cbn; [|done]. destruct (g x); by rewrite IH.
Qed.

Lemma merge_sort_filter filter f :
  merge_sort audit_newest (List.filter f (select (audit_matches filter) (db_audits db))) =
  List.filter f (audit_trail filter db).
Proof.
  apply (StronglySorted_unique_strong audit_newest).
  - intros x y Hx Hy Hxy Hyx. rewrite merge_sort_Permutation in Hx.
    apply list_elem_of_In, filter_In in Hx as [Hx%list_elem_of_In _].
    apply list_elem_of_In, filter_In in Hy as [Hy%list_elem_of_In _]. unfold audit_trail in Hy.
    rewrite merge_sort_Permutation in Hy. eapply audit_same; [exact Hx|exact Hy|]. by apply (newest_antisym (audit_key x) (audit_key y)).
  - apply StronglySorted_merge; apply _.
  - apply StronglySorted_filter, StronglySorted_merge; apply _.
  - rewrite merge_sort_Permutation. unfold audit_trail.
    assert (forall l l' : list AuditEvent, l ≡ₚ l' -> List.filter f l ≡ₚ List.filter f l') as Hperm.
    { induction 1 as [|x l l' _ IH|x y l|l l' l'' _ IH1 _ IH2]; cbn; [done| | |by rewrite IH1].
      - destruct (f x); [by f_equiv|done].
      - destruct (f x), (f y); try done. apply Permutation_swap. }
    apply Hperm. by rewrite merge_sort_Permutation.
Qed.

(** The rows after the cursor of an event are the ones that follow it. *)
Lemma rows_after filter p e s : audit_trail filter db = p ++ e :: s ->
  List.filter (after_cursor (Some (cursor_of e))) (audit_trail filter db) = s.
Proof.
  intros E. assert (StronglySorted audit_newest (p ++ e :: s)) as Hs by (rewrite <- E; apply StronglySorted_merge; apply _).
  assert (forall x, x ∈ p ++ e :: s -> x ∈ select (audit_matches filter) (db_audits db)) as Hin.
  { intros x. rewrite <- E. unfold audit_trail. by rewrite merge_sort_Permutation. }
  assert (NoDup (p ++ e :: s)) as Hnd.
  { rewrite <- E. unfold audit_trail. rewrite merge_sort_Permutation. unfold select.
    apply NoDup_ListNoDup, List.NoDup_filter, NoDup_ListNoDup. apply NoDup_fmap_2_strong; [|apply NoDup_map_to_list].
    intros [k x] [k' y] Hx%elem_of_map_to_list Hy%elem_of_map_to_list. cbn. intros <-.
    pose proof (Hlog _ _ Hx) as <-. by pose proof (Hlog _ _ Hy) as <-. }
  rewrite E, List.filter_app. cbn [List.filter].
  assert (forall l, (forall x, x ∈ l -> audit_newest x e) -> List.filter (after_cursor (Some (cursor_of e))) l = []) as Hnone.
  { induction l as [|x l IH]; [done|]. intros Hl. cbn [List.filter]. rewrite after_not_newest, bool_decide_eq_true_2 by (apply Hl; left).
    cbn. apply IH. intros y Hy. apply Hl. by right. }
  rewrite (Hnone p) by (intros x Hx; eapply StronglySorted_app_1_elem_of; [exact Hs|exact Hx|left]).
  rewrite after_not_newest, bool_decide_eq_true_2 by (by destruct (newest_total (audit_key e) (audit_key e))). cbn.
  assert (forall l, (forall x, x ∈ l -> x ∈ s) -> List.filter (after_cursor (Some (cursor_of e))) l = l) as Hall.
  { induction l as [|x l IH]; [done|]. intros Hl. cbn [List.filter]. rewrite after_not_newest, bool_decide_eq_false_2.
    - cbn. f_equal. apply IH. intros y Hy. apply Hl. by right.
    - intros Hx. assert (x ∈ s) as Hxs by (apply Hl; left).
      assert (audit_newest e x) as Hex.
      { apply StronglySorted_app_1_r, StronglySorted_cons in Hs as [Hf _]. rewrite Forall_forall in Hf. by apply Hf. }
      assert (x = e) as ->.
      { eapply audit_same; [apply Hin|apply Hin|]; [set_solver..|]. by apply (newest_antisym (audit_key x) (audit_key e)). }
      apply NoDup_app in Hnd as (_ & _ & Hnd%NoDup_cons). by destruct Hnd. }
  by apply Hall.
Qed.

(** One page of the rows that are left, and where the next one starts. *)
Lemma AuditEvents_page filter c rest : conn_db c = db ->
  List.filter (after_cursor (af_Before filter)) (audit_trail filter db) = rest ->
  let n := Z.to_nat (page_size filter) in
  AuditEvents filter c =
    (Ok (match rest !! n with
         | Some _ => (take n rest, cursor_of <$> rest !! (n - 1)%nat)
         | None => (rest, None)
         end), c).
Proof.
  intros Hc Hrest n. assert (0 < page_size filter) as Hn.
  { unfold page_size. destruct (Z.leb_spec (af_Limit filter) 0); cbn; [lia|]. destruct (200 <? _); lia. }
  unfold AuditEvents, tx_read. rewrite Hc. do 2 f_equal. unfold limited_to.
  rewrite select_and, merge_sort_filter, Hrest.
  replace (Z.to_nat (page_size filter + 1)) with (S n) by lia.
  replace (Z.to_nat (page_size filter - 1)) with (n - 1)%nat by lia. fold n.
  rewrite lookup_take_lt by lia. destruct (rest !! n) as [x|] eqn:E.
  - rewrite lookup_take_lt by lia. rewrite take_take, Nat.min_l by lia.
    apply lookup_lt_Some in E. destruct (rest !! (n - 1)%nat) as [y|] eqn:Ey; [done|].
    apply lookup_ge_None in Ey. lia.
  - apply lookup_ge_None in E. by rewrite take_ge by lia.
Qed.

Lemma all_pages_from filter fuel c p rest : conn_db c = db ->
  audit_trail filter db = p ++ rest ->
  List.filter (after_cursor (af_Before filter)) (audit_trail filter db) = rest -> (length rest < fuel)%nat ->
  all_pages fuel filter c = (Ok rest, c).
Proof.
  revert filter p rest. induction fuel as [|fuel IH]; intros filter p rest Hc Hsplit Hrest Hlen; [lia|].
  cbn [all_pages]. unfold mbind, tx_bind. rewrite (AuditEvents_page filter c rest Hc Hrest).
  set (n := Z.to_nat (page_size filter)). assert (0 < n)%nat as Hn.
  { unfold n, page_size. destruct (Z.leb_spec (af_Limit filter) 0); cbn; [lia|]. destruct (200 <? _); lia. }
  destruct (rest !! n) as [x|] eqn:Ex; [|done].
  destruct (lookup_lt_is_Some_2 rest (n - 1)) as [e He].
  { apply lookup_lt_Some in Ex. lia. }
  rewrite He. cbn. assert (rest = take n rest ++ drop n rest) as Hr by (by rewrite take_drop).
  assert (take n rest = take (n - 1) rest ++ [e]) as Ht.
  { replace n with (S (n - 1)) at 1 by lia. by apply take_S_r. }
  assert (List.filter (after_cursor (Some (cursor_of e))) (audit_trail filter db) = drop n rest) as Hnext.
  { apply (rows_after filter (p ++ take (n - 1) rest) e). rewrite Hsplit, Hr at 1. rewrite Ht, <- !app_assoc. done. }
  rewrite (IH (filter <| af_Before := Some (cursor_of e) |>) (p ++ take n rest) (drop n rest)); [by rewrite take_drop|done| |exact Hnext|].
  - change (audit_trail filter db = (p ++ take n rest) ++ drop n rest). by rewrite <- app_assoc, take_drop.
  - rewrite length_drop. apply lookup_lt_Some in Ex. lia.
Qed.
End Paging.

(** C39: following the cursors of the audit listing from its first page gives
    every event that matches the filter exactly once and newest first, that is
    the whole listing without pages, whatever the page size asked for; one
    page per event and one more are enough, and reading changes nothing. *)
Theorem pages_are_the_trail filter fuel c : Constraints (conn_db c) -> af_Before filter = None ->
  (length (audit_trail filter (conn_db c)) < fuel)%nat ->
  all_pages fuel filter c = (Ok (audit_trail filter (conn_db c)), c) /\
  Sorted audit_newest (audit_trail filter (conn_db c)) /\
  (forall e, e ∈ audit_trail filter (conn_db c) <-> audit_matches filter e = true /\ db_audits (conn_db c) !! au_ID e = Some e).
Proof.
  intros Hc Hb Hf. destruct (con_log _ Hc) as (_ & Hlog & _). split; [|split].
  - apply (all_pages_from (conn_db c) Hlog filter fuel c []); [done..| |done]. rewrite Hb. cbn.
    induction (audit_trail filter (conn_db c)) as [|x l IH]; [done|]. cbn. f_equal. apply IH. cbn in Hf. lia.
  - apply StronglySorted_Sorted, StronglySorted_merge; apply _.
  - intros e. unfold audit_trail. rewrite merge_sort_Permutation, elem_of_select. split; intros [Hm He]; (split; [done|]); [|eauto].
    destruct He as [k Hk]. by rewrite (Hlog _ _ Hk).
Qed.
