(* ===== verification/UserService.v ===== *)
(** * The user service: internal/application/user_service.go

    Every method reads through the store, prepares one record of intent from
    what it read, and hands it to one transaction. The reading of the clock is
    the argument [now]; the answer carries, besides the answer of the method,
    whether the synchronizer was notified. *)

From Stdlib Require Import ZArith Lia.
From S2P Require Import Prelude GoTypes Identity Ports Text Inbound Tokens User Sync Quota Traffic Template Cycle Records Database Secrets StoreCore StoreSync StoreQuota StoreUsers StoreTemplates.

(** crypto/sha256 *)
Class Sha256 := sha256 : string -> string.

Definition format_bool (b : bool) : string := if b then "true" else "false".
Definition invalid_request : error := ValidationError "_request_id" "invalid request identifier".
Definition user_deleted : error := InvalidStateError "user is deleted".

Record CreateUserInput := mkCreateInput {
  ci_DisplayName : string;
  ci_TemplateID : ID;
  ci_Port : option Z;
  ci_LimitBytes : option Z;
  ci_ResetDay : Z;
  ci_RequestID : ID;
  ci_ActorID : ID;
  ci_Fingerprint : string }.

Record UpdateUserInput := mkUpdateInput {
  ui_ID : ID;
  ui_DisplayName : string;
  ui_LimitBytes : option Z;
  ui_ResetDay : Z;
  ui_AdminEnabled : bool;
  ui_ExpectedRevision : Revision;
  ui_RequestID : ID;
  ui_ActorID : ID;
  ui_Fingerprint : string }.

Record ResetTrafficInput := mkResetInput {
  ri_ID : ID; ri_RequestID : ID; ri_ActorID : ID; ri_Fingerprint : string }.
Record SetEnabledInput := mkEnabledInput {
  ei_ID : ID; ei_Enabled : bool; ei_ExpectedRevision : Revision; ei_RequestID : ID; ei_ActorID : ID; ei_Fingerprint : string }.
Record LifecycleInput := mkLifecycleInput {
  li_ID : ID; li_ExpectedRevision : Revision; li_RequestID : ID; li_ActorID : ID; li_Fingerprint : string }.
Record ChangePortInput := mkPortInput {
  pi_ID : ID; pi_Port : Z; pi_ExpectedRevision : Revision; pi_RequestID : ID; pi_ActorID : ID; pi_Fingerprint : string }.

(** [now.UTC()] of the wall clock, its location the zone database's. *)
Definition initialCycleBounds {Zn : Zones} (now : Time) (timezone : string) (resetDay : Z) : Res (Time * Time) :=
  match LoadLocation timezone with
  | None => Err (PlainError ("unknown time zone " +:+ timezone))
  | Some location =>
      let '(year, month, _) := local_date location now in
      let start := Date location year month resetDay in
      let start := if Before now start then AddMonths location start (-1) else start in
      let end_ := AddMonths location start 1 in
      if negb (After end_ start) then Err (PlainError "invalid quota cycle") else Ok (start, end_)
  end.

(** An administrator's command, completed when it is recorded. *)
Definition admin_command (request actor : ID) (kind : string) (target : ID) (fingerprint reference : string)
    (now : Time) : DomainCommand :=
  mkCommand request ActorAdministrator (Some actor) kind "user" target fingerprint CommandCompleted reference now (Some now).
Definition admin_audit (id : ID) (now : Time) (actor target : ID) (action : string) (request : ID)
    (operation : option ID) (summary : string) : AuditEvent :=
  mkAudit id now ActorAdministrator (Some actor) "user" target action AuditAccepted (Some request) operation summary.
(** [&domain.SynchronizationOperation{ID: id, CreatedAt: now}]: the other fields
    hold the zero values of the struct; the store fills the reason, the phase
    and the state in. *)
Definition operation_template (id allocationID : ID) (now : Time) : SynchronizationOperation :=
  mkOperation id allocationID 0 false None SyncReconcile SyncDone SyncPending "" 0 zero_time "" None "" "" now None None.

Section Service.
Context {Zn : Zones} {En : Entropy} {Un : Unicode} {Ae : Aead} {Sh : Sha256} (keyring : Keyring).

Definition fingerprint_or (given : string) (parts : list string) : string :=
  if bool_decide (given = "") then Fingerprint sha256 parts else given.

Fixpoint new_ids (n : nat) : Tx (list ID) :=
  match n with
  | O => mret []
  | S n => id ← NewID_tx; ids ← new_ids n; mret (id :: ids)
  end.
Definition id_at (i : nat) (ids : list ID) : ID := default "" (ids !! i).

Definition commandReplayed (requestID : ID) (fingerprint : string) : Tx bool :=
  existing ← WithReadTx (FindCommand requestID);
  match existing with
  | None => mret false
  | Some existing =>
      if bool_decide (cmd_RequestFingerprint existing <> fingerprint) then tx_fail reuse_conflict else mret true
  end.

(** ** CreateUser *)
Definition limit_text (limit : option Z) : string :=
  match limit with Some l => pretty l | None => "unlimited" end.

(** The record of a new user, from what was drawn and generated. *)
Definition user_create_record (input : CreateUserInput) (t : InboundTemplate) (settings : PanelSettingsRecord)
    (user : ManagedUser) (allocationID identityID credentialID cycleID operationID auditID portAuditID : ID)
    (statisticsID : string) (key serverKey : string * string) (port : Z) (start end_ now : Time) : UserCreateRecord :=
  let userID := u_ID user in
  let fingerprint := fingerprint_or (ci_Fingerprint input)
    [ActionUserCreated; u_NormalizedName user; ci_TemplateID input; limit_text (ci_LimitBytes input);
     pretty (ci_ResetDay input)] in
  let tag := InboundTag allocationID in
  mkUserCreate user
    (mkIdentity identityID (t_InstanceID t) (t_ID t) statisticsID IdentityManaged now)
    (mkAllocation allocationID userID (t_ID t) identityID true QuotaWithinLimit ProjectionPending None 1 0 1 None
       None "" "" now now)
    (mkInboundRecord (mkInbound allocationID (t_ID t) tag (t_ListenAddress t) port true None None None now now)
       serverKey.1 serverKey.2 1)
    (mkCredential credentialID allocationID 1 CredentialPending key.1 key.2 1 now None None)
    (mkPolicy allocationID (ci_LimitBytes input) (ci_ResetDay input) 0 now now)
    (mkCycle cycleID allocationID start end_ (ps_QuotaTimezone settings) (ci_ResetDay input) CycleOpen 0 0 0 0 0 now None)
    (NewSynchronizationOperation operationID allocationID 1 true (Some 1) SyncCreate (InboundPhaseFor true) now)
    (admin_command (ci_RequestID input) (ci_ActorID input) ActionUserCreated userID fingerprint ("/users/" +:+ userID) now)
    (admin_audit auditID now (ci_ActorID input) userID ActionUserCreated (ci_RequestID input) (Some operationID)
       "user created; Xray projection pending")
    (admin_audit portAuditID now (ci_ActorID input) userID ActionPortAssigned (ci_RequestID input) (Some operationID)
       ("port " +:+ pretty port +:+ " assigned on " +:+ t_ListenAddress t +:+ " (tag " +:+ tag +:+ ")")).

(** The template must be open for new users, by evidence of the current
    capability generation. *)
Definition open_template (t : InboundTemplate) : Res unit :=
  if negb (bool_decide (t_Compatibility t = CompatibilityCompatible)) || bool_decide (is_Some (t_ArchivedAt t))
  then Err (InvalidStateError "inbound template is not compatible") else Ok tt.
Definition current_evidence (t : InboundTemplate) (instance : ManagedInstanceRecord) : Res unit :=
  if (mi_CapabilityGeneration instance <=? 0) || (t_ValidatedGeneration t <=? 0) ||
     negb (t_ValidatedGeneration t =? mi_CapabilityGeneration instance)
  then Err (InvalidStateError "inbound template must be revalidated against the running node") else Ok tt.

Definition choose_port (pool : PortPool) (requested : option Z) (assigned : list Z) : Res Z :=
  match requested with
  | Some port => match ValidateRequestedPort pool port assigned with Ok _ => Ok port | Err e => Err e end
  | None => NextAvailablePort pool assigned
  end.

Definition CreateUser_prepare (input : CreateUserInput) (now : Time) : Tx UserCreateRecord :=
  if negb (Valid (ci_RequestID input)) then tx_fail invalid_request
  else if (ci_ResetDay input <? 1) || (28 <? ci_ResetDay input) then
    tx_fail (ValidationError "reset_day" "reset day must be between 1 and 28")
  else if match ci_LimitBytes input with Some l => (l <=? 0) || (MaxLimitBytes <? l) | None => false end then
    tx_fail (ValidationError "limit_bytes" "quota must be positive and at most 2^62 bytes")
  else
    t ← GetTemplate (ci_TemplateID input);
    _ ← tx_lift (open_template t);
    instance ← ManagedInstance;
    _ ← tx_lift (current_evidence t instance);
    assigned ← AssignedPorts (t_ID t);
    port ← tx_lift (choose_port (t_Pool t) (ci_Port input) assigned);
    ids ← new_ids 7;
    let allocationID := id_at 1 ids in
    user ← tx_lift (NewManagedUser (id_at 0 ids) (ci_DisplayName input) now);
    statisticsID ← tx_lift (StatisticsID allocationID);
    key ← GenerateUserKey (t_Method t);
    sealed ← Encrypt keyring (Reveal key) (SecretAAD "access_credentials" allocationID "user_key" 1);
    serverKey ← GenerateUserKey (t_Method t);
    serverSealed ← Encrypt keyring (Reveal serverKey) (SecretAAD "dedicated_inbounds" allocationID "server_key" 1);
    settings ← Settings;
    '(start, end_) ← tx_lift (match initialCycleBounds now (ps_QuotaTimezone settings) (ci_ResetDay input) with
                              | Ok b => Ok b
                              | Err _ => Err (ValidationError "reset_day" "quota cycle could not be calculated")
                              end);
    portAuditID ← NewID_tx;
    mret (user_create_record input t settings user allocationID (id_at 2 ids) (id_at 3 ids) (id_at 4 ids)
            (id_at 5 ids) (id_at 6 ids) portAuditID statisticsID sealed serverSealed port start end_ now).

(** [((id, replay), notified)] *)
Definition Service_CreateUser (input : CreateUserInput) (now : Time) : Tx (ID * bool * bool) :=
  record ← CreateUser_prepare input now;
  '(id, replay) ← CreateUser record;
  mret (id, replay, negb replay).

(** ** UpdateUser and SetAdminEnabled *)
Definition user_intents (record : UserRecord) (input : UpdateUserInput) : list (string * string) :=
  let was := a_AdminEnabled (ur_Allocation record) in
  let will := ui_AdminEnabled input in
  [(ActionUserUpdated, "user profile or quota policy updated")] ++
  (if was && negb will then [(ActionUserDisabled, "administrator disabled access")] else []) ++
  (if negb was && will then [(ActionUserEnabled, "administrator enabled access")] else []).

(** The first two identifiers are the operation's and the quota audit's; the
    intents take the following ones. *)
Definition user_update_record (record : UserRecord) (input : UpdateUserInput) (renamed : ManagedUser)
    (fingerprint : string) (ids : list ID) (now : Time) : UserUpdateRecord :=
  let target := u_ID (ur_User record) in
  mkUserUpdate target (ui_ExpectedRevision input) (u_DisplayName renamed) (u_NormalizedName renamed)
    (ui_LimitBytes input) (ui_ResetDay input) (ui_AdminEnabled input)
    (operation_template (id_at 0 ids) "" now)
    (Some (admin_audit (id_at 1 ids) now (ui_ActorID input) target "" (ui_RequestID input) None ""))
    (admin_command (ui_RequestID input) (ui_ActorID input) ActionUserUpdated target fingerprint ("/users/" +:+ target) now)
    (imap (fun i intent => admin_audit (id_at (2 + i) ids) now (ui_ActorID input) target intent.1 (ui_RequestID input)
             None intent.2) (user_intents record input))
    now.

(** A user that is still there at the revision the page showed. *)
Definition loaded_user (record : UserRecord) (expected : Revision) : Res unit :=
  if bool_decide (u_Lifecycle (ur_User record) = LifecycleDeleted) then Err user_deleted
  else if negb (u_Revision (ur_User record) =? expected) then Err user_changed
  else Ok tt.

(** [inl] a replay, [inr] the record to commit. *)
Definition UpdateUser_prepare (input : UpdateUserInput) (now : Time) : Tx (bool + UserUpdateRecord) :=
  if negb (Valid (ui_RequestID input)) then tx_fail invalid_request
  else
    _ ← tx_lift (ValidateQuotaPolicy (ui_LimitBytes input) (ui_ResetDay input));
    normalized ← tx_lift (match NormalizeDisplayName (ui_DisplayName input) with
                          | Ok n => Ok n
                          | Err e => Err (ValidationError "display_name" (error_text e))
                          end);
    let fingerprint := fingerprint_or (ui_Fingerprint input)
      [ActionUserUpdated; ui_ID input; normalized; limit_text (ui_LimitBytes input); pretty (ui_ResetDay input);
       format_bool (ui_AdminEnabled input); pretty (ui_ExpectedRevision input)] in
    replayed ← commandReplayed (ui_RequestID input) fingerprint;
    if (replayed : bool) then mret (inl true)
    else
      record ← GetUser (ui_ID input);
      _ ← tx_lift (loaded_user record (ui_ExpectedRevision input));
      renamed ← tx_lift (NewManagedUser (u_ID (ur_User record)) (ui_DisplayName input) now);
      ids ← new_ids 4;
      mret (inr (user_update_record record input renamed fingerprint ids now)).

(** [(replay, notified)] *)
Definition Service_UpdateUser (input : UpdateUserInput) (now : Time) : Tx (bool * bool) :=
  prepared ← UpdateUser_prepare input now;
  match prepared with
  | inl replay => mret (replay, false)
  | inr update =>
      '(replay, created) ← UpdateUser update;
      mret (replay, negb replay && created)
  end.

Definition SetAdminEnabled (input : SetEnabledInput) (now : Time) : Tx (bool * bool) :=
  record ← GetUser (ei_ID input);
  Service_UpdateUser
    (mkUpdateInput (ei_ID input) (u_DisplayName (ur_User record)) (qp_LimitBytes (ur_Policy record))
       (qp_ResetDay (ur_Policy record)) (ei_Enabled input) (ei_ExpectedRevision input) (ei_RequestID input)
       (ei_ActorID input) (ei_Fingerprint input)) now.

(** ** ResetTraffic *)
Definition quota_reset_record (record : UserRecord) (input : ResetTrafficInput) (fingerprint : string)
    (eventID auditID opID : ID) (now : Time) : QuotaResetRecord :=
  let target := u_ID (ur_User record) in
  mkQuotaReset (a_ID (ur_Allocation record)) (qc_ID (ur_Cycle record)) eventID (ri_ActorID input)
    (admin_command (ri_RequestID input) (ri_ActorID input) ActionTrafficReset target fingerprint ("/users/" +:+ target) now)
    (operation_template opID "" now)
    (admin_audit auditID now (ri_ActorID input) target ActionTrafficReset (ri_RequestID input) None
       "current cycle accounted usage reset to zero") now.

Definition ResetTraffic_prepare (input : ResetTrafficInput) (now : Time) : Tx (bool + QuotaResetRecord) :=
  if negb (Valid (ri_RequestID input)) then tx_fail invalid_request
  else
    record ← GetUser (ri_ID input);
    if bool_decide (u_Lifecycle (ur_User record) = LifecycleDeleted) then tx_fail user_deleted
    else
      let fingerprint := fingerprint_or (ri_Fingerprint input)
        [ActionTrafficReset; u_ID (ur_User record); qc_ID (ur_Cycle record)] in
      replayed ← commandReplayed (ri_RequestID input) fingerprint;
      if (replayed : bool) then mret (inl true)
      else
        eventID ← NewID_tx;
        auditID ← NewID_tx;
        opID ← NewID_tx;
        mret (inr (quota_reset_record record input fingerprint eventID auditID opID now)).

Definition ResetTraffic (input : ResetTrafficInput) (now : Time) : Tx (bool * bool) :=
  prepared ← ResetTraffic_prepare input now;
  match prepared with
  | inl replay => mret (replay, false)
  | inr reset => '(replay, created) ← ResetCycleTraffic reset; mret (replay, negb replay && created)
  end.

(** ** ChangePort *)
Definition port_change_record (record : UserRecord) (input : ChangePortInput) (fingerprint : string)
    (opID auditID : ID) (now : Time) : PortChangeRecord :=
  let target := u_ID (ur_User record) in
  let a := ur_Allocation record in
  let old := in_Port (ir_Inbound (ur_Inbound record)) in
  let present := DesiredPresent a (ur_User record) in
  mkPortChange target (a_ID a) (pi_ExpectedRevision input) old (pi_Port input)
    (NewSynchronizationOperation opID (a_ID a) (a_DesiredRevision a + 1) present
       (Some (a_DesiredCredentialVersion a)) SyncPortChange (InboundPhaseFor present) now)
    (admin_command (pi_RequestID input) (pi_ActorID input) ActionPortChanged target fingerprint ("/users/" +:+ target) now)
    (admin_audit auditID now (pi_ActorID input) target ActionPortChanged (pi_RequestID input) (Some opID)
       ("port changed from " +:+ pretty old +:+ " to " +:+ pretty (pi_Port input) +:+ " on " +:+
        t_ListenAddress (ur_Template record))) now.

Definition ChangePort_prepare (input : ChangePortInput) (now : Time) : Tx (bool + PortChangeRecord) :=
  if negb (Valid (pi_RequestID input)) then tx_fail invalid_request
  else
    let fingerprint := fingerprint_or (pi_Fingerprint input)
      [ActionPortChanged; pi_ID input; pretty (pi_Port input); pretty (pi_ExpectedRevision input)] in
    replayed ← commandReplayed (pi_RequestID input) fingerprint;
    if (replayed : bool) then mret (inl true)
    else
      record ← GetUser (pi_ID input);
      _ ← tx_lift (loaded_user record (pi_ExpectedRevision input));
      if pi_Port input =? in_Port (ir_Inbound (ur_Inbound record)) then
        tx_fail (ValidationError "port" "port is already assigned to this user")
      else
        assigned ← AssignedPorts (t_ID (ur_Template record));
        _ ← tx_lift (ValidateRequestedPort (t_Pool (ur_Template record)) (pi_Port input) assigned);
        opID ← NewID_tx;
        auditID ← NewID_tx;
        mret (inr (port_change_record record input fingerprint opID auditID now)).

Definition ChangePort (input : ChangePortInput) (now : Time) : Tx (bool * bool) :=
  prepared ← ChangePort_prepare input now;
  match prepared with
  | inl replay => mret (replay, false)
  | inr change => replay ← ChangeInboundPort change; mret (replay, negb replay)
  end.

(** ** RotateCredential *)
Definition rotation_record (record : UserRecord) (input : LifecycleInput) (fingerprint : string)
    (credentialID opID auditID : ID) (sealed : string * string) (now : Time) : RotationRecord :=
  let target := u_ID (ur_User record) in
  let a := ur_Allocation record in
  let version := cr_Version (ur_Credential record) + 1 in
  mkRotation target (a_ID a) (li_ExpectedRevision input)
    (mkCredential credentialID (a_ID a) version CredentialPending sealed.1 sealed.2 1 now None None)
    (NewSynchronizationOperation opID (a_ID a) (a_DesiredRevision a + 1) (DesiredPresent a (ur_User record))
       (Some version) SyncRotate SyncAddDesired now)
    (admin_command (li_RequestID input) (li_ActorID input) ActionCredentialRotated target fingerprint ("/users/" +:+ target) now)
    (admin_audit auditID now (li_ActorID input) target ActionCredentialRotated (li_RequestID input) (Some opID)
       "credential rotation started; old credential retires after Xray confirms the new one") now.

Definition RotateCredential_prepare (input : LifecycleInput) (now : Time) : Tx (bool + RotationRecord) :=
  if negb (Valid (li_RequestID input)) then tx_fail invalid_request
  else
    let fingerprint := fingerprint_or (li_Fingerprint input)
      [ActionCredentialRotated; li_ID input; pretty (li_ExpectedRevision input)] in
    replayed ← commandReplayed (li_RequestID input) fingerprint;
    if (replayed : bool) then mret (inl true)
    else
      record ← GetUser (li_ID input);
      _ ← tx_lift (loaded_user record (li_ExpectedRevision input));
      if bool_decide (cr_State (ur_Credential record) = CredentialPending) then tx_fail rotation_in_progress
      else
        credentialID ← NewID_tx;
        key ← GenerateUserKey (t_Method (ur_Template record));
        sealed ← Encrypt keyring (Reveal key)
                   (SecretAAD "access_credentials" (a_ID (ur_Allocation record)) "user_key" 1);
        opID ← NewID_tx;
        auditID ← NewID_tx;
        mret (inr (rotation_record record input fingerprint credentialID opID auditID sealed now)).

Definition Service_RotateCredential (input : LifecycleInput) (now : Time) : Tx (bool * bool) :=
  prepared ← RotateCredential_prepare input now;
  match prepared with
  | inl replay => mret (replay, false)
  | inr rotation => replay ← RotateCredential rotation; mret (replay, negb replay)
  end.

(** ** DeleteUser *)
Definition delete_record (record : UserRecord) (input : LifecycleInput) (fingerprint : string)
    (opID auditID : ID) (now : Time) : DeleteRecord :=
  let target := u_ID (ur_User record) in
  let a := ur_Allocation record in
  mkDelete target (a_ID a) (li_ExpectedRevision input)
    (NewSynchronizationOperation opID (a_ID a) (a_DesiredRevision a + 1) false None SyncDelete (InboundPhaseFor false) now)
    (admin_command (li_RequestID input) (li_ActorID input) ActionUserDeleted target fingerprint "/users" now)
    (admin_audit auditID now (li_ActorID input) target ActionUserDeleted (li_RequestID input) (Some opID)
       "user soft-deleted; removal from Xray requested; history retained") now.

Definition DeleteUser_prepare (input : LifecycleInput) (now : Time) : Tx (bool + DeleteRecord) :=
  if negb (Valid (li_RequestID input)) then tx_fail invalid_request
  else
    let fingerprint := fingerprint_or (li_Fingerprint input)
      [ActionUserDeleted; li_ID input; pretty (li_ExpectedRevision input)] in
    replayed ← commandReplayed (li_RequestID input) fingerprint;
    if (replayed : bool) then mret (inl true)
    else
      record ← GetUser (li_ID input);
      _ ← tx_lift (loaded_user record (li_ExpectedRevision input));
      opID ← NewID_tx;
      auditID ← NewID_tx;
      mret (inr (delete_record record input fingerprint opID auditID now)).

Definition DeleteUser (input : LifecycleInput) (now : Time) : Tx (bool * bool) :=
  prepared ← DeleteUser_prepare input now;
  match prepared with
  | inl replay => mret (replay, false)
  | inr deletion => replay ← SoftDeleteUser deletion; mret (replay, negb replay)
  end.

(** ** Queries *)
Definition Service_User (id : ID) : Tx UserRecord := GetUser id.
Definition Service_List (filter : UserFilter) : Tx (list UserRecord) :=
  ListUsers (if bool_decide (uf_Status filter = "deleted")
             then mkFilter (uf_Query filter) (uf_Status filter) true else filter).
End Service.
