(* ===== verification/StoreSessions.v ===== *)
(** * Sessions: internal/persistence/sqlite/sessions.go

    [now] is the reading of the store's clock. *)

From Stdlib Require Import ZArith Lia.
From S2P Require Import Prelude GoTypes Identity Records Database StoreCore UserService.

Record SessionStore := mkSessionStore { ss_idle : Duration; ss_absolute : Duration }.
Definition NewSessionStore (idle absolute : Duration) : SessionStore := mkSessionStore idle absolute.

Definition set_sessions m db := db <| db_sessions := m |>.

(** Transactions that a session store takes part in are passed in the context:
    [CommitCtx] and [DeleteCtx] inside of one, [Commit] and [Delete] without. *)
Definition ErrSessionNotLive : error := PlainError "session is not live".

Section Sessions.
Context {En : Entropy} {Sh : Sha256}.
Context (s : SessionStore).

Definition tokenDigest (token : string) : string := sha256 token.

Definition live_session (digest : string) (now : Time) (db : DB) (row : SessionRow) : bool :=
  match db_administrators db !! sr_AdministratorID row with
  | Some a => ad_PasswordVersion a =? sr_PasswordVersion row
  | None => false
  end &&
  bool_decide (sr_TokenDigest row = digest) && bool_decide (sr_RevokedAt row = None) &&
  (millis now <? millis (sr_IdleExpiresAt row)) && (millis now <? millis (sr_AbsoluteExpiresAt row)).

(** [None]: no live session. *)
Definition Find (token : string) (now : Time) : Tx (option string) :=
  found ← tx_read (fun db => find_row (live_session (tokenDigest token) now db) (db_sessions db));
  match found with
  | None => mret None
  | Some row =>
      let idleExpiry := now + ss_idle s in
      let idleExpiry := if After idleExpiry (sr_AbsoluteExpiresAt row) then sr_AbsoluteExpiresAt row else idleExpiry in
      _ ← tx_exec (fun db => set_sessions (update_at (sr_ID row) every
             (fun r => r <| sr_LastSeenAt := ms now |> <| sr_IdleExpiresAt := ms idleExpiry |>) (db_sessions db)) db);
      mret (Some (sr_Data row))
  end.

(** The bounds of a session row: the earlier of the two. *)
Definition session_record (token data : string) (expiry now : Time) : Tx SessionRecord :=
  let absolute := now + ss_absolute s in
  let absolute := if Before expiry absolute then expiry else absolute in
  let idle := now + ss_idle s in
  let idle := if After idle absolute then absolute else idle in
  id ← NewID_tx;
  mret (mkSession id (tokenDigest token) data now now idle absolute).

(** A revoked row is not written by the upsert. *)
Definition upsert_session (admin : ID) (version : Z) (record : SessionRecord) : Tx unit :=
  existing ← tx_read (fun db => find_row (fun r => bool_decide (sr_TokenDigest r = se_TokenDigest record)) (db_sessions db));
  match existing with
  | None =>
      insert_row db_sessions set_sessions (se_ID record)
        (mkSessionRow (se_ID record) admin (se_TokenDigest record) version (se_Data record) (ms (se_CreatedAt record))
           (ms (se_LastSeenAt record)) (ms (se_IdleExpiresAt record)) (ms (se_AbsoluteExpiresAt record)) None)
  | Some row =>
      tx_exec (fun db => set_sessions (update_at (sr_ID row) (fun r => bool_decide (sr_RevokedAt r = None))
        (fun r => r <| sr_Data := se_Data record |> <| sr_LastSeenAt := ms (se_LastSeenAt record) |>
                    <| sr_IdleExpiresAt := ms (se_IdleExpiresAt record) |>
                    <| sr_AbsoluteExpiresAt := ms (se_AbsoluteExpiresAt record) |>) (db_sessions db)) db)
  end.
Definition Commit (token data : string) (expiry now : Time) : Tx unit :=
  admin ← tx_row (fun db => find_row every (db_administrators db));
  record ← session_record token data expiry now;
  upsert_session (ad_ID admin) (ad_PasswordVersion admin) record.

Definition CommitCtx (in_tx : bool) (token data : string) (expiry now : Time) : Tx unit :=
  if in_tx then record ← session_record token data expiry now; InsertSession record
  else Commit token data expiry now.

Definition Delete (token : string) (now : Time) : Tx unit :=
  tx_exec (fun db => set_sessions (update_rows
    (fun r => bool_decide (sr_TokenDigest r = tokenDigest token) && bool_decide (sr_RevokedAt r = None))
    (fun r => r <| sr_RevokedAt := Some (ms now) |>) (db_sessions db)) db).
Definition DeleteCtx (in_tx : bool) (token : string) (now : Time) : Tx unit :=
  if in_tx then
    revoked ← RevokeSession (tokenDigest token) now;
    if negb revoked then tx_fail ErrSessionNotLive else mret tt
  else Delete token now.

Definition FindCtx (token : string) (now : Time) : Tx (option string) := Find token now.
Definition RevokeAll (administratorID : ID) (now : Time) : Tx unit := RevokeAllSessions administratorID now.
End Sessions.
