(* ===== verification/AuthService.v ===== *)
(** * Authentication: internal/application/auth_service.go

    The service keeps the failures of the last quarter of an hour in memory
    ([Guard]); its methods run on that state and on the store. The readings of
    the clock are arguments; [later] is the one an audit takes. *)

From Stdlib Require Import ZArith Lia.
From S2P Require Import Prelude GoTypes Identity Text Inbound Template Records Database Password StoreCore.

Definition ErrInvalidCredentials : error := PlainError "invalid username or password".

(** ** The failures of the last quarter of an hour *)
Record Guard := mkGuard { bySource : gmap string (list Time); global : list Time }.
Definition no_failures : Guard := mkGuard ∅ [].

Definition window : Duration := 15 * Minute.

(** The failures are in the order in which they were recorded. *)
Fixpoint prune (values : list Time) (now : Time) : list Time :=
  match values with
  | [] => []
  | v :: values' => if Before v (now - window) then prune values' now else values
  end.
Definition of_source (key : string) (g : Guard) : list Time := default [] (bySource g !! key).

Definition boundedRetry (value : Duration) : Duration :=
  if value <? Second then Second else if window <? value then window else value.

Definition limited (key : string) (now : Time) (g : Guard) : option Duration * Guard :=
  let source := prune (of_source key g) now in
  let all := prune (global g) now in
  let g := mkGuard (<[key := source]> (bySource g)) all in
  let retry values := boundedRetry (time_sub (default zero_time (head values) + window) now) in
  if 5 <=? Z.of_nat (length source) then (Some (retry source), g)
  else if 20 <=? Z.of_nat (length all) then (Some (retry all), g) else (None, g).

Definition recordFailure (key : string) (now : Time) (g : Guard) : option Duration * Guard :=
  let source := prune (of_source key g) now ++ [now] in
  let all := prune (global g) now ++ [now] in
  (if (5 <=? Z.of_nat (length source)) || (20 <=? Z.of_nat (length all)) then Some window else None,
   mkGuard (<[key := source]> (bySource g)) all).

Definition clearFailures (key : string) (now : Time) (g : Guard) : Guard :=
  mkGuard (delete key (bySource g)) (prune (global g) now).

(** ** Methods on the guard and the store *)
Definition Auth (A : Type) : Type := Guard * Conn -> Res A * (Guard * Conn).
#[export] Instance auth_ret : MRet Auth := fun A a s => (Ok a, s).
#[export] Instance auth_bind : MBind Auth := fun A B k m s =>
  match m s with
  | (Ok a, s') => k a s'
  | (Err e, s') => (Err e, s')
  end.
Definition auth_fail {A} (e : error) : Auth A := fun s => (Err e, s).
Definition auth_lift {A} (r : Res A) : Auth A := fun s => (r, s).
Definition in_store {A} (m : Tx A) : Auth A := fun '(g, c) => let '(r, c) := m c in (r, (g, c)).
Definition on_guard {A} (f : Guard -> A * Guard) : Auth A := fun '(g, c) => let '(a, g) := f g in (Ok a, (g, c)).

Record AuthService := mkAuthService { as_dummyHash : string }.

Section Service.
Context {En : Entropy} {Un : Unicode} {Fo : Folding} {Ar : Argon2}.

Definition NewAuthService : Tx (AuthService * Guard) :=
  dummy ← HashPassword "xpanel dummy password value";
  mret (mkAuthService dummy, no_failures).

(** ** Setting up *)
Definition as_field {A} (field : string) (r : Res A) : Res A :=
  match r with Ok a => Ok a | Err e => Err (ValidationError field (error_text e)) end.

Definition administrator_audit (id : ID) (now : Time) (actorType : ActorType) (actor : option ID) (target : ID)
    (action : string) (result : AuditResult) (summary : string) : AuditEvent :=
  mkAudit id now actorType actor "administrator" target action result None None summary.

Definition InitializeAdministrator (username password : string) (now : Time) : Tx ID :=
  normalized ← tx_lift (as_field "username" (NormalizeUsername username));
  _ ← tx_lift (as_field "password" (ValidatePassword normalized password));
  hash ← HashPassword password;
  id ← NewID_tx;
  auditID ← NewID_tx;
  WithWriteTx (
    existing ← Administrator;
    match existing with
    | Some _ => tx_fail (ConflictError "administrator already initialized; use reset-password")
    | None =>
        _ ← CreateAdministrator (mkAdministrator id normalized hash 1 now now);
        _ ← AppendAudit (administrator_audit auditID now ActorLocalCLI None id ActionAdministratorInitialized AuditSucceeded
                           "administrator initialized locally");
        mret id
    end).

Definition ResetPassword (password : string) (now : Time) : Tx unit :=
  current ← WithReadTx Administrator;
  match current with
  | None => tx_fail (NotFoundError "administrator")
  | Some current =>
      _ ← tx_lift (as_field "password" (ValidatePassword (ad_Username current) password));
      hash ← HashPassword password;
      auditID ← NewID_tx;
      WithWriteTx (
        _ ← UpdateAdministratorPassword (ad_ID current) hash (ad_PasswordVersion current + 1) now;
        _ ← RevokeAllSessions (ad_ID current) now;
        AppendAudit (administrator_audit auditID now ActorLocalCLI None (ad_ID current) ActionPasswordReset AuditSucceeded
                       "administrator password reset locally"))
  end.

(** ** The audit of what an administrator does *)
Definition appendAudit (admin : AdministratorRecord) (action : string) (result : AuditResult) (summary : string)
    (later : Time) : Tx unit :=
  id ← NewID_tx;
  AppendAudit (administrator_audit id later ActorAdministrator (Some (ad_ID admin)) (ad_ID admin) action result summary).
Definition audit (admin : AdministratorRecord) (action : string) (result : AuditResult) (summary : string)
    (later : Time) : Tx unit :=
  WithWriteTx (appendAudit admin action result summary later).

Definition RecordLogin (admin : AdministratorRecord) (later : Time) : Tx unit :=
  audit admin ActionLogin AuditSucceeded "administrator login succeeded" later.
Definition Logout (admin : AdministratorRecord) (later : Time) : Tx unit :=
  audit admin ActionLogout AuditSucceeded "administrator logout succeeded" later.
Definition LogoutFailed (admin : AdministratorRecord) (summary : string) (later : Time) : Tx unit :=
  audit admin ActionLogout AuditFailed summary later.

Definition nobody : ID := "00000000-0000-4000-8000-000000000000".
Definition RecordLoginFailure (summary : string) (later : Time) : Tx unit :=
  id ← NewID_tx;
  WithWriteTx (
    admin ← Administrator;
    let target := match admin with Some admin => ad_ID admin | None => nobody end in
    AppendAudit (administrator_audit id later ActorSystem None target ActionLogin AuditFailed summary)).

(** ** Logging in *)
Section LoggingIn.
Context (s : AuthService).

Definition source_key (username source : string) : string :=
  match NormalizeUsername username with Ok normalized => normalized | Err _ => "invalid" end +:+ "|" +:+ source.

(** The hash a password is compared with, and whether the name is the
    administrator's; without one, the hash of a dummy. *)
Definition hash_for (username : string) (admin : option AdministratorRecord) : string * bool :=
  match NormalizeUsername username, admin with
  | Ok normalized, Some admin =>
      if bool_decide (ad_Username admin = normalized) then (ad_PasswordHash admin, true) else (as_dummyHash s, false)
  | _, _ => (as_dummyHash s, false)
  end.

Definition refuse {A} (key : string) (now later : Time) : Auth A :=
  _ ← in_store (RecordLoginFailure "login failed: invalid credentials" later);
  retry ← on_guard (recordFailure key now);
  auth_fail (match retry with Some retry => RateLimitError retry | None => ErrInvalidCredentials end).

Definition Authenticate (username password source : string) (now later : Time) : Auth AdministratorRecord :=
  let key := source_key username source in
  retry ← on_guard (limited key now);
  match retry with
  | Some retry =>
      _ ← in_store (RecordLoginFailure "login throttled" later);
      auth_fail (RateLimitError retry)
  | None =>
      admin ← in_store (WithReadTx Administrator);
      let '(hash, matchedUser) := hash_for username admin in
      ok ← auth_lift (ComparePassword hash password);
      match admin with
      | Some admin =>
          if matchedUser && ok then
            _ ← on_guard (fun g => (tt, clearFailures key now g)); mret admin
          else refuse key now later
      | None => refuse key now later
      end
  end.

Definition Login (username password source : string) (now later : Time) : Auth AdministratorRecord :=
  admin ← Authenticate username password source now later;
  _ ← in_store (RecordLogin admin later);
  mret admin.
End LoggingIn.

(** ** Sessions *)

(** [commit] and [destroy] run inside the transaction. *)
Definition EstablishSession (admin : AdministratorRecord) (commit : Tx (string * Time)) (later : Time) : Tx (string * Time) :=
  WithWriteTx (
    '(token, expiry) ← commit;
    _ ← appendAudit admin ActionLogin AuditSucceeded "administrator login succeeded" later;
    mret (token, expiry)).
Definition AuthService_RevokeSession (admin : AdministratorRecord) (destroy : Tx unit) (later : Time) : Tx unit :=
  WithWriteTx (
    _ ← appendAudit admin ActionLogout AuditSucceeded "administrator logout succeeded" later;
    destroy).
Definition RevokeSessions (administratorID : ID) (now : Time) : Tx unit := WithWriteTx (RevokeAllSessions administratorID now).

Definition SessionValid (administratorID : ID) (passwordVersion : Z) : Tx bool :=
  admin ← WithReadTx Administrator;
  mret (match admin with
        | Some admin => bool_decide (ad_ID admin = administratorID) && (ad_PasswordVersion admin =? passwordVersion)
        | None => false
        end).
End Service.
