(* ===== verification/Config.v ===== *)
(** * The configuration: internal/config

    Reading the file, decoding it over the defaults and the state of the file
    system are arguments; so is what net/url takes for a URL. *)

From Stdlib Require Import ZArith Lia.
From S2P Require Import Prelude GoTypes Identity Text Inbound Tokens Template Net Cycle Records Database Secrets Password StoreCore StoreSync StoreQuota.

Definition SupportedXrayVersion : string := "v26.3.27".

Record ServerConfig := mkServer {
  sv_Listen : string; sv_PublicURL : string; sv_InsecureDevelopment : bool;
  sv_ReadHeaderTimeout : Duration; sv_RequestTimeout : Duration; sv_ShutdownTimeout : Duration }.
Record StorageConfig := mkStorage { st_DatabasePath : string; st_BusyTimeout : Duration }.
Record SecurityConfig := mkSecurity {
  sc_RootKeyFile : string; sc_SessionIdleTimeout : Duration; sc_SessionAbsoluteTimeout : Duration }.
Record XrayConfig := mkXray { xc_APIEndpoint : string; xc_SupportedVersion : string; xc_RPCTimeout : Duration }.
Record WorkersConfig := mkWorkers { wk_TrafficInterval : Duration; wk_ReconcileInterval : Duration; wk_MaxRetryInterval : Duration }.
Record Config := mkConfig {
  cf_Server : ServerConfig; cf_Storage : StorageConfig; cf_Security : SecurityConfig; cf_Xray : XrayConfig;
  cf_Workers : WorkersConfig; cf_QuotaTimezone : string; cf_Level : string; cf_Warnings : list string }.

Definition Default : Config := mkConfig
  (mkServer "127.0.0.1:8080" "" false (5 * Second) (15 * Second) (15 * Second))
  (mkStorage "" (5 * Second))
  (mkSecurity "" (30 * Minute) (12 * Hour))
  (mkXray "127.0.0.1:10085" SupportedXrayVersion (5 * Second))
  (mkWorkers (5 * Second) (15 * Second) (30 * Second))
  "UTC" "info" [].

(** [url.Parse]: scheme, whether there is user information, host, raw query,
    fragment. *)
Record URL := mkURL { url_Scheme : string; url_HasUser : bool; url_Host : string; url_RawQuery : string; url_Fragment : string }.
Class UrlParser := url_Parse : string -> option URL.
(** The directory of the database: what stat tells (a directory, the permission
    bits), and the check of the file system. *)
Class FileSystem := { stat_dir : string -> option (bool * Z); validateLocalFilesystem : string -> Res unit }.

Section Validate.
Context {Fo : Folding} {Ur : UrlParser} {Fs : FileSystem} {Zn : Zones}.

Definition socketHost (value : string) : Res string :=
  match SplitHostPort value with
  | Some (host, port) =>
      if bool_decide (host = "") || bool_decide (port = "") then Err (PlainError "must be one host:port socket address") else Ok host
  | None => Err (PlainError "must be one host:port socket address")
  end.
Definition isLoopbackHost (host : string) : bool :=
  EqualFold host "localhost" || match parse_ip host with Some ip => IsLoopback ip | None => false end.

Definition timeouts (c : Config) : list (string * Duration) := [
  ("server.read_header_timeout", sv_ReadHeaderTimeout (cf_Server c));
  ("server.request_timeout", sv_RequestTimeout (cf_Server c));
  ("server.shutdown_timeout", sv_ShutdownTimeout (cf_Server c));
  ("storage.busy_timeout", st_BusyTimeout (cf_Storage c));
  ("security.session_idle_timeout", sc_SessionIdleTimeout (cf_Security c));
  ("security.session_absolute_timeout", sc_SessionAbsoluteTimeout (cf_Security c));
  ("xray.rpc_timeout", xc_RPCTimeout (cf_Xray c));
  ("workers.traffic_interval", wk_TrafficInterval (cf_Workers c));
  ("workers.reconcile_interval", wk_ReconcileInterval (cf_Workers c));
  ("workers.max_retry_interval", wk_MaxRetryInterval (cf_Workers c))].
Definition positiveDurations (c : Config) : Res unit :=
  match List.find (fun item => item.2 <=? 0) (timeouts c) with
  | Some item => Err (PlainError (item.1 +:+ " must be positive"))
  | None =>
      if sc_SessionAbsoluteTimeout (cf_Security c) <? sc_SessionIdleTimeout (cf_Security c)
      then Err (PlainError "session absolute timeout must not be shorter than idle timeout") else Ok tt
  end.

Definition check (passed : bool) (message : string) : Res unit := if passed then Ok tt else Err (PlainError message).
Definition under (name : string) {A} (r : Res A) : Res A :=
  match r with Ok a => Ok a | Err e => Err (PlainError (name +:+ ": " +:+ error_text e)) end.
Definition with_warning (given : bool) (warning : string) (warnings : list string) : list string :=
  if given then warnings ++ [warning] else warnings.

Definition public_url (c : Config) : option URL :=
  match url_Parse (sv_PublicURL (cf_Server c)) with
  | Some url =>
      if bool_decide (url_Scheme url = "") || bool_decide (url_Host url = "") || url_HasUser url ||
         negb (bool_decide (url_RawQuery url = "")) || negb (bool_decide (url_Fragment url = "")) then None else Some url
  | None => None
  end.
Definition Validate (c : Config) : Res Config :=
  listenHost ← under "server.listen" (socketHost (sv_Listen (cf_Server c)));
  xrayHost ← under "xray.api_endpoint" (socketHost (xc_APIEndpoint (cf_Xray c)));
  _ ← check (isLoopbackHost xrayHost) "xray.api_endpoint must use a loopback address";
  match public_url c with
  | None => Err (PlainError "server.public_url must be an absolute URL without user information, query, or fragment")
  | Some url =>
      let insecure := sv_InsecureDevelopment (cf_Server c) in
      _ ← (if insecure then check (isLoopbackHost listenHost && isLoopbackHost xrayHost)
                              "insecure_development requires loopback server and Xray endpoints"
           else check (EqualFold (url_Scheme url) "https") "server.public_url must use HTTPS in production");
      _ ← positiveDurations c;
      let interval := wk_TrafficInterval (cf_Workers c) in
      _ ← check (interval <=? 60 * Second) "workers.traffic_interval must not exceed 60s";
      _ ← check (wk_ReconcileInterval (cf_Workers c) <=? 30 * Second) "workers.reconcile_interval must not exceed 30s";
      _ ← check (bool_decide (xc_SupportedVersion (cf_Xray c) = SupportedXrayVersion))
            ("xray.supported_version must be " +:+ SupportedXrayVersion);
      _ ← check (bool_decide (LoadLocation (cf_QuotaTimezone c) <> None)) "initial.quota_timezone must be a valid IANA timezone";
      _ ← check (negb (bool_decide (st_DatabasePath (cf_Storage c) = ""))) "storage.database_path is required";
      _ ← check (negb (bool_decide (sc_RootKeyFile (cf_Security c) = ""))) "security.root_key_file is required";
      match stat_dir (st_DatabasePath (cf_Storage c)) with
      | Some (true, perm) =>
          _ ← check (Z.land perm 18 =? 0) "storage database directory must not be group or world writable";
          _ ← validateLocalFilesystem (st_DatabasePath (cf_Storage c));
          Ok (mkConfig (cf_Server c) (cf_Storage c) (cf_Security c) (cf_Xray c) (cf_Workers c) (cf_QuotaTimezone c) (cf_Level c)
               (with_warning (5 * Second <? interval) "traffic interval exceeds 5s; quota overshoot risk is increased"
                 (with_warning insecure "insecure development mode disables the Secure cookie requirement" [])))
      | _ => Err (PlainError "storage.database_path parent directory must exist")
      end
  end.

(** [Load], of what decoding the file over [Default] gave. *)
Definition Load (decoded : Res Config) : Res Config := c ← decoded; Validate c.
End Validate.
