(* ===== verification/Demo.v ===== *)
(** * A concrete panel

    Instances of the parameters of the model and a run of the panel on them,
    for the witnesses of the theorems about reachable states. *)

From Stdlib Require Import ZArith Lia.
From S2P Require Import Prelude GoTypes Identity Ports Text Inbound Tokens User Sync Quota Traffic Template Cycle Records Database Secrets StoreCore StoreSync StoreQuota StoreUsers StoreTraffic StoreDrift StoreTemplates UserService.

(** ** Instances *)
Definition demo_zones : Zones := fun name => if bool_decide (name = "UTC") then Some UTC else None.
(** The n-th draw starts with a byte of its own. *)
Definition demo_bytes : Entropy := fun n size =>
  Some ((fun i => (7 * Z.of_nat n + i) mod 256) <$> seqZ 0 (Z.of_nat size)).
Definition ascii_unicode : Unicode := {| NFKC := fun s => s; to_lower_rune := fun r => r |}.
Definition plain_aead : Aead := {|
  Seal key nonce plaintext aad := aad +:+ plaintext;
  Open key nonce ciphertext aad :=
    if HasPrefix ciphertext aad then Some (string_drop (String.length aad) ciphertext) else None |}.
Definition no_hash : Sha256 := fun s => s.
#[export] Existing Instances demo_zones demo_bytes ascii_unicode plain_aead no_hash.

Definition demo_keyring : Keyring := mkKeyring (repeat 1 32) (repeat 2 32).

(** ** A run *)
Definition t0 : Time := 1700000000 * Second.
Definition demo_id (n : Z) : ID :=
  match NewID (Some (n :: repeat 0 15)) with Ok id => id | Err _ => "" end.
Definition demo_template : InboundTemplate :=
  mkTemplate (demo_id 1) (demo_id 2) "main" "main" "panel.example" "0.0.0.0" (mkPortPool 20000 20001) MethodAES128
    NetworkTCPUDP CompatibilityUnverified "" None 0 0 None t0 t0.
Definition demo_command (n : Z) : DomainCommand :=
  mkCommand (demo_id n) ActorAdministrator (Some (demo_id 3)) "" "" "" "fp" CommandCompleted "" t0 (Some t0).
Definition demo_audit (n : Z) : AuditEvent :=
  mkAudit (demo_id n) t0 ActorAdministrator (Some (demo_id 3)) "" "" "" AuditAccepted None None "".
Definition demo_outcome : ValidationOutcome :=
  mkOutcome (demo_id 1) 0 CompatibilityCompatible "" t0 "healthy" None 1 "" "" (Some t0) (demo_audit 5).

Definition conn0 : Conn := mkConn empty_db 0.
Definition conn1 : Conn := (EnsureSingletons "UTC" "127.0.0.1:10085" "26.3.27" "verifier" "nonce" t0 conn0).2.
Definition conn2 : Conn := (CreateAdministrator (mkAdministrator (demo_id 3) "admin" "hash" 1 t0 t0) conn1).2.
Definition conn3 : Conn := (CreateTemplate demo_template (demo_command 4) (demo_audit 4) conn2).2.
Definition conn4 : Conn := (CompleteTemplateValidation demo_outcome conn3).2.

Definition demo_input (name : string) (request : Z) : CreateUserInput :=
  mkCreateInput name (demo_id 1) None (Some 1000) 1 (demo_id request) (demo_id 3) "".
Definition created5 : Res (ID * bool * bool) * Conn := Service_CreateUser demo_keyring (demo_input "Alice" 6) t0 conn4.
Definition conn5 : Conn := created5.2.
Definition alice : ID := Eval vm_compute in match created5.1 with Ok (id, _, _) => id | Err _ => "" end.
Definition alice_allocation : ID := Eval vm_compute in default "" (head (map_to_list (db_allocations (conn_db conn5))).*1).
Definition alice_operation : ID := Eval vm_compute in default "" (head (map_to_list (db_operations (conn_db conn5))).*1).

(** The administrator disables the user. *)
Definition disable6 : UserUpdateRecord :=
  mkUserUpdate alice 0 "Alice" "alice" (Some 1000) 1 false (operation_template (demo_id 20) "" t0) None
    (demo_command 21) [] t0.
Definition conn6 : Conn := (StoreQuota.UpdateUser disable6 conn5).2.
Definition demo_delete : LifecycleInput := mkLifecycleInput alice 0 (demo_id 30) (demo_id 3) "".

(** A worker leases the creation of the inbound and confirms it. *)
Definition conn7 : Conn := (LeaseDueSync "w1" t0 (30 * Second) conn5).2.
Definition conn8 : Conn := (ConfirmSync alice_operation "w1" 1 1 true t0 conn7).2.
