(* ===== verification/Form.v ===== *)
(** * Forms of the panel: internal/web/handlers/forms.go and the quota form

    How a submitted form becomes a command: its request identifier, the version
    of the resource it was made from, its fields and the fingerprint that binds
    it to the session, the action and the target. The quota form of users.go
    writes a limit as a number of MiB, GiB or TiB. *)

From Stdlib Require Import ZArith Lia Ascii.
From S2P Require Import Prelude GoTypes Identity Ports Text Inbound Tokens User Sync Quota Traffic Template Net Cycle Records Database Secrets Url StoreCore StoreSync StoreQuota StoreUsers UserService Demo.

(** ** Requests *)

(** Of an http.Request: the Content-Type header with what mime.ParseMediaType
    makes of it, the cookies by name, and the body, [None] when it cannot be
    read. *)
Record HttpRequest := mkHttp {
  rq_Method : string;
  rq_Path : string;
  rq_RawQuery : string;
  rq_ContentType : string;
  rq_MediaType : option string;
  rq_Body : option string;
  rq_Cookies : gmap string string;
  rq_HX : bool;
  rq_RemoteAddr : string }.

(** [r.ParseForm]: [r.PostForm], and whether everything was well formed. *)
Definition form_type : string := "application/x-www-form-urlencoded".
Definition post_form (r : HttpRequest) : Values * bool :=
  if negb (bool_decide (rq_Method r ∈ ["POST"; "PUT"; "PATCH"])) || bool_decide (rq_ContentType r = "") then (∅, true)
  else match rq_MediaType r with
       | None => (∅, false)
       | Some media =>
           if bool_decide (media = form_type) then
             match rq_Body r with Some body => ParseQuery body | None => (∅, false) end
           else (∅, true)
       end.
Definition ParseForm (r : HttpRequest) : option Values :=
  let '(form, ok) := post_form r in
  if ok && (ParseQuery (rq_RawQuery r)).2 then Some form else None.

(** ** Commands *)
Abbreviation Fields := (gmap string string).
Definition field (values : Fields) (key : string) : string := default "" (values !! key).

Record CommandForm := mkForm {
  cf_RequestID : ID;
  cf_Version : option Z;
  cf_Values : Fields;
  cf_Fingerprint : string }.

Section Forms.
Context {Un : Unicode} {Sh : Sha256}.

Definition RequestFingerprint (sessionID action target canonicalPayload : string) : string :=
  sha256 (Join [sessionID; action; target; canonicalPayload] NUL).

(** Fields of the protocol, passwords and keys are not kept. *)
Definition skipped (key : string) : bool :=
  HasPrefix key "_" || Contains (ToLower key) "password" || Contains (ToLower key) "key".
Definition kept_fields (form : Values) : Fields :=
  (fun values => default "" (head values)) <$> filter (fun kv => skipped kv.1 = false) form.
Definition resource_version (raw : string) : Res (option Z) :=
  if bool_decide (raw = "") then Ok None
  else match ParseInt raw with
       | Some parsed => if parsed <? 0 then Err (PlainError "invalid resource version") else Ok (Some parsed)
       | None => Err (PlainError "invalid resource version")
       end.

Definition ParseCommandForm (r : HttpRequest) (sessionID action target : string) : Res CommandForm :=
  if negb (bool_decide (rq_MediaType r = Some form_type)) then Err (PlainError "unsupported form content type")
  else
    match ParseForm r with
    | None => Err (PlainError "malformed form")
    | Some form =>
        let id := Get form "_request_id" in
        if negb (Valid id) then Err (PlainError "invalid request identifier")
        else
          version ← resource_version (Get form "_version");
          Ok (mkForm id version (kept_fields form)
                (RequestFingerprint sessionID action target (Encode (delete "_csrf" form))))
    end.
End Forms.

(** ** Quota *)
Definition quota_invalid (message : string) : error := ValidationError "quota" message.
Definition unit_size (unit : string) : option Z :=
  if bool_decide (unit = "MiB") then Some (Z.shiftl 1 20)
  else if bool_decide (unit = "GiB") then Some (Z.shiftl 1 30)
  else if bool_decide (unit = "TiB") then Some (Z.shiftl 1 40)
  else None.
Definition parseQuota (values : Fields) : Res (option Z) :=
  if bool_decide (field values "unlimited" = "on") || bool_decide (field values "unlimited" = "1") then Ok None
  else
    let raw := TrimSpace (field values "quota_value") in
    if bool_decide (raw = "") then Err (quota_invalid "quota is required unless unlimited is selected")
    else
      match ParseInt raw with
      | None => Err (quota_invalid "quota must be a positive integer")
      | Some amount =>
          if amount <=? 0 then Err (quota_invalid "quota must be a positive integer")
          else match unit_size (field values "quota_unit") with
               | None => Err (quota_invalid "quota unit is invalid")
               | Some multiplier =>
                   if Z.quot (Z.shiftl 1 62) multiplier <? amount then Err (quota_invalid "quota exceeds the supported maximum")
                   else Ok (Some (mul64 amount multiplier))
               end
      end.

(** The values the edit page starts with. *)
Definition quota_values (limit : Z) : Fields :=
  let in_unit unit size := {[ "quota_value" := pretty (Z.quot limit size); "quota_unit" := unit ]} : Fields in
  if Z.rem limit (Z.shiftl 1 40) =? 0 then in_unit "TiB" (Z.shiftl 1 40)
  else if Z.rem limit (Z.shiftl 1 30) =? 0 then in_unit "GiB" (Z.shiftl 1 30)
  else if Z.rem limit (Z.shiftl 1 20) =? 0 then in_unit "MiB" (Z.shiftl 1 20)
  else {[ "quota_value" := pretty (Z.quot (add64 limit (Z.shiftl 1 20 - 1)) (Z.shiftl 1 20)); "quota_unit" := "MiB" ]}.
Definition editValues (record : UserRecord) : Fields :=
  let values : Fields := {[ "display_name" := u_DisplayName (ur_User record);
                            "reset_day" := pretty (qp_ResetDay (ur_Policy record)); "quota_unit" := "GiB" ]} in
  let values := if a_AdminEnabled (ur_Allocation record) then <["admin_enabled" := "on"]> values else values in
  match qp_LimitBytes (ur_Policy record) with
  | None => <["unlimited" := "on"]> values
  | Some limit => quota_values limit ∪ values
  end.

(** ** The quota form *)
Lemma drop_space_none cs : Forall (fun c => IsSpace c.1 = false) cs -> drop_space cs = cs.
Proof. destruct cs as [|c cs]; [done|]. intros Hc. apply Forall_inv in Hc. cbn. by rewrite Hc. Qed.
Lemma TrimSpace_none s : Forall (fun r => IsSpace r = false) (runes s) -> TrimSpace s = s.
Proof.
  unfold runes. rewrite Forall_fmap. intros Hs. unfold TrimSpace. rewrite (drop_space_none (chunks_of s)) by exact Hs.
  rewrite drop_space_none by (apply Forall_reverse; exact Hs). rewrite reverse_involutive. unfold unchunk, chunks_of.
  rewrite chunks_bytes by (by rewrite length_bytes_of). apply string_of_bytes_of.
Qed.
Lemma no_decimal_spaces s : string_existsb no_decimal s = false ->
  string_existsb (fun c => negb (is_ascii c)) s = false /\ Forall (fun b => IsSpace b = false) (bytes_of s).
Proof.
  induction s as [|c s IH]; intros Hs; [done|]. cbn in Hs. apply orb_false_iff in Hs as [Hc Hs].
  destruct (IH Hs) as [Ha Hf]. cbn. rewrite Ha, orb_false_r.
  unfold no_decimal, is_decimal, between in Hc. to_prop. split.
  - apply negb_false_iff. unfold is_ascii. apply Z.ltb_lt. lia.
  - constructor; [|done]. revert H H0. generalize (byte_of c). intros b H1 H2.
    assert (b = 48 \/ b = 49 \/ b = 50 \/ b = 51 \/ b = 52 \/ b = 53 \/ b = 54 \/ b = 55 \/ b = 56 \/ b = 57) as Hb by lia.
    by repeat (destruct Hb as [->|Hb]; [done|]); subst.
Qed.
Lemma TrimSpace_number z : 0 <= z -> TrimSpace (pretty z) = pretty z.
Proof.
  intros Hz. apply TrimSpace_none. assert (string_existsb no_decimal (pretty z) = false) as Hd.
  { destruct z as [|p|p]; [done| |lia]. apply (pretty_N_decimal (N.pos p)). }
  destruct (no_decimal_spaces _ Hd) as [Ha Hf]. by rewrite runes_ascii.
Qed.

Lemma shiftl_1 n : 0 <= n -> Z.shiftl 1 n = 2 ^ n.
Proof. intros Hn. by rewrite Z.shiftl_mul_pow2, Z.mul_1_l. Qed.
(** A number of units is read back as that many bytes. *)
Lemma parseQuota_units values amount unit size : field values "unlimited" = "" -> field values "quota_value" = pretty amount ->
  field values "quota_unit" = unit -> unit_size unit = Some size -> 0 < amount -> amount * size <= 2 ^ 62 ->
  parseQuota values = Ok (Some (amount * size)).
Proof.
  intros Hu Hv Hq Hs Ha Hm. unfold parseQuota. rewrite Hu, Hv, Hq, Hs. rewrite !bool_decide_eq_false_2 by done. cbn [orb].
  rewrite TrimSpace_number by lia.
  assert (0 < size <= 2 ^ 40) as Hsize.
  { revert Hs. unfold unit_size. rewrite !shiftl_1 by lia. repeat case_match; intros [= <-]; lia. }
  rewrite bool_decide_eq_false_2 by (destruct amount as [|p|p]; [lia| |lia]; apply (pretty_N_decimal (N.pos p))).
  assert (amount <= 2 ^ 62) by nia.
  unfold ParseInt. rewrite signed_decimal_pretty. cbn. rewrite bool_decide_eq_true_2 by (unfold in_int64; rewrite MinInt64_eq, MaxInt64_eq; lia).
  assert ((amount <=? 0) = false) as -> by (apply Z.leb_gt; lia). rewrite shiftl_1 by lia.
  rewrite Z.quot_div_nonneg by lia.
  assert ((2 ^ 62 / size <? amount) = false) as ->.
  { apply Z.ltb_ge. apply Z.div_le_lower_bound; lia. }
  unfold mul64. rewrite wrap64_id; [done|]. unfold in_int64; rewrite MinInt64_eq, MaxInt64_eq. nia.
Qed.
(** The unit the edit page shows a limit in. *)
Lemma quota_values_units limit : 0 < limit <= 2 ^ 62 -> exists amount unit size,
  quota_values limit = {[ "quota_value" := pretty amount; "quota_unit" := unit ]} /\ unit_size unit = Some size /\ 0 < amount /\
  limit <= amount * size < limit + 2 ^ 20 /\ amount * size <= 2 ^ 62 /\ ((2 ^ 20 | limit) -> amount * size = limit).
Proof.
  intros Hl. unfold quota_values. rewrite !shiftl_1 by lia. rewrite !Z.rem_mod_nonneg, !Z.quot_div_nonneg by lia.
  assert (forall unit size, unit_size unit = Some size -> 0 < size -> limit mod size = 0 -> exists amount unit' size',
    ({[ "quota_value" := pretty (limit / size); "quota_unit" := unit ]} : Fields) = {[ "quota_value" := pretty amount; "quota_unit" := unit' ]} /\
    unit_size unit' = Some size' /\ 0 < amount /\ limit <= amount * size' < limit + 2 ^ 20 /\ amount * size' <= 2 ^ 62 /\
    ((2 ^ 20 | limit) -> amount * size' = limit)) as Hexact.
  { intros unit size Hu Hs Hm. exists (limit / size), unit, size. pose proof (Z_div_exact_full_2 limit size ltac:(lia) Hm).
    split_and!; [done|done|nia|lia..]. }
  case_if; [by apply Hexact; [|lia|to_prop]|]. case_if; [by apply Hexact; [|lia|to_prop]|]. case_if; [by apply Hexact; [|lia|to_prop]|].
  unfold add64. rewrite wrap64_id by (unfold in_int64; rewrite MinInt64_eq, MaxInt64_eq; lia). rewrite Z.quot_div_nonneg by lia. to_prop.
  exists ((limit + (2 ^ 20 - 1)) / 2 ^ 20), "MiB", (2 ^ 20).
  pose proof (Z.div_mod (limit + (2 ^ 20 - 1)) (2 ^ 20) ltac:(lia)) as Hd.
  pose proof (Z.mod_pos_bound (limit + (2 ^ 20 - 1)) (2 ^ 20) ltac:(lia)) as Hb.
  assert ((limit + (2 ^ 20 - 1)) / 2 ^ 20 <= 2 ^ 42) by (apply Z.lt_succ_r, Z.div_lt_upper_bound; lia).
  split_and!; [done|done|lia|lia|lia|lia|]. intros [k Hk]. destruct Eif1. rewrite Hk. by apply Z.mod_mul.
Qed.

(** C19: a limit that the quota form accepts is a positive whole number of MiB of
    at most 2^62 bytes, computed without overflow; the edit page shows a stored
    limit so that submitting it again gives the same limit when it is a whole
    number of MiB, as every limit entered here is, and otherwise rounds it up
    by less than one MiB, never above 2^62; and no limit stays no limit. *)
Theorem quota_form_round_trip :
  (forall values bytes, parseQuota values = Ok (Some bytes) -> 0 < bytes <= 2 ^ 62 /\ (2 ^ 20 | bytes)) /\
  (forall record limit, qp_LimitBytes (ur_Policy record) = Some limit -> 0 < limit <= 2 ^ 62 -> exists limit',
     parseQuota (editValues record) = Ok (Some limit') /\ limit <= limit' < limit + 2 ^ 20 /\ ((2 ^ 20 | limit) -> limit' = limit)) /\
  (forall record, qp_LimitBytes (ur_Policy record) = None -> parseQuota (editValues record) = Ok None).
Proof.
  split; [|split].
  - intros values bytes. unfold parseQuota. case_if; [done|]. case_if; [done|]. destruct (ParseInt _) as [amount|]; [|done].
    case_if; [done|]. destruct (unit_size _) as [size|] eqn:Hs; [|done]. case_if; [done|]. intros [= <-]. to_prop.
    assert (0 < size /\ (2 ^ 20 | size)) as [Hp Hd].
    { revert Hs. unfold unit_size. rewrite !shiftl_1 by lia. repeat case_match; intros [= <-]; (split; [lia|]).
      - by exists 1. - by exists (2 ^ 10). - by exists (2 ^ 20). }
    rewrite shiftl_1, Z.quot_div_nonneg in Eif2 by lia.
    pose proof (Z.mul_div_le (2 ^ 62) size Hp). unfold mul64. rewrite wrap64_id by (unfold in_int64; rewrite MinInt64_eq, MaxInt64_eq; nia).
    split; [nia|]. by apply Z.divide_mul_r.
  - intros record limit Hl Hb. destruct (quota_values_units limit Hb) as (amount & unit & size & Hq & Hs & Ha & Hr & Hm & He).
    exists (amount * size). split; [|done]. apply (parseQuota_units _ _ unit size); [|  | |done..];
      unfold field, editValues; rewrite Hl, Hq; by destruct (a_AdminEnabled (ur_Allocation record)).
  - intros record Hl. unfold parseQuota, field, editValues. rewrite Hl. by rewrite lookup_insert_eq.
Qed.

(** ** The fingerprint *)
Lemma has_char_prefix c p s q t : has_char c p = false -> has_char c q = false -> p +:+ String c s = q +:+ String c t -> p = q /\ s = t.
Proof.
  intros Hp Hq H. apply (f_equal (split_char c)) in H as Hs. rewrite !split_char_app in Hs by done. injection Hs as -> _.
  split; [done|]. apply string_app_inj_l in H. by injection H.
Qed.
Lemma fingerprint_text session session' action action' target target' payload payload' :
  has_char "000"%char session = false -> has_char "000"%char action = false -> has_char "000"%char target = false ->
  has_char "000"%char session' = false -> has_char "000"%char action' = false -> has_char "000"%char target' = false ->
  Join [session; action; target; payload] NUL = Join [session'; action'; target'; payload'] NUL ->
  session = session' /\ action = action' /\ target = target' /\ payload = payload'.
Proof.
  intros H1 H2 H3 H1' H2' H3' H. cbn [Join] in H.
  assert (forall a b, a +:+ NUL +:+ b = a +:+ String "000"%char b) as Hn by done. rewrite !Hn in H.
  apply has_char_prefix in H as [-> H]; [|done..]. apply has_char_prefix in H as [-> H]; [|done..].
  by apply has_char_prefix in H as [-> ->].
Qed.

Section Fingerprint.
Context {Un : Unicode} {Sh : Sha256}.

(** Two different texts with the same hash. *)
Definition collision : Prop := exists x y, x <> y /\ sha256 x = sha256 y.

Lemma Get_delete form key : key <> "_csrf" -> Get (delete "_csrf" form) key = Get form key.
Proof. intros Hk. unfold Get. by rewrite lookup_delete_ne. Qed.
Lemma kept_delete form : kept_fields (delete "_csrf" form) = kept_fields form.
Proof.
  unfold kept_fields. f_equal. apply map_eq. intros key. apply option_eq. intros l. rewrite !map_lookup_filter_Some.
  destruct (decide (key = "_csrf")) as [->|Hk]; [|by rewrite lookup_delete_ne]. rewrite lookup_delete_eq.
  split; [naive_solver|]. intros [_ Hs]. done.
Qed.
Lemma post_form_proper r : proper (post_form r).1.
Proof.
  assert (proper ∅) as H by (intros key; by rewrite lookup_empty).
  unfold post_form. repeat case_match; try done. apply ParseQuery_proper.
Qed.

(** A form is read from what its fingerprint was made of. *)
Lemma ParseCommandForm_form r session action target f : ParseCommandForm r session action target = Ok f -> exists form, proper form /\
  ParseForm r = Some form /\ Get form "_request_id" = cf_RequestID f /\ resource_version (Get form "_version") = Ok (cf_Version f) /\
  kept_fields form = cf_Values f /\ cf_Fingerprint f = RequestFingerprint session action target (Encode (delete "_csrf" form)).
Proof.
  unfold ParseCommandForm. case_if; [done|]. destruct (ParseForm r) as [form|] eqn:Ef; [|done]. case_if; [done|]. intros H.
  inv_ok H. injection H as <-. exists form. split_and!; try done. revert Ef. unfold ParseForm.
  pose proof (post_form_proper r) as Hp. destruct (post_form r) as [form' ok]. case_if; [|done]. by intros [= <-].
Qed.

(** C18: the fingerprint stored with a command identifies the submission: two
    accepted forms with the same fingerprint were sent in the same session, for
    the same action and target, and carry the same request identifier, version
    and fields, in fact the same form but for the CSRF token, unless two
    different texts are known with one SHA-256. *)
Theorem fingerprint_identifies_form r r' session session' action action' target target' f f' :
  ParseCommandForm r session action target = Ok f -> ParseCommandForm r' session' action' target' = Ok f' ->
  has_char "000"%char (session +:+ action +:+ target +:+ session' +:+ action' +:+ target') = false ->
  cf_Fingerprint f = cf_Fingerprint f' ->
  (session = session' /\ action = action' /\ target = target' /\ f = f' /\
   delete "_csrf" <$> ParseForm r = delete "_csrf" <$> ParseForm r') \/ collision.
Proof.
  intros H H' Hfree Heq. rewrite !has_char_app in Hfree. to_prop.
  destruct (ParseCommandForm_form _ _ _ _ _ H) as (form & Hp & Hform & Hid & Hv & Hk & Hf).
  destruct (ParseCommandForm_form _ _ _ _ _ H') as (form' & Hp' & Hform' & Hid' & Hv' & Hk' & Hf').
  rewrite Hf, Hf' in Heq. unfold RequestFingerprint in Heq.
  destruct (decide (Join [session; action; target; Encode (delete "_csrf" form)] NUL =
    Join [session'; action'; target'; Encode (delete "_csrf" form')] NUL)) as [Htext|Htext]; [|right; by do 2 eexists].
  left. apply fingerprint_text in Htext as (-> & -> & -> & He); [|done..].
  assert (forall g, proper g -> proper (delete "_csrf" g)) as Hd.
  { intros g Hg key. destruct (decide (key = "_csrf")) as [->|Hne]; [by rewrite lookup_delete_eq|by rewrite lookup_delete_ne]. }
  apply Encode_inj in He; [|by apply Hd..]. split_and!; [done..| |by rewrite Hform, Hform'; cbn; rewrite He].
  rewrite <- (Get_delete form) in Hid, Hv by done. rewrite <- kept_delete in Hk.
  rewrite He in Hid, Hv, Hk. rewrite Get_delete in Hid, Hv by done. rewrite kept_delete in Hk.
  destruct f, f'. cbn in *. rewrite Hf, Hf', He. congruence.
Qed.
End Fingerprint.

(** ** Two submissions of a form, from two loads of the page *)
Definition demo_post (csrf quota : string) : HttpRequest :=
  mkHttp "POST" "/users/1" "" form_type (Some form_type)
    (Some ("_csrf=" +:+ csrf +:+ "&_request_id=550e8400-e29b-41d4-a716-446655440000&_version=3&display_name=Alice+B%C3%BC" +:+
           "&quota_value=" +:+ quota +:+ "&quota_unit=GiB"))
    ∅ false "192.0.2.1:5000".
Definition demo_form (csrf quota : string) : option CommandForm :=
  match ParseCommandForm (demo_post csrf quota) "session" "user_update" "1" with Ok f => Some f | Err _ => None end.
Lemma fingerprint_identifies_form_witness : (cf_Fingerprint <$> demo_form "a" "7") = (cf_Fingerprint <$> demo_form "b" "7") /\
  (cf_Fingerprint <$> demo_form "a" "7") <> (cf_Fingerprint <$> demo_form "a" "8") /\
  (cf_Version <$> demo_form "a" "7") = Some (Some 3) /\
  ((fun f => parseQuota (cf_Values f)) <$> demo_form "a" "7") = Some (Ok (Some 7516192768)) /\
  (demo_form "a" "7" = demo_form "b" "7" \/ collision).
Proof.
  assert (exists f f', ParseCommandForm (demo_post "a" "7") "session" "user_update" "1" = Ok f /\
    ParseCommandForm (demo_post "b" "7") "session" "user_update" "1" = Ok f' /\ cf_Fingerprint f = cf_Fingerprint f') as (f & f' & H & H' & Heq).
  { do 2 eexists. split; [vm_compute; reflexivity|]. split; [vm_compute; reflexivity|vm_compute; reflexivity]. }
  split_and!; [vm_compute; reflexivity|vm_compute; discriminate|vm_compute; reflexivity|vm_compute; reflexivity|].
  destruct (fingerprint_identifies_form _ _ _ _ _ _ _ _ _ _ H H' (ltac:(vm_compute; reflexivity)) Heq) as [(_ & _ & _ & Hf & _)|Hc].
  - left. unfold demo_form. by rewrite H, H', Hf.
  - by right.
Defined.
