(* ===== verification/Intent.v ===== *)
(** * The intent invariant

    What the tables say about an allocation agrees, whatever the order in which
    the transactions of administrators, collector, scheduler, reconciler and
    synchronizer reach the database, and although several of them prepare
    their records from data read earlier: the desired presence of the
    dedicated inbound follows the truth table of the domain, at most the
    operation of the current revision is live, and it carries that presence. *)

From Stdlib Require Import ZArith Lia.
From S2P Require Import Prelude GoTypes Identity Inbound User Sync Quota Traffic Template Cycle Records Database StoreCore StoreSync StoreQuota StoreUsers StoreTraffic.

(** Whether the inbound of an allocation should listen, by the current rows. *)
Definition presence (db : DB) (a : AccessAllocation) : bool :=
  match db_users db !! a_UserID a with Some u => DesiredPresent a u | None => false end.

Record IntentInv (db : DB) : Prop := {
  ii_inbound : forall k a r, db_allocations db !! k = Some a -> db_inbounds db !! k = Some r ->
    in_ReleasedAt (ir_Inbound r) = None -> in_DesiredPresent (ir_Inbound r) = presence db a;
  ii_range : forall id o, db_operations db !! id = Some o ->
    exists a, db_allocations db !! op_AllocationID o = Some a /\ 1 <= op_DesiredRevision o <= a_DesiredRevision a;
  ii_live : forall id o a, db_operations db !! id = Some o ->
    db_allocations db !! op_AllocationID o = Some a ->
    supersedable (op_State o) = true -> op_DesiredRevision o = a_DesiredRevision a;
  ii_current : forall id o a, db_operations db !! id = Some o ->
    db_allocations db !! op_AllocationID o = Some a -> op_DesiredRevision o = a_DesiredRevision a ->
    op_DesiredPresence o = presence db a /\
    forall v, op_DesiredCredentialVersion o = Some v -> v = a_DesiredCredentialVersion a;
  ii_history : forall k a r, db_allocations db !! k = Some a -> 1 <= r <= a_DesiredRevision a ->
    exists id o, db_operations db !! id = Some o /\ op_AllocationID o = k /\ op_DesiredRevision o = r;
  ii_synced : forall k a, db_allocations db !! k = Some a -> a_SyncedRevision a <= a_DesiredRevision a;
  ii_deleted : forall k u, db_users db !! k = Some u ->
    (u_Lifecycle u = LifecycleDeleted <-> u_DeletedAt u <> None) }.

(** What may have changed between reading a row and writing the transaction
    prepared from it. *)
Definition evolves (old db : DB) : Prop :=
  forall k a0, db_allocations old !! k = Some a0 ->
  exists a, db_allocations db !! k = Some a /\ a_UserID a = a_UserID a0 /\
    a_DesiredRevision a0 <= a_DesiredRevision a /\
    (a_DesiredRevision a = a_DesiredRevision a0 ->
       presence db a = presence old a0 /\ a_DesiredCredentialVersion a = a_DesiredCredentialVersion a0).

#[global] Instance evolves_preorder : PreOrder evolves.
Proof.
  split.
  - intros db k a Ha. exists a. split_and!; [done..|lia|done].
  - intros d1 d2 d3 H12 H23 k a1 H1. destruct (H12 k a1 H1) as (a2 & H2 & Hu2 & Hr2 & He2).
    destruct (H23 k a2 H2) as (a3 & H3 & Hu3 & Hr3 & He3). exists a3.
    split_and!; [done|congruence|lia|]. intros He.
    destruct He2 as [Hp2 Hv2]; [lia|]. destruct He3 as [Hp3 Hv3]; [lia|]. split; congruence.
Qed.

(** The tables the invariant speaks about. *)
Definition same_core (db db' : DB) : Prop :=
  db_users db' = db_users db /\ db_allocations db' = db_allocations db /\
  db_inbounds db' = db_inbounds db /\ db_operations db' = db_operations db.

Lemma presence_core db db' a : db_users db' = db_users db -> presence db' a = presence db a.
Proof. unfold presence. by intros ->. Qed.

Lemma IntentInv_core db db' : same_core db db' -> IntentInv db -> IntentInv db'.
Proof.
  intros (Hu & Ha & Hi & Ho) [I1 I2 I3 I4 I5 I6 I7].
  split; try (rewrite ?Ha, ?Hi, ?Ho, ?Hu; assumption).
  - rewrite Ha, Hi. intros. rewrite (presence_core db) by done. eauto.
  - rewrite Ha, Ho. intros id o a H1 H2 H3. rewrite (presence_core db) by done. eauto.
Qed.

Lemma evolves_core db db' : same_core db db' -> evolves db db'.
Proof.
  intros (Hu & Ha & _) k a0 H0. exists a0. rewrite Ha. split_and!; [done..|lia|].
  intros _. by rewrite (presence_core db).
Qed.

(** ** A new intent *)

(** [db'] is [db] with a new intent [o] pushed for the allocation [a] under
    the key [k], which becomes [a']. *)
Record pushes (db db' : DB) (k : ID) (a a' : AccessAllocation) (o : SynchronizationOperation) : Prop := {
  pu_old : db_allocations db !! k = Some a;
  pu_alloc : db_allocations db' = <[k := a']> (db_allocations db);
  pu_user : a_UserID a' = a_UserID a;
  pu_revision : a_DesiredRevision a' = a_DesiredRevision a + 1;
  pu_synced : a_SyncedRevision a' = a_SyncedRevision a;
  pu_op_alloc : op_AllocationID o = k;
  pu_op_revision : op_DesiredRevision o = a_DesiredRevision a';
  pu_op_version : forall v, op_DesiredCredentialVersion o = Some v -> v = a_DesiredCredentialVersion a';
  pu_op_presence : op_DesiredPresence o = presence db' a';
  pu_fresh : db_operations db !! op_ID o = None;
  pu_ops : forall id p, db_operations db' !! id = Some p ->
    (id = op_ID o /\ p = o) \/
    exists q, db_operations db !! id = Some q /\ op_AllocationID p = op_AllocationID q /\
      op_DesiredRevision p = op_DesiredRevision q /\ op_DesiredPresence p = op_DesiredPresence q /\
      op_DesiredCredentialVersion p = op_DesiredCredentialVersion q /\
      (supersedable (op_State p) = true -> supersedable (op_State q) = true /\
         ~ (op_AllocationID q = k /\ op_DesiredRevision q < a_DesiredRevision a'));
  pu_ops_kept : forall id q, db_operations db !! id = Some q ->
    exists p, db_operations db' !! id = Some p /\ op_AllocationID p = op_AllocationID q /\
      op_DesiredRevision p = op_DesiredRevision q;
  pu_ops_new : db_operations db' !! op_ID o = Some o;
  pu_inbound : forall k' r, db_inbounds db' !! k' = Some r -> in_ReleasedAt (ir_Inbound r) = None ->
    (k' = k /\ in_DesiredPresent (ir_Inbound r) = op_DesiredPresence o) \/
    (k' <> k /\ exists r0, db_inbounds db !! k' = Some r0 /\ in_ReleasedAt (ir_Inbound r0) = None /\
       in_DesiredPresent (ir_Inbound r) = in_DesiredPresent (ir_Inbound r0));
  pu_users : forall id, id <> a_UserID a -> db_users db' !! id = db_users db !! id;
  pu_deleted : forall u, db_users db' !! a_UserID a = Some u ->
    (u_Lifecycle u = LifecycleDeleted <-> u_DeletedAt u <> None) }.

Lemma other_user db k k' a b : allocations_ok db ->
  db_allocations db !! k = Some a -> db_allocations db !! k' = Some b -> k' <> k -> a_UserID b <> a_UserID a.
Proof.
  intros (_ & Hu & _) Ha Hb Hk He. apply Hk.
  eapply (Hu k' b Hb k a Ha); done.
Qed.

Section Push.
Context (db db' : DB) (k : ID) (a a' : AccessAllocation) (o : SynchronizationOperation).
Context (Hcon : allocations_ok db) (Hinv : IntentInv db) (Hpush : pushes db db' k a a' o).

Lemma push_presence k' b : db_allocations db !! k' = Some b -> k' <> k -> presence db' b = presence db b.
Proof.
  intros Hb Hk. unfold presence. rewrite (pu_users _ _ _ _ _ _ Hpush); [done|].
  eapply other_user; [done|apply Hpush|done|done].
Qed.

Lemma push_lookup k' b : db_allocations db' !! k' = Some b ->
  (k' = k /\ b = a') \/ (k' <> k /\ db_allocations db !! k' = Some b).
Proof.
  rewrite (pu_alloc _ _ _ _ _ _ Hpush). intros [[-> ->]|[? ?]]%lookup_insert_Some; auto.
Qed.

Lemma push_evolves : evolves db db'.
Proof.
  intros k' b Hb. destruct (decide (k' = k)) as [->|Hk].
  - exists a'. rewrite (pu_old _ _ _ _ _ _ Hpush) in Hb. injection Hb as <-.
    pose proof (pu_revision _ _ _ _ _ _ Hpush).
    split_and!; [by rewrite (pu_alloc _ _ _ _ _ _ Hpush), lookup_insert_eq|apply Hpush|lia|lia].
  - exists b. split_and!; [by rewrite (pu_alloc _ _ _ _ _ _ Hpush), lookup_insert_ne|done|lia|].
    intros _. split; [|done]. by eapply push_presence.
Qed.

Lemma push_range id p : db_operations db' !! id = Some p ->
  exists b, db_allocations db' !! op_AllocationID p = Some b /\ 1 <= op_DesiredRevision p <= a_DesiredRevision b.
Proof.
  pose proof (pu_revision _ _ _ _ _ _ Hpush) as Hr.
  intros [[-> ->]|(q & Hq & Ha & Hrev & _)]%(pu_ops _ _ _ _ _ _ Hpush).
  - exists a'. rewrite (pu_op_alloc _ _ _ _ _ _ Hpush), (pu_op_revision _ _ _ _ _ _ Hpush),
      (pu_alloc _ _ _ _ _ _ Hpush), lookup_insert_eq. split; [done|].
    assert (0 <= a_DesiredRevision a); [|lia].
    apply (proj1 Hcon k a (pu_old _ _ _ _ _ _ Hpush)).
  - destruct (ii_range db Hinv id q Hq) as (b & Hb & Hbr). rewrite Ha, Hrev.
    rewrite (pu_alloc _ _ _ _ _ _ Hpush). destruct (decide (op_AllocationID q = k)) as [Hk|Hk].
    + exists a'. rewrite Hk, lookup_insert_eq. split; [done|].
      rewrite Hk, (pu_old _ _ _ _ _ _ Hpush) in Hb. injection Hb as <-. lia.
    + exists b. by rewrite lookup_insert_ne.
Qed.

Lemma push_live id p b : db_operations db' !! id = Some p ->
  db_allocations db' !! op_AllocationID p = Some b ->
  supersedable (op_State p) = true -> op_DesiredRevision p = a_DesiredRevision b.
Proof.
  pose proof (pu_revision _ _ _ _ _ _ Hpush) as Hr.
  intros [[-> ->]|(q & Hq & Ha & Hrev & _ & _ & Hlive)]%(pu_ops _ _ _ _ _ _ Hpush) Hb Hs.
  - rewrite (pu_op_alloc _ _ _ _ _ _ Hpush), (pu_alloc _ _ _ _ _ _ Hpush), lookup_insert_eq in Hb.
    injection Hb as <-. apply Hpush.
  - destruct (Hlive Hs) as [Hq' Hno]. rewrite Ha in Hb. rewrite Hrev.
    apply push_lookup in Hb as [[Hk ->]|[Hk Hb]].
    + destruct Hno. split; [done|].
      rewrite (ii_live db Hinv id q a Hq); [lia| |done]. rewrite Hk. apply Hpush.
    + by apply (ii_live db Hinv id q b).
Qed.

Lemma push_current id p b : db_operations db' !! id = Some p ->
  db_allocations db' !! op_AllocationID p = Some b -> op_DesiredRevision p = a_DesiredRevision b ->
  op_DesiredPresence p = presence db' b /\
  forall v, op_DesiredCredentialVersion p = Some v -> v = a_DesiredCredentialVersion b.
Proof.
  pose proof (pu_revision _ _ _ _ _ _ Hpush) as Hr.
  intros [[-> ->]|(q & Hq & Ha & Hrev & Hpr & Hver & _)]%(pu_ops _ _ _ _ _ _ Hpush) Hb He.
  - rewrite (pu_op_alloc _ _ _ _ _ _ Hpush), (pu_alloc _ _ _ _ _ _ Hpush), lookup_insert_eq in Hb.
    injection Hb as <-. split; apply Hpush.
  - rewrite Ha in Hb. rewrite Hrev in He. rewrite Hpr, Hver.
    apply push_lookup in Hb as [[Hk ->]|[Hk Hb]].
    + destruct (ii_range db Hinv id q Hq) as (b & Hb & Hbr).
      rewrite Hk, (pu_old _ _ _ _ _ _ Hpush) in Hb. injection Hb as <-. lia.
    + rewrite (push_presence _ _ Hb Hk). by apply (ii_current db Hinv id q b).
Qed.

Lemma push_history k' b r : db_allocations db' !! k' = Some b -> 1 <= r <= a_DesiredRevision b ->
  exists id p, db_operations db' !! id = Some p /\ op_AllocationID p = k' /\ op_DesiredRevision p = r.
Proof.
  pose proof (pu_revision _ _ _ _ _ _ Hpush) as Hr. intros Hb Hrange.
  assert (forall c, db_allocations db !! k' = Some c -> r <= a_DesiredRevision c ->
    exists id p, db_operations db' !! id = Some p /\ op_AllocationID p = k' /\ op_DesiredRevision p = r) as Hold.
  { intros c Hc Hrc. destruct (ii_history db Hinv k' c r Hc ltac:(lia)) as (id & q & Hq & <- & <-).
    destruct (pu_ops_kept _ _ _ _ _ _ Hpush id q Hq) as (p & Hp & ? & ?). eauto. }
  apply push_lookup in Hb as [[-> ->]|[Hk Hb]]; [|apply (Hold b); [done|lia]].
  destruct (decide (r = a_DesiredRevision a')) as [->|].
  - exists (op_ID o), o. split_and!; apply Hpush.
  - apply (Hold a); [apply Hpush|lia].
Qed.

Lemma push_inv : IntentInv db'.
Proof.
  split.
  - intros k' b r Hb Hr Hrel. destruct (pu_inbound _ _ _ _ _ _ Hpush k' r Hr Hrel) as [[-> Hd]|(Hk & r0 & Hr0 & Hrel0 & Hd)].
    + rewrite (pu_alloc _ _ _ _ _ _ Hpush), lookup_insert_eq in Hb. injection Hb as <-.
      rewrite Hd. apply Hpush.
    + apply push_lookup in Hb as [[-> _]|[_ Hb]]; [done|].
      rewrite (push_presence _ _ Hb Hk), Hd. by apply (ii_inbound db Hinv k').
  - apply push_range.
  - apply push_live.
  - apply push_current.
  - apply push_history.
  - intros k' b [[-> ->]|[Hk Hb]]%push_lookup; [|by apply (ii_synced db Hinv k')].
    rewrite (pu_synced _ _ _ _ _ _ Hpush), (pu_revision _ _ _ _ _ _ Hpush).
    pose proof (ii_synced db Hinv k a (pu_old _ _ _ _ _ _ Hpush)). lia.
  - intros id u Hu. destruct (decide (id = a_UserID a)) as [->|Hid]; [by apply Hpush|].
    rewrite (pu_users _ _ _ _ _ _ Hpush) in Hu by done. by apply (ii_deleted db Hinv id).
Qed.
End Push.

(** ** The statements that push an intent *)

Lemma supersedeOlder_ok k r now c x c1 :
  supersedeOlder k r now c = (Ok x, c1) ->
  conn_db c1 = set_operations (update_rows (older_live k r) (superseded_at now) (db_operations (conn_db c))) (conn_db c).
Proof. intros (H & _ & _)%tx_exec_ok. exact H. Qed.

Definition desired_inbound (p : bool) (now : Time) : InboundRecord -> InboundRecord :=
  on_inbound (fun i => i <| in_DesiredPresent := p |> <| in_UpdatedAt := ms now |>).

Lemma insertOperation_ok op c x c2 :
  insertOperation op c = (Ok x, c2) ->
  db_operations (conn_db c) !! op_ID op = None /\
  conn_db c2 = set_operations (<[op_ID op := store_operation op]> (db_operations (conn_db c)))
    (set_inbounds (update_at (op_AllocationID op) unreleased
       (desired_inbound (op_DesiredPresence op) (op_CreatedAt op)) (db_inbounds (conn_db c))) (conn_db c)) /\
  Constraints (conn_db c2).
Proof.
  intros H. tx_step H. apply tx_exec_ok in E as (E & _ & _).
  apply insert_row_ok in H as (Hn & H & Hc & _). rewrite E in *. done.
Qed.

(** The three statements in a row, from the connection [c]. *)
Record pushed (k : ID) (op : SynchronizationOperation) (now : Time) (f : AccessAllocation -> AccessAllocation)
    (c c3 : Conn) : Prop := {
  pd_fresh : db_operations (conn_db c) !! op_ID op = None;
  pd_ops : db_operations (conn_db c3) = <[op_ID op := store_operation op]>
    (update_rows (older_live k (op_DesiredRevision op)) (superseded_at now) (db_operations (conn_db c)));
  pd_inbounds : db_inbounds (conn_db c3) = update_at (op_AllocationID op) unreleased
    (desired_inbound (op_DesiredPresence op) (op_CreatedAt op)) (db_inbounds (conn_db c));
  pd_allocs : db_allocations (conn_db c3) = update_at k every f (db_allocations (conn_db c));
  pd_users : db_users (conn_db c3) = db_users (conn_db c);
  pd_constraints : Constraints (conn_db c3) }.

Lemma pushed_intro k op now f c x1 c1 x2 c2 x3 c3 :
  supersedeOlder k (op_DesiredRevision op) now c = (Ok x1, c1) ->
  insertOperation op c1 = (Ok x2, c2) ->
  tx_exec (fun db => set_allocations (update_at k every f (db_allocations db)) db) c2 = (Ok x3, c3) ->
  pushed k op now f c c3.
Proof.
  intros H1%supersedeOlder_ok (Hn & H2 & _)%insertOperation_ok (H3 & Hc & _)%tx_exec_ok.
  rewrite <- H3 in Hc. rewrite H2, H1 in H3. rewrite H1 in Hn.
  split; try exact Hc; rewrite ?H3; try done.
  cbn in Hn. unfold update_rows in Hn. by rewrite lookup_fmap, fmap_None in Hn.
Qed.

(** A recorded revision refuses a second operation. *)
Lemma pushed_revision db k op now f c c3 a r0 :
  IntentInv db -> db_operations (conn_db c) = db_operations db ->
  pushed k op now f c c3 -> op_AllocationID op = k ->
  db_allocations db !! k = Some a -> op_DesiredRevision op = r0 + 1 ->
  0 <= r0 <= a_DesiredRevision a -> a_DesiredRevision a = r0.
Proof.
  intros Hinv Hops Hp Hk Ha Hr Hr0. destruct (decide (a_DesiredRevision a = r0)) as [|Hne]; [done|exfalso].
  destruct (ii_history db Hinv k a (r0 + 1) Ha ltac:(lia)) as (id & q & Hq & Hqk & Hqr).
  assert (id <> op_ID op) as Hid by (intros ->; pose proof (pd_fresh _ _ _ _ _ _ Hp) as Hn; rewrite Hops in Hn; congruence).
  destruct (con_operations _ (pd_constraints _ _ _ _ _ _ Hp)) as (_ & _ & Hu).
  rewrite (pd_ops _ _ _ _ _ _ Hp), Hops in Hu.
  assert (update_rows (older_live k (op_DesiredRevision op)) (superseded_at now) (db_operations db) !! id =
    Some (if older_live k (op_DesiredRevision op) q then superseded_at now q else q)) as Hq'.
  { unfold update_rows. by rewrite lookup_fmap, Hq. }
  set (q' := if older_live k (op_DesiredRevision op) q then superseded_at now q else q) in Hq'.
  apply Hid. eapply (Hu id q' ltac:(by rewrite lookup_insert_ne) (op_ID op) (store_operation op)); [|done|done|].
  - by rewrite lookup_insert_eq.
  - unfold q'. destruct (older_live _ _ _); cbn; congruence.
Qed.

Lemma pushed_pushes db k op now f c c3 a :
  pushed k op now f c c3 ->
  db_operations (conn_db c) = db_operations db -> db_allocations (conn_db c) = db_allocations db ->
  (forall k', k' <> k -> db_inbounds (conn_db c) !! k' = db_inbounds db !! k') ->
  (forall id, id <> a_UserID a -> db_users (conn_db c) !! id = db_users db !! id) ->
  (forall u, db_users (conn_db c) !! a_UserID a = Some u -> (u_Lifecycle u = LifecycleDeleted <-> u_DeletedAt u <> None)) ->
  db_allocations db !! k = Some a ->
  a_UserID (f a) = a_UserID a -> a_DesiredRevision (f a) = op_DesiredRevision op ->
  a_SyncedRevision (f a) = a_SyncedRevision a ->
  op_AllocationID op = k -> op_DesiredRevision op = a_DesiredRevision a + 1 ->
  (forall v, op_DesiredCredentialVersion op = Some v -> v = a_DesiredCredentialVersion (f a)) ->
  op_DesiredPresence op = presence (conn_db c) (f a) ->
  pushes db (conn_db c3) k a (f a) (store_operation op).
Proof.
  intros Hp Hops Hal Hin Hus Hdel Ha Hfu Hfr Hfs Hk Hr Hv Hpr.
  split; try done; try (cbn; congruence).
  - rewrite (pd_allocs _ _ _ _ _ _ Hp), Hal. unfold update_at. by rewrite Ha.
  - cbn. rewrite Hpr. apply eq_sym, presence_core, Hp.
  - cbn. rewrite <- Hops. apply Hp.
  - intros id p. rewrite (pd_ops _ _ _ _ _ _ Hp), Hops. intros [[<- <-]|[Hne Hl]]%lookup_insert_Some; [by left|].
    right. unfold update_rows in Hl. apply lookup_fmap_Some in Hl as (q & <- & Hq). exists q.
    split; [done|]. unfold older_live. rewrite Hfr.
    destruct (decide (op_AllocationID q = k /\ op_DesiredRevision q < op_DesiredRevision op)) as [[H1 H2]|Hn].
    + rewrite bool_decide_eq_true_2 by done. destruct (Z.ltb_spec (op_DesiredRevision q) (op_DesiredRevision op)); [|lia].
      destruct (supersedable (op_State q)) eqn:Es; cbn; split_and!; try done. congruence.
    + assert (bool_decide (op_AllocationID q = k) && (op_DesiredRevision q <? op_DesiredRevision op) = false) as ->.
      { apply andb_false_iff. case_bool_decide; [right|by left]. apply Z.ltb_ge, Z.nlt_ge. tauto. }
      cbn. done.
  - intros id q Hq. rewrite (pd_ops _ _ _ _ _ _ Hp), Hops.
    exists (if older_live k (op_DesiredRevision op) q then superseded_at now q else q).
    split.
    + rewrite lookup_insert_ne; [unfold update_rows; by rewrite lookup_fmap, Hq|].
      intros <-. pose proof (pd_fresh _ _ _ _ _ _ Hp) as Hn. rewrite Hops in Hn. congruence.
    + by destruct (older_live _ _ _).
  - by rewrite (pd_ops _ _ _ _ _ _ Hp), lookup_insert_eq.
  - intros k' r. rewrite (pd_inbounds _ _ _ _ _ _ Hp), lookup_update_at, Hk.
    destruct (decide (k = k')) as [<-|Hk'].
    + intros (r0 & Hr0 & ->)%fmap_Some_1 Hrel. left. split; [done|]. unfold unreleased, Assigned in *.
      destruct (bool_decide (in_ReleasedAt (ir_Inbound r0) = None)) eqn:Eb; [done|].
      apply bool_decide_eq_false in Eb. done.
    + rewrite Hin by done. intros Hr0 Hrel. right. split; [done|]. exists r. done.
  - intros id Hid. rewrite (pd_users _ _ _ _ _ _ Hp). auto.
  - intros u. rewrite (pd_users _ _ _ _ _ _ Hp). auto.
Qed.

(** ** Transactions that push no intent *)

(** The rows the invariant reads keep what it reads of them. *)
Record quiet (db db' : DB) : Prop := {
  qu_alloc : forall k a, db_allocations db !! k = Some a -> exists a', db_allocations db' !! k = Some a' /\
    a_UserID a' = a_UserID a /\ a_DesiredRevision a' = a_DesiredRevision a /\
    a_DesiredCredentialVersion a' = a_DesiredCredentialVersion a /\ presence db' a' = presence db a /\
    a_SyncedRevision a' <= a_DesiredRevision a';
  qu_alloc_back : forall k a', db_allocations db' !! k = Some a' -> is_Some (db_allocations db !! k);
  qu_ops : forall id p, db_operations db' !! id = Some p -> exists q, db_operations db !! id = Some q /\
    op_AllocationID p = op_AllocationID q /\ op_DesiredRevision p = op_DesiredRevision q /\
    op_DesiredPresence p = op_DesiredPresence q /\ op_DesiredCredentialVersion p = op_DesiredCredentialVersion q /\
    (supersedable (op_State p) = true -> supersedable (op_State q) = true);
  qu_ops_kept : forall id q, db_operations db !! id = Some q -> exists p, db_operations db' !! id = Some p /\
    op_AllocationID p = op_AllocationID q /\ op_DesiredRevision p = op_DesiredRevision q;
  qu_inbound : forall k r, db_inbounds db' !! k = Some r -> in_ReleasedAt (ir_Inbound r) = None ->
    exists r0, db_inbounds db !! k = Some r0 /\ in_ReleasedAt (ir_Inbound r0) = None /\
      in_DesiredPresent (ir_Inbound r) = in_DesiredPresent (ir_Inbound r0);
  qu_deleted : forall k u, db_users db' !! k = Some u -> (u_Lifecycle u = LifecycleDeleted <-> u_DeletedAt u <> None) }.

Lemma quiet_evolves db db' : quiet db db' -> evolves db db'.
Proof.
  intros Hq k a Ha. destruct (qu_alloc _ _ Hq k a Ha) as (a' & Ha' & Hu & Hr & Hv & Hp & _).
  exists a'. split_and!; [done..|lia|done].
Qed.

Lemma quiet_alloc_inv db db' k a' : quiet db db' -> db_allocations db' !! k = Some a' ->
  exists a, db_allocations db !! k = Some a /\ a_DesiredRevision a' = a_DesiredRevision a /\
    a_DesiredCredentialVersion a' = a_DesiredCredentialVersion a /\ presence db' a' = presence db a.
Proof.
  intros Hq Ha'. destruct (qu_alloc_back _ _ Hq k a' Ha') as [a Ha].
  destruct (qu_alloc _ _ Hq k a Ha) as (a2 & Ha2 & ? & ? & ? & ? & ?). exists a. split; [done|].
  assert (a2 = a') as -> by congruence. done.
Qed.

Lemma quiet_inv db db' : quiet db db' -> IntentInv db -> IntentInv db'.
Proof.
  intros Hq Hinv. split.
  - intros k a' r Ha' Hr Hrel. destruct (quiet_alloc_inv _ _ _ _ Hq Ha') as (a & Ha & _ & _ & ->).
    destruct (qu_inbound _ _ Hq k r Hr Hrel) as (r0 & Hr0 & Hrel0 & ->). by apply (ii_inbound db Hinv k).
  - intros id p Hp. destruct (qu_ops _ _ Hq id p Hp) as (q & Hqq & -> & -> & _).
    destruct (ii_range db Hinv id q Hqq) as (a & Ha & Hr).
    destruct (qu_alloc _ _ Hq _ a Ha) as (a' & Ha' & _ & He & _). exists a'. split; [done|lia].
  - intros id p a' Hp Ha' Hs. destruct (qu_ops _ _ Hq id p Hp) as (q & Hqq & Hal & -> & _ & _ & Hsq).
    rewrite Hal in Ha'. destruct (quiet_alloc_inv _ _ _ _ Hq Ha') as (a & Ha & -> & _).
    apply (ii_live db Hinv id q a); auto.
  - intros id p a' Hp Ha' He. destruct (qu_ops _ _ Hq id p Hp) as (q & Hqq & Hal & Hr & -> & -> & _).
    rewrite Hal in Ha'. destruct (quiet_alloc_inv _ _ _ _ Hq Ha') as (a & Ha & Hd & -> & ->).
    apply (ii_current db Hinv id q a); [done|done|congruence].
  - intros k a' r Ha' Hr. destruct (quiet_alloc_inv _ _ _ _ Hq Ha') as (a & Ha & Hd & _).
    destruct (ii_history db Hinv k a r Ha ltac:(lia)) as (id & q & Hqq & <- & <-).
    destruct (qu_ops_kept _ _ Hq id q Hqq) as (p & ? & ? & ?). eauto.
  - intros k a' Ha'. destruct (quiet_alloc_inv _ _ _ _ Hq Ha') as (a & Ha & _).
    destruct (qu_alloc _ _ Hq k a Ha) as (a2 & Ha2 & _ & _ & _ & _ & Hs). congruence.
  - apply (qu_deleted _ _ Hq).
Qed.

(** The clauses about tables that did not change. *)
Ltac quiet_same Hinv :=
  first
    [ solve [let k := fresh in let a := fresh in let H := fresh in
             intros k a H; exists a; split_and!; try done;
               [by apply presence_core|by apply (ii_synced _ Hinv k)]]
    | solve [let id := fresh in let p := fresh in let H := fresh in
             intros id p H; exists p; split_and!; done]
    | solve [let id := fresh in let p := fresh in let H := fresh in
             intros id p H; by eexists]
    | solve [let k := fresh in let r := fresh in intros k r ? ?; exists r; split_and!; done]
    | solve [apply (ii_deleted _ Hinv)]
    | idtac ].

Lemma quiet_core db db' : IntentInv db -> same_core db db' -> quiet db db'.
Proof.
  intros Hinv (Hu & Ha & Hi & Ho). split; rewrite ?Hu, ?Ha, ?Hi, ?Ho; quiet_same Hinv.
Qed.

(** The users table changes in display fields and revisions only. *)
Definition user_facts (u : ManagedUser) : LifecycleState * option Time := (u_Lifecycle u, u_DeletedAt u).

Lemma quiet_users db db' : IntentInv db ->
  (forall id, user_facts <$> db_users db' !! id = user_facts <$> db_users db !! id) ->
  db_allocations db' = db_allocations db -> db_inbounds db' = db_inbounds db ->
  db_operations db' = db_operations db -> quiet db db'.
Proof.
  intros Hinv Hu Ha Hi Ho. split; rewrite ?Ha, ?Hi, ?Ho; quiet_same Hinv.
  - intros k a Hk. exists a. split_and!; try done; [|by apply (ii_synced db Hinv k)].
    unfold presence, DesiredPresent. specialize (Hu (a_UserID a)).
    destruct (db_users db' !! a_UserID a), (db_users db !! a_UserID a); try done.
    injection Hu as -> _. done.
  - intros k u Hk. specialize (Hu k). rewrite Hk in Hu. destruct (db_users db !! k) as [u0|] eqn:E; [|done].
    injection Hu as -> ->. by apply (ii_deleted db Hinv k).
Qed.

(** One allocation changes, and keeps what the invariant reads of it. *)
Lemma quiet_alloc_update db db' k (f : AccessAllocation -> AccessAllocation) : IntentInv db ->
  db_users db' = db_users db -> db_inbounds db' = db_inbounds db -> db_operations db' = db_operations db ->
  db_allocations db' = update_at k every f (db_allocations db) ->
  (forall a, db_allocations db !! k = Some a ->
     a_UserID (f a) = a_UserID a /\ a_DesiredRevision (f a) = a_DesiredRevision a /\
     a_DesiredCredentialVersion (f a) = a_DesiredCredentialVersion a /\ presence db (f a) = presence db a /\
     a_SyncedRevision (f a) <= a_DesiredRevision a) ->
  quiet db db'.
Proof.
  intros Hinv Hu Hi Ho Ha Hf.
  assert (forall k', db_allocations db' !! k' =
    if decide (k = k') then f <$> db_allocations db !! k' else db_allocations db !! k') as Hl.
  { intros k'. rewrite Ha, lookup_update_at. by case_decide. }
  split; rewrite ?Hu, ?Hi, ?Ho; quiet_same Hinv.
  - intros k' a Hk'. rewrite Hl. destruct (decide (k = k')) as [<-|].
    + rewrite Hk'. destruct (Hf a Hk') as (H1 & H2 & H3 & H4 & H5). exists (f a).
      split_and!; try done; [|lia]. by rewrite (presence_core db).
    + exists a. split_and!; try done; [by apply presence_core|by apply (ii_synced db Hinv k')].
  - intros k' a'. rewrite Hl. case_decide; [|by eauto]. intros (a & Hk & _)%fmap_Some_1. by eauto.
Qed.

(** One operation changes its state and lease. *)
Lemma quiet_op_update db db' id (f : SynchronizationOperation -> SynchronizationOperation) cond : IntentInv db ->
  db_users db' = db_users db -> db_inbounds db' = db_inbounds db -> db_allocations db' = db_allocations db ->
  db_operations db' = update_at id cond f (db_operations db) ->
  (forall o, db_operations db !! id = Some o -> cond o = true ->
     op_AllocationID (f o) = op_AllocationID o /\ op_DesiredRevision (f o) = op_DesiredRevision o /\
     op_DesiredPresence (f o) = op_DesiredPresence o /\
     op_DesiredCredentialVersion (f o) = op_DesiredCredentialVersion o /\
     (supersedable (op_State (f o)) = true -> supersedable (op_State o) = true)) ->
  quiet db db'.
Proof.
  intros Hinv Hu Hi Ha Ho Hf.
  split; rewrite ?Hu, ?Hi, ?Ha; quiet_same Hinv.
  - intros id' p. rewrite Ho, lookup_update_at. case_decide; subst.
    + intros (q & Hq & ->)%fmap_Some_1. exists q. split; [done|].
      destruct (cond q) eqn:Ec; [|done]. by apply Hf.
    + intros Hp. exists p. done.
  - intros id' q Hq. rewrite Ho, lookup_update_at, Hq. case_decide; subst; [|eauto].
    eexists. split; [done|]. destruct (cond q) eqn:Ec; [|done]. by destruct (Hf q Hq Ec) as (? & ? & _).
Qed.

(** One inbound changes; a row still assigned keeps its desired presence. *)
Lemma quiet_inbound_update db db' k cond f : IntentInv db ->
  db_users db' = db_users db -> db_operations db' = db_operations db -> db_allocations db' = db_allocations db ->
  db_inbounds db' = update_at k cond (on_inbound f) (db_inbounds db) ->
  (forall i, in_ReleasedAt (f i) = None -> in_ReleasedAt i = None /\ in_DesiredPresent (f i) = in_DesiredPresent i) ->
  quiet db db'.
Proof.
  intros Hinv Hu Ho Ha Hi Hf.
  split; rewrite ?Hu, ?Ho, ?Ha; quiet_same Hinv.
  - intros k' r. rewrite Hi, lookup_update_at. case_decide; [|by eauto].
    intros (r0 & Hr0 & ->)%fmap_Some_1 Hrel. exists r0. split; [done|].
    destruct (cond r0); [|done]. by apply Hf.
Qed.

(** ** Transactions *)
Definition Good (db : DB) : Prop := Constraints db /\ IntentInv db.

(** A step that keeps the invariant and evolves, whatever its answer. *)
Definition keeps {A} (m : Tx A) : Prop :=
  forall c, Good (conn_db c) -> Good (conn_db (m c).2) /\ evolves (conn_db c) (conn_db (m c).2).

Lemma keeps_run {A} (m : Tx A) c r c2 : keeps m -> m c = (r, c2) -> Good (conn_db c) ->
  Good (conn_db c2) /\ evolves (conn_db c) (conn_db c2).
Proof. intros Hm He Hg. specialize (Hm c Hg). by rewrite He in Hm. Qed.

Lemma keeps_bind {A B} (m : Tx A) (k : A -> Tx B) : keeps m -> (forall a, keeps (k a)) -> keeps (mbind k m).
Proof.
  intros Hm Hk c Hg. unfold mbind, tx_bind. destruct (m c) as [[a|e] c1] eqn:E;
    destruct (keeps_run _ _ _ _ Hm E Hg) as [H1 H2]; [|done].
  destruct (Hk a c1 H1) as [H3 H4]. split; [done|]. by etransitivity.
Qed.

Lemma keeps_same {A} (m : Tx A) : (forall c, conn_db (m c).2 = conn_db c) -> keeps m.
Proof. intros H c Hg. by rewrite H. Qed.

Lemma keeps_ret {A} (a : A) : keeps (mret a). Proof. by apply keeps_same. Qed.
Lemma keeps_fail {A} e : keeps (tx_fail (A := A) e). Proof. by apply keeps_same. Qed.
Lemma keeps_lift {A} (r : Res A) : keeps (tx_lift r). Proof. by apply keeps_same. Qed.
Lemma keeps_read {A} (f : DB -> A) : keeps (tx_read f). Proof. by apply keeps_same. Qed.
Lemma keeps_row {A} (f : DB -> option A) : keeps (tx_row f).
Proof. apply keeps_same. intros c. unfold tx_row. by destruct (f _). Qed.
Lemma keeps_NewID `{Entropy} : keeps NewID_tx. Proof. by apply keeps_same. Qed.

Lemma keeps_wrap {A} p (m : Tx A) : keeps m -> keeps (tx_wrap p m).
Proof. intros Hm c Hg. specialize (Hm c Hg). unfold tx_wrap. by destruct (m c) as [[?|?] ?]. Qed.
Lemma keeps_translate {A} msg (m : Tx A) : keeps m -> keeps (translateConstraint m msg).
Proof.
  intros Hm c Hg. specialize (Hm c Hg). unfold translateConstraint.
  destruct (m c) as [[?|[]] ?]; try done. by case_match.
Qed.
Lemma keeps_on_no_rows {A} e (m : Tx A) : keeps m -> keeps (on_no_rows m e).
Proof.
  intros Hm c Hg. specialize (Hm c Hg). unfold on_no_rows.
  destruct (m c) as [[?|[]] ?]; try done. by case_match.
Qed.

(** The successful runs of a computation keep the invariant. *)
Definition keeps_ok {A} (m : Tx A) : Prop :=
  forall c a c2, Good (conn_db c) -> m c = (Ok a, c2) -> Good (conn_db c2) /\ evolves (conn_db c) (conn_db c2).

Lemma keeps_ok_of {A} (m : Tx A) : keeps m -> keeps_ok m.
Proof. intros Hm c a c2 Hg Hr. by eapply keeps_run. Qed.

Lemma keeps_ok_bind {A B} (m : Tx A) (k : A -> Tx B) :
  keeps_ok m -> (forall a, keeps_ok (k a)) -> keeps_ok (mbind k m).
Proof.
  intros Hm Hk c b c2 Hg H. tx_step H. destruct (Hm _ _ _ Hg E) as [H1 H2].
  destruct (Hk _ _ _ _ H1 H) as [H3 H4]. split; [done|]. by etransitivity.
Qed.

Lemma keeps_ok_fail {A} e : keeps_ok (tx_fail (A := A) e).
Proof. intros c a c2 _ H. done. Qed.

(** A transaction only commits its successful runs. *)
Lemma keeps_commit {A} (fn : Tx A) : keeps_ok fn -> keeps (WithWriteTx fn).
Proof.
  intros H c Hg. unfold WithWriteTx. destruct (fn c) as [[a|e] c2] eqn:E; [by eapply H|]. cbn. done.
Qed.
Lemma keeps_tx {A} (fn : Tx A) : keeps fn -> keeps (WithWriteTx fn).
Proof. intros Hf. by apply keeps_commit, keeps_ok_of. Qed.

Lemma keeps_exec f : (forall db, Good db -> quiet db (f db)) -> keeps (tx_exec f).
Proof.
  intros Hf c Hg. unfold tx_exec. destruct (decide _); [|done]. cbn.
  specialize (Hf _ Hg). split; [|by apply quiet_evolves]. split; [done|].
  eapply quiet_inv; [done|apply Hg].
Qed.
Lemma keeps_exec_core f : (forall db, same_core db (f db)) -> keeps (tx_exec f).
Proof. intros Hf. apply keeps_exec. intros db [_ Hi]. by apply quiet_core. Qed.
Lemma keeps_insert_core {K R} `{Countable K} table set (k : K) (r : R) :
  (forall m db, same_core db (set m db)) -> keeps (insert_row table set k r).
Proof.
  intros Hs c Hg. unfold insert_row. destruct (table (conn_db c) !! k); [done|].
  apply (keeps_exec_core (fun db => set (<[k:=r]> (table db)) db)); auto.
Qed.

Create HintDb keeps.
#[export] Hint Resolve keeps_ret keeps_fail keeps_lift keeps_read keeps_row keeps_NewID keeps_wrap
  keeps_translate keeps_on_no_rows keeps_tx : keeps.
#[export] Hint Extern 1 (same_core _ _) => (by repeat split) : keeps.
#[export] Hint Extern 1 (keeps (tx_exec _)) => (apply keeps_exec_core; intros; by repeat split) : keeps.
#[export] Hint Extern 1 (keeps (insert_row _ _ _ _)) => (apply keeps_insert_core; by repeat split) : keeps.

(** Walk through a computation made of steps that keep the invariant. *)
Ltac keeps_walk :=
  repeat first
    [ match goal with |- forall _, _ => intro end
    | solve [eauto with keeps]
    | apply keeps_bind
    | apply keeps_tx
    | apply keeps_wrap
    | apply keeps_translate
    | apply keeps_on_no_rows
    | match goal with
      | |- keeps (if ?b then _ else _) => destruct b
      | |- keeps (match ?x with _ => _ end) => destruct x
      end ].

Lemma keeps_SaveCommand command : keeps (SaveCommand command).
Proof. unfold SaveCommand, FindCommand. keeps_walk. Qed.
Lemma keeps_commandReplay command : keeps (commandReplay command).
Proof. unfold commandReplay, FindCommand. keeps_walk. Qed.
Lemma keeps_AppendAudit event : keeps (AppendAudit event).
Proof. unfold AppendAudit. keeps_walk. Qed.
#[export] Hint Resolve keeps_SaveCommand keeps_commandReplay keeps_AppendAudit : keeps.
Lemma keeps_append_all events : keeps (append_all events).
Proof. induction events; cbn; keeps_walk. Qed.
#[export] Hint Resolve keeps_append_all : keeps.

Lemma lookup_update_at_facts {R T} (k id : ID) cond (f : R -> R) (g : R -> T) (m : gmap ID R) :
  (forall r, g (f r) = g r) -> g <$> update_at k cond f m !! id = g <$> m !! id.
Proof.
  intros Hg. rewrite lookup_update_at. case_decide; [|done]. destruct (m !! id); [|done]. cbn.
  destruct (cond r); [|done]. f_equal. apply Hg.
Qed.

(** Updates of a user that leave the lifecycle alone. *)
Lemma keeps_update_user id expected f : (forall u, user_facts (f u) = user_facts u) -> keeps (update_user id expected f).
Proof.
  intros Hf. unfold update_user. keeps_walk. apply keeps_exec. intros db [_ Hi].
  apply quiet_users; try done. intros id'. cbn. by apply lookup_update_at_facts.
Qed.

(** ** Pushing an intent from a good state *)
Lemma push_step k op now f c c3 a r0 :
  Good (conn_db c) -> pushed k op now f c c3 ->
  db_allocations (conn_db c) !! k = Some a -> op_AllocationID op = k ->
  op_DesiredRevision op = r0 + 1 -> 0 <= r0 <= a_DesiredRevision a ->
  a_UserID (f a) = a_UserID a -> a_DesiredRevision (f a) = op_DesiredRevision op ->
  a_SyncedRevision (f a) = a_SyncedRevision a ->
  (a_DesiredRevision a = r0 -> op_DesiredPresence op = presence (conn_db c) (f a) /\
     forall v, op_DesiredCredentialVersion op = Some v -> v = a_DesiredCredentialVersion (f a)) ->
  Good (conn_db c3) /\ evolves (conn_db c) (conn_db c3).
Proof.
  intros [Hc Hi] Hp Ha Hk Hr Hr0 Hfu Hfr Hfs Hpres.
  assert (a_DesiredRevision a = r0) as He by (eapply pushed_revision; eauto).
  destruct (Hpres He) as [Hpr Hv].
  assert (pushes (conn_db c) (conn_db c3) k a (f a) (store_operation op)) as Hpp.
  { eapply pushed_pushes; try done; [|lia]. intros u Hu. by apply (ii_deleted _ Hi (a_UserID a) u). }
  split; [split; [apply Hp|]|].
  - eapply push_inv; [apply Hc|done|done].
  - eapply push_evolves; [apply Hc|done].
Qed.
