(* ===== verification/IntentTx.v ===== *)
(** * Every transaction keeps the intent invariant

    One lemma per transaction of the store. A record prepared outside its
    transaction is described by what the service put into it from rows it had
    read earlier ([prepared]): those rows may be out of date when the
    transaction runs. *)

From Stdlib Require Import ZArith Lia.
From S2P Require Import Prelude GoTypes Identity Inbound User Sync Quota Traffic Template Cycle Records Database StoreCore StoreSync StoreQuota StoreUsers StoreTraffic StoreDrift StoreTemplates Intent.

(** ** Decisions *)
Lemma facts_row_some k db f : facts_row k db = Some f ->
  exists a u, db_allocations db !! k = Some a /\ db_users db !! a_UserID a = Some u /\
    f_Lifecycle (facts f) = u_Lifecycle u /\ f_AdminEnabled (facts f) = a_AdminEnabled a /\
    f_QuotaState (facts f) = a_QuotaState a /\ f_DesiredRevision (facts f) = a_DesiredRevision a /\
    f_DesiredCredentialVersion (facts f) = a_DesiredCredentialVersion a.
Proof.
  unfold facts_row. intros H.
  destruct (db_allocations db !! k) as [a|] eqn:Ea; [|done]. cbn in H.
  destruct (db_users db !! a_UserID a) as [u|] eqn:Eu; [|done]. cbn in H.
  destruct (db_policies db !! k) as [qp|]; [|done]. cbn in H.
  destruct (open_cycle k db) as [qc|]; [|done]. cbn in H. injection H as <-.
  exists a, u. done.
Qed.

Lemma applyDecision_keeps k f e x template now c b c2 :
  Good (conn_db c) -> facts_row k (conn_db c) = Some f ->
  (template = None -> NeedsOperation (DecideTransition (facts f) e x) = false) ->
  applyDecision k f (DecideTransition (facts f) e x) e template now c = (Ok b, c2) ->
  Good (conn_db c2) /\ evolves (conn_db c) (conn_db c2).
Proof.
  intros Hg (a & u & Ha & Hu & HL & HE & HQ & HR & HV)%facts_row_some Ht H.
  pose proof (DecideTransition_present (facts f) e x) as Hwill.
  pose proof (DecideTransition_was (facts f) e x) as Hwas.
  pose proof (DecideTransition_quota (facts f) e x) as Hquota.
  set (d := DecideTransition (facts f) e x) in *.
  assert (forall a', a_UserID a' = a_UserID a -> a_AdminEnabled a' = e -> a_QuotaState a' = d_QuotaState d ->
    presence (conn_db c) a' = d_WillBePresent d) as Hpres.
  { intros a' H1 H2 H3. unfold presence, DesiredPresent. rewrite H1, Hu, H2, H3, Hwill, Hquota, HL. done. }
  unfold applyDecision in H. destruct (NeedsOperation d) eqn:Hn; [destruct template as [t|]|].
  - destruct (d_Reason d) as [reason|]; [|done]. destruct (d_Phase d) as [phase|]; [|done].
    set (op := decided_operation t k f d reason phase now) in *.
    tx_step H. tx_step H. tx_step H. injection H as <- <-.
    eapply (push_step k op now _ c _ a (a_DesiredRevision a));
      [done|eapply pushed_intro; eauto|try done..].
    + unfold op. cbn. by rewrite HR.
    + destruct Hg as [Hc _]. destruct (proj1 (con_allocations _ Hc) k a Ha) as (_ & ? & _). lia.
    + intros _. split; [symmetry; by apply Hpres|]. unfold op. cbn. intros v [= <-]. done.
  - specialize (Ht eq_refl). done.
  - assert (forall c a2 c3, tx_exec (fun db => set_allocations (update_at k every
       (fun a => a <| a_AdminEnabled := e |> <| a_QuotaState := d_QuotaState d |> <| a_UpdatedAt := ms now |>)
       (db_allocations db)) db) c = (Ok a2, c3) -> Good (conn_db c) -> db_allocations (conn_db c) !! k = Some a ->
       db_users (conn_db c) !! a_UserID a = Some u ->
       Good (conn_db c3) /\ evolves (conn_db c) (conn_db c3)) as Hexec.
    { clear H. intros c' a2 c3 H Hg' Ha' Hu'. apply tx_exec_ok in H as (H & Hc & _).
      assert (quiet (conn_db c') (conn_db c3)) as Hq.
      { rewrite H. eapply quiet_alloc_update; [apply Hg'|done|done|done|done|].
        intros b' Hb'. assert (b' = a) as -> by congruence. cbn. split_and!; try done.
        - apply bool_decide_eq_false, dec_stable in Hn.
          unfold presence, DesiredPresent. cbn. rewrite Hu'. rewrite <- HL, Hquota, <- Hwill, <- Hn, Hwas, HE, HQ. done.
        - by apply (ii_synced _ (proj2 Hg') k). }
      split; [split; [by rewrite H|eapply quiet_inv; [done|apply Hg']]|by apply quiet_evolves]. }
    destruct template; tx_step H; injection H as <- <-; by eapply Hexec.
Qed.

Lemma readFacts_ok k c f c2 : readFacts k c = (Ok f, c2) -> facts_row k (conn_db c) = Some f /\ c2 = c.
Proof. intros H%wrap_ok. by apply tx_row_ok in H. Qed.

(** Reading the facts and applying a decision on them. *)
Lemma decide_keeps {A} k now (e x : allocationFacts -> bool)
    (template : option SynchronizationOperation) (rest : allocationFacts -> bool -> Tx A) :
  (template = None -> forall f, NeedsOperation (DecideTransition (facts f) (e f) (x f)) = false) ->
  (forall f b, keeps_ok (rest f b)) ->
  keeps_ok (f ← readFacts k;
            created ← applyDecision k f (DecideTransition (facts f) (e f) (x f)) (e f) template now;
            rest f created).
Proof.
  intros Ht Hrest c r c2 Hg H. tx_step H. apply readFacts_ok in E as [Hf ->]. tx_step H.
  assert (Good (conn_db c0) /\ evolves (conn_db c) (conn_db c0)) as [Hg1 He1].
  { eapply applyDecision_keeps; [done|done| |done]. intros Hn. by apply Ht. }
  destruct (Hrest a a0 _ _ _ Hg1 H) as [Hg2 He2]. split; [done|]. by etransitivity.
Qed.

(** Walk through the successful runs of a computation. *)
Ltac ok_walk :=
  repeat first
    [ match goal with |- forall _, _ => intro end
    | apply keeps_ok_fail
    | match goal with
      | |- keeps_ok (if ?b then _ else _) => destruct b
      | |- keeps_ok (match ?x with _ => _ end) => destruct x
      end
    | lazymatch goal with
      | |- keeps_ok (mbind _ (readFacts _)) => fail
      | _ => apply keeps_ok_bind
      end
    | apply keeps_ok_of; solve [keeps_walk] ].

Lemma UpdateUser_keeps record : keeps (UpdateUser record).
Proof.
  apply keeps_commit. ok_walk.
  - apply keeps_ok_of, keeps_translate, keeps_update_user. done.
  - apply (decide_keeps _ _ (fun _ => uu_AdminEnabled record)
      (fun f => IsQuotaExceeded (fx_limit f) (fx_accountedUplink f) (fx_accountedDownlink f))
      (Some (uu_OperationTemplate record))); [done|]. ok_walk.
Qed.

Lemma ResetCycleTraffic_keeps record : keeps (ResetCycleTraffic record).
Proof.
  apply keeps_commit. ok_walk.
  apply (decide_keeps _ _ (fun f => f_AdminEnabled (facts f)) (fun _ => false)
    (Some (qr_OperationTemplate record))); [done|]. ok_walk.
Qed.

(** ** Settling cycles and committing traffic *)
Section Settle.
Context {Zn : Zones} {En : Entropy}.

Lemma settle_step_keeps k now : keeps (settle_step k now).
Proof. unfold settle_step. keeps_walk. Qed.

Lemma settle_turn_inr k now s r c2 : settle_turn k now s = inr (r, c2) ->
  exists b, settle_step k now s.2 = (b, c2) /\ b <> Ok true /\ (b = Ok false -> r = Ok s.1) /\
    forall e, b = Err e -> r = Err e.
Proof.
  unfold settle_turn. destruct (settle_step k now s.2) as [[[]|e] c3]; [done|..];
    intros [= <- <-]; eexists; split_and!; naive_solver.
Qed.

Lemma settle_turn_inl k now s s' : settle_turn k now s = inl s' ->
  settle_step k now s.2 = (Ok true, s'.2) /\ s'.1 = s.1 + 1.
Proof. unfold settle_turn. destruct (settle_step k now s.2) as [[[]|e] c3]; by intros [= <-]. Qed.

Lemma settle_loop_keeps k now : keeps_ok (settle_loop k now).
Proof.
  intros c r c2 Hg. unfold settle_loop.
  pose proof (run_until_inv (fun s => Good (conn_db s.2) /\ evolves (conn_db c) (conn_db s.2))
    (settle_turn k now) (settle_fuel k now (conn_db c)) (0, c)) as Hrun.
  destruct (run_until _ _ _) as [[n c1]|r1]; [discriminate|].
  intros ->. destruct Hrun as (s & [Hg1 He1] & Hs).
  - intros s s' [Hg1 He1] [E _]%settle_turn_inl.
    destruct (keeps_run _ _ _ _ (settle_step_keeps k now) E Hg1). split; [done|]. by etransitivity.
  - split; [done|]. by cbn.
  - apply settle_turn_inr in Hs as (b & E & _).
    destruct (keeps_run _ _ _ _ (settle_step_keeps k now) E Hg1). split; [done|]. by etransitivity.
Qed.

Lemma settleCycles_keeps k now template audit : keeps_ok (settleCycles k now template audit).
Proof.
  apply keeps_ok_bind; [apply settle_loop_keeps|]. intros rolled. destruct (rolled =? 0); [ok_walk|].
  intros c r c2 Hg H. tx_step H. apply readFacts_ok in E as [Hf ->]. tx_step H.
  assert (conn_db c0 = conn_db c) as Hc.
  { clear -E. destruct template; [by apply tx_ret_ok in E as [_ ->]|].
    tx_step E. apply tx_ret_ok in E as [_ ->]. by inversion E0. }
  tx_step H. rewrite <- Hc in Hg, Hf |- *.
  unshelve epose proof (applyDecision_keeps _ _ _ _ _ _ _ _ _ Hg Hf _ E0) as [Hg1 He1]; [done|].
  assert (keeps (if negb a1 then mret (rolled, false) else
    audit ← match audit with
            | Some a => mret a
            | None =>
                id ← NewID_tx;
                a ← tx_row (fun db => db_allocations db !! k);
                mret (mkAudit id now ActorSystem None "user" (a_UserID a) ActionCycleRestored AuditAccepted
                        None None "new quota cycle opened; access restore requested")
            end;
    _ ← AppendAudit (with_operation true (op_ID a0) audit);
    mret (rolled, a1))) as Hk by keeps_walk.
  destruct (keeps_run _ _ _ _ Hk H Hg1) as [Hg2 He2]. split; [done|]. by etransitivity.
Qed.

Lemma RolloverCycle_keeps rollover : keeps (RolloverCycle rollover).
Proof. apply keeps_commit, settleCycles_keeps. Qed.

Lemma add_traffic_keeps u now : keeps (add_traffic u now).
Proof. unfold add_traffic. keeps_walk. Qed.
Lemma insert_events_keeps es : keeps (insert_events es).
Proof. induction es; cbn; unfold insertContinuityEvent; keeps_walk. Qed.

Lemma block_keeps u now result : tu_QuotaBlock u <> None -> keeps_ok (block_if_exceeded u now result).
Proof.
  intros Hb c r c2 Hg H. unfold block_if_exceeded in H. tx_step H. apply readFacts_ok in E as [Hf ->].
  destruct (negb _ || _); [by injection H as <- <-|].
  tx_step H. unshelve epose proof (applyDecision_keeps _ _ _ _ _ _ _ _ _ Hg Hf _ E) as [Hg1 He1]; [done|].
  tx_step H. injection H as <- <-.
  assert (keeps match tu_Audit u with
        | Some audit =>
            AppendAudit (match tu_QuotaBlock u with
                         | Some block => with_operation a0 (op_ID block) audit
                         | None => audit
                         end)
        | None => mret tt
        end) as Hk by keeps_walk.
  destruct (keeps_run _ _ _ _ Hk E0 Hg1). split; [done|]. by etransitivity.
Qed.

Lemma commit_update_keeps now result u : tu_QuotaBlock u <> None -> keeps_ok (commit_update now result u).
Proof.
  intros Hb. apply keeps_ok_bind; [apply settleCycles_keeps|]. intros [rolled restored].
  apply keeps_ok_bind; [apply keeps_ok_of; keeps_walk|]. intros _.
  apply keeps_ok_bind; [apply keeps_ok_of, add_traffic_keeps|]. intros _.
  apply keeps_ok_bind; [apply keeps_ok_of, insert_events_keeps|]. intros _.
  by apply block_keeps.
Qed.

Lemma commit_updates_keeps now result us :
  Forall (fun u => tu_QuotaBlock u <> None) us -> keeps_ok (commit_updates now result us).
Proof.
  intros Hus. revert result. induction Hus as [|u us Hu _ IH]; intros result; cbn [commit_updates]; [ok_walk|].
  apply keeps_ok_bind; [by apply commit_update_keeps|done].
Qed.

Lemma CommitTrafficBatch_keeps batch :
  Forall (fun u => tu_QuotaBlock u <> None) (tb_Updates batch) -> keeps (CommitTrafficBatch batch).
Proof.
  intros Hb. unfold CommitTrafficBatch. destruct (tb_Updates batch); [keeps_walk|].
  by apply keeps_commit, commit_updates_keeps.
Qed.
End Settle.
