(* ===== verification/IntentSync.v ===== *)
(** * Synchronization, drift, templates and settings keep the intent invariant *)

From Stdlib Require Import ZArith Lia.
From S2P Require Import Prelude GoTypes Identity Inbound User Sync Quota Traffic Template Cycle Records Database StoreCore StoreSync StoreQuota StoreUsers StoreTraffic StoreDrift StoreTemplates Intent.

(** ** Statements on one operation *)
Lemma keeps_op_exec id (cond : DB -> SynchronizationOperation -> bool) f :
  (forall db o, Good db -> db_operations db !! id = Some o -> cond db o = true ->
     op_AllocationID (f o) = op_AllocationID o /\ op_DesiredRevision (f o) = op_DesiredRevision o /\
     op_DesiredPresence (f o) = op_DesiredPresence o /\
     op_DesiredCredentialVersion (f o) = op_DesiredCredentialVersion o /\
     (supersedable (op_State (f o)) = true -> supersedable (op_State o) = true)) ->
  keeps (tx_exec (fun db => set_operations (update_at id (cond db) f (db_operations db)) db)).
Proof.
  intros Hf. apply keeps_exec. intros db Hg.
  eapply quiet_op_update; [apply Hg|done|done|done|done|]. eauto.
Qed.

Lemma keeps_supersede id now : keeps (supersede_operation id now).
Proof. apply (keeps_op_exec id (fun _ => every)). intros db o _ _ _. done. Qed.

Lemma lease_condition_live now p o : lease_condition now p o = true -> supersedable (op_State o) = true.
Proof. unfold lease_condition, supersedable. destruct (op_State o); done. Qed.

Lemma owned_live owner o : owned_by owner o = true -> supersedable (op_State o) = true.
Proof. unfold owned_by, supersedable. destruct (op_State o); done. Qed.

#[export] Hint Resolve keeps_supersede : keeps.

Lemma LeaseDueSync_keeps owner now d : keeps (LeaseDueSync owner now d).
Proof.
  unfold LeaseDueSync, lease_tx, loadUserByAllocation. keeps_walk.
  apply (keeps_op_exec _ (fun _ => lease_condition now _)).
  intros db o _ _ Hc%lease_condition_live. done.
Qed.

Lemma RenewSyncLease_keeps id owner now lease : keeps (RenewSyncLease id owner now lease).
Proof.
  unfold RenewSyncLease. keeps_walk.
  apply (keeps_op_exec _ (renew_condition owner)). intros db o _ _ _. done.
Qed.

(** ** Statements on one allocation that leave its intent alone *)
Lemma keeps_alloc_exec k (f : AccessAllocation -> AccessAllocation) :
  (forall db a, Good db -> db_allocations db !! k = Some a ->
     a_UserID (f a) = a_UserID a /\ a_DesiredRevision (f a) = a_DesiredRevision a /\
     a_DesiredCredentialVersion (f a) = a_DesiredCredentialVersion a /\ a_AdminEnabled (f a) = a_AdminEnabled a /\
     a_QuotaState (f a) = a_QuotaState a /\ a_SyncedRevision (f a) = a_SyncedRevision a) ->
  keeps (tx_exec (fun db => set_allocations (update_at k every f (db_allocations db)) db)).
Proof.
  intros Hf. apply keeps_exec. intros db Hg.
  eapply quiet_alloc_update; [apply Hg|done|done|done|done|].
  intros a Ha. destruct (Hf db a Hg Ha) as (H1 & H2 & H3 & H4 & H5 & ->). split_and!; try done.
  - unfold presence, DesiredPresent. by rewrite H1, H4, H5.
  - by apply (ii_synced _ (proj2 Hg) k).
Qed.

Lemma RecordObservation_keeps k present now : keeps (RecordObservation k present now).
Proof. apply keeps_alloc_exec. done. Qed.

(** ** Retries and failures: the operation must still be leased *)
Lemma finishLeased_keeps id owner wall apply_ :
  (forall c o r c2, Good (conn_db c) -> db_operations (conn_db c) !! id = Some o ->
     supersedable (op_State o) = true -> apply_ (op_AllocationID o) c = (Ok r, c2) ->
     Good (conn_db c2) /\ evolves (conn_db c) (conn_db c2)) ->
  keeps (finishLeased id owner wall apply_).
Proof.
  intros Hap. apply keeps_commit. intros c r c2 Hg H. tx_step H. apply tx_row_ok in E as [E ->].
  destruct a as [o a]. unfold op_with_allocation in E.
  destruct (db_operations (conn_db c) !! id) as [o'|] eqn:Eo; [|done]. cbn in E.
  destruct (db_allocations (conn_db c) !! op_AllocationID o') as [a'|] eqn:Ea; [|done].
  injection E as -> ->. destruct (owned_by owner o) eqn:Ew; [|by apply tx_ret_ok in H as [_ ->]].
  cbn [negb] in H. case_bool_decide.
  - by eapply keeps_run; [apply keeps_supersede| |].
  - eapply Hap; try done. by eapply owned_live.
Qed.

Lemma finish_statements c o r c2 id (f : SynchronizationOperation -> SynchronizationOperation) g :
  Good (conn_db c) -> db_operations (conn_db c) !! id = Some o -> supersedable (op_State o) = true ->
  (forall o, op_AllocationID (f o) = op_AllocationID o /\ op_DesiredRevision (f o) = op_DesiredRevision o /\
     op_DesiredPresence (f o) = op_DesiredPresence o /\
     op_DesiredCredentialVersion (f o) = op_DesiredCredentialVersion o) ->
  (forall a, a_UserID (g a) = a_UserID a /\ a_DesiredRevision (g a) = a_DesiredRevision a /\
     a_DesiredCredentialVersion (g a) = a_DesiredCredentialVersion a /\ a_AdminEnabled (g a) = a_AdminEnabled a /\
     a_QuotaState (g a) = a_QuotaState a /\ a_SyncedRevision (g a) = a_SyncedRevision a) ->
  (_ ← tx_exec (fun db => set_operations (update_at id every f (db_operations db)) db);
   tx_exec (fun db => set_allocations (update_at (op_AllocationID o) every g (db_allocations db)) db)) c = (Ok r, c2) ->
  Good (conn_db c2) /\ evolves (conn_db c) (conn_db c2).
Proof.
  intros Hg Ho Hs Hf Hg' H. tx_step H. apply tx_exec_ok in E as (E & Hc & _).
  assert (quiet (conn_db c) (conn_db c0)) as Hq.
  { rewrite E. eapply quiet_op_update; [apply Hg|done|done|done|done|]. intros o' Ho' _.
    assert (o' = o) as -> by congruence. destruct (Hf o) as (?&?&?&?). done. }
  assert (Good (conn_db c0)) as Hg0 by (split; [by rewrite E|eapply quiet_inv; [done|apply Hg]]).
  assert (keeps (tx_exec (fun db => set_allocations (update_at (op_AllocationID o) every g (db_allocations db)) db))) as Hk
    by (apply keeps_alloc_exec; auto).
  destruct (keeps_run _ _ _ _ Hk H Hg0). split; [done|]. etransitivity; [by apply quiet_evolves|done].
Qed.

Lemma RescheduleSync_keeps id owner attempts next code summary wall :
  keeps (RescheduleSync id owner attempts next code summary wall).
Proof. apply finishLeased_keeps. intros c o r c2 Hg Ho Hs H. eapply finish_statements; [..|exact H]; done. Qed.

Lemma FailSync_keeps id owner code summary now wall : keeps (FailSync id owner code summary now wall).
Proof. apply finishLeased_keeps. intros c o r c2 Hg Ho Hs H. eapply finish_statements; [..|exact H]; done. Qed.

(** ** Confirmation *)
Lemma keeps_inbound_exec k f :
  (forall i, in_ReleasedAt (f i) = None -> in_ReleasedAt i = None /\ in_DesiredPresent (f i) = in_DesiredPresent i) ->
  keeps (tx_exec (fun db => set_inbounds (update_at k unreleased (on_inbound f) (db_inbounds db)) db)).
Proof. intros Hf. apply keeps_exec. intros db [_ Hi]. by eapply quiet_inbound_update. Qed.

Lemma confirmInboundPresence_keeps k present now : keeps (confirmInboundPresence k present now).
Proof. by apply keeps_inbound_exec. Qed.
Lemma releaseInboundPort_keeps k now : keeps (releaseInboundPort k now).
Proof. by apply keeps_inbound_exec. Qed.
#[export] Hint Resolve confirmInboundPresence_keeps releaseInboundPort_keeps : keeps.

Lemma confirm_credentials_keeps k v present now : keeps (confirm_credentials k v present now).
Proof. unfold confirm_credentials, destroy_credentials, activate_credential. keeps_walk. Qed.

Lemma confirm_credentials_leaves k v present now :
  leaves (fun db => (db_allocations db, db_operations db, db_users db)) (confirm_credentials k v present now).
Proof. unfold confirm_credentials, destroy_credentials, activate_credential, releaseInboundPort. leaves_walk. Qed.

Lemma op_with_allocation_some id db o a : op_with_allocation id db = Some (o, a) ->
  db_operations db !! id = Some o /\ db_allocations db !! op_AllocationID o = Some a.
Proof.
  unfold op_with_allocation. destruct (db_operations db !! id) as [o'|]; [|done]. cbn.
  destruct (db_allocations db !! op_AllocationID o') eqn:E; [|done]. by intros [= -> ->].
Qed.

Lemma ConfirmSync_keeps id owner revision v present now : keeps (ConfirmSync id owner revision v present now).
Proof.
  apply keeps_commit. intros c r c2 Hg H. tx_step H. apply tx_row_ok in E as [E ->].
  destruct a as [o a]. apply op_with_allocation_some in E as [Ho Ha].
  destruct (owned_by owner o) eqn:Ew; [|by apply tx_ret_ok in H as [_ ->]]. cbn [negb] in H.
  case_bool_decide as Hrev; [by eapply (keeps_run (_ ← supersede_operation id now; mret false)); [keeps_walk| |]|].
  tx_step H. destruct (keeps_run _ _ _ _ (confirm_credentials_keeps _ _ _ _) E Hg) as [Hg0 He0].
  pose proof (leaves_run _ _ _ _ _ (confirm_credentials_leaves _ _ _ _) E) as L0. injection L0 as La _ _.
  tx_step H. destruct (keeps_run _ _ _ _ (confirmInboundPresence_keeps _ _ _) E0 Hg0) as [Hg1 He1].
  apply tx_exec_ok in E0 as (E1 & _ & _).
  tx_step H. apply tx_exec_ok in E0 as (E2 & Hc2 & _).
  assert (quiet (conn_db c1) (conn_db c3)) as Hq.
  { rewrite E2. eapply quiet_alloc_update; [apply Hg1|done|done|done|done|].
    intros b Hb. rewrite E1 in Hb. cbn in Hb. rewrite La, Ha in Hb. injection Hb as <-. cbn. split_and!; try done. lia. }
  assert (Good (conn_db c3)) as Hg3 by (split; [by rewrite E2|eapply quiet_inv; [done|apply Hg1]]).
  assert (keeps (_ ← tx_exec (fun db => set_operations (update_at id every (succeeded_operation now)
      (db_operations db)) db); mret true)) as Hk.
  { apply keeps_bind; [|intros; apply keeps_ret]. apply (keeps_op_exec _ (fun _ => every)). done. }
  destruct (keeps_run _ _ _ _ Hk H Hg3) as [Hg4 He4]. split; [done|].
  etransitivity; [exact He0|]. etransitivity; [exact He1|]. etransitivity; [by apply quiet_evolves|done].
Qed.

(** ** The rest of the store never touches what the invariant reads *)
Section Rest.
Context {En : Entropy}.

Lemma EnqueueDriftRemoval_keeps t tag kind sid now : keeps (EnqueueDriftRemoval t tag kind sid now).
Proof. unfold EnqueueDriftRemoval. keeps_walk. Qed.
Lemma LeaseDueDriftRemoval_keeps owner now lease : keeps (LeaseDueDriftRemoval owner now lease).
Proof. unfold LeaseDueDriftRemoval. keeps_walk. Qed.
Lemma RenewDriftRemovalLease_keeps id owner now lease : keeps (RenewDriftRemovalLease id owner now lease).
Proof. unfold RenewDriftRemovalLease. keeps_walk. Qed.
Lemma CompleteDriftRemoval_keeps id owner now audit : keeps (CompleteDriftRemoval id owner now audit).
Proof. unfold CompleteDriftRemoval, finishDriftRemoval, update_drift. keeps_walk. Qed.
Lemma RescheduleDriftRemoval_keeps id owner n next code summary :
  keeps (RescheduleDriftRemoval id owner n next code summary).
Proof. unfold RescheduleDriftRemoval, finishDriftRemoval, update_drift. keeps_walk. Qed.
Lemma FailDriftRemoval_keeps id owner code summary now audit : keeps (FailDriftRemoval id owner code summary now audit).
Proof. unfold FailDriftRemoval, finishDriftRemoval, update_drift. keeps_walk. Qed.

Lemma CreateTemplate_keeps record command audit : keeps (CreateTemplate record command audit).
Proof. unfold CreateTemplate, FindCommand. keeps_walk. Qed.
Lemma UpdateTemplate_keeps record expected command audit : keeps (UpdateTemplate record expected command audit).
Proof. unfold UpdateTemplate. keeps_walk. Qed.
Lemma ArchiveTemplate_keeps id revision now : keeps (ArchiveTemplate id revision now).
Proof. unfold ArchiveTemplate. keeps_walk. Qed.
Lemma SetTemplateCompatibility_keeps id state reason now : keeps (SetTemplateCompatibility id state reason now).
Proof. unfold SetTemplateCompatibility. keeps_walk. Qed.
Lemma CompleteTemplateValidation_keeps outcome : keeps (CompleteTemplateValidation outcome).
Proof. unfold CompleteTemplateValidation, update_instance. keeps_walk. Qed.
Lemma RequestRevalidation_keeps id expected command audit : keeps (RequestRevalidation id expected command audit).
Proof. unfold RequestRevalidation. keeps_walk. Qed.
Lemma AdvanceCapabilityGeneration_keeps signal tolerance now : keeps (AdvanceCapabilityGeneration signal tolerance now).
Proof. unfold AdvanceCapabilityGeneration, update_instance. keeps_walk. Qed.
Lemma InvalidateStale_keeps generation now : keeps (InvalidateStaleCapabilityEvidence generation now).
Proof. unfold InvalidateStaleCapabilityEvidence. keeps_walk. Qed.
Lemma SetInstanceHealth_keeps health boot code at_ summary now : keeps (SetInstanceHealth health boot code at_ summary now).
Proof. unfold SetInstanceHealth, update_instance. keeps_walk. Qed.
Lemma MarkInstanceHealthy_keeps boot now : keeps (MarkInstanceHealthy boot now).
Proof. unfold MarkInstanceHealthy, update_instance. keeps_walk. Qed.
Lemma MarkInstanceUnreachable_keeps code summary now : keeps (MarkInstanceUnreachable code summary now).
Proof. unfold MarkInstanceUnreachable, update_instance. keeps_walk. Qed.
Lemma UpdateSettings_keeps timezone expected command audit : keeps (UpdateSettings timezone expected command audit).
Proof. unfold UpdateSettings. keeps_walk. apply keeps_exec_core. intros db. by case_match. Qed.
End Rest.
