(* ===== verification/IntentUser.v ===== *)
(** * Intents prepared outside their transaction keep the invariant

    A port change, a rotation, a deletion and a reconcile operation are built by
    a service from rows it read in an earlier state of the tables; the
    transaction that commits them may run any number of other transactions
    later. A user is created from rows that do not exist yet. *)

From Stdlib Require Import ZArith Lia.
From S2P Require Import Prelude GoTypes Identity Inbound User Sync Quota Traffic Template Cycle Records Database StoreCore StoreSync StoreQuota StoreUsers StoreTraffic Intent.

(** The intent [op] for the allocation [k] was built from the row [a0] of an
    earlier state [old]. *)
Record built_from (old : DB) (k : ID) (a0 : AccessAllocation) (op : SynchronizationOperation) : Prop := {
  bf_row : db_allocations old !! k = Some a0;
  bf_pos : 0 <= a_DesiredRevision a0;
  bf_alloc : op_AllocationID op = k;
  bf_revision : op_DesiredRevision op = a_DesiredRevision a0 + 1 }.

(** The last statement of a push: the fields of the allocation it may not touch. *)
Definition pushes_row (op : SynchronizationOperation) (f : AccessAllocation -> AccessAllocation) : Prop :=
  forall a, a_UserID (f a) = a_UserID a /\ a_DesiredRevision (f a) = op_DesiredRevision op /\
    a_SyncedRevision (f a) = a_SyncedRevision a /\ a_AdminEnabled (f a) = a_AdminEnabled a /\
    a_QuotaState (f a) = a_QuotaState a.

Lemma pushed_from old k a0 op now f c c3 :
  Good (conn_db c) -> evolves old (conn_db c) -> built_from old k a0 op -> pushes_row op f ->
  op_DesiredPresence op = presence old a0 ->
  (forall a v, a_DesiredCredentialVersion a = a_DesiredCredentialVersion a0 ->
     op_DesiredCredentialVersion op = Some v -> v = a_DesiredCredentialVersion (f a)) ->
  pushed k op now f c c3 ->
  Good (conn_db c3) /\ evolves (conn_db c) (conn_db c3).
Proof.
  intros Hg He [Hr Hp Hk Hv] Hf Hpr Hver Hpush.
  destruct (He k a0 Hr) as (a & Ha & Hu & Hle & Hsame). destruct (Hf a) as (F1 & F2 & F3 & F4 & F5).
  eapply (push_step k op now f c c3 a (a_DesiredRevision a0)); try done.
  intros Heq. destruct (Hsame Heq) as [Hpres Hvers]. split; [|intros v; by apply (Hver a v)].
  rewrite Hpr, <- Hpres. unfold presence, DesiredPresent. by rewrite F1, F4, F5.
Qed.

Lemma keeps_change_port k cond port now :
  keeps (tx_exec (fun db => set_inbounds (update_at k cond (change_port port now) (db_inbounds db)) db)).
Proof. apply keeps_exec. intros db [_ Hi]. by eapply quiet_inbound_update. Qed.

#[export] Hint Resolve keeps_change_port : keeps.
#[export] Hint Extern 1 (keeps (update_user _ _ _)) => (apply keeps_update_user; intros; done) : keeps.

(** Successful runs from a state that [old] evolved into. *)
Definition keeps_since {A} (old : DB) (m : Tx A) : Prop := forall c a c2,
  Good (conn_db c) -> evolves old (conn_db c) -> m c = (Ok a, c2) ->
  Good (conn_db c2) /\ evolves (conn_db c) (conn_db c2).

Lemma since_of {A} old (m : Tx A) : keeps_ok m -> keeps_since old m.
Proof. intros Hm c a c2 Hg _. by apply Hm. Qed.

Lemma since_bind {A B} old (m : Tx A) (k : A -> Tx B) :
  keeps_since old m -> (forall a, keeps_since old (k a)) -> keeps_since old (mbind k m).
Proof.
  intros Hm Hk c b c2 Hg He H. tx_step H. destruct (Hm _ _ _ Hg He E) as [H1 H2].
  destruct (Hk _ _ _ _ H1 ltac:(by etransitivity) H) as [H3 H4]. split; [done|]. by etransitivity.
Qed.

Lemma since_commit {A} old (fn : Tx A) c : keeps_since old fn -> Good (conn_db c) -> evolves old (conn_db c) ->
  Good (conn_db (WithWriteTx fn c).2) /\ evolves (conn_db c) (conn_db (WithWriteTx fn c).2).
Proof.
  intros H Hg He. unfold WithWriteTx. destruct (fn c) as [[a|e] c2] eqn:E; [by eapply H|]. done.
Qed.

Lemma since_push {A} old k a0 op now f (rest : Tx A) :
  built_from old k a0 op -> pushes_row op f -> op_DesiredPresence op = presence old a0 ->
  (forall a v, a_DesiredCredentialVersion a = a_DesiredCredentialVersion a0 ->
     op_DesiredCredentialVersion op = Some v -> v = a_DesiredCredentialVersion (f a)) ->
  keeps_ok rest ->
  keeps_since old (
    _ ← supersedeOlder (op_AllocationID op) (op_DesiredRevision op) now;
    _ ← insertOperation op;
    _ ← tx_exec (fun db => set_allocations (update_at k every f (db_allocations db)) db);
    rest).
Proof.
  intros Hb Hf Hpres Hver Hrest c r c2 Hg He H. rewrite (bf_alloc _ _ _ _ Hb) in H.
  tx_step H. tx_step H. tx_step H.
  destruct (pushed_from old k a0 op now f c c3 Hg He Hb Hf Hpres Hver) as [Hg3 He3]; [by eapply pushed_intro|].
  destruct (Hrest _ _ _ Hg3 H). split; [done|]. by etransitivity.
Qed.

(** Walk to the push. *)
Ltac since_walk :=
  repeat first
    [ match goal with |- forall _, _ => intro end
    | lazymatch goal with
      | |- keeps_since _ (if ?b then _ else _) => destruct b
      | |- keeps_since _ (mbind _ (supersedeOlder _ _ _)) => fail
      | |- keeps_since _ (mbind _ _) => apply since_bind
      | |- _ => apply since_of; solve [apply keeps_ok_fail | apply keeps_ok_of; keeps_walk]
      end ].

Lemma ChangeInboundPort_since record old a0 c :
  built_from old (pc_AllocationID record) a0 (pc_Operation record) ->
  op_DesiredPresence (pc_Operation record) = presence old a0 ->
  op_DesiredCredentialVersion (pc_Operation record) = Some (a_DesiredCredentialVersion a0) ->
  Good (conn_db c) -> evolves old (conn_db c) ->
  Good (conn_db (ChangeInboundPort record c).2) /\ evolves (conn_db c) (conn_db (ChangeInboundPort record c).2).
Proof.
  intros Hb Hpres Hver. apply since_commit. cbv beta delta [ChangeInboundPort RotateCredential] zeta. since_walk.
  apply (since_push old _ a0); try done; [intros b v Hb'; rewrite Hver; by intros [= <-]|].
  apply keeps_ok_of. keeps_walk.
Qed.

Lemma RotateCredential_since record old a0 c :
  built_from old (rr_AllocationID record) a0 (rr_Operation record) ->
  op_DesiredPresence (rr_Operation record) = presence old a0 ->
  op_DesiredCredentialVersion (rr_Operation record) = Some (cr_Version (rr_Credential record)) ->
  Good (conn_db c) -> evolves old (conn_db c) ->
  Good (conn_db (RotateCredential record c).2) /\ evolves (conn_db c) (conn_db (RotateCredential record c).2).
Proof.
  intros Hb Hpres Hver. apply since_commit. cbv beta delta [ChangeInboundPort RotateCredential] zeta. since_walk.
  apply (since_push old _ a0); try done; [intros b v Hb'; rewrite Hver; by intros [= <-]|].
  apply keeps_ok_of. keeps_walk.
Qed.

(** ** Deletion: the user changes before the push *)
Lemma SoftDeleteUser_since record old a0 c :
  built_from old (dr_AllocationID record) a0 (dr_Operation record) ->
  op_DesiredPresence (dr_Operation record) = false ->
  op_DesiredCredentialVersion (dr_Operation record) = None ->
  a_UserID a0 = dr_UserID record ->
  Good (conn_db c) -> evolves old (conn_db c) ->
  Good (conn_db (SoftDeleteUser record c).2) /\ evolves (conn_db c) (conn_db (SoftDeleteUser record c).2).
Proof.
  intros Hb Hpres Hver Huser. apply since_commit. clear c. unfold SoftDeleteUser.
  apply since_bind; [since_walk|]. intros replay. destruct replay; [since_walk|].
  intros c r c2 Hg He H. tx_step H. unfold update_user in E.
  tx_step E. apply tx_read_ok in E0 as [-> ->]. tx_step E. apply tx_ret_ok in E as [-> ->].
  apply tx_exec_ok in E0 as (E & Hc0 & _). rewrite <- E in Hc0.
  destruct (count_at _ _ _ =? 1); [|done]. cbn [negb] in H.
  destruct Hb as [Hrow Hpos Hk Hrev]. rewrite Hk in H.
  tx_step H. tx_step H. tx_step H.
  pose proof (pushed_intro _ _ _ _ _ _ _ _ _ _ _ E0 E1 E2) as Hpush.
  destruct (He _ _ Hrow) as (a' & Ha & Hu & Hle & Hsame).
  assert (a_DesiredRevision a' = a_DesiredRevision a0) as Heq.
  { eapply (pushed_revision (conn_db c) _ _ _ _ _ _ _ _ (proj2 Hg)); [|exact Hpush|..]; try done. by rewrite E. }
  eapply (pushed_pushes (conn_db c) _ _ _ _ _ _ a') in Hpush as Hpp.
  - assert (Good (conn_db c4)) as Hg4.
    { split; [apply Hpush|]. eapply push_inv; [apply Hg|apply Hg|exact Hpp]. }
    assert (keeps (_ ← SaveCommand (dr_Command record); _ ← AppendAudit (dr_Audit record); mret false)) as Hkeep by keeps_walk.
    destruct (keeps_run _ _ _ _ Hkeep H Hg4) as [Hg5 He5]. split; [done|].
    etransitivity; [|exact He5]. eapply push_evolves; [apply Hg|exact Hpp].
  - by rewrite E.
  - by rewrite E.
  - intros k' _. by rewrite E.
  - intros id Hid. rewrite E. cbn. rewrite lookup_update_at. case_decide; [|done]. congruence.
  - intros u. rewrite E. cbn. rewrite lookup_update_at. case_decide; [|congruence].
    intros (u0 & Hu0 & ->)%fmap_Some_1. destruct (user_current _ _); [done|].
    by apply (ii_deleted _ (proj2 Hg) (a_UserID a')).
  - exact Ha.
  - done.
  - done.
  - done.
  - done.
  - lia.
  - intros v. by rewrite Hver.
  - rewrite Hpres. unfold presence, DesiredPresent, InboundDesiredPresent. cbn.
    destruct (db_users _ !! _) as [u|]; [|done]. by destruct (u_Lifecycle u).
Qed.

(** ** Reconciliation: only at the expected revision *)
Lemma EnqueueReconcile_since k expected op now old a0 c :
  built_from old k a0 op -> expected = a_DesiredRevision a0 ->
  op_DesiredPresence op = presence old a0 ->
  op_DesiredCredentialVersion op = Some (a_DesiredCredentialVersion a0) ->
  Good (conn_db c) -> evolves old (conn_db c) ->
  Good (conn_db (EnqueueReconcile k expected op now c).2) /\
  evolves (conn_db c) (conn_db (EnqueueReconcile k expected op now c).2).
Proof.
  intros Hb Hexp Hpres Hver. apply since_commit. clear c. intros c r c2 Hg He H.
  tx_step H. apply tx_read_ok in E as [-> ->]. tx_step H. apply tx_exec_ok in E as (E & _ & _).
  destruct (count_at k _ _ =? 1) eqn:Erows; cbn [negb] in H.
  - apply count_at_1 in Erows as (a' & Ha & Hd). apply Z.eqb_eq in Hd.
    tx_step H. tx_step H. apply tx_ret_ok in H as [_ ->].
    apply supersedeOlder_ok in E0. apply insertOperation_ok in E1 as (Hn & E1 & Hc).
    set (f := fun a => a <| a_DesiredRevision := op_DesiredRevision op |> <| a_ProjectionState := ProjectionPending |>
                         <| a_UpdatedAt := ms now |>) in *.
    assert (pushed k op now f c c3) as Hpush.
    { rewrite E1, E0, E in *. split; rewrite ?E1, ?E0, ?E; try done.
      - cbn in Hn. unfold update_rows in Hn. by rewrite lookup_fmap, fmap_None in Hn.
      - cbn. unfold update_at. rewrite Ha. apply Z.eqb_eq in Hd. by rewrite Hd. }
    eapply (pushed_from old k a0 op now f c c3); try done.
    intros b v Hvb. rewrite Hver. by intros [= <-].
  - apply tx_ret_ok in H as [_ ->]. rewrite update_at_miss in E by done.
    assert (same_core (conn_db c) (conn_db c0)) as Hs by (rewrite E; done).
    split; [|by apply evolves_core]. split; [rewrite E|by eapply IntentInv_core, Hg].
    destruct Hg as [Hc _]. by destruct (conn_db c).
Qed.

(** ** Creation *)
Record creates (db db' : DB) (u : ManagedUser) (k : ID) (a : AccessAllocation) (o : SynchronizationOperation) : Prop := {
  cs_user_new : db_users db !! a_UserID a = None;
  cs_alloc_new : db_allocations db !! k = None;
  cs_op_new : db_operations db !! op_ID o = None;
  cs_users : db_users db' = <[a_UserID a := u]> (db_users db);
  cs_allocs : db_allocations db' = <[k := a]> (db_allocations db);
  cs_ops : db_operations db' = <[op_ID o := o]> (db_operations db);
  cs_inbound : forall r, db_inbounds db' !! k = Some r -> in_ReleasedAt (ir_Inbound r) = None ->
    in_DesiredPresent (ir_Inbound r) = op_DesiredPresence o;
  cs_inbounds : forall k', k' <> k -> db_inbounds db' !! k' = db_inbounds db !! k';
  cs_op : op_AllocationID o = k /\ op_DesiredRevision o = 1 /\
    op_DesiredCredentialVersion o = Some (a_DesiredCredentialVersion a) /\ op_DesiredPresence o = DesiredPresent a u;
  cs_alloc : a_DesiredRevision a = 1 /\ a_SyncedRevision a = 0;
  cs_user : u_Lifecycle u = LifecycleActive /\ u_DeletedAt u = None }.

Section Create.
Context (db db' : DB) (u : ManagedUser) (k : ID) (a : AccessAllocation) (o : SynchronizationOperation).
Context (Hg : Good db) (Hc : creates db db' u k a o).

Lemma create_presence_new : presence db' a = DesiredPresent a u.
Proof. unfold presence. by rewrite (cs_users _ _ _ _ _ _ Hc), lookup_insert_eq. Qed.

Lemma create_presence k' b : db_allocations db !! k' = Some b -> presence db' b = presence db b.
Proof.
  intros Hb. unfold presence. rewrite (cs_users _ _ _ _ _ _ Hc), lookup_insert_ne; [done|].
  intros He. destruct (con_allocations _ (proj1 Hg)) as [H _]. destruct (H k' b Hb) as (_&_&_&_&[? Hu]&_).
  rewrite <- He, (cs_user_new _ _ _ _ _ _ Hc) in Hu. done.
Qed.

Lemma create_lookup k' b : db_allocations db' !! k' = Some b ->
  (k' = k /\ b = a) \/ (k' <> k /\ db_allocations db !! k' = Some b).
Proof. rewrite (cs_allocs _ _ _ _ _ _ Hc). intros [[-> ->]|[? ?]]%lookup_insert_Some; auto. Qed.

Lemma create_op id p : db_operations db' !! id = Some p ->
  (id = op_ID o /\ p = o) \/ (db_operations db !! id = Some p /\ op_AllocationID p <> k).
Proof.
  rewrite (cs_ops _ _ _ _ _ _ Hc). intros [[-> ->]|[? Hp]]%lookup_insert_Some; [by left|right].
  split; [done|]. intros He. destruct (ii_range _ (proj2 Hg) id p Hp) as (b & Hb & _).
  rewrite He, (cs_alloc_new _ _ _ _ _ _ Hc) in Hb. done.
Qed.

Lemma create_alloc k' b : db_allocations db !! k' = Some b -> db_allocations db' !! k' = Some b.
Proof.
  intros Hb. rewrite (cs_allocs _ _ _ _ _ _ Hc), lookup_insert_ne; [done|].
  intros <-. by rewrite (cs_alloc_new _ _ _ _ _ _ Hc) in Hb.
Qed.

Lemma create_alloc_of_op id p b : db_operations db !! id = Some p -> op_AllocationID p <> k ->
  db_allocations db' !! op_AllocationID p = Some b -> db_allocations db !! op_AllocationID p = Some b.
Proof. intros _ Hk [[? _]|[_ ?]]%create_lookup; done. Qed.

Lemma create_inv : IntentInv db'.
Proof.
  destruct (proj2 Hg) as [I1 I2 I3 I4 I5 I6 I7].
  destruct (cs_op _ _ _ _ _ _ Hc) as (O1 & O2 & O3 & O4). destruct (cs_alloc _ _ _ _ _ _ Hc) as [A1 A2].
  split.
  - intros k' b r Hb Hr Hrel. apply create_lookup in Hb as [[-> ->]|[Hk Hb]].
    + rewrite create_presence_new, <- O4. by apply Hc.
    + rewrite (cs_inbounds _ _ _ _ _ _ Hc) in Hr by done. rewrite (create_presence k' b Hb). by apply (I1 k').
  - intros id p [[-> ->]|[Hp Hk]]%create_op.
    + exists a. rewrite O1, O2, A1, (cs_allocs _ _ _ _ _ _ Hc), lookup_insert_eq. split; [done|lia].
    + destruct (I2 id p Hp) as (b & Hb & Hr). exists b. split; [by apply create_alloc|done].
  - intros id p b [[-> ->]|[Hp Hk]]%create_op Hb Hs.
    + apply create_lookup in Hb as [[_ ->]|[Hne _]]; [lia|congruence].
    + apply (I3 id p b Hp); [by eapply create_alloc_of_op|done].
  - intros id p b [[-> ->]|[Hp Hk]]%create_op Hb He.
    + apply create_lookup in Hb as [[_ ->]|[Hne _]]; [|congruence].
      rewrite create_presence_new. split; [done|]. rewrite O3. by intros v [= <-].
    + assert (db_allocations db !! op_AllocationID p = Some b) as Hb' by (by eapply create_alloc_of_op).
      rewrite (create_presence _ b Hb'). by apply (I4 id).
  - intros k' b r [[-> ->]|[Hk Hb]]%create_lookup Hr.
    + exists (op_ID o), o. rewrite (cs_ops _ _ _ _ _ _ Hc), lookup_insert_eq. split_and!; [done..|lia].
    + destruct (I5 k' b r Hb Hr) as (id & p & Hp & ? & ?). exists id, p. split_and!; [|done..].
      rewrite (cs_ops _ _ _ _ _ _ Hc), lookup_insert_ne; [done|]. intros <-.
      by rewrite (cs_op_new _ _ _ _ _ _ Hc) in Hp.
  - intros k' b [[-> ->]|[Hk Hb]]%create_lookup; [lia|by apply (I6 k')].
  - intros id v. rewrite (cs_users _ _ _ _ _ _ Hc). intros [[<- <-]|[_ Hv]]%lookup_insert_Some; [|by apply (I7 id)].
    by destruct (cs_user _ _ _ _ _ _ Hc) as [-> ->].
Qed.

Lemma create_evolves : evolves db db'.
Proof.
  intros k' b Hb. exists b. split_and!; [by apply create_alloc|done|lia|].
  intros _. split; [by eapply create_presence|done].
Qed.
End Create.

(** What the service puts into the record of a new user. *)
Record fresh_record (r : UserCreateRecord) : Prop := {
  fr_user : a_UserID (uc_Allocation r) = u_ID (uc_User r);
  fr_inbound : in_AllocationID (ir_Inbound (uc_Inbound r)) = a_ID (uc_Allocation r);
  fr_op : op_AllocationID (uc_Operation r) = a_ID (uc_Allocation r) /\ op_DesiredRevision (uc_Operation r) = 1 /\
    op_DesiredCredentialVersion (uc_Operation r) = Some (a_DesiredCredentialVersion (uc_Allocation r)) /\
    op_DesiredPresence (uc_Operation r) = DesiredPresent (uc_Allocation r) (uc_User r);
  fr_alloc : a_DesiredRevision (uc_Allocation r) = 1 /\ a_SyncedRevision (uc_Allocation r) = 0;
  fr_active : u_Lifecycle (uc_User r) = LifecycleActive /\ u_DeletedAt (uc_User r) = None }.

(** Follow a part of the tables back through the statements. *)
Tactic Notation "chain" hyp(E1) hyp(E2) hyp(E3) := rewrite E1; cbn; rewrite E2; cbn; rewrite E3; done.
Tactic Notation "chain" hyp(E9) hyp(E8) hyp(E7) hyp(E6) hyp(E5) hyp(E4) hyp(E3) hyp(E2) hyp(E1) :=
  rewrite E9; cbn; rewrite E8; cbn; rewrite E7; cbn; rewrite E6; cbn; rewrite E5; cbn; rewrite E4; cbn;
  chain E3 E2 E1.

(** The rows of a new user, then its first operation. *)
Lemma create_rows record c x c1 y c2 : fresh_record record ->
  insert_user_rows record c = (Ok x, c1) -> insertOperation (uc_Operation record) c1 = (Ok y, c2) ->
  creates (conn_db c) (conn_db c2) (store_user (uc_User record)) (a_ID (uc_Allocation record))
    (store_allocation (uc_Allocation record)) (store_operation (uc_Operation record)) /\ Constraints (conn_db c2).
Proof.
  intros [F1 F2 (F3 & F4 & F5 & F6) F7 F8] H1 H2. unfold insert_user_rows in H1.
  tx_step H1. apply translate_ok in E. apply insert_row_ok in E as (N1 & E1 & _).
  tx_step H1. apply translate_ok in E. apply insert_row_ok in E as (_ & E2 & _).
  tx_step H1. apply insert_row_ok in E as (N3 & E3 & _).
  tx_step H1. unfold insertDedicatedInbound in E. tx_step E. injection E0 as _ <-.
  apply translate_ok in E. apply insert_row_ok in E as (_ & E4 & _).
  tx_step H1. apply insert_row_ok in E as (_ & E5 & _).
  tx_step H1. apply insert_row_ok in E as (_ & E6 & _).
  tx_step H1. apply insert_row_ok in E as (_ & E7 & _).
  tx_step H1. apply insert_row_ok in E as (_ & E8 & _).
  apply insert_row_ok in H1 as (_ & E9 & _).
  apply insertOperation_ok in H2 as (N10 & E10 & Hc).
  assert (db_users (conn_db c1) = <[u_ID (uc_User record) := store_user (uc_User record)]> (db_users (conn_db c)) /\
    db_operations (conn_db c1) = db_operations (conn_db c)) as [EU EO]
    by (split; chain E9 E8 E7 E6 E5 E4 E3 E2 E1).
  assert (db_allocations (conn_db c1) = <[a_ID (uc_Allocation record) := store_allocation (uc_Allocation record)]>
    (db_allocations (conn_db c))) as EA by (chain E9 E8 E7 E6 E5 E4 E3 E2 E1).
  assert (db_inbounds (conn_db c1) = <[a_ID (uc_Allocation record) := store_inbound (uc_Inbound record)]>
    (db_inbounds (conn_db c))) as EI by (rewrite <- F2; chain E9 E8 E7 E6 E5 E4 E3 E2 E1).
  assert (db_allocations (conn_db c) !! a_ID (uc_Allocation record) = None) as NA
    by (rewrite <- N3; f_equal; rewrite E2; cbn; rewrite E1; done).
  clear E1 E2 E3 E4 E5 E6 E7 E8 E9 N3.
  split; [|exact Hc]. split.
  - cbn. by rewrite F1.
  - exact NA.
  - cbn. by rewrite <- EO.
  - rewrite E10. cbn. by rewrite EU, F1.
  - rewrite E10. cbn. exact EA.
  - rewrite E10. cbn. by rewrite EO.
  - intros r. rewrite E10. cbn. rewrite F3, lookup_update_at, decide_True, EI, lookup_insert_eq by done.
    intros [= <-]. destruct (unreleased _) eqn:Eu; [done|]. intros Hrel. unfold unreleased, Assigned in Eu.
    apply bool_decide_eq_false in Eu. cbn in *. done.
  - intros k' Hk. rewrite E10. cbn. rewrite F3, lookup_update_at, decide_False, EI, lookup_insert_ne by done. done.
  - done.
  - done.
  - cbn. destruct F8 as [-> ->]. done.
Qed.

Lemma CreateUser_keeps record : fresh_record record -> keeps (CreateUser record).
Proof.
  intros Hf. apply keeps_commit. intros c r c2 Hg H. tx_step H. apply tx_read_ok in E as [-> ->].
  destruct (db_commands (conn_db c) !! _) as [existing|].
  { case_bool_decide; [done|]. by apply tx_ret_ok in H as [_ ->]. }
  tx_step H. tx_step H. destruct (create_rows _ _ _ _ _ _ Hf E E0) as [Hcr Hcon].
  assert (Good (conn_db c1)) as Hg1 by (split; [done|by eapply create_inv]).
  assert (keeps (_ ← SaveCommand (uc_Command record); _ ← AppendAudit (uc_Audit record);
     _ ← AppendAudit (uc_PortAudit record); mret (u_ID (uc_User record), false))) as Hk by keeps_walk.
  destruct (keeps_run _ _ _ _ Hk H Hg1). split; [done|]. etransitivity; [by eapply create_evolves|done].
Qed.
