(* ===== verification/History.v ===== *)
(** * Histories: every interleaving of the program's transactions

    The panel runs its administrators' requests, the collector, the scheduler,
    the reconciler and the synchronizer concurrently over one database that
    serialises write transactions. A history is any sequence of their
    transactions; a transaction whose record was prepared outside of it may use
    rows of any earlier state. *)

From Stdlib Require Import ZArith Lia.
From S2P Require Import Prelude GoTypes Identity Ports Text Inbound Tokens User Sync Quota Traffic Template Cycle Records Database Secrets StoreCore StoreSync StoreQuota StoreUsers StoreTraffic StoreDrift StoreTemplates UserService StoreSessions Demo Intent IntentTx IntentSync IntentUser.

(** The joined record of a user as some state of the tables had it. *)
Definition snapshot (old : DB) (record : UserRecord) : Prop :=
  exists a, db_allocations old !! a_ID a = Some a /\ join_user a old = Some record.

Lemma join_user_some a db record : join_user a db = Some record ->
  ur_Allocation record = a /\ db_users db !! a_UserID a = Some (ur_User record) /\
  cr_Version (ur_Credential record) = a_DesiredCredentialVersion a.
Proof.
  unfold join_user. intros H.
  destruct (db_users db !! a_UserID a) as [u|]; [|done]. cbn in H.
  destruct (db_identities db !! a_IdentityID a); [|done]. cbn in H.
  destruct (db_templates db !! a_TemplateID a); [|done]. cbn in H.
  destruct (db_inbounds db !! a_ID a); [|done]. cbn in H.
  destruct (credential_of _ _ _) as [cr|] eqn:Ec; [|done]. cbn in H.
  destruct (db_policies db !! a_ID a); [|done]. cbn in H.
  destruct (open_cycle _ _); [|done]. injection H as <-. split_and!; [done..|].
  apply find_row_some in Ec as [Hc _]. apply andb_true_iff in Hc as [_ Hv]. by apply bool_decide_eq_true in Hv.
Qed.

Lemma snapshot_row old record : Constraints old -> snapshot old record ->
  let a := ur_Allocation record in
  db_allocations old !! a_ID a = Some a /\ 0 <= a_DesiredRevision a /\
  presence old a = DesiredPresent a (ur_User record) /\ a_UserID a = u_ID (ur_User record) /\
  cr_Version (ur_Credential record) = a_DesiredCredentialVersion a.
Proof.
  intros Hc (a & Ha & Hj). apply join_user_some in Hj as (-> & Hu & Hv). cbn.
  destruct (con_allocations _ Hc) as [Hall _]. destruct (Hall _ _ Ha) as (_ & Hp & _).
  destruct (con_users _ Hc) as [Hus _]. destruct (Hus _ _ Hu) as [Hid _].
  split_and!; try done. unfold presence. by rewrite Hu.
Qed.

Section History.
Context {Zn : Zones} {En : Entropy} {Un : Unicode} {Ae : Aead} {Sh : Sha256}.

(** One transaction on the connection, prepared with rows of [old]. *)
Inductive step (old : DB) (c : Conn) : Conn -> Prop :=
| step_create input t settings user k i cr cy op au pau sid key skey port s e now name :
    NewManagedUser (u_ID user) name now = Ok user ->
    step old c (CreateUser (user_create_record input t settings user k i cr cy op au pau sid key skey port s e now) c).2
| step_update record : step old c (UpdateUser record c).2
| step_reset record : step old c (ResetCycleTraffic record c).2
| step_rollover rollover : step old c (RolloverCycle rollover c).2
| step_traffic batch : Forall (fun u => tu_QuotaBlock u <> None) (tb_Updates batch) ->
    step old c (CommitTrafficBatch batch c).2
| step_port record input fp op au now : snapshot old record ->
    step old c (ChangeInboundPort (port_change_record record input fp op au now) c).2
| step_rotate record input fp cr op au sealed now : snapshot old record ->
    step old c (RotateCredential (rotation_record record input fp cr op au sealed now) c).2
| step_delete record input fp op au now : snapshot old record ->
    step old c (SoftDeleteUser (delete_record record input fp op au now) c).2
| step_reconcile record op now : snapshot old record ->
    let a := ur_Allocation record in
    let desired := DesiredPresent a (ur_User record) in
    step old c (EnqueueReconcile (a_ID a) (a_DesiredRevision a)
      (NewSynchronizationOperation op (a_ID a) (a_DesiredRevision a + 1) desired
         (Some (a_DesiredCredentialVersion a)) SyncReconcile (InboundPhaseFor desired) now) now c).2
| step_lease owner now d : step old c (LeaseDueSync owner now d c).2
| step_renew id owner now d : step old c (RenewSyncLease id owner now d c).2
| step_confirm id owner revision v present now : step old c (ConfirmSync id owner revision v present now c).2
| step_reschedule id owner n next code summary wall : step old c (RescheduleSync id owner n next code summary wall c).2
| step_fail id owner code summary now wall : step old c (FailSync id owner code summary now wall c).2
| step_observe k present now : step old c (RecordObservation k present now c).2
| step_presence k present now : step old c (ConfirmInboundPresence k present now c).2
| step_drift t tag kind sid now : step old c (EnqueueDriftRemoval t tag kind sid now c).2
| step_drift_lease owner now d : step old c (LeaseDueDriftRemoval owner now d c).2
| step_drift_renew id owner now d : step old c (RenewDriftRemovalLease id owner now d c).2
| step_drift_done id owner now au : step old c (CompleteDriftRemoval id owner now au c).2
| step_drift_retry id owner n next code summary : step old c (RescheduleDriftRemoval id owner n next code summary c).2
| step_drift_fail id owner code summary now au : step old c (FailDriftRemoval id owner code summary now au c).2
| step_template t command au : step old c (CreateTemplate t command au c).2
| step_template_update t revision command au : step old c (UpdateTemplate t revision command au c).2
| step_archive id revision now : step old c (ArchiveTemplate id revision now c).2
| step_validated outcome : step old c (CompleteTemplateValidation outcome c).2
| step_revalidate id revision command au : step old c (RequestRevalidation id revision command au c).2
| step_generation signal tolerance now : step old c (AdvanceCapabilityGeneration signal tolerance now c).2
| step_stale generation now : step old c (InvalidateStaleCapabilityEvidence generation now c).2
| step_healthy boot now : step old c (MarkInstanceHealthy boot now c).2
| step_unreachable code summary now : step old c (MarkInstanceUnreachable code summary now c).2
| step_settings timezone revision command au : step old c (UpdateSettings timezone revision command au c).2
| step_singletons timezone endpoint version verifier nonce now :
    step old c (EnsureSingletons timezone endpoint version verifier nonce now c).2
| step_admin admin : step old c (CreateAdministrator admin c).2
| step_password id hash version now : step old c (UpdateAdministratorPassword id hash version now c).2
| step_session record : step old c (InsertSession record c).2
| step_revoke digest now : step old c (RevokeSession digest now c).2
| step_revoke_all id now : step old c (RevokeAllSessions id now c).2
| step_find s token now : step old c (Find s token now c).2
| step_commit s token data expiry now : step old c (Commit s token data expiry now c).2
| step_delete_session token now : step old c (Delete token now c).2
| step_audit event : step old c (Store_AppendAudit event c).2
| step_compatibility id state reason now : step old c (SetTemplateCompatibility id state reason now c).2
| step_draw n : step old c (c <| conn_rand := n |>).

(** The states of the tables so far, the current one first. *)
Inductive history : list DB -> Conn -> Prop :=
| history_start n : history [empty_db] (mkConn empty_db n)
| history_step h c old c' : history h c -> old ∈ h -> step old c c' -> history (conn_db c' :: h) c'.
Lemma history_now h c : history h c -> conn_db c ∈ h.
Proof. destruct 1; left. Qed.

Lemma EnsureSingletons_keeps timezone endpoint version verifier nonce now :
  keeps (EnsureSingletons timezone endpoint version verifier nonce now).
Proof. unfold EnsureSingletons. keeps_walk. apply keeps_exec_core. intros db. by case_match. Qed.

Lemma CreateAdministrator_keeps admin : keeps (CreateAdministrator admin).
Proof. unfold CreateAdministrator. keeps_walk. Qed.
Lemma UpdatePassword_keeps id hash version now : keeps (UpdateAdministratorPassword id hash version now).
Proof. unfold UpdateAdministratorPassword. keeps_walk. Qed.
Lemma InsertSession_keeps record : keeps (InsertSession record).
Proof. unfold InsertSession. keeps_walk. Qed.
Lemma RevokeSession_keeps digest now : keeps (RevokeSession digest now).
Proof. unfold RevokeSession. keeps_walk. Qed.
Lemma RevokeAllSessions_keeps id now : keeps (RevokeAllSessions id now).
Proof. unfold RevokeAllSessions. keeps_walk. Qed.
Lemma Find_keeps s token now : keeps (Find s token now).
Proof. unfold Find. keeps_walk. Qed.
Lemma Commit_keeps s token data expiry now : keeps (Commit s token data expiry now).
Proof. unfold Commit, session_record, upsert_session. keeps_walk. Qed.
Lemma Delete_keeps token now : keeps (Delete token now).
Proof. unfold Delete. keeps_walk. Qed.
Lemma Store_AppendAudit_keeps event : keeps (Store_AppendAudit event).
Proof. unfold Store_AppendAudit. keeps_walk. Qed.

Lemma step_good old c c' : Good old -> Good (conn_db c) -> evolves old (conn_db c) -> step old c c' ->
  Good (conn_db c') /\ evolves (conn_db c) (conn_db c').
Proof.
  intros Hold Hg He Hs.
  destruct Hs;
    try match goal with S : snapshot _ _ |- _ =>
          apply snapshot_row in S as (Hr & Hp & Hpr & Huid & Hv); [|apply Hold] end.
  - apply CreateUser_keeps; [|done]. match goal with H : NewManagedUser _ _ _ = _ |- _ => revert H end.
    unfold NewManagedUser. destruct (NormalizeDisplayName name); [|done]. by intros [= <-].
  - by apply UpdateUser_keeps.
  - by apply ResetCycleTraffic_keeps.
  - by apply RolloverCycle_keeps.
  - by apply CommitTrafficBatch_keeps.
  - by apply (ChangeInboundPort_since _ old (ur_Allocation record)).
  - by apply (RotateCredential_since _ old (ur_Allocation record)).
  - by apply (SoftDeleteUser_since _ old (ur_Allocation record)).
  - by apply (EnqueueReconcile_since _ _ _ _ old (ur_Allocation record)).
  - by apply LeaseDueSync_keeps.
  - by apply RenewSyncLease_keeps.
  - by apply ConfirmSync_keeps.
  - by apply RescheduleSync_keeps.
  - by apply FailSync_keeps.
  - by apply RecordObservation_keeps.
  - by apply confirmInboundPresence_keeps.
  - by apply EnqueueDriftRemoval_keeps.
  - by apply LeaseDueDriftRemoval_keeps.
  - by apply RenewDriftRemovalLease_keeps.
  - by apply CompleteDriftRemoval_keeps.
  - by apply RescheduleDriftRemoval_keeps.
  - by apply FailDriftRemoval_keeps.
  - by apply CreateTemplate_keeps.
  - by apply UpdateTemplate_keeps.
  - by apply ArchiveTemplate_keeps.
  - by apply CompleteTemplateValidation_keeps.
  - by apply RequestRevalidation_keeps.
  - by apply AdvanceCapabilityGeneration_keeps.
  - by apply InvalidateStale_keeps.
  - by apply MarkInstanceHealthy_keeps.
  - by apply MarkInstanceUnreachable_keeps.
  - by apply UpdateSettings_keeps.
  - by apply EnsureSingletons_keeps.
  - by apply CreateAdministrator_keeps.
  - by apply UpdatePassword_keeps.
  - by apply InsertSession_keeps.
  - by apply RevokeSession_keeps.
  - by apply RevokeAllSessions_keeps.
  - by apply Find_keeps.
  - by apply Commit_keeps.
  - by apply Delete_keeps.
  - by apply Store_AppendAudit_keeps.
  - by apply SetTemplateCompatibility_keeps.
  - done.
Qed.

Lemma Good_empty : Good empty_db.
Proof.
  split; [apply (bool_decide_unpack _); by vm_compute|].
  split; intros; by rewrite ?lookup_empty in *.
Qed.

Lemma history_good h c : history h c ->
  Good (conn_db c) /\ forall old, old ∈ h -> Good old /\ evolves old (conn_db c).
Proof.
  induction 1 as [n|h c old c' _ [Hg Hall] Hin Hs].
  - split; [apply Good_empty|]. intros old ->%list_elem_of_singleton. by split; [apply Good_empty|].
  - destruct (Hall old Hin) as [Hold He]. destruct (step_good old c c' Hold Hg He Hs) as [Hg' He'].
    split; [done|]. intros o [->|Ho]%elem_of_cons; [done|].
    destruct (Hall o Ho). split; [done|]. by etransitivity.
Qed.

(** C1: in every reachable state of the tables, whatever the interleaving of
    requests, collector, scheduler, reconciler and synchronizer, and however
    stale the rows their records were prepared from: the inbound of an
    allocation that still holds its port is desired exactly when the user is
    active, enabled and within the quota; every operation that may still run
    is for the allocation's current revision, carries that same presence and
    the current credential version, and is the only one of its allocation;
    and no revision is confirmed before it was desired. *)
Theorem intent_follows_truth_table h c : history h c ->
  let db := conn_db c in
  forall k a u, db_allocations db !! k = Some a -> db_users db !! a_UserID a = Some u ->
  let present := InboundDesiredPresent (u_Lifecycle u) (a_AdminEnabled a) (a_QuotaState a) in
  (forall r, db_inbounds db !! k = Some r -> unreleased r = true -> in_DesiredPresent (ir_Inbound r) = present) /\
  (forall id o, db_operations db !! id = Some o -> op_AllocationID o = k -> supersedable (op_State o) = true ->
     op_DesiredRevision o = a_DesiredRevision a /\ op_DesiredPresence o = present /\
     (forall v, op_DesiredCredentialVersion o = Some v -> v = a_DesiredCredentialVersion a) /\
     forall id' o', db_operations db !! id' = Some o' -> op_AllocationID o' = k ->
       supersedable (op_State o') = true -> id' = id) /\
  a_SyncedRevision a <= a_DesiredRevision a.
Proof.
  intros [[Hc Hi] _]%history_good db k a u Ha Hu present.
  assert (presence db a = present) as Hp by (unfold presence; by rewrite Hu).
  split_and!.
  - intros r Hr Hrel%bool_decide_eq_true. rewrite <- Hp. by apply (ii_inbound _ Hi k).
  - intros id o Ho <- Hs. pose proof (ii_live _ Hi id o a Ho Ha Hs) as Hrev.
    destruct (ii_current _ Hi id o a Ho Ha Hrev) as [Hpr Hv]. split_and!; [done|by rewrite Hpr|done|].
    intros id' o' Ho' Hk' Hs'.
    assert (op_DesiredRevision o' = a_DesiredRevision a) as Hrev' by (apply (ii_live _ Hi id' o'); [done|by rewrite Hk'|done]).
    destruct (con_operations _ Hc) as (_ & _ & Hu'). apply (Hu' id' o' Ho' id o Ho); [done..|cbn; congruence].
  - by apply (ii_synced _ Hi k).
Qed.

(** ** Stale records are refused *)

(** No successful run from a state with the operations and allocations of [db]. *)
Definition refuses {A} (db : DB) (m : Tx A) : Prop := forall c a c2,
  db_operations (conn_db c) = db_operations db -> m c <> (Ok a, c2).

Lemma refuses_bind {A B} db (m : Tx A) (k : A -> Tx B) :
  leaves db_operations m -> (forall a, refuses db (k a)) -> refuses db (mbind k m).
Proof.
  intros Hm Hk c b c2 Hc H. tx_step H. apply (leaves_run _ _ _ _ _ Hm) in E.
  apply (Hk a c0 b c2); [congruence|done].
Qed.
Lemma refuses_fail {A} db e : refuses db (tx_fail (A := A) e). Proof. by intros c a c2 _. Qed.
Lemma refuses_push {A} db k op now f a r0 (rest : Tx A) :
  IntentInv db -> db_allocations db !! k = Some a -> op_AllocationID op = k -> op_DesiredRevision op = r0 + 1 ->
  0 <= r0 < a_DesiredRevision a ->
  refuses db (
    _ ← supersedeOlder (op_AllocationID op) (op_DesiredRevision op) now;
    _ ← insertOperation op;
    _ ← tx_exec (fun db => set_allocations (update_at k every f (db_allocations db)) db);
    rest).
Proof.
  intros Hi Ha Hk Hr Hlt c b c2 Hc H. rewrite Hk in H. tx_step H. tx_step H. tx_step H.
  pose proof (pushed_intro _ _ _ _ _ _ _ _ _ _ _ E E0 E1) as Hp.
  assert (a_DesiredRevision a = r0) as He; [|lia].
  eapply (pushed_revision db _ _ _ _ _ _ _ _ Hi Hc Hp); try done. lia.
Qed.

Ltac refuses_walk :=
  repeat first
    [ match goal with |- forall _, _ => intro end
    | lazymatch goal with
      | |- refuses _ (if ?b then _ else _) => destruct b
      | |- refuses _ (tx_fail _) => apply refuses_fail
      | |- refuses _ (mbind _ (supersedeOlder _ _ _)) => fail
      | |- refuses _ (mbind _ _) => apply refuses_bind; [unfold update_user; leaves_walk|]
      end ].

Lemma refused {A} (fn : bool -> Tx A) command c :
  db_commands (conn_db c) !! cmd_ID command = None -> refuses (conn_db c) (fn false) ->
  exists e c', WithWriteTx (replay ← commandReplay command; fn replay) c = (Err e, c') /\ conn_db c' = conn_db c.
Proof.
  intros Hn Hr. unfold WithWriteTx, mbind, tx_bind.
  destruct (commandReplay command c) as [[replay|e] c1] eqn:E; [|by do 2 eexists].
  apply commandReplay_ok in E as [-> Hb]. destruct replay; [destruct Hb as [[? ?] _]; [done|congruence]|].
  destruct (fn false c) as [[a|e] c2] eqn:E; [|by do 2 eexists]. by destruct (Hr c a c2).
Qed.

(** C2: when the desired revision of an allocation has moved on since a
    service read the user, the port change, the rotation and the deletion the
    service prepared from that reading fail without changing a table, unless
    they repeat a request already recorded, and the reconcile operation is
    silently dropped: no intent prepared from stale rows overwrites a newer
    one. *)
Theorem stale_intent_refused h c old record a : history h c -> old ∈ h -> snapshot old record ->
  let k := a_ID (ur_Allocation record) in
  db_allocations (conn_db c) !! k = Some a -> a_DesiredRevision a <> a_DesiredRevision (ur_Allocation record) ->
  (forall input fp op au now, db_commands (conn_db c) !! pi_RequestID input = None ->
     exists e c', ChangeInboundPort (port_change_record record input fp op au now) c = (Err e, c') /\ conn_db c' = conn_db c) /\
  (forall input fp cr op au sealed now, db_commands (conn_db c) !! li_RequestID input = None ->
     exists e c', RotateCredential (rotation_record record input fp cr op au sealed now) c = (Err e, c') /\ conn_db c' = conn_db c) /\
  (forall input fp op au now, db_commands (conn_db c) !! li_RequestID input = None ->
     exists e c', SoftDeleteUser (delete_record record input fp op au now) c = (Err e, c') /\ conn_db c' = conn_db c) /\
  (forall op now, exists c', EnqueueReconcile k (a_DesiredRevision (ur_Allocation record)) op now c = (Ok false, c') /\
     conn_db c' = conn_db c).
Proof.
  intros [[Hc Hi] Hall]%history_good Hin Hsnap k Ha Hne. destruct (Hall old Hin) as [[Hcold _] He].
  destruct (snapshot_row _ _ Hcold Hsnap) as (Hr & Hp & _).
  destruct (He _ _ Hr) as (a' & Ha' & _ & Hle & _). assert (a' = a) as -> by (unfold k in Ha; congruence).
  split_and!.
  - intros input fp op au now Hn. apply refused; [done|]. refuses_walk.
    eapply (refuses_push _ _ _ _ _ a); try done. cbn. lia.
  - intros input fp cr op au sealed now Hn. apply refused; [done|]. refuses_walk.
    eapply (refuses_push _ _ _ _ _ a); try done. cbn. lia.
  - intros input fp op au now Hn. apply refused; [done|]. refuses_walk.
    eapply (refuses_push _ _ _ _ _ a); try done. cbn. lia.
  - intros op now. unfold EnqueueReconcile, WithWriteTx, mbind, tx_bind, tx_read.
    assert (count_at k (fun a => a_DesiredRevision a =? a_DesiredRevision (ur_Allocation record))
      (db_allocations (conn_db c)) = 0) as H0.
    { unfold count_at. rewrite Ha. by rewrite (proj2 (Z.eqb_neq _ _) Hne). }
    rewrite H0. unfold tx_exec. rewrite update_at_miss by (unfold count_at in *; by rewrite H0).
    replace (set_allocations (db_allocations (conn_db c)) (conn_db c)) with (conn_db c) by (by destruct (conn_db c)).
    destruct (decide (Constraints (conn_db c))); [|done]. cbn. by eexists.
Qed.

(** ** The services take these steps *)
Definition reachable (c : Conn) : Prop := exists h, history h c /\ conn_db c ∈ h.

Lemma reach_step c c' : reachable c -> step (conn_db c) c c' -> reachable c'.
Proof. intros (h & Hh & Hin) Hs. exists (conn_db c' :: h). split; [by eapply history_step|by left]. Qed.

Lemma reach_read {A B} (m : Tx A) (k : A -> Tx B) c : leaves (fun db => db) m -> reachable c ->
  (forall a c1, m c = (Ok a, c1) -> conn_db c1 = conn_db c -> reachable c1 -> reachable (k a c1).2) ->
  reachable (mbind k m c).2.
Proof.
  intros Hm Hc Hk. unfold mbind, tx_bind. destruct (m c) as [[a|e] c1] eqn:E;
    pose proof (leaves_run _ _ _ _ _ Hm E) as Hdb;
    assert (reachable c1) as Hr by
      (replace c1 with (c <| conn_rand := conn_rand c1 |>) by (destruct c, c1; cbn in *; by subst);
       apply (reach_step c _ Hc); constructor); [by apply Hk|done].
Qed.

Lemma reach_bind {A B} (m : Tx A) (k : A -> Tx B) c : reachable (m c).2 ->
  (forall a c1, reachable c1 -> reachable (k a c1).2) -> reachable (mbind k m c).2.
Proof. intros Hm Hk. unfold mbind, tx_bind. destruct (m c) as [[a|e] c1]; [by apply Hk|done]. Qed.

Lemma reach_same {A} (m : Tx A) c : leaves (fun db => db) m -> reachable c -> reachable (m c).2.
Proof.
  intros Hm Hc. replace (m c).2 with (c <| conn_rand := conn_rand (m c).2 |>).
  - apply (reach_step c _ Hc). constructor.
  - specialize (Hm c). destruct c, (m _) as [r [db n]]. cbn in *. by subst.
Qed.

Lemma GetUser_snapshot id c record c1 : Constraints (conn_db c) -> GetUser id c = (Ok record, c1) ->
  snapshot (conn_db c) record.
Proof.
  intros Hc H%on_no_rows_ok. apply tx_row_ok in H as [H _]. unfold allocation_of_user in H.
  destruct (find_row _ _) as [a|] eqn:E; [|done]. apply find_row_some in E as [_ [k Hk]].
  destruct (con_allocations _ Hc) as [Hall _]. destruct (Hall k a Hk) as [<- _]. by exists a.
Qed.

Lemma reachable_constraints c : reachable c -> Constraints (conn_db c).
Proof. intros (h & Hh & _). apply history_good in Hh as [[Hc _] _]. done. Qed.

Context (keyring : Keyring).

Lemma new_ids_leaves n : leaves (fun db => db) (new_ids n).
Proof. induction n; cbn; leaves_walk. Qed.
Lemma tx_rand_leaves n : leaves (fun db => db) (tx_rand n). Proof. by intros c. Qed.
Lemma GetUser_leaves id : leaves (fun db => db) (GetUser id). Proof. unfold GetUser. leaves_walk. Qed.
Hint Resolve new_ids_leaves tx_rand_leaves GetUser_leaves : leaves.
Lemma commandReplayed_leaves id fp : leaves (fun db => db) (commandReplayed id fp).
Proof. unfold commandReplayed, WithReadTx, FindCommand. leaves_walk. Qed.
Lemma GenerateUserKey_leaves method : leaves (fun db => db) (GenerateUserKey method).
Proof. unfold GenerateUserKey. leaves_walk. Qed.
Lemma Encrypt_leaves k p aad : leaves (fun db => db) (Encrypt k p aad).
Proof. unfold Encrypt. leaves_walk. Qed.
Lemma AssignedPorts_leaves t : leaves (fun db => db) (AssignedPorts t). Proof. unfold AssignedPorts. leaves_walk. Qed.
Lemma GetTemplate_leaves t : leaves (fun db => db) (GetTemplate t). Proof. unfold GetTemplate. leaves_walk. Qed.
Lemma ManagedInstance_leaves : leaves (fun db => db) ManagedInstance. Proof. unfold ManagedInstance. leaves_walk. Qed.
Lemma Settings_leaves : leaves (fun db => db) Settings.
Proof. unfold Settings, WithReadTx, PanelSettings. leaves_walk. Qed.
Hint Resolve commandReplayed_leaves GenerateUserKey_leaves Encrypt_leaves AssignedPorts_leaves GetTemplate_leaves
  ManagedInstance_leaves Settings_leaves : leaves.

(** A reading computation, and what its answer has to do with the tables. *)
Definition yields {A} (P : DB -> A -> Prop) (m : Tx A) : Prop := forall c a c1,
  Constraints (conn_db c) -> m c = (Ok a, c1) -> conn_db c1 = conn_db c /\ P (conn_db c) a.

Lemma yields_bind {A B} (Q : DB -> A -> Prop) (P : DB -> B -> Prop) (m : Tx A) (k : A -> Tx B) :
  yields Q m -> (forall a, yields (fun db b => Q db a -> P db b) (k a)) -> yields P (mbind k m).
Proof.
  intros Hm Hk c b c2 Hc H. tx_step H. destruct (Hm _ _ _ Hc E) as [E1 HQ].
  destruct (Hk a c0 b c2 ltac:(by rewrite E1) H) as [E2 HP]. rewrite E1 in *. auto.
Qed.
Lemma yields_leaves {A} (m : Tx A) : leaves (fun db => db) m -> yields (fun _ _ => True) m.
Proof. intros Hm c a c1 _ H. split; [by apply (leaves_run _ _ _ _ _ Hm H)|done]. Qed.
Lemma yields_lift {A} (r : Res A) : yields (fun _ a => r = Ok a) (tx_lift r).
Proof. intros c a c1 _ [= -> <-]. done. Qed.
Lemma yields_user id : yields (fun db record => snapshot db record) (GetUser id).
Proof.
  intros c a c1 Hc H. split; [by apply (leaves_run _ _ _ _ _ (GetUser_leaves id) H)|by eapply GetUser_snapshot].
Qed.
Lemma yields_fail {A} P e : yields P (tx_fail (A := A) e). Proof. by intros c a c1. Qed.
Lemma yields_ret {A} (P : DB -> A -> Prop) a : (forall db, P db a) -> yields P (mret a).
Proof. intros HP c a' c1 _ [= -> <-]. done. Qed.

Ltac yields_walk :=
  repeat first
    [ match goal with |- forall _, yields _ _ => intro end
    | lazymatch goal with
      | |- yields _ (if ?b then _ else _) => destruct b
      | |- yields _ (let '(_, _) := ?p in _) => destruct p
      | |- yields _ (tx_fail _) => apply yields_fail
      | |- yields _ (mret _) => apply yields_ret
      | |- yields _ (mbind _ (GetUser _)) => eapply yields_bind; [apply yields_user|]
      | |- yields _ (mbind _ (tx_lift _)) => eapply yields_bind; [apply yields_lift|]
      | |- yields _ (mbind _ _) => eapply yields_bind; [apply yields_leaves; solve [leaves_walk]|]
      end ].

Lemma CreateUser_yields input now : yields (fun _ r =>
  exists t settings user k i cr cy op au pau sid key skey port s e,
    r = user_create_record input t settings user k i cr cy op au pau sid key skey port s e now /\
    NewManagedUser (u_ID user) (ci_DisplayName input) now = Ok user) (CreateUser_prepare keyring input now).
Proof.
  unfold CreateUser_prepare. yields_walk. intros. do 16 eexists. split; [done|].
  match goal with H : NewManagedUser _ _ _ = _ |- _ => revert H end.
  unfold NewManagedUser. destruct (NormalizeDisplayName _); [|done]. by intros [= <-].
Qed.

Lemma ChangePort_yields input now : yields (fun db p => forall change, p = inr change ->
  exists record fp op au, snapshot db record /\ change = port_change_record record input fp op au now)
  (ChangePort_prepare input now).
Proof. unfold ChangePort_prepare. yields_walk; intros; simplify_eq; eauto 6. Qed.

Lemma RotateCredential_yields input now : yields (fun db p => forall rotation, p = inr rotation ->
  exists record fp cr op au sealed, snapshot db record /\
    rotation = rotation_record record input fp cr op au sealed now) (RotateCredential_prepare keyring input now).
Proof. unfold RotateCredential_prepare. yields_walk; intros; simplify_eq; eauto 10. Qed.

Lemma DeleteUser_yields input now : yields (fun db p => forall deletion, p = inr deletion ->
  exists record fp op au, snapshot db record /\ deletion = delete_record record input fp op au now)
  (DeleteUser_prepare input now).
Proof. unfold DeleteUser_prepare. yields_walk; intros; simplify_eq; eauto 6. Qed.

(** Preparing and then committing what was prepared. *)
Lemma reach_prepared {A B} (P : DB -> A -> Prop) (m : Tx A) (k : A -> Tx B) c :
  leaves (fun db => db) m -> yields P m -> reachable c ->
  (forall a c1, P (conn_db c1) a -> reachable c1 -> reachable (k a c1).2) -> reachable (mbind k m c).2.
Proof.
  intros Hl Hy Hc Hk. apply reach_read; [done..|]. intros a c1 E Hdb Hr.
  destruct (Hy c a c1 (reachable_constraints c Hc) E) as [_ HP]. apply Hk; [by rewrite Hdb|done].
Qed.

Lemma reach_finish {A B} (m : Tx A) (k : A -> Tx B) c : reachable (m c).2 ->
  (forall a, leaves (fun db => db) (k a)) -> reachable (mbind k m c).2.
Proof. intros Hm Hk. apply reach_bind; [done|]. intros a c1 Hr. by apply reach_same. Qed.

Lemma CreateUser_reachable input now c : reachable c -> reachable (Service_CreateUser keyring input now c).2.
Proof.
  intros Hc. apply (reach_prepared _ (CreateUser_prepare keyring input now) _ _ ltac:(unfold CreateUser_prepare; leaves_walk) (CreateUser_yields input now) Hc).
  intros r c1 (t & st & user & k & i & cr & cy & op & au & pau & sid & key & skey & port & s & e & -> & Hu) Hr.
  apply reach_finish; [apply (reach_step c1 _ Hr); by eapply step_create|]. intros [? ?]. apply leaves_ret.
Qed.

Lemma UpdateUser_reachable input now c : reachable c -> reachable (Service_UpdateUser input now c).2.
Proof.
  intros Hc. apply reach_read; [unfold UpdateUser_prepare; leaves_walk|done|].
  intros [replay|record] c1 _ _ Hr; [by apply reach_same; [apply leaves_ret|]|].
  apply reach_finish; [apply (reach_step c1 _ Hr); apply step_update|]. intros [? ?]. apply leaves_ret.
Qed.

End History.

(** ** On the concrete panel *)
Lemma conn0_reachable : reachable conn0.
Proof. exists [empty_db]. split; [constructor|by left]. Qed.

Lemma conn4_reachable : reachable conn4.
Proof.
  apply (reach_step conn3); [|apply step_validated]. apply (reach_step conn2); [|apply step_template].
  apply (reach_step conn1); [|apply step_admin]. apply (reach_step conn0); [|apply step_singletons].
  apply conn0_reachable.
Qed.

Lemma conn5_reachable : reachable conn5.
Proof. apply CreateUser_reachable, conn4_reachable. Qed.

Lemma intent_follows_truth_table_witness : exists a u r o,
  let db := conn_db conn5 in
  db_allocations db !! alice_allocation = Some a /\ db_users db !! a_UserID a = Some u /\
  db_inbounds db !! alice_allocation = Some r /\ unreleased r = true /\
  db_operations db !! alice_operation = Some o /\ supersedable (op_State o) = true /\
  in_DesiredPresent (ir_Inbound r) = true /\ op_DesiredPresence o = true /\ op_DesiredRevision o = 1.
Proof.
  destruct conn5_reachable as (h & Hh & _).
  eassert (db_allocations (conn_db conn5) !! alice_allocation = Some _) as Ha by (vm_compute; reflexivity).
  eassert (db_users (conn_db conn5) !! alice = Some _) as Hu by (vm_compute; reflexivity).
  eassert (db_inbounds (conn_db conn5) !! alice_allocation = Some _) as Hr by (vm_compute; reflexivity).
  eassert (db_operations (conn_db conn5) !! alice_operation = Some _) as Ho by (vm_compute; reflexivity).
  destruct (intent_follows_truth_table h conn5 Hh _ _ _ Ha Hu) as (H1 & H2 & _).
  destruct (H2 _ _ Ho eq_refl eq_refl) as (H3 & H4 & _).
  do 4 eexists. cbv zeta. split; [exact Ha|]. split; [exact Hu|]. split; [exact Hr|]. split; [reflexivity|].
  split; [exact Ho|]. split; [reflexivity|]. split; [exact (H1 _ Hr eq_refl)|]. split; [exact H4|exact H3].
Defined.

Lemma stale_intent_refused_witness : exists record a, snapshot (conn_db conn5) record /\
  db_allocations (conn_db conn6) !! alice_allocation = Some a /\
  a_DesiredRevision (ur_Allocation record) = 1 /\ a_DesiredRevision a = 2 /\
  exists e c', SoftDeleteUser (delete_record record demo_delete "fp"
    (demo_id 31) (demo_id 32) t0) conn6 = (Err e, c') /\ conn_db c' = conn_db conn6.
Proof.
  destruct conn5_reachable as (h & Hh & Hin).
  assert (history (conn_db conn6 :: h) conn6) as Hh6 by (eapply history_step; [exact Hh|exact Hin|apply step_update]).
  eassert (db_allocations (conn_db conn5) !! alice_allocation = Some _) as H5 by (vm_compute; reflexivity).
  eassert (join_user _ (conn_db conn5) = Some _) as Hj.
  { match type of H5 with _ = Some ?a => instantiate (2 := a) end. vm_compute. reflexivity. }
  eassert (db_allocations (conn_db conn6) !! alice_allocation = Some _) as H6 by (vm_compute; reflexivity).
  assert (db_commands (conn_db conn6) !! li_RequestID demo_delete = None) as Hc by (vm_compute; reflexivity).
  assert (snapshot (conn_db conn5) _) as Hs
    by (match type of H5 with _ = Some ?a => exists a end; split; [exact H5|exact Hj]).
  destruct (stale_intent_refused (conn_db conn6 :: h) conn6 (conn_db conn5) _ _ Hh6 ltac:(by right) Hs H6 ltac:(done))
    as (_ & _ & Hd & _).
  do 2 eexists. split; [exact Hs|]. split; [exact H6|]. split; [reflexivity|]. split; [reflexivity|].
  apply (Hd demo_delete "fp" (demo_id 31) (demo_id 32) t0 Hc).
Defined.

