(* ===== verification/Rows.v ===== *)
(** * What the rows of templates and sessions keep

    The rows of a template and of a session stay, whatever transactions run:
    a template's contract changes only together with its revision, and a
    revoked session stays revoked. So a verdict of the capability gate is only
    ever recorded for the contract that was probed, and no token works again
    after its session was revoked. *)

From Stdlib Require Import ZArith Lia.
From S2P Require Import Prelude GoTypes Identity Ports Text Inbound Tokens User Sync Quota Traffic Template Cycle Records Database Secrets StoreCore StoreSync StoreQuota StoreUsers StoreTraffic StoreDrift StoreTemplates UserService StoreSessions Demo Intent IntentTx IntentSync IntentUser History.

(** ** Transactions that respect an order on the tables *)
Definition respects (R : relation DB) {A} (m : Tx A) : Prop := forall c, R (conn_db c) (conn_db (m c).2).

Section Respects.
Context (R : relation DB) `{!PreOrder R}.

Lemma respects_bind {A B} (m : Tx A) (k : A -> Tx B) : respects R m -> (forall a, respects R (k a)) -> respects R (mbind k m).
Proof.
  intros Hm Hk c. specialize (Hm c). unfold mbind, tx_bind. destruct (m c) as [[a|e] c1]; [|done]. cbn in Hm.
  etransitivity; [exact Hm|apply Hk].
Qed.
Lemma respects_same {A} (m : Tx A) : leaves (fun db => db) m -> respects R m.
Proof. intros Hm c. by rewrite (Hm c). Qed.
Lemma respects_wrap {A} p (m : Tx A) : respects R m -> respects R (tx_wrap p m).
Proof. intros Hm c. specialize (Hm c). unfold tx_wrap. by destruct (m c) as [[?|?] ?]. Qed.
Lemma respects_translate {A} msg (m : Tx A) : respects R m -> respects R (translateConstraint m msg).
Proof.
  intros Hm c. specialize (Hm c). unfold translateConstraint. destruct (m c) as [[?|[]] ?]; try done. by case_match.
Qed.
Lemma respects_on_no_rows {A} e (m : Tx A) : respects R m -> respects R (on_no_rows m e).
Proof. intros Hm c. specialize (Hm c). unfold on_no_rows. destruct (m c) as [[?|[]] ?]; try done. by case_match. Qed.
Lemma respects_tx {A} (fn : Tx A) : respects R fn -> respects R (WithWriteTx fn).
Proof. intros Hm c. specialize (Hm c). unfold WithWriteTx. by destruct (fn c) as [[?|?] ?]. Qed.
Lemma respects_exec f : (forall db, R db (f db)) -> respects R (tx_exec f).
Proof. intros Hf c. unfold tx_exec. destruct (decide _); [apply Hf|done]. Qed.
Lemma respects_insert {K T} `{Countable K} table set (k : K) (r : T) :
  (forall db, table db !! k = None -> R db (set (<[k := r]> (table db)) db)) -> respects R (insert_row table set k r).
Proof.
  intros Hs c. unfold insert_row. destruct (table (conn_db c) !! k) eqn:E; [done|].
  unfold tx_exec. destruct (decide _); [by apply Hs|done].
Qed.
End Respects.

(** Walk through a transaction; [leaf] shows a writing statement to respect
    the order. *)
Ltac respects_walk leaf :=
  repeat first
    [ match goal with |- forall _, _ => intro end
    | solve [eauto with respects]
    | solve [apply respects_same; [apply _|leaves_walk]]
    | apply respects_bind; [apply _|..] | apply respects_tx; [apply _|] | apply respects_wrap
    | apply respects_translate | apply respects_on_no_rows
    | apply respects_exec; [apply _|solve [leaf]]
    | apply respects_insert; [apply _|solve [leaf]]
    | match goal with
      | |- respects _ (if ?b then _ else _) => destruct b
      | |- respects _ (match ?x with _ => _ end) => destruct x
      end ].
Create HintDb respects.

(** ** The order *)
Definition contract_of (t : InboundTemplate) := (t_Method t, t_ListenAddress t, t_Pool t, t_Network t).
Definition later_template (t t' : InboundTemplate) : Prop :=
  t_Revision t <= t_Revision t' /\ (t_Revision t = t_Revision t' -> contract_of t = contract_of t').
Definition later_session (s s' : SessionRow) : Prop :=
  sr_TokenDigest s' = sr_TokenDigest s /\ sr_AdministratorID s' = sr_AdministratorID s /\
  sr_PasswordVersion s' = sr_PasswordVersion s /\ (sr_RevokedAt s <> None -> sr_RevokedAt s' = sr_RevokedAt s).

Definition rows_later {K T} `{Countable K} (later : T -> T -> Prop) (m m' : gmap K T) : Prop :=
  forall k r, m !! k = Some r -> exists r', m' !! k = Some r' /\ later r r'.
Definition rows_evolve (db db' : DB) : Prop :=
  rows_later later_template (db_templates db) (db_templates db') /\
  rows_later later_session (db_sessions db) (db_sessions db').

#[global] Instance later_template_preorder : PreOrder later_template.
Proof.
  split; [intros t; split; [lia|done]|]. intros t t' t'' [H1 H2] [H3 H4]. split; [lia|]. intros E.
  rewrite H2 by lia. apply H4. lia.
Qed.
#[global] Instance later_session_preorder : PreOrder later_session.
Proof.
  split; [by intros s|]. intros s s' s'' (H1 & H2 & H3 & H4) (G1 & G2 & G3 & G4).
  split_and!; [congruence..|]. intros Hs. rewrite <- (H4 Hs). apply G4. by rewrite H4.
Qed.
#[global] Instance rows_later_preorder {K T} `{Countable K} (later : T -> T -> Prop) `{!PreOrder later} :
  PreOrder (rows_later (K := K) later).
Proof.
  split; [intros m k r Hr; by exists r|]. intros m m' m'' H1 H2 k r Hr.
  destruct (H1 k r Hr) as (r' & Hr' & L1). destruct (H2 k r' Hr') as (r'' & Hr'' & L2).
  exists r''. split; [done|]. by transitivity r'.
Qed.
#[global] Instance rows_evolve_preorder : PreOrder rows_evolve.
Proof.
  split; [intros db; by split|]. intros db db' db'' [H1 H2] [H3 H4]. split; by etransitivity.
Qed.

Lemma rows_later_update_at {K T} `{Countable K} (later : T -> T -> Prop) `{!PreOrder later} k cond (f : T -> T) (m : gmap K T) :
  (forall r, cond r = true -> later r (f r)) -> rows_later later m (update_at k cond f m).
Proof.
  intros Hf k' r Hr. rewrite lookup_update_at, Hr. case_decide; [|by exists r]. cbn.
  eexists. split; [done|]. destruct (cond r) eqn:E; [by apply Hf|done].
Qed.
Lemma rows_later_update_rows {K T} `{Countable K} (later : T -> T -> Prop) `{!PreOrder later} cond (f : T -> T) (m : gmap K T) :
  (forall r, cond r = true -> later r (f r)) -> rows_later later m (update_rows cond f m).
Proof.
  intros Hf k r Hr. unfold update_rows. rewrite lookup_fmap, Hr. cbn. eexists. split; [done|].
  destruct (cond r) eqn:E; [by apply Hf|done].
Qed.
Lemma rows_later_insert {K T} `{Countable K} (later : T -> T -> Prop) `{!PreOrder later} k r (m : gmap K T) :
  m !! k = None -> rows_later later m (<[k := r]> m).
Proof. intros Hk k' r' Hr'. exists r'. split; [|done]. rewrite lookup_insert_ne; [done|]. intros ->. congruence. Qed.

(** ** Every transaction *)
Ltac row_later := unfold later_template, later_session, stale_evidence, contract_of; intros; split_and?; cbn; intros; to_prop; try done; try lia; try congruence.
Ltac rows_leaf :=
  intros; repeat case_match; split; cbn; try reflexivity;
  first [ apply rows_later_insert; [apply _|done]
        | apply rows_later_update_at; [apply _|row_later]
        | apply rows_later_update_rows; [apply _|row_later] ].
Ltac rows_walk := respects_walk ltac:(rows_leaf).

Lemma AppendAudit_rows e : respects rows_evolve (AppendAudit e).
Proof. unfold AppendAudit. rows_walk. Qed.
Lemma SaveCommand_rows command : respects rows_evolve (SaveCommand command).
Proof. unfold SaveCommand, FindCommand. rows_walk. Qed.
Lemma commandReplay_rows command : respects rows_evolve (commandReplay command).
Proof. unfold commandReplay, FindCommand. rows_walk. Qed.
#[export] Hint Resolve AppendAudit_rows SaveCommand_rows commandReplay_rows : respects.
Lemma append_all_rows es : respects rows_evolve (append_all es).
Proof. induction es; cbn; rows_walk. Qed.
Lemma insertOperation_rows op : respects rows_evolve (insertOperation op).
Proof. unfold insertOperation, setInboundDesired. rows_walk. Qed.
Lemma supersedeOlder_rows k r now : respects rows_evolve (supersedeOlder k r now).
Proof. unfold supersedeOlder. rows_walk. Qed.
#[export] Hint Resolve append_all_rows insertOperation_rows supersedeOlder_rows : respects.

Lemma insert_events_rows es : respects rows_evolve (insert_events es).
Proof. induction es; cbn; unfold insertContinuityEvent; rows_walk. Qed.
Lemma applyDecision_rows k f d e template now : respects rows_evolve (applyDecision k f d e template now).
Proof. unfold applyDecision. rows_walk. Qed.
#[export] Hint Resolve insert_events_rows applyDecision_rows : respects.

(** The transactions of [step], down to their statements. *)
Ltac unfold_transactions :=
  unfold CreateUser, FindCommand, insert_user_rows, UpdateUser, update_user, readFacts, ResetCycleTraffic,
    RolloverCycle, CommitTrafficBatch, ChangeInboundPort, StoreUsers.RotateCredential, SoftDeleteUser,
    EnqueueReconcile, LeaseDueSync, lease_tx, loadUserByAllocation, RenewSyncLease, ConfirmSync, confirm_credentials,
    destroy_credentials, activate_credential, confirmInboundPresence, releaseInboundPort, RescheduleSync,
    finishLeased, FailSync, RecordObservation, ConfirmInboundPresence, EnqueueDriftRemoval, LeaseDueDriftRemoval,
    RenewDriftRemovalLease, CompleteDriftRemoval, finishDriftRemoval, update_drift, RescheduleDriftRemoval,
    FailDriftRemoval, CreateTemplate, UpdateTemplate, ArchiveTemplate, CompleteTemplateValidation, update_instance,
    RequestRevalidation, AdvanceCapabilityGeneration, InvalidateStaleCapabilityEvidence, MarkInstanceHealthy,
    MarkInstanceUnreachable, UpdateSettings, EnsureSingletons, CreateAdministrator, UpdateAdministratorPassword,
    InsertSession, RevokeSession, RevokeAllSessions, Find, Commit, session_record, upsert_session, Delete,
    Store_AppendAudit, SetTemplateCompatibility.

Section Steps.
Context {Zn : Zones} {En : Entropy} {Un : Unicode} {Ae : Aead} {Sh : Sha256}.

Lemma settle_loop_respects (R : relation DB) `{!PreOrder R} k now : respects R (settle_step k now) -> respects R (settle_loop k now).
Proof.
  intros Hstep c. unfold settle_loop.
  assert (forall s, match settle_turn k now s with inl s' => R (conn_db s.2) (conn_db s'.2)
                    | inr r => R (conn_db s.2) (conn_db r.2) end) as Ht.
  { intros [n c0]. unfold settle_turn. pose proof (Hstep c0) as Hl. cbn [snd fst].
    by destruct (settle_step k now c0) as [[[]|?] ?]. }
  assert (forall s s', R (conn_db c) (conn_db s.2) -> settle_turn k now s = inl s' -> R (conn_db c) (conn_db s'.2)) as Hk.
  { intros s s' Hs E. specialize (Ht s). rewrite E in Ht. by etransitivity. }
  pose proof (run_until_inv (fun s => R (conn_db c) (conn_db s.2)) (settle_turn k now) (settle_fuel k now (conn_db c)) (0, c) Hk) as Hr.
  destruct (run_until _ _ _) as [[n c']|[r c']]; [by apply Hr|]. destruct Hr as (s' & H1 & E); [done|].
  specialize (Ht s'). rewrite E in Ht. by etransitivity.
Qed.
Lemma settle_loop_rows k now : respects rows_evolve (settle_loop k now).
Proof. apply settle_loop_respects; [apply _|]. unfold settle_step. rows_walk. Qed.
#[local] Hint Resolve settle_loop_rows : respects.
Lemma settleCycles_rows k now template audit : respects rows_evolve (settleCycles k now template audit).
Proof. unfold settleCycles, readFacts. rows_walk. Qed.
#[local] Hint Resolve settleCycles_rows : respects.
Lemma commit_updates_rows now result us : respects rows_evolve (commit_updates now result us).
Proof.
  revert result. induction us as [|u us IH]; intros result; cbn [commit_updates]; [rows_walk|].
  unfold commit_update, add_traffic, block_if_exceeded, readFacts. rows_walk.
Qed.
#[local] Hint Resolve commit_updates_rows : respects.

Lemma step_rows old c c' : step old c c' -> rows_evolve (conn_db c) (conn_db c').
Proof.
  intros Hs.
  destruct Hs; try (match goal with |- rows_evolve _ (conn_db (?m _).2) => refine ((_ : respects rows_evolve m) _) end).
  all: try done; unfold_transactions; rows_walk.
Qed.

Lemma history_rows h c : history h c -> forall old, old ∈ h -> rows_evolve old (conn_db c).
Proof.
  induction 1 as [n|h c old c' Hh IH Hin Hs].
  - by intros old ->%list_elem_of_singleton.
  - intros o [->|Ho]%elem_of_cons; [done|]. etransitivity; [by apply IH|by eapply step_rows].
Qed.
End Steps.
