(* ===== verification/AuthLaws.v ===== *)
(** * What authentication promises

    The limit on wrong passwords, the end of a session, and the login of the
    administrator who was set up. *)

From Stdlib Require Import ZArith Lia.
From stdpp Require Import sorting.
From S2P Require Import Prelude GoTypes Identity Text Inbound Template Records Database Secrets Password StoreCore UserService AuthService Demo.

(** ** Lists of failures *)
Lemma prune_prune l n n' : n <= n' -> prune (prune l n) n' = prune l n'.
Proof.
  intros Hn. induction l as [|v l IH]; [done|]. cbn [prune]. unfold Before in *. destruct (Z.ltb_spec v (n - window)).
  - rewrite IH. destruct (Z.ltb_spec v (n' - window)); [done|lia].
  - done.
Qed.
Lemma prune_app l x n : prune (l ++ x) n = match prune l n with [] => prune x n | l' => l' ++ x end.
Proof. induction l as [|v l IH]; [done|]. cbn. by destruct (Before _ _). Qed.
Lemma prune_filter P l n : (forall v, P v = true -> n - window <= v) -> List.filter P (prune l n) = List.filter P l.
Proof.
  intros HP. induction l as [|v l IH]; [done|]. cbn [prune]. unfold Before in *. destruct (Z.ltb_spec v (n - window)); [|done].
  rewrite IH. cbn. destruct (P v) eqn:E; [|done]. specialize (HP v E). lia.
Qed.

(** Lists that count the same failures from [n] on. *)
Definition alike (n : Time) (l l' : list Time) : Prop := forall now, n <= now -> prune l now = prune l' now.
Lemma alike_prune n now l l' : alike n l l' -> n <= now -> alike now (prune l now) l'.
Proof. intros Hl Hn now' Hn'. rewrite prune_prune by done. apply Hl. lia. Qed.
Lemma alike_snoc n l l' t : alike n l l' -> alike n (l ++ [t]) (l' ++ [t]).
Proof. intros Hl now Hn. by rewrite !prune_app, (Hl now Hn). Qed.
Lemma alike_later n n' l l' : alike n l l' -> n <= n' -> alike n' l l'.
Proof. intros Hl Hn now Hn'. apply Hl. lia. Qed.

(** ** The log of answers *)

(** When a name and source got which answer. *)
Record Guess := mkGuess { gu_time : Time; gu_key : string; gu_right : bool }.
Definition wrong (g : Guess) : bool := negb (gu_right g).
Definition wrong_for (key : string) (g : Guess) : bool := bool_decide (gu_key g = key) && wrong g.
Definition right_for (key : string) (g : Guess) : bool := bool_decide (gu_key g = key) && gu_right g.
Definition failures (log : list Guess) : list Time := gu_time <$> List.filter wrong log.
Fixpoint since_success (key : string) (acc : list Time) (log : list Guess) : list Time :=
  match log with
  | [] => acc
  | g :: log =>
      since_success key (if right_for key g then [] else if wrong_for key g then acc ++ [gu_time g] else acc) log
  end.

Lemma failures_snoc log g : failures (log ++ [g]) = failures log ++ (if wrong g then [gu_time g] else []).
Proof. unfold failures. rewrite List.filter_app, fmap_app. cbn. by destruct (wrong g). Qed.
Lemma since_success_app key acc l l' : since_success key acc (l ++ l') = since_success key (since_success key acc l) l'.
Proof. revert acc. induction l as [|g l IH]; intros acc; [done|]. apply IH. Qed.
Lemma since_success_wrong key acc log : Forall (fun g => right_for key g = false) log ->
  since_success key acc log = acc ++ (gu_time <$> List.filter (wrong_for key) log).
Proof.
  intros Hl. revert acc. induction Hl as [|g log Hg Hl IH]; intros acc; cbn; [by rewrite app_nil_r|].
  rewrite Hg, IH. destruct (wrong_for key g); cbn; [by rewrite <- app_assoc|done].
Qed.

(** Every wrong answer was given below the limits. *)
Inductive in_limits : list Guess -> Prop :=
| in_limits_none : in_limits []
| in_limits_guess log g : in_limits log ->
    (wrong g = true -> (length (prune (failures log) (gu_time g)) < 20)%nat /\
       (length (prune (since_success (gu_key g) [] log) (gu_time g)) < 5)%nat) ->
    in_limits (log ++ [g]).

Lemma in_limits_snoc log g : in_limits (log ++ [g]) -> in_limits log /\
  (wrong g = true -> (length (prune (failures log) (gu_time g)) < 20)%nat /\
     (length (prune (since_success (gu_key g) [] log) (gu_time g)) < 5)%nat).
Proof. inversion 1 as [E|log' g' Hl Hg E]; [by destruct log|]. by apply app_inj_tail in E as [-> ->]. Qed.
Lemma in_limits_prefix p q : in_limits (p ++ q) -> in_limits p.
Proof.
  induction q as [|g q IH] using rev_ind; [by rewrite app_nil_r|]. rewrite app_assoc. intros [H _]%in_limits_snoc. by apply IH.
Qed.

(** In a quarter of an hour from [T] on. *)
Definition within (T : Time) (t : Time) : bool := (T <=? t) && (t <=? T + window).
Definition count_within (T : Time) (f : Guess -> bool) (log : list Guess) : nat :=
  length (List.filter (fun g => f g && within T (gu_time g)) log).

Lemma count_times T f log : count_within T f log = length (List.filter (within T) (gu_time <$> List.filter f log)).
Proof.
  unfold count_within. induction log as [|g log IH]; [done|]. cbn. destruct (f g); cbn; [|done].
  by destruct (within T (gu_time g)); cbn; rewrite IH.
Qed.
Lemma count_snoc T f log g : count_within T f (log ++ [g]) =
  (count_within T f log + (if f g && within T (gu_time g) then 1 else 0))%nat.
Proof. unfold count_within. rewrite List.filter_app, length_app. cbn. by destruct (f g && within T (gu_time g)). Qed.
(** What was counted in the window is still on the list at its end. *)
Lemma count_pruned T t l : within T t = true -> (length (List.filter (within T) l) <= length (prune l t))%nat.
Proof.
  intros [H1 H2]%andb_prop. rewrite <- (prune_filter (within T) l t); [apply List.filter_length_le|].
  intros v [Hv _]%andb_prop. to_prop. lia.
Qed.

Lemma in_limits_global T log : in_limits log -> (count_within T wrong log <= 20)%nat.
Proof.
  induction 1 as [|log g Hl IH Hg]; [cbn; lia|]. rewrite count_snoc. destruct (wrong g) eqn:E; cbn [andb]; [|lia].
  destruct (within T (gu_time g)) eqn:Ew; [|lia]. destruct (Hg eq_refl) as [H20 _].
  pose proof (count_pruned T (gu_time g) (failures log) Ew) as Hp. unfold failures in *. rewrite <- count_times in Hp. lia.
Qed.
Lemma in_limits_source T key p m : in_limits (p ++ m) -> Forall (fun g => right_for key g = false) m ->
  (count_within T (wrong_for key) m <= 5)%nat.
Proof.
  induction m as [|g m IH] using rev_ind; intros Ha Hm; [cbn; lia|].
  rewrite app_assoc in Ha. apply in_limits_snoc in Ha as [Ha Hg]. apply Forall_app in Hm as [Hm Hr].
  specialize (IH Ha Hm). rewrite count_snoc. destruct (wrong_for key g) eqn:E; cbn [andb]; [|lia].
  destruct (within T (gu_time g)) eqn:Ew; [|lia].
  unfold wrong_for in E. apply andb_prop in E as [Ek E]. apply bool_decide_eq_true in Ek as <-. destruct (Hg E) as [_ H5].
  rewrite since_success_app, since_success_wrong in H5 by done.
  pose proof (count_pruned T _ (since_success (gu_key g) [] p ++ (gu_time <$> List.filter (wrong_for (gu_key g)) m)) Ew) as Hp.
  rewrite List.filter_app, length_app, <- count_times in Hp. lia.
Qed.

(** ** The guard keeps the log *)
Record guard_of (n : Time) (log : list Guess) (g : Guard) : Prop := {
  go_global : alike n (global g) (failures log);
  go_source : forall key, alike n (of_source key g) (since_success key [] log) }.

Lemma of_source_insert key key' l m all : of_source key (mkGuard (<[key' := l]> m) all) =
  if decide (key = key') then l else of_source key (mkGuard m all).
Proof. unfold of_source. cbn. case_decide as E; [by subst; rewrite lookup_insert_eq|by rewrite lookup_insert_ne]. Qed.
Lemma of_source_delete key key' m all : of_source key (mkGuard (delete key' m) all) =
  if decide (key = key') then [] else of_source key (mkGuard m all).
Proof. unfold of_source. cbn. case_decide as E; [by subst; rewrite lookup_delete_eq|by rewrite lookup_delete_ne]. Qed.
Lemma of_source_map key m all all' : of_source key (mkGuard m all) = of_source key (mkGuard m all').
Proof. done. Qed.

Lemma guard_later n n' log g : guard_of n log g -> n <= n' -> guard_of n' log g.
Proof. intros [H1 H2] Hn. split; [|intros key]; eapply alike_later; eauto. Qed.

Lemma limited_guard n log g key now : guard_of n log g -> n <= now ->
  guard_of now log (limited key now g).2 /\
  ((limited key now g).1 = None -> (length (prune (failures log) now) < 20)%nat /\
     (length (prune (since_success key [] log) now) < 5)%nat).
Proof.
  intros [H1 H2] Hn. unfold limited.
  assert (guard_of now log (mkGuard (<[key := prune (of_source key g) now]> (bySource g)) (prune (global g) now))) as Hg.
  { split; [by apply (alike_prune n)|]. intros key'. rewrite of_source_insert. case_decide as E; [subst|].
    - exact (alike_prune n now _ _ (H2 _) Hn).
    - exact (alike_later n now _ _ (H2 _) Hn). }
  destruct (Z.leb_spec 5 (Z.of_nat (length (prune (of_source key g) now)))) as [?|H5]; [done|].
  destruct (Z.leb_spec 20 (Z.of_nat (length (prune (global g) now)))) as [?|H20]; [done|].
  split; [done|]. intros _. rewrite <- (H1 now), <- (H2 key now) by done. lia.
Qed.

Lemma recordFailure_guard n log g key now : guard_of n log g -> n <= now ->
  guard_of now (log ++ [mkGuess now key false]) (recordFailure key now g).2.
Proof.
  intros [H1 H2] Hn. split; cbn [recordFailure snd global].
  - rewrite failures_snoc. by apply alike_snoc, (alike_prune n).
  - intros key'. rewrite of_source_insert, since_success_app. cbn. unfold right_for, wrong_for. cbn.
    rewrite andb_false_r, andb_true_r. case_decide as E; [subst|].
    + rewrite bool_decide_eq_true_2 by done. apply alike_snoc, (alike_prune n now _ _ (H2 _) Hn).
    + rewrite bool_decide_eq_false_2 by done. exact (alike_later n now _ _ (H2 _) Hn).
Qed.
Lemma clearFailures_guard n log g key now : guard_of n log g -> n <= now ->
  guard_of now (log ++ [mkGuess now key true]) (clearFailures key now g).
Proof.
  intros [H1 H2] Hn. split; cbn [clearFailures global].
  - rewrite failures_snoc. cbn. rewrite app_nil_r. by apply (alike_prune n).
  - intros key'. unfold clearFailures. rewrite of_source_delete, since_success_app. cbn. unfold right_for, wrong_for. cbn.
    rewrite andb_true_r, andb_false_r. case_decide as E; [subst|].
    + by rewrite bool_decide_eq_true_2.
    + rewrite bool_decide_eq_false_2 by done. exact (alike_later n now _ _ (H2 _) Hn).
Qed.

(** Requests that run at the same time are all let through to the comparison:
    the limit is looked up before it, and the failure recorded after it. *)
Fixpoint lookups (n : nat) (key : string) (now : Time) (g : Guard) : list (option Duration) :=
  match n with O => [] | S n => let '(retry, g) := limited key now g in retry :: lookups n key now g end.
Lemma concurrent_attempts_pass n key now g : (limited key now g).1 = None -> lookups n key now g = repeat None n.
Proof.
  revert g. induction n as [|n IH]; intros g Hg; [done|]. cbn [lookups repeat].
  destruct (limited key now g) as [retry g'] eqn:E. cbn in Hg. subst retry. f_equal. apply IH.
  unfold limited in E. destruct (5 <=? _) eqn:H5 in E; [done|]. destruct (20 <=? _) eqn:H20 in E; [done|]. injection E as <-.
  unfold limited. rewrite of_source_insert, decide_True by done. cbn [global].
  rewrite !prune_prune by done. by rewrite H5, H20.
Qed.

(** ** Attempts *)
Definition answer_of_guess (e : error) : bool :=
  match e with
  | RateLimitError _ => true
  | PlainError message => bool_decide (message = "invalid username or password")
  | _ => false
  end.

(** Errors that tell nothing about the password. *)
Definition silent {A} (r : Res A) : Prop := match r with Err e => answer_of_guess e = false | Ok _ => True end.
Lemma silent_NewID raw : silent (NewID raw).
Proof. by destruct raw. Qed.
Lemma silent_AppendAudit e c : silent (AppendAudit e c).1.
Proof. unfold AppendAudit, insert_row. destruct (db_audits _ !! _); [done|]. unfold tx_exec. by destruct (decide _). Qed.
Lemma silent_tx {A} (fn : Tx A) c : silent (fn c).1 -> silent (WithWriteTx fn c).1.
Proof. unfold WithWriteTx. by destruct (fn c) as [[a|e] c']. Qed.
Lemma silent_parameters items p : silent (parse_parameters items p).
Proof. revert p. induction items as [|item items IH]; intros p; cbn [parse_parameters]; [done|]. repeat case_match; try done; apply IH. Qed.

(** One request for a login, with the tables it finds. *)
Record Attempt := mkAttempt {
  at_now : Time; at_later : Time; at_username : string; at_password : string; at_source : string; at_conn : Conn }.

Section Attempts.
Context {En : Entropy} {Un : Unicode} {Fo : Folding} {Ar : Argon2} (s : AuthService).

Lemma silent_failure summary later c : silent (RecordLoginFailure summary later c).1.
Proof.
  unfold RecordLoginFailure, NewID_tx, mbind, tx_bind. pose proof (silent_NewID (rand_read (conn_rand c) 16)) as H.
  destruct (NewID _) as [id|e]; [|done]. apply silent_tx. apply silent_AppendAudit.
Qed.
Lemma silent_compare encoded password : silent (ComparePassword encoded password).
Proof.
  unfold ComparePassword. destruct (Split encoded "$") as [|? [|name [|version [|parameters [|salt [|value []]]]]]]; try done.
  destruct (_ || _); [done|]. pose proof (silent_parameters (Split parameters ",") (mkArgon 0 0 0)) as H.
  unfold mbind, result_bind. destruct (parse_parameters _ _) as [p|e]; [|done]. cbn [rbind]. repeat case_match; done.
Qed.

(** What an attempt told about a password: nothing when it was stopped
    before the comparison or ended in another error. *)
Definition tells (retry : option Duration) (r : Res AdministratorRecord) : option bool :=
  match retry, r with
  | None, Ok _ => Some true
  | None, Err e => if answer_of_guess e then Some false else None
  | Some _, _ => None
  end.

(** The attempts one after the other, each on the tables of its time. *)
Fixpoint guesses (g : Guard) (attempts : list Attempt) : list Guess :=
  match attempts with
  | [] => []
  | a :: attempts =>
      let key := source_key (at_username a) (at_source a) in
      let '(r, (g', _)) :=
        Authenticate s (at_username a) (at_password a) (at_source a) (at_now a) (at_later a) (g, at_conn a) in
      match tells (limited key (at_now a) g).1 r with
      | Some was_right => mkGuess (at_now a) key was_right :: guesses g' attempts
      | None => guesses g' attempts
      end
  end.

Lemma Authenticate_guard n log g a : guard_of n log g -> n <= at_now a -> in_limits log ->
  let key := source_key (at_username a) (at_source a) in
  let '(r, (g', _)) :=
    Authenticate s (at_username a) (at_password a) (at_source a) (at_now a) (at_later a) (g, at_conn a) in
  let log' := match tells (limited key (at_now a) g).1 r with
              | Some was_right => log ++ [mkGuess (at_now a) key was_right]
              | None => log
              end in
  guard_of (at_now a) log' g' /\ in_limits log'.
Proof.
  intros Hg Hn Ha key. destruct (limited_guard n log g key (at_now a) Hg Hn) as [Hg' Hlim].
  unfold Authenticate. fold key. unfold mbind, auth_bind, on_guard at 1.
  destruct (limited key (at_now a) g) as [[retry|] g1]; cbn [fst snd] in *.
  { unfold in_store. destruct (RecordLoginFailure _ _ _) as [[[]|e] c1]; by split. }
  assert (forall b, in_limits (log ++ [mkGuess (at_now a) key b])) as Hadm by (intros b; apply in_limits_guess; [done|intros _; by apply Hlim]).
  assert (forall c, let '(r, (g', _)) := refuse (A := AdministratorRecord) key (at_now a) (at_later a) (g1, c) in
    guard_of (at_now a) (match tells None r with Some was_right => log ++ [mkGuess (at_now a) key was_right] | None => log end) g' /\
    in_limits (match tells None r with Some was_right => log ++ [mkGuess (at_now a) key was_right] | None => log end)) as Href.
  { intros c. unfold refuse, mbind, auth_bind, in_store.
    pose proof (silent_failure "login failed: invalid credentials" (at_later a) c) as Hs.
    destruct (RecordLoginFailure _ _ c) as [[[]|e] c1]; [|by cbn in *; rewrite Hs]. unfold on_guard.
    pose proof (recordFailure_guard (at_now a) log g1 key (at_now a) Hg' ltac:(lia)) as Hr.
    destruct (recordFailure key (at_now a) g1) as [[retry|] g2]; (split; [exact Hr|exact (Hadm false)]). }
  cbn [in_store]. change (WithReadTx Administrator (at_conn a)) with (@Ok error _ (find_row every (db_administrators (conn_db (at_conn a)))), at_conn a).
  cbv iota. destruct (hash_for s (at_username a) _) as [hash matched].
  pose proof (silent_compare hash (at_password a)) as Hc. unfold auth_lift at 1.
  destruct (ComparePassword hash (at_password a)) as [ok|e]; [|by cbn in *; rewrite Hc].
  destruct (find_row _ _) as [admin|]; [|apply Href]. destruct (matched && ok); [|apply Href].
  cbn. split; [|done]. by apply (clearFailures_guard (at_now a)).
Qed.
Definition earlier (a b : Attempt) : Prop := at_now a <= at_now b.
Lemma guesses_in_limits attempts n log g : guard_of n log g -> in_limits log -> StronglySorted earlier attempts ->
  Forall (fun a => n <= at_now a) attempts -> in_limits (log ++ guesses g attempts).
Proof.
  revert n log g. induction attempts as [|a attempts IH]; intros n log g Hg Ha Hs Hn; cbn [guesses]; [by rewrite app_nil_r|].
  apply Forall_cons in Hn as [Hn _]. apply StronglySorted_inv in Hs as [Hs Hlater].
  pose proof (Authenticate_guard n log g a Hg Hn Ha) as H. cbv zeta in H |- *.
  destruct (Authenticate _ _ _ _ _ _ _) as [r [g' c']]. destruct H as [Hg' Ha'].
  destruct (tells _ r); [|by eapply IH]. rewrite cons_middle, app_assoc. by eapply IH.
Qed.


End Attempts.

(** ** Logging in with what was set up *)
Section LoggingIn.
Context {En : Entropy} {Un : Unicode} {Fo : Folding} {Ar : Argon2} {Aok : Argon2Ok} {Ef : EntropyFull}.

(** The only administrator, whose hash was made for the password. *)
Definition opens_with (password : string) (id : ID) (admin : AdministratorRecord) (db : DB) : Prop :=
  db_administrators db = {[id := admin]} /\ ad_ID admin = id /\
  exists c c', HashPassword password c = (Ok (ad_PasswordHash admin), c').

Lemma only_row {R} (k : ID) (r : R) : find_row every {[k := r]} = Some r.
Proof. unfold find_row, select. by rewrite map_to_list_singleton. Qed.
Lemma no_row {R} (m : gmap ID R) : find_row every m = None -> m = ∅.
Proof.
  intros Hn. apply map_eq. intros k. rewrite lookup_empty. destruct (m !! k) as [r|] eqn:E; [|done].
  by apply (find_row_none every m k r) in Hn.
Qed.

Lemma Authenticate_opens s g c password id admin name source now later : opens_with password id admin (conn_db c) ->
  NormalizeUsername name = Ok (ad_Username admin) -> (limited (source_key name source) now g).1 = None ->
  exists g', Authenticate s name password source now later (g, c) = (Ok admin, (g', c)) /\
    of_source (source_key name source) g' = [].
Proof.
  intros (Hdb & Hid & c0 & c0' & Hh) Hname Hl. unfold Authenticate, mbind, auth_bind, on_guard at 1.
  destruct (limited _ now g) as [retry g1]. cbn in Hl. subst retry.
  cbn [in_store]. change (WithReadTx Administrator c) with (@Ok error _ (find_row every (db_administrators (conn_db c))), c).
  cbv iota. rewrite Hdb, only_row. unfold hash_for. rewrite Hname, bool_decide_eq_true_2 by done.
  unfold auth_lift at 1. rewrite (ComparePassword_HashPassword _ _ _ _ Hh). cbn [andb].
  eexists. split; [reflexivity|]. unfold clearFailures. by rewrite of_source_delete, decide_True.
Qed.

Lemma refuse_refuses {A} key now later s (a : A) s' : refuse key now later s = (Ok a, s') -> False.
Proof.
  unfold refuse, mbind, auth_bind, in_store. destruct s as [g c]. destruct (RecordLoginFailure _ _ c) as [[?|?] ?]; [|done].
  unfold on_guard. by destruct (recordFailure _ _ _).
Qed.
Lemma Authenticate_is_administrator s g c password name source now later r s' :
  Authenticate s name password source now later (g, c) = (Ok r, s') ->
  NormalizeUsername name = Ok (ad_Username r) /\ find_row every (db_administrators (conn_db c)) = Some r.
Proof.
  unfold Authenticate, mbind, auth_bind, on_guard at 1. destruct (limited _ now g) as [[retry|] g1].
  { unfold in_store. by destruct (RecordLoginFailure _ _ c) as [[?|?] ?]. }
  cbn [in_store]. change (WithReadTx Administrator c) with (@Ok error _ (find_row every (db_administrators (conn_db c))), c).
  cbv iota. destruct (hash_for s name _) as [hash matched] eqn:Eh. unfold auth_lift at 1.
  destruct (ComparePassword _ _) as [ok|]; [|done].
  destruct (find_row _ _) as [admin|]; [|by intros ?%refuse_refuses].
  destruct (matched && ok) eqn:E; [|by intros ?%refuse_refuses]. apply andb_prop in E as [-> _].
  cbn. intros [= <- <-]. split; [|done]. unfold hash_for in Eh. destruct (NormalizeUsername name) as [u|]; [|done].
  case_bool_decide; [by subst|done].
Qed.

Lemma InitializeAdministrator_opens username password now c id c1 :
  InitializeAdministrator username password now c = (Ok id, c1) -> exists admin, opens_with password id admin (conn_db c1) /\
    NormalizeUsername username = Ok (ad_Username admin) /\ ad_PasswordVersion admin = 1.
Proof.
  intros H. tx_step H. tx_step H. tx_step H. tx_step H. tx_step H. apply WithWriteTx_ok in H.
  assert (NormalizeUsername username = Ok a) as Hname by (unfold tx_lift, as_field in E; destruct (NormalizeUsername _); congruence).
  tx_step H. apply tx_read_ok in E4 as [Hnone ->]. destruct a4; [done|]. symmetry in Hnone. apply no_row in Hnone.
  tx_step H. apply insert_row_ok in E4 as (_ & Hdb & _). tx_step H. apply insert_row_ok in E4 as (_ & Hdb' & _).
  apply tx_ret_ok in H as [-> ->]. exists (mkAdministrator a2 a a1 1 (ms now) (ms now)).
  split; [|done]. split; [|split; [done|by exists c2, c3]].
  rewrite Hdb'. cbn [db_administrators]. rewrite Hdb. cbn. rewrite Hnone. apply insert_empty.
Qed.

Lemma HashPassword_same password c r c' : HashPassword password c = (r, c') -> conn_db c' = conn_db c.
Proof. unfold HashPassword, mbind, tx_bind, tx_rand. by destruct (rand_read _ _); intros [= _ <-]. Qed.
Lemma ResetPassword_opens password id admin now c c1 : db_administrators (conn_db c) = {[id := admin]} -> ad_ID admin = id ->
  ResetPassword password now c = (Ok tt, c1) -> exists admin', opens_with password id admin' (conn_db c1) /\
    ad_Username admin' = ad_Username admin /\ ad_PasswordVersion admin' = ad_PasswordVersion admin + 1.
Proof.
  intros Hdb Hid H. unfold ResetPassword in H. tx_step H.
  change (WithReadTx Administrator c) with (@Ok error _ (find_row every (db_administrators (conn_db c))), c) in E.
  rewrite Hdb, only_row in E. injection E as <- <-. tx_step H. tx_step H. tx_step H. apply WithWriteTx_ok in H.
  pose proof (HashPassword_same _ _ _ _ E0) as H2. injection E as _ <-.
  assert (conn_db c3 = conn_db c2) as H3 by (by injection E1 as _ <-).
  unfold UpdateAdministratorPassword in H. do 2 tx_step H. tx_step E. tx_step E. apply tx_exec_ok in E4 as (H4 & _ & _).
  apply tx_read_ok in E3 as [-> ->]. destruct (_ =? 1); [|done]. apply tx_ret_ok in E as [_ ->].
  apply tx_exec_ok in E2 as (H5 & _ & _). apply insert_row_ok in H as (_ & H6 & _).
  exists (admin <| ad_PasswordHash := a0 |> <| ad_PasswordVersion := ad_PasswordVersion admin + 1 |> <| ad_UpdatedAt := ms now |>).
  split; [|done]. split; [|split; [done|by exists c, c2]].
  rewrite H6. cbn [db_administrators]. rewrite H5. cbn [db_administrators]. rewrite H4. cbn [db_administrators].
  rewrite H3, H2, Hdb, Hid. unfold update_at. rewrite lookup_singleton_eq. cbn. by rewrite insert_singleton_eq.
Qed.

(** With the administrators [admins] in the store, the password logs the
    administrator in, under every spelling of the name and from every source
    that is not limited, and its failures are forgotten. *)
Definition logs_in (s : AuthService) (username password : string) (admin : AdministratorRecord)
    (admins : gmap ID AdministratorRecord) : Prop :=
  forall g c name source now later, db_administrators (conn_db c) = admins ->
    NormalizeUsername name = NormalizeUsername username -> (limited (source_key name source) now g).1 = None ->
    exists g', Authenticate s name password source now later (g, c) = (Ok admin, (g', c)) /\
      of_source (source_key name source) g' = [].

Lemma opens_logs_in s username password id admin db : opens_with password id admin db ->
  NormalizeUsername username = Ok (ad_Username admin) -> logs_in s username password admin (db_administrators db).
Proof.
  intros (H1 & H2 & H3) Hu g c name source now later Hc Hname Hl.
  apply (Authenticate_opens s g c password id); [|by rewrite Hname|done]. split; [congruence|done].
Qed.
Lemma SessionValid_only id admin version c : db_administrators (conn_db c) = {[id := admin]} -> ad_ID admin = id ->
  (SessionValid id version c).1 = Ok (ad_PasswordVersion admin =? version).
Proof.
  intros Hdb Hid. unfold SessionValid, mbind, tx_bind.
  change (WithReadTx Administrator c) with (@Ok error _ (find_row every (db_administrators (conn_db c))), c).
  rewrite Hdb, only_row. cbn. by rewrite bool_decide_eq_true_2.
Qed.

End LoggingIn.

(** ** A panel to log in to *)

(** A password that hashes to itself, cut or padded. *)
Definition plain_argon : Argon2 := fun password salt t m p n => take (Z.to_nat n) (bytes_of password ++ repeat 0 (Z.to_nat n)).
Definition ascii_folding : Folding := fun r => r.
#[export] Existing Instances plain_argon ascii_folding.
#[export] Instance plain_argon_ok : Argon2Ok.
Proof.
  intros password salt t m p n Hn. unfold argon_key, plain_argon. split.
  - rewrite length_take, length_app, repeat_length. lia.
  - apply Forall_take, Forall_app. split; [apply bytes_of_bytes|]. apply Forall_forall.
    intros b ->%list_elem_of_In%repeat_spec. by unfold is_byte.
Qed.
#[export] Instance demo_bytes_full : EntropyFull.
Proof.
  intros n size bytes [= <-]. split; [rewrite length_fmap, length_seqZ; lia|]. apply Forall_fmap, Forall_forall.
  intros b _. unfold compose, is_byte. pose proof (Z.mod_pos_bound (7 * Z.of_nat n + b) 256). lia.
Qed.

Definition demo_auth : AuthService := mkAuthService "".
Definition administered : Res ID * Conn := InitializeAdministrator " Admin" "correct horse battery" t0 conn1.
Definition admin_id : ID := Eval vm_compute in match administered.1 with Ok id => id | Err _ => "" end.
Definition try_at (seconds : Z) (password : string) : Attempt :=
  mkAttempt (t0 + seconds * Second) (t0 + seconds * Second) "admin" password "10.0.0.1" administered.2.
(** Seven wrong passwords in a row, the right one, and after a quarter of an
    hour the right one again. *)
Definition demo_attempts : list Attempt :=
  ((fun n => try_at n "wrong") <$> seqZ 1 7) ++ [try_at 8 "correct horse battery"; try_at 905 "correct horse battery"].

