(* ===== verification/SessionLaws.v ===== *)
(** * Sessions end for good

    Every transaction of the authentication service passes through states of a
    history, and a session that was ended, by logging out, by revoking all or
    by a reset of the password, is not found again in any later state. *)

From Stdlib Require Import ZArith Lia.
From S2P Require Import Prelude GoTypes Identity Ports Text Inbound Tokens User Sync Quota Traffic Template Cycle Records Database Secrets Password StoreCore StoreSync StoreQuota StoreUsers StoreTraffic StoreDrift StoreTemplates UserService StoreSessions AuthService Demo Intent IntentTx IntentSync IntentUser History Rows AuthLaws.

Section Sessions.
Context {Zn : Zones} {En : Entropy} {Un : Unicode} {Fo : Folding} {Ar : Argon2} {Sh : Sha256}.

(** ** Transactions made of steps *)
Definition stepwise {A} (m : Tx A) : Prop := forall h c, history h c -> exists h', h ⊆ h' /\ history h' (m c).2.

Lemma history_redraw h c c' : history h c -> conn_db c' = conn_db c -> history (conn_db c' :: h) c'.
Proof.
  intros Hh E. pose proof (history_step h c _ _ Hh (history_now h c Hh) (step_draw _ c (conn_rand c'))) as H.
  destruct c as [db n], c' as [db' n']. cbn in *. by subst.
Qed.
Lemma stepwise_bind {A B} (m : Tx A) (k : A -> Tx B) : stepwise m -> (forall a, stepwise (k a)) -> stepwise (mbind k m).
Proof.
  intros Hm Hk h c Hh. destruct (Hm h c Hh) as (h1 & Hs & H1). unfold mbind, tx_bind.
  destruct (m c) as [[a|e] c1]; [|by exists h1]. destruct (Hk a h1 c1 H1) as (h2 & Hs2 & H2). exists h2. split; [set_solver|done].
Qed.
Lemma stepwise_same {A} (m : Tx A) : leaves (fun db => db) m -> stepwise m.
Proof.
  intros Hm h c Hh. exists (conn_db (m c).2 :: h). split; [set_solver|]. apply (history_redraw h c); [done|apply Hm].
Qed.
Lemma stepwise_tx {A} (m : Tx A) : stepwise m -> stepwise (WithWriteTx m).
Proof.
  intros Hm h c Hh. destruct (Hm h c Hh) as (h1 & Hs & H1). unfold WithWriteTx.
  destruct (m c) as [[a|e] c1]; [by exists h1|]. exists (conn_db c :: h). split; [set_solver|].
  exact (history_redraw h c (mkConn (conn_db c) (conn_rand c1)) Hh eq_refl).
Qed.
Lemma stepwise_step {A} (m : Tx A) : (forall c, step (conn_db c) c (m c).2) -> stepwise m.
Proof.
  intros Hm h c Hh. exists (conn_db (m c).2 :: h). split; [set_solver|].
  apply (history_step h c (conn_db c) _ Hh); [by apply history_now|apply Hm].
Qed.
Lemma stepwise_audit e : stepwise (AppendAudit e).
Proof.
  intros h c Hh. pose proof (stepwise_step (Store_AppendAudit e) (fun c => step_audit _ c e) h c Hh) as H.
  unfold Store_AppendAudit, WithWriteTx in H. destruct (AppendAudit e c) as [[a|er] c1] eqn:E; [done|].
  exists (conn_db c1 :: h). split; [set_solver|]. apply (history_redraw h c); [done|].
  revert E. unfold AppendAudit, insert_row, tx_exec. repeat case_match; by intros [= _ <-].
Qed.
Lemma stepwise_NewID : stepwise NewID_tx. Proof. by apply stepwise_same. Qed.
Lemma stepwise_HashPassword password : stepwise (HashPassword password).
Proof. apply stepwise_same. intros c. destruct (HashPassword password c) eqn:E. by eapply HashPassword_same. Qed.
Lemma stepwise_Administrator : stepwise Administrator. Proof. by apply stepwise_same. Qed.
Lemma stepwise_lift {A} (r : Res A) : stepwise (tx_lift r). Proof. by apply stepwise_same. Qed.
Lemma stepwise_ret {A} (a : A) : stepwise (mret a). Proof. by apply stepwise_same. Qed.
Lemma stepwise_fail {A} e : stepwise (tx_fail (A := A) e). Proof. by apply stepwise_same. Qed.
Lemma stepwise_insert record : stepwise (InsertSession record).
Proof. apply stepwise_step. intros c. apply step_session. Qed.
Lemma stepwise_revoke digest now : stepwise (RevokeSession digest now).
Proof. apply stepwise_step. intros c. apply step_revoke. Qed.
Lemma stepwise_revoke_all id now : stepwise (RevokeAllSessions id now).
Proof. apply stepwise_step. intros c. apply step_revoke_all. Qed.
Lemma stepwise_administrator admin : stepwise (CreateAdministrator admin).
Proof. apply stepwise_step. intros c. apply step_admin. Qed.
Lemma stepwise_password id hash version now : stepwise (UpdateAdministratorPassword id hash version now).
Proof. apply stepwise_step. intros c. apply step_password. Qed.
End Sessions.

Create HintDb stepwise.
#[export] Hint Resolve stepwise_audit stepwise_NewID stepwise_HashPassword stepwise_Administrator stepwise_lift stepwise_ret
  stepwise_fail stepwise_insert stepwise_revoke stepwise_revoke_all stepwise_administrator stepwise_password : stepwise.
Ltac stepwise_walk :=
  repeat first
    [ match goal with |- forall _, _ => intro end
    | solve [eauto with stepwise]
    | apply stepwise_bind | apply stepwise_tx
    | match goal with
      | |- stepwise (if ?b then _ else _) => destruct b
      | |- stepwise (match ?x with _ => _ end) => destruct x
      end ].

(** ** The methods of the service *)
Section Methods.
Context {Zn : Zones} {En : Entropy} {Un : Unicode} {Fo : Folding} {Ar : Argon2} {Sh : Sha256}.

Lemma stepwise_appendAudit admin action result summary later : stepwise (appendAudit admin action result summary later).
Proof. unfold appendAudit. stepwise_walk. Qed.
#[local] Hint Resolve stepwise_appendAudit : stepwise.
Lemma stepwise_commit s token data expiry now : stepwise (CommitCtx s true token data expiry now).
Proof. unfold CommitCtx, session_record. stepwise_walk. Qed.
Lemma stepwise_destroy token now : stepwise (DeleteCtx true token now).
Proof. unfold DeleteCtx. stepwise_walk. Qed.
Lemma stepwise_ResetPassword password now : stepwise (ResetPassword password now).
Proof. unfold ResetPassword, WithReadTx. stepwise_walk. Qed.
Lemma stepwise_InitializeAdministrator username password now : stepwise (InitializeAdministrator username password now).
Proof. unfold InitializeAdministrator. stepwise_walk. Qed.
Lemma stepwise_EstablishSession admin (commit : Tx (string * Time)) later : stepwise commit -> stepwise (EstablishSession admin commit later).
Proof. intros Hc. unfold EstablishSession. stepwise_walk. Qed.
Lemma stepwise_logout admin (destroy : Tx unit) later : stepwise destroy -> stepwise (AuthService_RevokeSession admin destroy later).
Proof. intros Hd. unfold AuthService_RevokeSession. stepwise_walk. Qed.
Lemma stepwise_RevokeSessions id now : stepwise (RevokeSessions id now).
Proof. unfold RevokeSessions. stepwise_walk. Qed.

(** ** Ended sessions *)
Definition ended (token : string) (db : DB) : Prop := exists k row,
  db_sessions db !! k = Some row /\ sr_TokenDigest row = tokenDigest token /\ sr_RevokedAt row <> None.

Lemma ended_later token db db' : rows_evolve db db' -> ended token db -> ended token db'.
Proof.
  intros [_ Hr] (k & row & Hk & Ht & Hv). destruct (Hr k row Hk) as (row' & Hk' & H1 & _ & _ & H4).
  exists k, row'. split; [done|]. split; [congruence|]. by rewrite H4.
Qed.
Lemma ended_not_found token now db : Constraints db -> ended token db ->
  find_row (live_session (tokenDigest token) now db) (db_sessions db) = None.
Proof.
  intros Hc (k & row & Hk & Ht & Hv). destruct (find_row _ _) as [row'|] eqn:E; [|done].
  apply find_row_some in E as (Hl & k' & Hk'). unfold live_session in Hl. rewrite !andb_true_iff in Hl.
  destruct Hl as ((((_ & Hd) & Hr) & _) & _). apply bool_decide_eq_true in Hd, Hr.
  destruct (con_log _ Hc) as (_ & _ & _ & _ & _ & Hu).
  assert (k = k') as <- by (by apply (Hu k row Hk k' row' Hk'); [..|congruence]). congruence.
Qed.

Lemma revoke_ends token now c b c' : RevokeSession (tokenDigest token) now c = (Ok b, c') -> b = true -> ended token (conn_db c').
Proof.
  unfold RevokeSession. intros H ->. tx_step H. apply tx_read_ok in E as [-> ->]. tx_step H. apply tx_exec_ok in E as (E & _).
  apply tx_ret_ok in H as [Hn ->]. symmetry in Hn. apply Z.eqb_eq in Hn. unfold count_rows in Hn.
  destruct (List.filter _ _) as [|[k row] l] eqn:El; [done|].
  assert (In (k, row) ((k, row) :: l)) as Hin by by left. rewrite <- El in Hin. apply filter_In in Hin as [Hin Hcond].
  apply list_elem_of_In, elem_of_map_to_list in Hin. cbn [snd] in Hcond.
  exists k. rewrite E. cbn. unfold update_rows. rewrite lookup_fmap, Hin. cbn. rewrite Hcond.
  apply andb_prop in Hcond as [Hd _]. apply bool_decide_eq_true in Hd. eexists. split; [done|]. by split.
Qed.
Lemma revoke_all_ends id now c u c' k row token : RevokeAllSessions id now c = (Ok u, c') ->
  db_sessions (conn_db c) !! k = Some row -> sr_AdministratorID row = id -> sr_TokenDigest row = tokenDigest token ->
  ended token (conn_db c').
Proof.
  intros H Hk <- Ht. apply tx_exec_ok in H as (E & _). exists k. rewrite E. cbn. unfold update_rows.
  rewrite lookup_fmap, Hk. cbn. rewrite bool_decide_eq_true_2 by done. cbn [andb].
  case_bool_decide as Hr; eexists; by split.
Qed.

(** The transactions that end the session of a token. *)
Inductive ends (token : string) (c : Conn) : Conn -> Prop :=
| ends_logout admin now later c' :
    AuthService_RevokeSession admin (DeleteCtx true token now) later c = (Ok tt, c') -> ends token c c'
| ends_revoked id now k row c' : db_sessions (conn_db c) !! k = Some row -> sr_TokenDigest row = tokenDigest token ->
    sr_AdministratorID row = id -> RevokeSessions id now c = (Ok tt, c') -> ends token c c'
| ends_reset admin password now k row c' : find_row every (db_administrators (conn_db c)) = Some admin ->
    db_sessions (conn_db c) !! k = Some row -> sr_TokenDigest row = tokenDigest token -> sr_AdministratorID row = ad_ID admin ->
    ResetPassword password now c = (Ok tt, c') -> ends token c c'.

Lemma ends_ended token c c' : ends token c c' -> ended token (conn_db c').
Proof.
  intros [admin now later c1 H|id now k row c1 Hk Ht Ha H|admin password now k row c1 Hf Hk Ht Ha H].
  - apply WithWriteTx_ok in H. tx_step H. unfold DeleteCtx in H. tx_step H. destruct a0; [|done].
    apply tx_ret_ok in H as [_ <-]. by eapply revoke_ends.
  - apply WithWriteTx_ok in H. by eapply revoke_all_ends.
  - unfold ResetPassword in H. tx_step H.
    change (WithReadTx Administrator c) with (@Ok error _ (find_row every (db_administrators (conn_db c))), c) in E.
    rewrite Hf in E. injection E as <- <-. tx_step H. tx_step H. tx_step H. apply WithWriteTx_ok in H.
    tx_step H. tx_step H. apply insert_row_ok in H as (_ & H6 & _). unfold ended. rewrite H6. cbn [db_sessions].
    eapply revoke_all_ends; [exact E3| |exact Ha|exact Ht].
    assert (leaves db_sessions (UpdateAdministratorPassword (ad_ID admin) a0 (ad_PasswordVersion admin + 1) now)) as Hl
      by (unfold UpdateAdministratorPassword; leaves_walk).
    rewrite (leaves_run _ _ _ _ _ Hl E2). apply HashPassword_same in E0. injection E as _ <-. injection E1 as _ <-. cbn. by rewrite E0.
Qed.

(** C17: what ends a session, logging out, the revocation of all sessions of an
    administrator and a reset of the password, is made of steps of a history,
    so that every invariant of reachable states holds afterwards; and from then
    on, in whatever state the panel gets to, by late commits of the same session
    too, no reading of the clock makes the token be found. *)
Theorem ended_sessions_stay_dead token h0 c0 c1 : history h0 c0 -> ends token c0 c1 ->
  (exists h1, h0 ⊆ h1 /\ history h1 c1) /\
  forall s h c now, history h c -> conn_db c1 ∈ h -> Find s token now c = (Ok None, c).
Proof.
  intros H0 He. split.
  - destruct He as [admin now later c1 H|id now k row c1 _ _ _ H|admin password now k row c1 _ _ _ _ H].
    + destruct (stepwise_logout admin (DeleteCtx true token now) later (stepwise_destroy _ _) h0 c0 H0) as (h1 & Hs & H1).
      exists h1. by rewrite H in H1.
    + destruct (stepwise_RevokeSessions id now h0 c0 H0) as (h1 & Hs & H1). exists h1. by rewrite H in H1.
    + destruct (stepwise_ResetPassword password now h0 c0 H0) as (h1 & Hs & H1). exists h1. by rewrite H in H1.
  - intros s h c now Hh Hin. apply ends_ended in He.
    assert (ended token (conn_db c)) as Hd by (eapply ended_later; [|exact He]; by eapply history_rows).
    unfold Find, mbind, tx_bind, tx_read. rewrite ended_not_found; [done| |done].
    apply reachable_constraints. exists h. split; [done|]. by apply history_now.
Qed.
End Methods.

(** ** A login and a logout *)
Definition demo_sessions : SessionStore := NewSessionStore (30 * Minute) (12 * Hour).
Definition demo_administrator : AdministratorRecord := mkAdministrator admin_id "admin" "" 1 t0 t0.
Definition demo_commit : Tx (string * Time) :=
  _ ← CommitCtx demo_sessions true "token" "data" (t0 + 12 * Hour) t0; mret ("token", t0 + 12 * Hour).
Definition logged_in : Res (string * Time) * Conn := EstablishSession demo_administrator demo_commit t0 administered.2.
Definition logged_out : Res unit * Conn :=
  AuthService_RevokeSession demo_administrator (DeleteCtx true "token" (t0 + Minute)) (t0 + Minute) logged_in.2.

Lemma ended_sessions_stay_dead_witness : (Find demo_sessions "token" (t0 + Minute) logged_in.2).1 = Ok (Some "data") /\
  ends "token" logged_in.2 logged_out.2 /\
  Find demo_sessions "token" (t0 + Minute) logged_out.2 = (Ok None, logged_out.2).
Proof.
  split; [vm_compute; reflexivity|].
  assert (logged_out.1 = Ok tt) as H1 by (vm_compute; reflexivity).
  assert (ends "token" logged_in.2 logged_out.2) as He.
  { apply (ends_logout _ _ demo_administrator (t0 + Minute) (t0 + Minute)). rewrite <- H1. apply surjective_pairing. }
  split; [exact He|].
  pose proof (history_start 0) as H0.
  pose proof (history_step _ conn0 empty_db conn1 H0 (list_elem_of_here _ _) (step_singletons _ conn0 _ _ _ _ _ _)) as H2.
  destruct (stepwise_InitializeAdministrator " Admin" "correct horse battery" t0 _ _ H2) as (h3 & _ & H3).
  assert (stepwise demo_commit) as Hc
    by (apply stepwise_bind; [apply stepwise_commit|intros a; apply stepwise_ret]).
  destruct (stepwise_EstablishSession demo_administrator demo_commit t0 Hc h3 administered.2 H3) as (h4 & _ & H4).
  destruct (ended_sessions_stay_dead "token" h4 logged_in.2 logged_out.2 H4 He) as [(h5 & _ & H5) Hd].
  exact (Hd demo_sessions h5 logged_out.2 (t0 + Minute) H5 (history_now _ _ H5)).
Defined.
