(* ===== verification/Main.v ===== *)
(** * The command line: cmd/xpanel/main.go

    The administrator's commands and the start of the panel they share with
    [serve]. The flags are those of package flag; the file system, the terminal
    and the opening of the database are arguments. What is printed is left
    out. *)

From Stdlib Require Import ZArith Lia Ascii.
From S2P Require Import Prelude GoTypes Identity Text Inbound Tokens Template Net Cycle Records Database Secrets Password StoreCore StoreSync StoreQuota Config AuthService Demo AuthLaws.

(** ** Flags (package flag) *)
Definition ParseBool (value : string) : option bool :=
  if existsb (fun text => bool_decide (text = value)) ["1"; "t"; "T"; "true"; "TRUE"; "True"] then Some true
  else if existsb (fun text => bool_decide (text = value)) ["0"; "f"; "F"; "false"; "FALSE"; "False"] then Some false
  else None.

Inductive FlagToken : Set := EndOfFlags | BadFlag | Flag_ (name : string) (value : option string).
Definition flag_token (arg : string) : FlagToken :=
  match arg with
  | String "-"%char (String c rest) =>
      if bool_decide (c = "-"%char) && bool_decide (rest = "") then EndOfFlags
      else
        let name := if bool_decide (c = "-"%char) then rest else String c rest in
        match name with
        | String d _ =>
            if bool_decide (d = "-"%char) || bool_decide (d = "="%char) then BadFlag
            else match cut_at "=" name with
                 | Some (name, value) => Flag_ name (Some value)
                 | None => Flag_ name None
                 end
        | EmptyString => BadFlag
        end
  | _ => EndOfFlags
  end.
(** The assignments in order; [boolean]: of a defined flag, whether it is a
    boolean one. *)
Fixpoint flag_Parse (boolean : string -> option bool) (args : list string) : option (list (string * string)) :=
  match args with
  | [] => Some []
  | arg :: rest =>
      match flag_token arg with
      | EndOfFlags => Some []
      | BadFlag => None
      | Flag_ name value =>
          match boolean name, value with
          | None, _ => None
          | Some true, _ =>
              let text := default "true" value in
              match ParseBool text with
              | None => None
              | Some _ => assigned ← flag_Parse boolean rest; Some ((name, text) :: assigned)
              end
          | Some false, Some text => assigned ← flag_Parse boolean rest; Some ((name, text) :: assigned)
          | Some false, None =>
              match rest with
              | [] => None
              | text :: rest => assigned ← flag_Parse boolean rest; Some ((name, text) :: assigned)
              end
          end
      end
  end.
Definition flag_value (name : string) (assigned : list (string * string)) : option string :=
  snd <$> List.find (fun entry => bool_decide (entry.1 = name)) (reverse assigned).

Record AdminFlags := mkAdminFlags { af_Config : string; af_PasswordStdin : bool; af_Username : string }.
Definition admin_flags (name : string) : option bool :=
  if bool_decide (name = "password-stdin") then Some true
  else if bool_decide (name = "config") || bool_decide (name = "username") then Some false else None.
Definition configFlag (args : list string) : option AdminFlags :=
  assigned ← flag_Parse admin_flags args;
  let path := default "" (flag_value "config" assigned) in
  if bool_decide (path = "") then None
  else Some (mkAdminFlags path (default false (flag_value "password-stdin" assigned ≫= ParseBool)) (default "" (flag_value "username" assigned))).

(** ** What is typed *)

(** [in_Content]: what can be read, [None] after an error; [in_Typed]: the
    answers at the prompts of a terminal. *)
Record Stdin := mkStdin { in_Content : option string; in_Terminal : bool; in_Typed : option string * option string }.

(** [TrimSuffix] of one character. *)
Fixpoint trim_last (c : ascii) (s : string) : string :=
  match s with
  | EmptyString => ""
  | String d rest => if bool_decide (rest = "") && bool_decide (d = c) then "" else String d (trim_last c rest)
  end.
Definition CR : ascii := "013"%char.
Definition LF : ascii := "010"%char.
Definition single_line (data : string) : option string :=
  let value := trim_last CR (trim_last LF data) in
  if bool_decide (value = "") || has_char CR value || has_char LF value then None else Some value.
Fixpoint string_take (n : nat) (s : string) : string :=
  match n, s with
  | S n, String c rest => String c (string_take n rest)
  | _, _ => ""
  end.
Definition readPassword (stdin : Stdin) (fromStdin : bool) : option string :=
  if fromStdin then content ← in_Content stdin; single_line (string_take 258 content)
  else if negb (in_Terminal stdin) then None
  else
    first ← (in_Typed stdin).1;
    second ← (in_Typed stdin).2;
    if bool_decide (first = second) then Some first else None.
(** The line typed at the prompt for the name. *)
Definition read_username (stdin : Stdin) : option string :=
  content ← in_Content stdin;
  Some (TrimSpace match cut_at LF content with Some (line, _) => line | None => content end).

(** ** Starting *)

(** The machine: the configuration file decoded, the root key file, and
    whether the database opens and migrates. *)
Record Machine := mkMachine {
  mc_Decoded : string -> Res Config;
  mc_KeyFile : string -> option (bool * Z) * option string;
  mc_Opened : string -> Duration -> Res unit }.

Section Admin.
Context {Zn : Zones} {En : Entropy} {Un : Unicode} {Fo : Folding} {Ar : Argon2} {Ae : Aead} {Hd : Hkdf} {Ur : UrlParser} {Fs : FileSystem}.
Context (machine : Machine).

Definition bootstrap (configPath : string) (now : Time) : Tx (Config * Keyring) :=
  cfg ← tx_lift (Load (mc_Decoded machine configPath));
  let '(stat, content) := mc_KeyFile machine (sc_RootKeyFile (cf_Security cfg)) in
  root ← tx_lift (LoadRootKey stat content);
  keyring ← tx_lift (NewKeyring root);
  _ ← tx_lift (mc_Opened machine (st_DatabasePath (cf_Storage cfg)) (st_BusyTimeout (cf_Storage cfg)));
  '(verifier, nonce) ← NewVerifier keyring;
  _ ← EnsureSingletons (cf_QuotaTimezone cfg) (xc_APIEndpoint (cf_Xray cfg)) (xc_SupportedVersion (cf_Xray cfg)) verifier nonce now;
  _ ← VerifyKey (Verify keyring);
  mret (cfg, keyring).

(** The command itself, with the exit code. *)
Definition run_command (command username password : string) (now : Time) : Conn -> Z * Conn := fun c =>
  let '(done, c) := (if bool_decide (command = "init")
                     then _ ← InitializeAdministrator username password now; mret tt
                     else ResetPassword password now) c in
  (match done with Ok _ => 0 | Err _ => 4 end, c).
Definition entered_username (flags : AdminFlags) (command : string) (stdin : Stdin) : option string :=
  if bool_decide (command = "init") && bool_decide (af_Username flags = "") then
    if af_PasswordStdin flags then None else read_username stdin
  else if bool_decide (command = "reset-password") && negb (bool_decide (af_Username flags = "")) then None
  else Some (af_Username flags).
(** What the command is about to do; [None]: a wrong use of it. *)
Definition entered (command : string) (args : list string) (stdin : Stdin) : option (AdminFlags * string * string) :=
  flags ← configFlag args;
  if negb (bool_decide (command = "init") || bool_decide (command = "reset-password")) then None
  else
    username ← entered_username flags command stdin;
    password ← readPassword stdin (af_PasswordStdin flags);
    Some (flags, username, password).
Definition runAdmin (command : string) (args : list string) (stdin : Stdin) (now later : Time) : Conn -> Z * Conn := fun c =>
  match entered command args stdin with
  | None => (2, c)
  | Some (flags, username, password) =>
      match bootstrap (af_Config flags) now c with
      | (Err _, c) => (3, c)
      | (Ok _, c) =>
          match NewAuthService c with
          | (Err _, c) => (3, c)
          | (Ok _, c) => run_command command username password later c
          end
      end
  end.
End Admin.

(** ** The password that was entered *)
Lemma trim_last_cases c s : (exists t, s = t +:+ String c "" /\ trim_last c s = t) \/
  (trim_last c s = s /\ forall t, s <> t +:+ String c "").
Proof.
  induction s as [|d s IH]; [right; split; [done|by intros []]|]. cbn [trim_last].
  destruct s as [|e s].
  - destruct (decide (d = c)) as [->|Hd].
    + left. exists "". by rewrite (bool_decide_eq_true_2 (c = c)).
    + right. rewrite (bool_decide_eq_false_2 (d = c)) by done. split; [done|].
      intros [|x [|]]; by intros [=].
  - cbn [bool_decide andb]. rewrite bool_decide_eq_false_2 by done. cbn [andb].
    destruct IH as [(t & -> & Ht)|[Ht Hn]].
    + left. exists (String d t). by rewrite Ht.
    + right. rewrite Ht. split; [done|]. intros [|x t]; intros [= -> Hs]. by apply (Hn t).
Qed.
Lemma take_drop_string n s : string_take n s +:+ string_drop n s = s.
Proof. revert s. induction n as [|n IH]; intros [|c s]; try done. cbn [string_take string_drop]. change (String c (string_take n s +:+ string_drop n s) = String c s). by rewrite IH. Qed.
Lemma length_take_string n s : (String.length (string_take n s) <= n)%nat.
Proof. revert s. induction n as [|n IH]; intros [|c s]; cbn; [lia..|]. specialize (IH s). lia. Qed.
Lemma length_short_take n s : (String.length (string_take n s) < n)%nat -> string_take n s = s.
Proof. revert s. induction n as [|n IH]; intros [|c s]; cbn; [lia|lia|done|]. intros H. f_equal. apply IH. lia. Qed.

Definition line_ends : list string := [""; String LF ""; String CR ""; String CR (String LF "")].
Lemma single_line_inv data value : single_line data = Some value -> value <> "" /\ has_char CR value = false /\ has_char LF value = false /\
  exists ending, (ending ∈ line_ends) /\ data = value +:+ ending.
Proof.
  unfold single_line. case_if; [done|]. intros [= <-]. to_prop.
  split; [tauto|]. split; [tauto|]. split; [tauto|].
  destruct (trim_last_cases LF data) as [(t & -> & Ht)|[Ht _]]; rewrite Ht;
    [destruct (trim_last_cases CR t) as [(u & -> & Hu)|[Hu _]]|destruct (trim_last_cases CR data) as [(u & -> & Hu)|[Hu _]]]; rewrite Hu.
  - exists (String CR (String LF "")). split; [by do 3 right; left|]. by rewrite <- string_app_assoc.
  - exists (String LF ""). split; [by right; left|done].
  - exists (String CR ""). split; [by right; right; left|done].
  - exists "". split; [by left|]. by rewrite string_app_nil_r.
Qed.

(** What is read from the standard input, of at most 258 bytes, is its only
    line; only a line of 256 bytes that ends in CR LF may have more behind it. *)
Definition only_line (content value : string) : Prop := exists ending, (ending ∈ line_ends) /\
  (content = value +:+ ending \/
   String.length value = 256%nat /\ ending = String CR (String LF "") /\ HasPrefix content (value +:+ ending) = true).
Definition is_line (value : string) : Prop := value <> "" /\ has_char CR value = false /\ has_char LF value = false.

Section Laws.
Context {Zn : Zones} {En : Entropy} {Un : Unicode} {Fo : Folding} {Ar : Argon2} {Ae : Aead} {Hd : Hkdf} {Ur : UrlParser} {Fs : FileSystem}.
Context {Aok : Argon2Ok} {Ef : EntropyFull}.

Lemma ValidatePassword_length username password u : ValidatePassword username password = Ok u -> (12 <= String.length password <= 256)%nat.
Proof. unfold ValidatePassword. case_if; [done|]. intros _. to_prop. lia. Qed.
Lemma readPassword_line stdin value : readPassword stdin true = Some value -> (String.length value <= 256)%nat ->
  exists content, in_Content stdin = Some content /\ is_line value /\ only_line content value.
Proof.
  unfold readPassword. destruct (in_Content stdin) as [content|]; [|done]. intros H Hl. exists content. split; [done|].
  change (single_line (string_take 258 content) = Some value) in H.
  apply single_line_inv in H as (H1 & H2 & H3 & ending & Hin & Hdata). split; [by split_and!|]. exists ending. split; [done|].
  destruct (decide (String.length (string_take 258 content) < 258)%nat) as [Hs|Hs].
  - left. by rewrite <- Hdata, length_short_take.
  - right. pose proof (f_equal String.length Hdata) as Hlen. rewrite string_length_app in Hlen.
    pose proof (length_take_string 258 content) as Ht. unfold line_ends in Hin. rewrite !elem_of_cons, elem_of_nil in Hin.
    destruct Hin as [->|[->|[->|[->|[]]]]]; cbn [String.length] in Hlen; try lia.
    split; [lia|]. split; [done|]. rewrite <- Hdata. apply HasPrefix_true. exists (string_drop 258 content). by rewrite take_drop_string.
Qed.

(** ** What is left as it was *)

(** A failure leaves the tables as they were. *)
Definition undone {A} (m : Tx A) : Prop := forall c e c', m c = (Err e, c') -> conn_db c' = conn_db c.
Lemma undone_bind {A B} (m : Tx A) (k : A -> Tx B) : leaves (fun db => db) m -> (forall a, undone (k a)) -> undone (m ≫= k).
Proof.
  intros Hm Hk c e c' H. unfold mbind, tx_bind in H. destruct (m c) as [[a|e'] c1] eqn:E;
    pose proof (leaves_run _ _ _ _ _ Hm E) as H1; cbn in H1.
  - rewrite <- H1. by eapply Hk.
  - by injection H as _ <-.
Qed.
Lemma undone_tx {A} (m : Tx A) : undone (WithWriteTx m).
Proof. intros c e c'. apply WithWriteTx_err. Qed.
Lemma undone_fail {A} e : undone (tx_fail (A := A) e).
Proof. intros c e' c' H. by injection H as _ <-. Qed.
Lemma undone_then {A B} (m : Tx A) (b : B) : undone m -> undone (_ ← m; mret b).
Proof.
  intros Hm c e c' H. unfold mbind, tx_bind in H. destruct (m c) as [[a|e'] c1] eqn:E; [done|]. injection H as -> ->. by eapply Hm.
Qed.
Lemma leaves_HashPassword {T} (g : DB -> T) password : leaves g (HashPassword password).
Proof. intros c. destruct (HashPassword password c) as [r c'] eqn:E. cbn. by rewrite (HashPassword_same _ _ _ _ E). Qed.
#[local] Hint Resolve leaves_HashPassword : leaves.
Lemma InitializeAdministrator_undone username password now : undone (InitializeAdministrator username password now).
Proof.
  unfold InitializeAdministrator. repeat (apply undone_bind; [by eauto with leaves|intros]). apply undone_tx.
Qed.
Lemma ResetPassword_undone password now : undone (ResetPassword password now).
Proof.
  unfold ResetPassword. apply undone_bind; [apply leaves_tx, leaves_read|]. intros [current|]; [|apply undone_fail].
  repeat (apply undone_bind; [by eauto with leaves|intros]). apply undone_tx.
Qed.
Definition accounts (db : DB) := (db_administrators db, db_sessions db).
Lemma bootstrap_leaves machine path now : leaves accounts (bootstrap machine path now).
Proof.
  unfold bootstrap, NewVerifier, Encrypt, EnsureSingletons, VerifyKey, Settings, WithReadTx, PanelSettings.
  leaves_walk; [by intros c|]. apply leaves_exec. intros db. by destruct (db_settings db).
Qed.
(** A panel that has started holds the verifier of its root key. *)
Lemma bootstrap_key machine path now c cfg keyring c' : bootstrap machine path now c = (Ok (cfg, keyring), c') ->
  exists settings, db_settings (conn_db c') = Some settings /\
    Verify keyring (ps_KeyVerifier settings) (ps_KeyVerifierNonce settings) = Ok tt.
Proof.
  unfold bootstrap. intros H. tx_step H. destruct (mc_KeyFile _ _) as [stat content]. do 4 tx_step H. destruct a3 as [verifier nonce].
  do 2 tx_step H. apply tx_ret_ok in H as [[= <- <-] ->].
  unfold VerifyKey in E5. tx_step E5. apply WithWriteTx_ok, tx_row_ok in E6 as [Hs ->]. exists a. unfold tx_wrap, tx_lift in E5.
  destruct (Verify _ _ _) as [[]|]; [|done]. injection E5 as _ <-. by split.
Qed.

(** What the two commands need, and do. *)
Lemma password_checked_length username password c u c1 : tx_lift (as_field "password" (ValidatePassword username password)) c = (Ok u, c1) ->
  (String.length password <= 256)%nat.
Proof.
  unfold tx_lift, as_field. destruct (ValidatePassword username password) as [u'|] eqn:E; [|done]. intros _.
  apply ValidatePassword_length in E. lia.
Qed.
Lemma InitializeAdministrator_needs username password now c id c1 : InitializeAdministrator username password now c = (Ok id, c1) ->
  db_administrators (conn_db c) = ∅ /\ (String.length password <= 256)%nat.
Proof.
  intros H. do 5 tx_step H. apply WithWriteTx_ok in H. tx_step H. apply tx_read_ok in E4 as [Hnone ->].
  destruct a4; [done|]. symmetry in Hnone. apply no_row in Hnone. pose proof (password_checked_length _ _ _ _ _ E0) as Hl.
  apply (leaves_run (fun db => db)) in E, E0, E2, E3; [|by eauto with leaves..]. apply HashPassword_same in E1.
  split; [by rewrite <- Hnone; congruence|done].
Qed.
Lemma ResetPassword_needs password now c c1 : ResetPassword password now c = (Ok tt, c1) -> (String.length password <= 256)%nat.
Proof.
  unfold ResetPassword. intros H. tx_step H. destruct a as [current|]; [|done]. tx_step H. by eapply password_checked_length.
Qed.

(** The panel after the command: its administrator logs in with the password. *)
Definition set_up (username password : string) (before after : DB) : Prop :=
  db_administrators before = ∅ /\ exists id admin, db_administrators after = {[id := admin]} /\ ad_PasswordVersion admin = 1 /\
    forall s, logs_in s username password admin {[id := admin]}.
Definition reset (password : string) (before after : DB) : Prop := forall id admin,
  db_administrators before = {[id := admin]} -> ad_ID admin = id -> forall username, NormalizeUsername username = Ok (ad_Username admin) ->
  exists admin', db_administrators after = {[id := admin']} /\ ad_PasswordVersion admin' = ad_PasswordVersion admin + 1 /\
    forall s, logs_in s username password admin' {[id := admin']}.
Lemma run_command_done command username password now c c1 : run_command command username password now c = (0, c1) ->
  (String.length password <= 256)%nat /\
  (command = "init" -> set_up username password (conn_db c) (conn_db c1)) /\
  (command <> "init" -> reset password (conn_db c) (conn_db c1)).
Proof.
  unfold run_command. case_bool_decide as Hcmd.
  - destruct ((InitializeAdministrator username password now ≫= (fun _ => mret tt)) c) as [[u|e] c2] eqn:E; [|done]. intros [= <-]. tx_step E. apply tx_ret_ok in E as [_ ->].
    pose proof (InitializeAdministrator_needs _ _ _ _ _ _ E0) as [Hnone Hl].
    apply InitializeAdministrator_opens in E0 as (admin & Ho & Hu & Hv). split; [done|]. split; [|done]. intros _.
    split; [done|]. pose proof Ho as (Hdb & _). exists a, admin. split_and!; [done..|]. intros s. rewrite <- Hdb. by eapply opens_logs_in.
  - destruct (ResetPassword password now c) as [[[]|e] c2] eqn:E; [|done]. intros [= <-].
    pose proof (ResetPassword_needs _ _ _ _ E) as Hl. split; [done|]. split; [done|]. intros _ id admin Hdb Hid name Hu.
    apply (ResetPassword_opens _ id admin) in E as (admin' & Ho & Hname & Hv); [|done..].
    pose proof Ho as (Hdb' & _). exists admin'. split_and!; [done..|]. intros s. rewrite <- Hdb'. eapply opens_logs_in; [done|]. by rewrite Hu, Hname.
Qed.
Lemma run_command_failed command username password now c code c1 : run_command command username password now c = (code, c1) ->
  code = 0 \/ code = 4 /\ conn_db c1 = conn_db c.
Proof.
  unfold run_command. case_bool_decide.
  - destruct ((InitializeAdministrator username password now ≫= (fun _ => mret tt)) c) as [[u|e] c2] eqn:E; intros [= <- <-]; [by left|right]. split; [done|].
    eapply undone_then; [apply InitializeAdministrator_undone|exact E].
  - destruct (ResetPassword password now c) as [[u|e] c2] eqn:E; intros [= <- <-]; [by left|right]. split; [done|].
    eapply ResetPassword_undone, E.
Qed.

(** C21: The exit code of an administrator's command says what it did. Code 2:
    it was used wrongly, and nothing was opened. Code 3 or 4: the panel did not
    start or refused; administrators and sessions are as they were. Code 0: the
    root key of the configuration opens the panel's verifier, and the password
    that was entered, which is the only line of the standard input (but for the
    line of 256 bytes), now logs in: after [init], the first and only
    administrator under the name that was entered; after [reset-password], the
    administrator there is, under its name and with the next version of the
    password, which ends its sessions. *)
Theorem exit_codes_tell machine command args stdin now later c code c' :
  runAdmin machine command args stdin now later c = (code, c') ->
  (code = 2 /\ entered command args stdin = None /\ c' = c) \/
  ((code = 3 \/ code = 4) /\ accounts (conn_db c') = accounts (conn_db c)) \/
  (code = 0 /\ exists flags username password, entered command args stdin = Some (flags, username, password) /\
    (af_PasswordStdin flags = true -> exists content, in_Content stdin = Some content /\ is_line password /\ only_line content password) /\
    (exists keyring settings c1, bootstrap machine (af_Config flags) now c = (Ok keyring, c1) /\ db_settings (conn_db c1) = Some settings /\
      Verify keyring.2 (ps_KeyVerifier settings) (ps_KeyVerifierNonce settings) = Ok tt) /\
    (command = "init" /\ set_up username password (conn_db c) (conn_db c') \/
     command = "reset-password" /\ reset password (conn_db c) (conn_db c'))).
Proof.
  unfold runAdmin. intros H. destruct (entered command args stdin) as [[[flags username] password]|] eqn:Ee; [right|left; by injection H as <- <-].
  destruct (bootstrap machine (af_Config flags) now c) as [[[cfg keyring]|e] c1] eqn:Eb;
    pose proof (leaves_run _ _ _ _ _ (bootstrap_leaves machine (af_Config flags) now) Eb) as Hb; [|left; injection H as <- <-; by split; [left|]].
  destruct (NewAuthService c1) as [[s|e] c2] eqn:Es;
    (assert (conn_db c2 = conn_db c1) as Hs by (apply (leaves_run (fun db => db)) in Es; [done|unfold NewAuthService; leaves_walk]));
    [|left; injection H as <- <-; rewrite Hs; by split; [left|]].
  destruct (run_command_failed _ _ _ _ _ _ _ H) as [->|[-> Hc]]; [right|left; rewrite Hc, Hs; by split; [right|]].
  apply run_command_done in H as (Hl & Hinit & Hreset). split; [done|]. exists flags, username, password. split; [done|].
  assert (db_administrators (conn_db c2) = db_administrators (conn_db c)) as Ha by (rewrite Hs; by injection Hb).
  split; [|split].
  - intros Hin. unfold entered in Ee. destruct (configFlag args) as [flags'|]; [|done]. cbn in Ee.
    destruct (negb _); [done|]. destruct (entered_username _ _ _) as [name|]; [|done]. cbn in Ee.
    destruct (readPassword stdin (af_PasswordStdin flags')) as [password'|] eqn:Ep; [|done]. injection Ee as -> -> ->.
    rewrite Hin in Ep. by apply readPassword_line.
  - destruct (bootstrap_key _ _ _ _ _ _ _ Eb) as (settings & H1 & H2). by exists (cfg, keyring), settings, c1.
  - unfold entered in Ee. destruct (configFlag args) as [flags'|]; [|done]. cbn in Ee.
    destruct (bool_decide (command = "init")) eqn:Ei.
    + apply bool_decide_eq_true in Ei. left. split; [done|]. destruct (Hinit Ei) as (H1 & H2). split; [congruence|done].
    + apply bool_decide_eq_false in Ei. destruct (bool_decide (command = "reset-password")) eqn:Er; [|done]. apply bool_decide_eq_true in Er.
      right. split; [done|]. unfold reset. rewrite <- Ha. by apply Hreset.
Qed.
End Laws.

(** ** A first start *)
#[export] Instance demo_hkdf : Hkdf := fun root label size => take size (root ++ repeat 0 size).
#[export] Instance demo_url : UrlParser := fun url =>
  if HasPrefix url "https://" then Some (mkURL "https" false (string_drop 8 url) "" "") else None.
#[export] Instance demo_files : FileSystem := {| stat_dir := fun _ => Some (true, 448); validateLocalFilesystem := fun _ => Ok tt |}.
Definition demo_config : Config := mkConfig
  (mkServer "127.0.0.1:8080" "https://panel.example" false (5 * Second) (15 * Second) (15 * Second))
  (mkStorage "/var/lib/xpanel/panel.db" (5 * Second)) (mkSecurity "/etc/xpanel/root.key" (30 * Minute) (12 * Hour))
  (cf_Xray Default) (cf_Workers Default) "UTC" "info" [].
Definition demo_machine : Machine :=
  mkMachine (fun _ => Ok demo_config) (fun _ => (Some (true, 384), Some demo_root_file)) (fun _ _ => Ok tt).
Definition demo_stdin (content : string) : Stdin := mkStdin (Some content) false (None, None).
Definition demo_args (name : string) : list string := ["--config=/etc/xpanel.json"; "-password-stdin"; "-username"; name].
Definition initialized : Z * Conn :=
  runAdmin demo_machine "init" (demo_args "Admin") (demo_stdin ("correct horse battery" +:+ String LF "")) t0 t0 conn0.

Lemma exit_codes_tell_witness : initialized.1 = 0 /\
  (exists flags username password, entered "init" (demo_args "Admin") (demo_stdin ("correct horse battery" +:+ String LF "")) =
     Some (flags, username, password) /\ set_up username password (conn_db conn0) (conn_db initialized.2)).
Proof.
  assert (initialized.1 = 0) as H0 by (vm_compute; reflexivity). split; [exact H0|].
  destruct (exit_codes_tell demo_machine _ _ _ t0 t0 conn0 _ _ (surjective_pairing initialized))
    as [(H & _)|[([H|H] & _)|(_ & flags & username & password & He & _ & _ & Hdone)]];
    [rewrite H0 in H; discriminate H..|].
  exists flags, username, password. split; [exact He|]. destruct Hdone as [[_ Hs]|[Hc _]]; [exact Hs|discriminate Hc].
Defined.

(** A second line is not noticed behind a line of 256 bytes that ends in CR LF. *)
Fixpoint of_length (n : nat) : string := match n with O => "" | S n => String "a" (of_length n) end.
Definition two_lines (n : nat) : string := of_length n +:+ String CR (String LF ("second line" +:+ String LF "")).
Example second_line_unnoticed : readPassword (demo_stdin (two_lines 256)) true = Some (of_length 256) /\
  readPassword (demo_stdin (two_lines 255)) true = None /\ readPassword (demo_stdin (two_lines 20)) true = None.
Proof. repeat split; vm_compute; reflexivity. Qed.
