(* ===== verification/SyncLaws.v ===== *)
(** * What a lease and a confirmation guarantee *)

From Stdlib Require Import ZArith Lia.
From stdpp Require Import sorting.
From S2P Require Import Prelude GoTypes Identity Inbound User Sync Quota Traffic Template Cycle Records Database StoreCore StoreSync StoreQuota StoreUsers Demo.

(** ** Confirmation *)

(** The keys of a credential are gone. *)
Definition destroyed (c : AccessCredential) : Prop :=
  cr_State c = CredentialDestroyed /\ cr_KeyCiphertext c = "" /\ cr_KeyNonce c = "".

(** What a confirmation must have done to the credentials of an allocation. *)
Record confirmed_keys (k : ID) (version : Z) (present deleted : bool) (before after : gmap ID AccessCredential) : Prop := {
  ck_older : present = true -> forall id c, after !! id = Some c -> cr_AllocationID c = k -> cr_Version c < version ->
    cr_State c = CredentialDestroyed;
  ck_current : present = true -> forall id c, before !! id = Some c -> cr_AllocationID c = k -> cr_Version c = version ->
    cr_State c = CredentialPending -> exists c', after !! id = Some c' /\ cr_State c' = CredentialActive /\
      cr_KeyCiphertext c' = cr_KeyCiphertext c;
  ck_deleted : present = false -> deleted = true -> forall id c, after !! id = Some c -> cr_AllocationID c = k ->
    cr_State c = CredentialDestroyed;
  ck_kept : present = false -> deleted = false -> after = before;
  ck_others : forall id c, before !! id = Some c -> cr_AllocationID c <> k -> after !! id = Some c }.

Lemma lookup_update_rows {K R} `{Countable K} cond (f : R -> R) (m : gmap K R) k :
  update_rows cond f m !! k = (fun r => if cond r then f r else r) <$> m !! k.
Proof. apply lookup_fmap. Qed.

Lemma confirm_credentials_ok k version present now c r c2 u a :
  db_allocations (conn_db c) !! k = Some a -> db_users (conn_db c) !! a_UserID a = Some u ->
  confirm_credentials k version present now c = (Ok r, c2) ->
  let deleted := bool_decide (u_Lifecycle u = LifecycleDeleted) in
  confirmed_keys k version present deleted (db_credentials (conn_db c)) (db_credentials (conn_db c2)) /\
  db_users (conn_db c2) = db_users (conn_db c) /\ db_allocations (conn_db c2) = db_allocations (conn_db c) /\
  db_operations (conn_db c2) = db_operations (conn_db c) /\
  db_inbounds (conn_db c2) = (if negb present && deleted then
     update_at k unreleased (on_inbound (fun i => i <| in_ReleasedAt := Some (ms now) |> <| in_DesiredPresent := false |>
        <| in_ObservedPresent := Some false |> <| in_UpdatedAt := ms now |>)) (db_inbounds (conn_db c))
     else db_inbounds (conn_db c)).
Proof.
  intros Ha Hu H. unfold confirm_credentials in H. destruct present; cbn [negb andb].
  - tx_step H. apply tx_exec_ok in E as (E & _). apply tx_exec_ok in H as (H & _). rewrite H, E. cbn.
    split; [|done]. split; try done.
    + intros _ id c'. rewrite !lookup_update_rows. intros (c1 & Hc1 & ->)%fmap_Some_1.
      apply fmap_Some_1 in Hc1 as (c3 & Hc3 & ->).
      destruct (decide (cr_AllocationID c3 = k /\ cr_Version c3 < version)) as [[H1 H2]|Hn].
      * rewrite (bool_decide_eq_true_2 (cr_AllocationID c3 = k)) by done.
        rewrite (proj2 (Z.ltb_lt _ _) H2). cbn [andb].
        destruct (bool_decide (cr_State c3 <> CredentialDestroyed)) eqn:Ed.
        -- cbn. rewrite (bool_decide_eq_false_2 (CredentialDestroyed = CredentialPending)) by done.
           rewrite andb_false_r. done.
        -- apply bool_decide_eq_false, dec_stable in Ed. rewrite Ed.
           rewrite (bool_decide_eq_false_2 (CredentialDestroyed = CredentialPending)) by done. rewrite andb_false_r. done.
      * intros Hk Hv. exfalso. apply Hn. revert Hk Hv. by repeat case_match.
    + intros _ id c1 Hc1 Hk Hv Hs. rewrite !lookup_update_rows, Hc1. cbn.
      rewrite (proj2 (Z.ltb_ge (cr_Version c1) version)) by lia. rewrite andb_false_r. cbn.
      rewrite !bool_decide_eq_true_2, (proj2 (Z.eqb_eq _ _) Hv) by done. cbn. by eexists.
    + intros id c1 Hc1 Hk. rewrite !lookup_update_rows, Hc1. cbn.
      rewrite (bool_decide_eq_false_2 (cr_AllocationID c1 = k)) by done. cbn.
      rewrite (bool_decide_eq_false_2 (cr_AllocationID c1 = k)) by done. done.
  - tx_step H. apply tx_row_ok in E as [E ->]. rewrite Ha in E. cbn in E. rewrite Hu in E. injection E as <-.
    destruct (bool_decide (u_Lifecycle u = LifecycleDeleted)) eqn:Ed.
    + tx_step H. apply tx_exec_ok in E as (E & _). apply tx_exec_ok in H as (H & _). rewrite H, E. cbn.
      split; [|done]. split; try done.
      * intros _ _ id c'. rewrite lookup_update_rows. intros (c1 & Hc1 & ->)%fmap_Some_1.
        destruct (decide (cr_AllocationID c1 = k)) as [Hk|Hk].
        -- rewrite bool_decide_eq_true_2 by done. cbn [andb].
           destruct (bool_decide (cr_State c1 <> CredentialDestroyed)) eqn:Es; [done|].
           by apply bool_decide_eq_false, dec_stable in Es.
        -- rewrite bool_decide_eq_false_2 by done. cbn. congruence.
      * intros id c1 Hc1 Hk. rewrite lookup_update_rows, Hc1. cbn. by rewrite bool_decide_eq_false_2.
    + apply tx_ret_ok in H as [_ ->]. done.
Qed.

Lemma op_with_allocation_ok id db o a : op_with_allocation id db = Some (o, a) ->
  db_operations db !! id = Some o /\ db_allocations db !! op_AllocationID o = Some a.
Proof.
  unfold op_with_allocation. destruct (db_operations db !! id) as [o'|]; [|done]. cbn.
  destruct (db_allocations db !! op_AllocationID o') eqn:E; [|done]. by intros [= -> ->].
Qed.

Lemma update_at_every {R} (k : ID) (f : R -> R) m r : m !! k = Some r -> update_at k every f m = <[k := f r]> m.
Proof. intros Hr. unfold update_at. by rewrite Hr. Qed.

(** The inbound after a confirmation: released for good when the user is gone
    and the inbound is absent, marked with what was observed otherwise. *)
Definition inbound_confirmed (present deleted : bool) (r r' : InboundRecord) : Prop :=
  in_Port (ir_Inbound r') = in_Port (ir_Inbound r) /\ in_InboundTag (ir_Inbound r') = in_InboundTag (ir_Inbound r) /\
  if negb present && deleted then unreleased r' = false /\ in_DesiredPresent (ir_Inbound r') = false
  else unreleased r' = true /\ in_ObservedPresent (ir_Inbound r') = Some present.



(** ** Leases *)
Lemma head_merge_sort {A} (R : relation A) `{!RelDecision R} `{!Transitive R} `{!Total R} l x :
  head (merge_sort R l) = Some x -> x ∈ l /\ forall y, y ∈ l -> y = x \/ R x y.
Proof.
  intros Hh. pose proof (merge_sort_Permutation R l) as Hp. pose proof (StronglySorted_merge_sort R l) as Hs.
  destruct (merge_sort R l) as [|z l']; [done|]. injection Hh as ->. split.
  - rewrite <- Hp. by left.
  - intros y Hy. rewrite <- Hp in Hy. apply elem_of_cons in Hy as [->|Hy]; [by left|right].
    apply StronglySorted_inv in Hs as [_ Hs]. rewrite Forall_forall in Hs. auto.
Qed.

#[global] Instance op_before_total : Total op_before.
Proof. intros o p. unfold op_before. lia. Qed.
#[global] Instance op_before_trans : Transitive op_before.
Proof. intros o p q. unfold op_before. lia. Qed.

Lemma lease_tx_ok owner now d c o c1 : Constraints (conn_db c) -> lease_tx owner now d c = (Ok (Some o), c1) ->
  db_operations (conn_db c) !! op_ID o = Some o /\ due_sync now (conn_db c) o = true /\
  (forall id' o', db_operations (conn_db c) !! id' = Some o' -> due_sync now (conn_db c) o' = true ->
     o' = o \/ op_before o o') /\
  conn_db c1 = set_operations (<[op_ID o := leased_by owner now d o]> (db_operations (conn_db c))) (conn_db c) /\
  Constraints (conn_db c1).
Proof.
  intros Hc H%WithWriteTx_ok. tx_step H. apply tx_read_ok in E as [-> ->].
  destruct (next_due_sync now (conn_db c)) as [x|] eqn:En; [|by apply tx_ret_ok in H as [? _]].
  apply (head_merge_sort op_before) in En as [Hin Hmin]. apply elem_of_select in Hin as (Hd & k & Hk).
  destruct (con_operations _ Hc) as [Hids _]. destruct (Hids k x Hk) as [<- _].
  tx_step H. apply tx_read_ok in E as [-> ->]. tx_step H. apply tx_exec_ok in E as (E & Hc1 & _).
  apply tx_ret_ok in H as [Hr ->]. rewrite <- E in Hc1.
  assert (lease_condition now (op_LeaseOwner x) x = true) as Hl.
  { unfold due_sync in Hd. apply andb_true_iff in Hd as [Hd _]. unfold lease_condition.
    by rewrite (bool_decide_eq_true_2 (op_LeaseOwner x = op_LeaseOwner x)), andb_true_r. }
  unfold count_at in Hr. rewrite Hk, Hl in Hr. injection Hr as <-.
  split_and!; [done|done| | |done].
  - intros id' o' Ho' Hd'. apply Hmin, elem_of_select. split; [done|]. by exists id'.
  - rewrite E. unfold update_at. by rewrite Hk, Hl.
Qed.

Lemma finishLeased_other id owner wall apply_ c o :
  db_operations (conn_db c) !! id = Some o -> owned_by owner o = false ->
  conn_db (finishLeased id owner wall apply_ c).2 = conn_db c.
Proof.
  intros Ho Hw. unfold finishLeased, WithWriteTx, mbind, tx_bind, tx_row, op_with_allocation. rewrite Ho. cbn.
  destruct (db_allocations (conn_db c) !! op_AllocationID o); [|done]. cbn. by rewrite Hw.
Qed.

(** C12: the synchronizer is granted the due operation that comes first (by its
    next attempt, then by its age), due because it waits or because its lease
    ran out; from then on until the lease expires nobody else is granted it,
    and a worker that held it before can no longer renew, confirm, reschedule or
    fail it: those calls leave every table as it is. *)
Theorem lease_fences c w2 now d c1 work : Constraints (conn_db c) ->
  LeaseDueSync w2 now d c = (Ok (Some work), c1) ->
  let o := sw_Operation work in let id := op_ID o in
  db_operations (conn_db c) !! id = Some o /\ due_sync now (conn_db c) o = true /\
  (forall id' o', db_operations (conn_db c) !! id' = Some o' -> due_sync now (conn_db c) o' = true ->
     o' = o \/ op_before o o') /\
  db_operations (conn_db c1) !! id = Some (leased_by w2 now d o) /\
  (forall w1, w1 <> w2 ->
     (forall now' d', exists c2, RenewSyncLease id w1 now' d' c1 = (Ok false, c2) /\ conn_db c2 = conn_db c1) /\
     (forall revision v present now', conn_db (ConfirmSync id w1 revision v present now' c1).2 = conn_db c1) /\
     (forall n next code summary wall, conn_db (RescheduleSync id w1 n next code summary wall c1).2 = conn_db c1) /\
     (forall code summary now' wall, conn_db (FailSync id w1 code summary now' wall c1).2 = conn_db c1)) /\
  (forall w3 now' d' work' c3, ms now' < ms (now + d) -> LeaseDueSync w3 now' d' c1 = (Ok (Some work'), c3) ->
     op_ID (sw_Operation work') <> id).
Proof.
  intros Hc H. unfold LeaseDueSync in H. tx_step H. destruct a as [o|]; [|by apply tx_ret_ok in H as [? _]].
  tx_step H. apply tx_ret_ok in H as [Hw ->]. injection Hw as ->. cbn [sw_Operation].
  destruct (lease_tx_ok _ _ _ _ _ _ Hc E) as (Ho & Hd & Hmin & Hdb & Hc1).
  assert (conn_db c2 = conn_db c0) as Hsame.
  { revert E0. apply (leaves_run (fun db => db)). unfold loadUserByAllocation. leaves_walk. }
  rewrite <- Hsame in Hdb, Hc1. clear Hsame E E0.
  assert (db_operations (conn_db c2) !! op_ID o = Some (leased_by w2 now d o)) as Hl.
  { rewrite Hdb. cbn. apply lookup_insert_eq. }
  split_and!; try done.
  - intros w1 Hw. assert (forall w, w <> w2 -> owned_by w (leased_by w2 now d o) = false) as Hno.
    { intros w Hne. unfold owned_by. cbn. rewrite (bool_decide_eq_false_2 (w2 = w)) by done. apply andb_false_r. }
    split_and!.
    + intros now' d'. unfold RenewSyncLease, mbind, tx_bind, tx_read, tx_exec.
      assert (count_at (op_ID o) (renew_condition w1 (conn_db c2)) (db_operations (conn_db c2)) = 0) as H0.
      { unfold count_at. rewrite Hl. unfold renew_condition. cbn.
        by rewrite (bool_decide_eq_false_2 (w2 = w1)) by done. }
      rewrite H0, update_at_miss by (by rewrite H0).
      replace (set_operations (db_operations (conn_db c2)) (conn_db c2)) with (conn_db c2) by (by destruct (conn_db c2)).
      destruct (decide (Constraints (conn_db c2))); [|done]. cbn. by eexists.
    + intros. unfold ConfirmSync, WithWriteTx, mbind, tx_bind, tx_row, op_with_allocation. rewrite Hl. cbn.
      destruct (db_allocations (conn_db c2) !! op_AllocationID o); [|done]. cbn. by rewrite Hno.
    + intros. eapply finishLeased_other; [done|auto].
    + intros. eapply finishLeased_other; [done|auto].
  - intros w3 now' d' work' c3 Hlt H. unfold LeaseDueSync in H. tx_step H.
    destruct a0 as [o'|]; [|by apply tx_ret_ok in H as [? _]]. tx_step H. apply tx_ret_ok in H as [Hw ->].
    injection Hw as ->. cbn [sw_Operation]. destruct (lease_tx_ok _ _ _ _ _ _ Hc1 E) as (Ho' & Hd' & _).
    intros He. rewrite He, Hl in Ho'. injection Ho' as <-. unfold due_sync in Hd'. cbn in Hd'.
    apply andb_true_iff in Hd' as [Hd' _]. rewrite (proj2 (Z.leb_gt _ _) Hlt) in Hd'. done.
Qed.

Lemma lease_fences_witness : Constraints (conn_db conn5) /\ exists work,
  LeaseDueSync "w1" t0 (30 * Second) conn5 = (Ok (Some work), conn7) /\
  op_ID (sw_Operation work) = alice_operation /\
  forall revision v present now',
    conn_db (ConfirmSync (op_ID (sw_Operation work)) "w0" revision v present now' conn7).2 = conn_db conn7.
Proof.
  assert (Constraints (conn_db conn5)) as Hc by (apply (bool_decide_unpack _); vm_compute; reflexivity).
  split; [exact Hc|].
  eassert ((LeaseDueSync "w1" t0 (30 * Second) conn5).1 = Ok (Some _)) as Hr by (vm_compute; reflexivity).
  assert (forall w, (LeaseDueSync "w1" t0 (30 * Second) conn5).1 = Ok (Some w) ->
    LeaseDueSync "w1" t0 (30 * Second) conn5 = (Ok (Some w), conn7)) as Hpair
    by (intros w Hw; rewrite <- Hw; apply surjective_pairing).
  pose proof (Hpair _ Hr) as He. eexists. split; [exact He|]. split; [reflexivity|].
  destruct (lease_fences _ _ _ _ _ _ Hc He) as (_ & _ & _ & _ & H & _).
  intros revision v present now'. destruct (H "w0" ltac:(discriminate)) as (_ & H2 & _). apply H2.
Defined.
