(* ===== verification/Keys.v ===== *)
(** * Keys become active by a confirmation only

    A credential is pending when it is stored; the one transaction that
    activates it is the confirmation of a presence with its version. *)

From Stdlib Require Import ZArith Lia.
From S2P Require Import Prelude GoTypes Identity Ports Text Inbound Tokens User Sync Quota Traffic Template Cycle Records Database Secrets StoreCore StoreSync StoreQuota StoreUsers StoreTraffic StoreDrift StoreTemplates UserService StoreSessions Demo Intent IntentTx IntentSync IntentUser History Rows SyncLaws.

(** The allocation, version and sealed key of a credential. *)
Definition key_of (c : AccessCredential) :=
  (cr_AllocationID c, cr_Version c, cr_KeyCiphertext c, cr_KeyNonce c, cr_KeyEncryptionVersion c).
Definition active (c : AccessCredential) : Prop := cr_State c = CredentialActive.

Definition no_new_key (db db' : DB) : Prop := forall id c', db_credentials db' !! id = Some c' -> active c' ->
  exists c, db_credentials db !! id = Some c /\ active c /\ key_of c = key_of c'.
#[global] Instance no_new_key_preorder : PreOrder no_new_key.
Proof.
  split; [intros db id c' Hc Ha; by exists c'|]. intros db db' db'' H1 H2 id c'' Hc Ha.
  destruct (H2 id c'' Hc Ha) as (c' & Hc' & Ha' & E). destruct (H1 id c' Hc' Ha') as (c & Hc0 & Ha0 & E0).
  exists c. split_and!; [done|done|congruence].
Qed.

Lemma no_new_insert db db' k r : db_credentials db' = <[k := r]> (db_credentials db) -> ~ active r -> no_new_key db db'.
Proof.
  intros E Hr id c'. rewrite E. intros [[<- <-]|[_ Hc]]%lookup_insert_Some Ha; [done|]. by exists c'.
Qed.
Lemma no_new_update db db' cond f : db_credentials db' = update_rows cond f (db_credentials db) ->
  (forall c, cond c = true -> ~ active (f c)) -> no_new_key db db'.
Proof.
  intros E Hf id c'. rewrite E, lookup_update_rows. intros (c & Hc & ->)%fmap_Some Ha.
  exists c. destruct (cond c) eqn:Ec; [by destruct (Hf c Ec)|done].
Qed.

Ltac keys_leaf :=
  intros; repeat case_match;
  first [ reflexivity
        | intros ? ? ? ?; eexists; split_and!; [eassumption|done|done]
        | eapply no_new_insert; [reflexivity|done]
        | eapply no_new_update; [reflexivity|done] ].
Ltac keys_walk := respects_walk ltac:(keys_leaf).

Lemma AppendAudit_keys e : respects no_new_key (AppendAudit e).
Proof. unfold AppendAudit. keys_walk. Qed.
Lemma SaveCommand_keys command : respects no_new_key (SaveCommand command).
Proof. unfold SaveCommand, FindCommand. keys_walk. Qed.
Lemma commandReplay_keys command : respects no_new_key (commandReplay command).
Proof. unfold commandReplay, FindCommand. keys_walk. Qed.
#[export] Hint Resolve AppendAudit_keys SaveCommand_keys commandReplay_keys : respects.
Lemma append_all_keys es : respects no_new_key (append_all es).
Proof. induction es; cbn; keys_walk. Qed.
Lemma insertOperation_keys op : respects no_new_key (insertOperation op).
Proof. unfold insertOperation, setInboundDesired. keys_walk. Qed.
Lemma supersedeOlder_keys k r now : respects no_new_key (supersedeOlder k r now).
Proof. unfold supersedeOlder. keys_walk. Qed.
#[export] Hint Resolve append_all_keys insertOperation_keys supersedeOlder_keys : respects.
Lemma insert_events_keys es : respects no_new_key (insert_events es).
Proof. induction es; cbn; unfold insertContinuityEvent; keys_walk. Qed.
Lemma applyDecision_keys k f d e template now : respects no_new_key (applyDecision k f d e template now).
Proof. unfold applyDecision. keys_walk. Qed.
#[export] Hint Resolve insert_events_keys applyDecision_keys : respects.

Section Steps.
Context {Zn : Zones} {En : Entropy} {Un : Unicode} {Ae : Aead} {Sh : Sha256}.

Lemma settle_loop_keys k now : respects no_new_key (settle_loop k now).
Proof. apply settle_loop_respects; [apply _|]. unfold settle_step. keys_walk. Qed.
#[local] Hint Resolve settle_loop_keys : respects.
Lemma settleCycles_keys k now template audit : respects no_new_key (settleCycles k now template audit).
Proof. unfold settleCycles, readFacts. keys_walk. Qed.
#[local] Hint Resolve settleCycles_keys : respects.
Lemma commit_updates_keys now result us : respects no_new_key (commit_updates now result us).
Proof.
  revert result. induction us as [|u us IH]; intros result; cbn [commit_updates]; [keys_walk|].
  unfold commit_update, add_traffic, block_if_exceeded, readFacts. keys_walk.
Qed.
#[local] Hint Resolve commit_updates_keys : respects.

(** The allocation of an active key is confirmed with its version. *)
Definition confirmed_key (db : DB) (c : AccessCredential) : Prop :=
  exists a, db_allocations db !! cr_AllocationID c = Some a /\ a_SyncedCredentialVersion a = Some (cr_Version c) /\
    a_ProjectionState a = ProjectionPresent /\ a_ObservedPresent a = Some true.

Lemma ConfirmSync_keys id owner revision v present now c id' c' :
  let db' := conn_db (ConfirmSync id owner revision v present now c).2 in
  db_credentials db' !! id' = Some c' -> active c' ->
  confirmed_key db' c' \/ exists c0, db_credentials (conn_db c) !! id' = Some c0 /\ active c0 /\ key_of c0 = key_of c'.
Proof.
  destruct (ConfirmSync id owner revision v present now c) as [r c2] eqn:E. cbn [snd]. intros Hc Ha.
  destruct present.
  2: { right. assert (respects no_new_key (ConfirmSync id owner revision v false now)) as Hk.
       { unfold ConfirmSync, confirm_credentials, destroy_credentials, confirmInboundPresence, releaseInboundPort. keys_walk. }
       specialize (Hk c). rewrite E in Hk. by apply (Hk id' c'). }
  destruct r as [r|err]; [|right; exists c'; split; [|done]; by rewrite <- (WithWriteTx_err _ _ _ _ E)].
  apply WithWriteTx_ok in E. tx_step E. apply tx_row_ok in E0 as [E0 ->]. destruct a as [o a].
  apply op_with_allocation_ok in E0 as [Ho Hal].
  destruct (negb (owned_by owner o)); [apply tx_ret_ok in E as [_ ->]; right; by exists c'|].
  destruct (bool_decide (a_DesiredRevision a <> revision)).
  { tx_step E. apply tx_ret_ok in E as [_ ->]. apply tx_exec_ok in E0 as (E0 & _). rewrite E0 in Hc. right. by exists c'. }
  tx_step E. tx_step E0. apply tx_exec_ok in E1 as (E1 & _). apply tx_exec_ok in E0 as (E2 & _).
  tx_step E. apply tx_exec_ok in E0 as (E3 & _). tx_step E. apply tx_exec_ok in E0 as (E4 & _).
  tx_step E. apply tx_exec_ok in E0 as (E5 & _). apply tx_ret_ok in E as [_ ->].
  rewrite E5, E4, E3, E2, E1 in Hc. cbn in Hc. rewrite !lookup_update_rows in Hc.
  apply fmap_Some in Hc as (cx & (cr0 & Hc0 & ->)%fmap_Some & ->).
  destruct (_ && bool_decide (cr_State cr0 <> CredentialDestroyed)); [|].
  { cbn in Ha. rewrite (bool_decide_eq_false_2 (CredentialDestroyed = CredentialPending)), andb_false_r in Ha by done. done. }
  destruct (_ && bool_decide (cr_State cr0 = CredentialPending)) eqn:Ep; [|right; by exists cr0].
  left. apply andb_true_iff in Ep as [[Hk%bool_decide_eq_true Hv%Z.eqb_eq]%andb_true_iff _].
  eexists. rewrite E5, E4, E3, E2, E1. cbn. rewrite Hk, (update_at_every _ _ _ a) by done.
  rewrite lookup_insert_eq. split; [done|]. cbn. rewrite Hv. done.
Qed.

Lemma step_keys old c c' id k' : step old c c' -> db_credentials (conn_db c') !! id = Some k' -> active k' ->
  confirmed_key (conn_db c') k' \/ exists k, db_credentials (conn_db c) !! id = Some k /\ active k /\ key_of k = key_of k'.
Proof.
  intros Hs Hc Ha.
  assert (no_new_key (conn_db c) (conn_db c') \/
    exists i o r v p n, c' = (ConfirmSync i o r v p n c).2) as [Hk|(i & o & r & v & p & n & ->)].
  { destruct Hs; try (by right; repeat eexists); left; try done;
      (match goal with |- no_new_key _ (conn_db (?m _).2) => refine ((_ : respects no_new_key m) _) end);
      unfold_transactions; keys_walk. }
  - right. by apply (Hk id k').
  - by apply ConfirmSync_keys.
Qed.
End Steps.
