(* ===== verification/Rollover.v ===== *)
(** * Cycles roll over in order and completely

    The loop of [settleCycles]: it ends, whatever the distance between the
    stored cycle and the clock, and leaves one open cycle that ends after the
    clock, each new cycle starting where an older one ended. *)

From Stdlib Require Import ZArith Lia.
From S2P Require Import Prelude GoTypes Identity User Sync Quota Traffic Template Cycle Records Database StoreCore StoreSync StoreQuota StoreTraffic Demo Intent IntentTx.

#[local] Ltac Zify.zify_post_hook ::= Z.to_euclidean_division_equations.

Lemma run_until_stops {S R} (step : S -> S + R) p s r : step s = inr r -> run_until p step s = inr r.
Proof. intros H. induction p as [p IH|p IH|]; cbn; rewrite ?H, ?IH; done. Qed.

Lemma open_cycle_some k db cy : open_cycle k db = Some cy ->
  qc_AllocationID cy = k /\ is_open cy = true /\ exists id, db_cycles db !! id = Some cy.
Proof.
  intros [H Hex]%find_row_some. apply andb_true_iff in H as [H1%bool_decide_eq_true H2]. done.
Qed.

Lemma open_cycle_unique k db id cy : unique_on is_open qc_AllocationID (db_cycles db) ->
  db_cycles db !! id = Some cy -> qc_AllocationID cy = k -> is_open cy = true -> open_cycle k db = Some cy.
Proof.
  intros Hu Hid Hk Ho. destruct (open_cycle k db) as [cy'|] eqn:E.
  - apply open_cycle_some in E as (Hk' & Ho' & id' & Hid').
    assert (id' = id) as -> by (apply (Hu id' cy' Hid' id cy Hid); congruence). congruence.
  - eapply find_row_none in E; [|done]. cbn in E. rewrite bool_decide_eq_true_2, Ho in E by done. done.
Qed.

Lemma open_cycle_of k db id cy : cycles_ok db -> db_cycles db !! id = Some cy -> qc_AllocationID cy = k ->
  is_open cy = true -> open_cycle k db = Some cy.
Proof. intros (_ & _ & Hu). by apply open_cycle_unique. Qed.

Definition close_cycle (now : Time) (c : QuotaCycleRecord) : QuotaCycleRecord :=
  c <| qc_Status := CycleClosed |> <| qc_ClosedAt := Some (ms now) |>.

Section Rollover.
Context {Zn : Zones} {En : Entropy}.

Lemma settle_step_ok k now c b c2 : Constraints (conn_db c) -> settle_step k now c = (Ok b, c2) ->
  exists cy, open_cycle k (conn_db c) = Some cy /\
  if b then qc_EndsAt cy <= now /\ Constraints (conn_db c2) /\
    exists id new, db_cycles (conn_db c) !! id = None /\ id <> qc_ID cy /\
      db_cycles (conn_db c2) = <[id := new]> (<[qc_ID cy := close_cycle now cy]> (db_cycles (conn_db c))) /\
      open_cycle k (conn_db c2) = Some new /\ qc_StartsAt new = ms (qc_EndsAt cy) /\
      qc_EndsAt cy < qc_EndsAt new /\ whole_second (qc_EndsAt new) /\
      cycle_bytes_ok new /\ qc_GrossUplinkBytes new = 0 /\ qc_GrossDownlinkBytes new = 0 /\
      qc_AccountedUplinkBytes new = 0 /\ qc_AccountedDownlinkBytes new = 0
  else c2 = c /\ now < qc_EndsAt cy.
Proof.
  intros Hc H. unfold settle_step in H. tx_step H. apply wrap_ok, tx_row_ok in E as [Ho ->].
  rename a into cy. exists cy. split; [done|].
  destruct (After (qc_EndsAt cy) now) eqn:Ha; unfold After in Ha; to_prop.
  { apply tx_ret_ok in H as [-> ->]. done. }
  tx_step H. apply wrap_ok, tx_row_ok in E as [Hp ->]. destruct a as [day timezone].
  tx_step H. destruct a as [start' end_]. injection E as Hb ->.
  destruct (CycleBounds_ok _ _ _ _ _ Hb) as (_ & _ & Hw).
  destruct (negb (After end_ (qc_EndsAt cy))) eqn:He; [done|]. unfold After in He. to_prop.
  tx_step H. apply tx_exec_ok in E as (E & Hc1 & _). tx_step H. injection E0 as Hid <-.
  tx_step H. apply wrap_ok, insert_row_ok in E0 as (Hn & E0 & Hc2 & _). apply tx_ret_ok in H as [-> ->].
  apply open_cycle_some in Ho as (Hk & Hop & key & Hkey).
  destruct (con_cycles _ Hc) as [Hall _]. destruct (Hall key cy Hkey) as [<- _].
  assert (db_cycles (conn_db c) = <[qc_ID cy := close_cycle now cy]> (db_cycles (conn_db c0))) as EC.
  { rewrite E. cbn. unfold update_at. by rewrite Hkey, Hop. }
  change (db_cycles (conn_db c) !! a0 = None) in Hn. rewrite EC in Hn.
  apply lookup_insert_None in Hn as [Hn Hne].
  split; [lia|]. split; [done|].
  set (new := mkCycle a0 k (ms (qc_EndsAt cy)) (ms end_) timezone day CycleOpen 0 0 0 0 0 (ms now) None) in *.
  exists a0, new. assert (qc_EndsAt new = end_) as Hend by (by apply fromMillis_millis_whole).
  assert (db_cycles (conn_db c1) = <[a0 := new]> (<[qc_ID cy := close_cycle now cy]> (db_cycles (conn_db c0)))) as EC3
    by (rewrite E0; cbn; by rewrite EC).
  split_and!; try done; [|by rewrite Hend|by rewrite Hend].
  apply (open_cycle_of _ _ a0); [apply Hc2|by rewrite EC3, lookup_insert_eq|done|done].
Qed.

(** What [n] turns of the loop did to the cycles. *)
Record settled (k : ID) (now : Time) (db db' : DB) (n : Z) : Prop := {
  st_count : 0 <= n /\ Z.of_nat (size (db_cycles db')) = Z.of_nat (size (db_cycles db)) + n;
  st_kept : forall id cy, db_cycles db !! id = Some cy -> exists cy', db_cycles db' !! id = Some cy' /\
    (cy' = cy \/ (cy' = close_cycle now cy /\ qc_AllocationID cy = k /\ qc_EndsAt cy <= now));
  st_new : forall id cy, db_cycles db' !! id = Some cy -> db_cycles db !! id = None ->
    qc_AllocationID cy = k /\
    qc_GrossUplinkBytes cy = 0 /\ qc_GrossDownlinkBytes cy = 0 /\
    qc_AccountedUplinkBytes cy = 0 /\ qc_AccountedDownlinkBytes cy = 0 /\
    exists id' prev, db_cycles db' !! id' = Some prev /\ qc_AllocationID prev = k /\ is_open prev = false /\
      qc_StartsAt cy = ms (qc_EndsAt prev) }.

Lemma settled_refl k now db : settled k now db db 0.
Proof. split; [lia|eauto|congruence]. Qed.

Lemma settled_step k now db c c2 n : Constraints (conn_db c) -> settled k now db (conn_db c) n ->
  settle_step k now c = (Ok true, c2) -> settled k now db (conn_db c2) (n + 1).
Proof.
  intros Hc [[Hn0 Hn] Hkept Hnew] H. destruct (settle_step_ok k now c true c2 Hc H) as (cy & Ho & Hle & Hc2 & id & new &
    Hfresh & Hne & EC & Hon & Hst & _ & _ & _ & G1 & G2 & G3 & G4).
  apply open_cycle_some in Ho as (Hk & Hop & key & Hkey). apply open_cycle_some in Hon as (Hkn & _).
  destruct (con_cycles _ Hc) as [Hall _]. destruct (Hall key cy Hkey) as [<- _].
  assert (<[qc_ID cy := close_cycle now cy]> (db_cycles (conn_db c)) !! id = None) as Hfresh'
    by (by rewrite lookup_insert_ne).
  split; rewrite EC.
  - rewrite map_size_insert_None, map_size_insert_Some by eauto. lia.
  - intros id0 cy0 H0. destruct (Hkept id0 cy0 H0) as (cy1 & H1 & Hcy1).
    destruct (decide (id0 = id)) as [->|Hid]; [congruence|]. rewrite lookup_insert_ne by done.
    destruct (decide (id0 = qc_ID cy)) as [->|Hid2].
    + rewrite lookup_insert_eq. eexists. split; [done|]. right.
      assert (cy1 = cy) as -> by congruence. destruct Hcy1 as [->|(-> & _)]; [done|]. by cbn in Hop.
    + rewrite lookup_insert_ne by done. eauto.
  - assert (forall id' cy', db_cycles (conn_db c) !! id' = Some cy' -> exists prev,
      <[id:=new]> (<[qc_ID cy:=close_cycle now cy]> (db_cycles (conn_db c))) !! id' = Some prev /\
      qc_AllocationID prev = qc_AllocationID cy' /\ qc_EndsAt prev = qc_EndsAt cy' /\
      (is_open cy' = false -> is_open prev = false)) as Hprev.
    { intros id' cy' H'. destruct (decide (id' = id)) as [->|]; [congruence|]. rewrite lookup_insert_ne by done.
      destruct (decide (id' = qc_ID cy)) as [->|].
      - rewrite lookup_insert_eq. assert (cy' = cy) as -> by congruence. by eexists.
      - rewrite lookup_insert_ne by done. by exists cy'. }
    intros id0 cy0 [[-> ->]|[Hid H1]]%lookup_insert_Some H0.
    + split_and!; try done. destruct (Hprev _ _ Hkey) as (prev & Hp & Hpk & Hpe & _).
      exists (qc_ID cy), (close_cycle now cy). rewrite lookup_insert_ne, lookup_insert_eq by done. done.
    + apply lookup_insert_Some in H1 as [[<- <-]|[Hid2 H1]].
      * destruct (Hnew _ _ Hkey H0) as (? & ? & ? & ? & ? & id' & prev & Hp & Hpk & Hpo & Hps).
        destruct (Hprev _ _ Hp) as (prev' & ? & ? & ? & ?).
        split_and!; try done. exists id', prev'. split_and!; [done|congruence|auto|]. cbn. congruence.
      * destruct (Hnew _ _ H1 H0) as (? & ? & ? & ? & ? & id' & prev & Hp & Hpk & Hpo & Hps).
        destruct (Hprev _ _ Hp) as (prev' & ? & ? & ? & ?).
        split_and!; try done. exists id', prev'. split_and!; [done|congruence|auto|congruence].
Qed.

(** The whole seconds between the end of the open cycle and the clock. *)
Definition lag (k : ID) (now : Time) (db : DB) : Z :=
  match open_cycle k db with
  | Some cy => Z.max 0 (now / Second - qc_EndsAt cy / Second + 1)
  | None => 0
  end.

Lemma lag_step k now c c2 : Constraints (conn_db c) -> settle_step k now c = (Ok true, c2) ->
  0 <= lag k now (conn_db c2) < lag k now (conn_db c).
Proof.
  intros Hc H. destruct (settle_step_ok k now c true c2 Hc H) as (cy & Ho & Hle & _ & id & new & _ & _ & _ & Hon & _ & Hlt & [s Hs] & _).
  unfold lag. rewrite Ho, Hon, Hs. unfold Second, Millisecond in *. lia.
Qed.

Lemma settle_fuel_enough k now c cy : open_cycle k (conn_db c) = Some cy -> qc_EndsAt cy <= now ->
  lag k now (conn_db c) < Zpos (settle_fuel k now (conn_db c)).
Proof.
  intros Ho Hle. unfold lag, settle_fuel. rewrite Ho.
  assert (0 <= (now - qc_EndsAt cy) / Second <= (now - qc_EndsAt cy) / Millisecond) as H1.
  { split; [apply Z.div_pos; [lia|done]|apply Z.div_le_compat_l; [lia|done]]. }
  assert (now / Second - qc_EndsAt cy / Second <= (now - qc_EndsAt cy) / Second + 1) as H2
    by (unfold Second, Millisecond; lia).
  revert H1 H2. generalize (now / Second), (qc_EndsAt cy / Second), ((now - qc_EndsAt cy) / Second),
    ((now - qc_EndsAt cy) / Millisecond). intros. rewrite Z2Pos.id by lia. lia.
Qed.

(** The result of the loop is the answer of one of its turns, with what the
    turns before it did. *)
Lemma settle_loop_run k now c : Constraints (conn_db c) ->
  exists n c1 r, Constraints (conn_db c1) /\ settled k now (conn_db c) (conn_db c1) n /\ (n = 0 -> conn_db c1 = conn_db c) /\
    settle_turn k now (n, c1) = inr r /\ settle_loop k now c = r.
Proof.
  intros Hc.
  set (Inv := fun s : Z * Conn => Constraints (conn_db s.2) /\ settled k now (conn_db c) (conn_db s.2) s.1 /\
    (s.1 = 0 -> conn_db s.2 = conn_db c)).
  assert (Inv (0, c)) as Hinv by (split_and!; [done|apply settled_refl|done]).
  assert (forall s s', Inv s -> settle_turn k now s = inl s' -> Inv s' /\ 0 <= lag k now (conn_db s'.2) < lag k now (conn_db s.2)) as Hstep.
  { intros s s' (Hcs & Hs & _) [E En']%settle_turn_inl. split; [|by apply lag_step].
    destruct (settle_step_ok k now s.2 true s'.2 Hcs E) as (? & _ & _ & Hc' & _).
    pose proof (settled_step k now _ _ _ _ Hcs Hs E) as Hs'. rewrite <- En' in Hs'. split_and!; [done|done|].
    destruct Hs as [[? _] _ _]. lia. }
  assert (exists r s', run_until (settle_fuel k now (conn_db c)) (settle_turn k now) (0, c) = inr r /\ Inv s' /\
    settle_turn k now s' = inr r) as (r & [n c1] & Hr & (H1 & H2 & H3) & Ht).
  { destruct (settle_turn k now (0, c)) as [s'|r] eqn:E.
    - apply (run_until_terminates Inv (fun s => lag k now (conn_db s.2))); [done|done|].
      apply settle_turn_inl in E as [E _]. destruct (settle_step_ok k now c true s'.2 Hc E) as (cy & Ho & Hle & _).
      by eapply settle_fuel_enough.
    - exists r, (0, c). split; [by apply run_until_stops|done]. }
  exists n, c1, r. split_and!; try done. unfold settle_loop. by rewrite Hr.
Qed.

Lemma settle_loop_correct_run k now c : Constraints (conn_db c) ->
  exists r c2, settle_loop k now c = (r, c2) /\
  match r with
  | Err e => exists n c1, settled k now (conn_db c) (conn_db c1) n /\ settle_step k now c1 = (Err e, c2)
  | Ok n =>
      settled k now (conn_db c) (conn_db c2) n /\ (n = 0 -> conn_db c2 = conn_db c) /\
      exists last, open_cycle k (conn_db c2) = Some last /\ now < qc_EndsAt last /\
        forall id cy, db_cycles (conn_db c2) !! id = Some cy -> qc_AllocationID cy = k -> is_open cy = true -> cy = last
  end.
Proof.
  intros Hc. destruct (settle_loop_run k now c Hc) as (n & c1 & r & Hc1 & Hs & H0 & Ht & ->).
  destruct r as [r c2]. exists r, c2. split; [done|].
  apply settle_turn_inr in Ht as (b & E & Hb & Hok & Herr). cbn [fst snd] in *.
  destruct b as [[|]|e]; [done| |].
  - rewrite (Hok eq_refl). destruct (settle_step_ok k now c1 false c2 Hc1 E) as (cy & Ho & -> & Hlt).
    split; [done|]. split; [done|]. exists cy. split; [done|]. split; [done|].
    intros id cy' Hid Hk Hop. assert (open_cycle k (conn_db c1) = Some cy') as Ho'; [|congruence].
    by apply (open_cycle_of k _ id); [apply Hc1|..].
  - rewrite (Herr e eq_refl). eauto.
Qed.

(** C23: settling the cycles of an allocation always ends, in an answer that is
    either the error of one of its statements or a success; a success leaves
    the tables as they were when no boundary was crossed, and otherwise leaves
    the allocation with exactly one open cycle, which ends after the clock;
    every older cycle keeps its bounds and its counters, at most closed; and
    every cycle that was opened starts with zero usage where a closed one
    ended, as many as the boundaries reported. *)
Theorem settle_loop_correct k now c : Constraints (conn_db c) ->
  exists r c2, settle_loop k now c = (r, c2) /\
  match r with
  | Err e => exists n c1, settled k now (conn_db c) (conn_db c1) n /\ settle_step k now c1 = (Err e, c2)
  | Ok n =>
      settled k now (conn_db c) (conn_db c2) n /\ (n = 0 -> conn_db c2 = conn_db c) /\
      exists last, open_cycle k (conn_db c2) = Some last /\ now < qc_EndsAt last /\
        forall id cy, db_cycles (conn_db c2) !! id = Some cy -> qc_AllocationID cy = k -> is_open cy = true -> cy = last
  end.
Proof. apply settle_loop_correct_run. Qed.

(** ** The transaction around the loop *)

(** The tables of the accounts. *)
Definition books (db : DB) := (db_totals db, db_cycles db, db_daily db).

Lemma applyDecision_leaves k f d e template now : leaves books (applyDecision k f d e template now).
Proof. unfold applyDecision, supersedeOlder, insertOperation, setInboundDesired. leaves_walk. Qed.
Lemma AppendAudit_leaves audit : leaves books (AppendAudit audit).
Proof. unfold AppendAudit. leaves_walk. Qed.
#[local] Hint Resolve applyDecision_leaves AppendAudit_leaves : leaves.

Lemma settle_step_leaves k now : leaves (fun db => (db_totals db, db_daily db)) (settle_step k now).
Proof. unfold settle_step. leaves_walk. Qed.
Lemma settle_loop_leaves k now : leaves (fun db => (db_totals db, db_daily db)) (settle_loop k now).
Proof.
  intros c. unfold settle_loop. set (g := fun db => (db_totals db, db_daily db)).
  assert (forall s, match settle_turn k now s with inl s' => g (conn_db s'.2) | inr r => g (conn_db r.2) end = g (conn_db s.2)) as Ht.
  { intros [n c0]. unfold settle_turn. pose proof (settle_step_leaves k now c0) as Hl. cbn [snd fst].
    by destruct (settle_step k now c0) as [[[]|?] ?]. }
  assert (forall s s', g (conn_db s.2) = g (conn_db c) -> settle_turn k now s = inl s' -> g (conn_db s'.2) = g (conn_db c)) as Hs.
  { intros s s' Hs E. specialize (Ht s). rewrite E in Ht. exact (eq_trans Ht Hs). }
  pose proof (run_until_inv _ _ (settle_fuel k now (conn_db c)) (0, c) Hs eq_refl) as Hr.
  destruct (run_until _ _ _) as [[n c']|[r c']]; [exact Hr|]. destruct Hr as (s' & H1 & E).
  specialize (Ht s'). rewrite E in Ht. exact (eq_trans Ht H1).
Qed.

(** The open cycle of the allocation ends after [now]. *)
Definition current (k : ID) (now : Time) (db : DB) : Prop := exists cy, open_cycle k db = Some cy /\ now < qc_EndsAt cy.

Lemma settleCycles_settled k now template audit c out c2 : Constraints (conn_db c) ->
  settleCycles k now template audit c = (Ok out, c2) ->
  exists n c1, settled k now (conn_db c) (conn_db c1) n /\ current k now (conn_db c1) /\
    db_totals (conn_db c1) = db_totals (conn_db c) /\ db_daily (conn_db c1) = db_daily (conn_db c) /\
    books (conn_db c2) = books (conn_db c1).
Proof.
  intros Hc H. unfold settleCycles in H. tx_step H. pose proof (leaves_run _ _ _ _ _ (settle_loop_leaves k now) E) as Hl.
  destruct (settle_loop_correct_run k now c Hc) as (r & c1 & E' & Hr). rewrite E in E'. injection E' as <- <-.
  destruct Hr as (Hs & _ & cy & Ho & Hn & _). exists a, c0. split; [done|]. split; [by exists cy|].
  injection Hl as Ht Hd. split; [done|]. split; [done|].
  match type of H with ?m _ = _ => assert (leaves books m) as Hb end.
  { unfold readFacts. leaves_walk. }
  exact (leaves_run _ _ _ _ _ Hb H).
Qed.

(** Settling one allocation keeps the others current. *)
Lemma settled_current k k' now db db' n : k' <> k -> unique_on is_open qc_AllocationID (db_cycles db') ->
  settled k now db db' n ->
  current k' now db -> current k' now db'.
Proof.
  intros Hk Hc Hs (cy & Ho & Hn). apply open_cycle_some in Ho as (Hk' & Hop & id & Hid).
  destruct (st_kept _ _ _ _ _ Hs id cy Hid) as (cy' & Hid' & [->|(_ & ? & _)]); [|congruence].
  exists cy. split; [|done]. by apply (open_cycle_unique _ _ id).
Qed.
End Rollover.

Lemma settle_loop_correct_witness : Constraints (conn_db conn5) /\
  exists r c2, settle_loop alice_allocation (t0 + 100 * 24 * Hour) conn5 = (r, c2) /\
  r = Ok 3 /\ exists last, open_cycle alice_allocation (conn_db c2) = Some last /\ t0 + 100 * 24 * Hour < qc_EndsAt last.
Proof.
  assert (Constraints (conn_db conn5)) as Hc by (apply (bool_decide_unpack _); vm_compute; reflexivity).
  split; [exact Hc|].
  destruct (settle_loop_correct alice_allocation (t0 + 100 * 24 * Hour) conn5 Hc) as (r & c2 & He & Hm).
  assert (r = Ok 3) as -> by (change r with ((r, c2).1); rewrite <- He; vm_compute; reflexivity).
  exists (Ok 3), c2. split; [exact He|]. split; [reflexivity|].
  destruct Hm as (_ & _ & last & Ho & Hl & _). exists last. split; [exact Ho|exact Hl].
Defined.
