(* ===== verification/Ledger.v ===== *)
(** * The books balance

    The bytes of a user are kept three times: in the totals, in the cycles and
    in the daily aggregates. In every reachable state the three agree, and
    what counts against a quota never exceeds what was carried. *)

From Stdlib Require Import ZArith Lia.
From S2P Require Import Prelude GoTypes Identity Ports Text Inbound Tokens User Sync Quota Traffic Template Cycle Records Database Secrets StoreCore StoreSync StoreQuota StoreUsers StoreTraffic StoreDrift StoreTemplates UserService StoreSessions Demo Intent IntentTx IntentSync IntentUser History Rollover.

(** ** Sums over a table *)
Section Sum.
Context {K R : Type} `{Countable K}.

Definition msum (f : K -> R -> Z) (m : gmap K R) : Z := map_fold (fun k r acc => f k r + acc) 0 m.

Lemma msum_empty f : msum f ∅ = 0.
Proof. apply map_fold_empty. Qed.
Lemma msum_insert f m k r : m !! k = None -> msum f (<[k := r]> m) = f k r + msum f m.
Proof. intros Hk. unfold msum. rewrite map_fold_insert_L; [done| |done]. intros. lia. Qed.
Lemma msum_delete f m k r : m !! k = Some r -> msum f m = f k r + msum f (delete k m).
Proof. intros Hk. rewrite <- (msum_insert f (delete k m) k r), insert_delete_eq by (by rewrite ?lookup_delete_eq). by rewrite insert_id. Qed.
Lemma msum_update f m k r r' : m !! k = Some r -> msum f (<[k := r']> m) = msum f m - f k r + f k r'.
Proof.
  intros Hk. rewrite (msum_delete f m k r Hk), <- insert_delete_eq, msum_insert by apply lookup_delete_eq. lia.
Qed.
Lemma msum_zero f m : (forall k r, m !! k = Some r -> f k r = 0) -> msum f m = 0.
Proof.
  induction m as [|k r m Hk IH] using map_ind; intros Hz; [apply msum_empty|].
  rewrite msum_insert, (Hz k r) by (done || apply lookup_insert_eq). apply IH. intros k' r' Hk'. apply Hz.
  by rewrite lookup_insert_ne by congruence.
Qed.
Lemma msum_member f m k r : (forall k r, m !! k = Some r -> 0 <= f k r) -> m !! k = Some r -> f k r <= msum f m.
Proof.
  intros Hn Hk. rewrite (msum_delete f m k r Hk).
  assert (forall m' : gmap K R, m' ⊆ m -> 0 <= msum f m') as Hp.
  { induction m' as [|k' r' m' Hk' IH] using map_ind; intros Hs; [by rewrite msum_empty|]. rewrite msum_insert by done.
    assert (m !! k' = Some r') by (eapply lookup_weaken; [apply lookup_insert_eq|done]).
    assert (m' ⊆ m) by (etransitivity; [by apply insert_subseteq|done]).
    specialize (Hn k' r' ltac:(done)). specialize (IH ltac:(done)). lia. }
  specialize (Hp (delete k m) (delete_subseteq _ _)). lia.
Qed.

(** Rows that weigh the same, and new ones that weigh nothing. *)
Lemma msum_extend f m m' : (forall k r, m !! k = Some r -> exists r', m' !! k = Some r' /\ f k r' = f k r) ->
  (forall k r, m' !! k = Some r -> m !! k = None -> f k r = 0) -> msum f m' = msum f m.
Proof.
  revert m'. induction m as [|k r m Hk IH] using map_ind; intros m' Hold Hnew.
  { rewrite msum_empty. apply msum_zero. intros k r Hr. by apply Hnew. }
  destruct (Hold k r (lookup_insert_eq _ _ _)) as (r' & Hr' & Hf).
  rewrite (msum_delete f m' k r' Hr'), msum_insert, Hf by done. f_equal. apply IH.
  - intros k0 r0 H0. destruct (decide (k0 = k)) as [->|Hne]; [congruence|]. rewrite lookup_delete_ne by done.
    apply Hold. by rewrite lookup_insert_ne.
  - intros k0 r0 H0 Hn. apply lookup_delete_Some in H0 as [Hne H0]. apply (Hnew _ _ H0). by rewrite lookup_insert_ne.
Qed.
End Sum.

(** ** The books *)
Definition lifetime (d : Direction) (t : TotalsRow) : Z :=
  match d with Uplink => tt_UplinkBytes t | Downlink => tt_DownlinkBytes t end.
Definition gross (d : Direction) (c : QuotaCycleRecord) : Z :=
  match d with Uplink => qc_GrossUplinkBytes c | Downlink => qc_GrossDownlinkBytes c end.
Definition accounted (d : Direction) (c : QuotaCycleRecord) : Z :=
  match d with Uplink => qc_AccountedUplinkBytes c | Downlink => qc_AccountedDownlinkBytes c end.
Definition carried_on (d : Direction) (r : DailyRow) : Z :=
  match d with Uplink => da_UplinkBytes r | Downlink => da_DownlinkBytes r end.
Definition increment (d : Direction) (u : TrafficUpdate) : Z :=
  match d with Uplink => tu_UplinkDelta u | Downlink => tu_DownlinkDelta u end.

Definition in_cycle (k : ID) (d : Direction) (_ : ID) (c : QuotaCycleRecord) : Z :=
  if decide (qc_AllocationID c = k) then gross d c else 0.
Definition on_day (k : ID) (d : Direction) (key : ID * Z) (r : DailyRow) : Z :=
  if decide (key.1 = k) then carried_on d r else 0.

Record Ledger (totals : gmap ID TotalsRow) (cycles : gmap ID QuotaCycleRecord) (daily : gmap (ID * Z) DailyRow) : Prop := {
  lg_cycles : forall k t d, totals !! k = Some t -> lifetime d t = msum (in_cycle k d) cycles;
  lg_daily : forall k t d, totals !! k = Some t -> lifetime d t = msum (on_day k d) daily;
  lg_quota : forall id c d, cycles !! id = Some c -> accounted d c <= gross d c }.
Definition balanced (db : DB) : Prop := Ledger (db_totals db) (db_cycles db) (db_daily db).

Lemma balanced_books db db' : books db' = books db -> balanced db -> balanced db'.
Proof. unfold books, balanced. by intros [= -> -> ->]. Qed.
Lemma balanced_leaves {A} (m : Tx A) c : leaves books m -> balanced (conn_db c) -> balanced (conn_db (m c).2).
Proof. intros Hm. apply balanced_books, Hm. Qed.
Lemma balanced_tx {A} (m : Tx A) c : (forall r c2, m c = (Ok r, c2) -> balanced (conn_db c2)) ->
  balanced (conn_db c) -> balanced (conn_db (WithWriteTx m c).2).
Proof. intros Hm Hb. unfold WithWriteTx. destruct (m c) as [[r|e] c2]; [by eapply Hm|done]. Qed.

(** Cycles of the same weight, and new ones without any. *)
Lemma Ledger_cycles totals cycles cycles' daily : Ledger totals cycles daily ->
  (forall id c, cycles !! id = Some c -> exists c', cycles' !! id = Some c' /\ qc_AllocationID c' = qc_AllocationID c /\
     forall d, gross d c' = gross d c /\ accounted d c' <= gross d c') ->
  (forall id c, cycles' !! id = Some c -> cycles !! id = None -> forall d, gross d c = 0 /\ accounted d c <= 0) ->
  Ledger totals cycles' daily.
Proof.
  intros [H1 H2 H3] Hold Hnew. split; [|done|].
  - intros k t d Ht. rewrite (H1 k t d Ht). symmetry. apply msum_extend.
    + intros id c Hc. destruct (Hold id c Hc) as (c' & Hc' & Ha & Hg). exists c'. split; [done|].
      unfold in_cycle. rewrite Ha. destruct (Hg d) as [-> _]. done.
    + intros id c Hc Hn. unfold in_cycle. destruct (Hnew id c Hc Hn d) as [-> _]. by case_decide.
  - intros id c d Hc. destruct (cycles !! id) as [c0|] eqn:E.
    + destruct (Hold id c0 E) as (c' & Hc' & _ & Hg). replace c with c' by congruence. apply Hg.
    + destruct (Hnew id c Hc E d) as [-> ?]. done.
Qed.

Definition accounts (db : DB) := (db_totals db, db_cycles db, db_daily db, db_allocations db).
(** A statement that leaves a part of the tables alone. *)
Ltac untouched g E L :=
  let Hl := fresh "Hl" in
  match type of E with ?m _ = _ => assert (leaves g m) as Hl by (unfold insertDedicatedInbound; leaves_walk) end;
  pose proof (leaves_run _ _ _ _ _ Hl E) as L; clear Hl.

Section Steps.
Context {Zn : Zones} {En : Entropy} {Un : Unicode} {Ae : Aead} {Sh : Sha256}.

(** ** Opening an account *)
Lemma no_cycles k d db : cycles_ok db -> db_allocations db !! k = None -> msum (in_cycle k d) (db_cycles db) = 0.
Proof.
  intros [Hall _] Hk. apply msum_zero. intros id c Hc. unfold in_cycle. case_decide as Ha; [|done].
  destruct (Hall id c Hc) as (_ & _ & _ & _ & [a Hs]). congruence.
Qed.
Lemma no_days k d db : traffic_ok db -> db_allocations db !! k = None -> msum (on_day k d) (db_daily db) = 0.
Proof.
  intros (_ & _ & Hall & _) Hk. apply msum_zero. intros key r Hr. unfold on_day. case_decide as Ha; [|done].
  destruct (Hall key r Hr) as (_ & _ & [a Hs]). congruence.
Qed.

Lemma insert_user_rows_balanced record c r c2 : Constraints (conn_db c) -> balanced (conn_db c) ->
  (forall d, gross d (uc_Cycle record) = 0 /\ accounted d (uc_Cycle record) = 0) ->
  insert_user_rows record c = (Ok r, c2) -> balanced (conn_db c2).
Proof.
  intros Hc Hb Hz H. unfold insert_user_rows in H.
  tx_step H. untouched accounts E L1. tx_step H. untouched accounts E0 L2.
  tx_step H. apply insert_row_ok in E1 as (Hk & E1 & _).
  tx_step H. untouched books E2 L3. tx_step H. untouched books E3 L4. tx_step H. untouched books E4 L5.
  tx_step H. apply insert_row_ok in E5 as (Hid & E5 & _). tx_step H. apply insert_row_ok in E6 as (Ht & E6 & _).
  untouched books H L6.
  assert (books (conn_db c6) = books (conn_db c)) as B.
  { rewrite L5, L4, L3, E1. unfold accounts, books in *. cbn. congruence. }
  assert (db_allocations (conn_db c1) = db_allocations (conn_db c)) as A by (unfold accounts in *; congruence).
  injection B as B1 B2 B3. rewrite A in Hk.
  eapply (balanced_books (conn_db c8)); [exact L6|]. unfold balanced. rewrite E6. cbn [set_totals db_totals db_cycles db_daily].
  rewrite E5 in *. cbn in *. rewrite B1, B2, B3 in *.
  assert (Ledger (db_totals (conn_db c)) (<[qc_ID (uc_Cycle record) := store_cycle (uc_Cycle record)]> (db_cycles (conn_db c)))
            (db_daily (conn_db c))) as Hl.
  { apply (Ledger_cycles _ (db_cycles (conn_db c))); [done| |].
    - intros id cy Hcy. exists cy. split; [by rewrite lookup_insert_ne by congruence|]. split; [done|]. intros d. split; [done|].
      by apply (lg_quota _ _ _ Hb id).
    - intros id cy Hcy Hn d. apply lookup_insert_Some in Hcy as [[<- <-]|[_ ?]]; [|congruence].
      destruct (Hz d) as [Hg Ha]. destruct d; cbn in *; lia. }
  destruct Hl as [H1 H2 H3]. split; [| |done].
  - intros k t d [[<- <-]|[_ Hk']]%lookup_insert_Some; [|by apply H1].
    rewrite msum_insert, no_cycles by (done || apply con_cycles, Hc). unfold in_cycle. destruct (Hz d) as [Hg _].
    case_decide; destruct d; cbn in *; lia.
  - intros k t d [[<- <-]|[_ Hk']]%lookup_insert_Some; [|by apply H2].
    rewrite no_days by (done || apply con_traffic, Hc). by destruct d.
Qed.

(** ** Resetting and settling *)
Lemma reset_balanced record c : balanced (conn_db c) -> balanced (conn_db (ResetCycleTraffic record c).2).
Proof.
  intros Hb. apply balanced_tx; [|done]. intros r c2 H. tx_step H.
  assert (leaves books (commandReplay (qr_Command record))) as Hr by (unfold commandReplay, FindCommand; leaves_walk).
  pose proof (leaves_run _ _ _ _ _ Hr E) as L1. destruct (a : bool).
  { apply tx_ret_ok in H as [_ ->]. by eapply balanced_books. }
  tx_step H. untouched books E0 L2. tx_step H. untouched books E1 L3. tx_step H.
  assert (leaves books (SaveCommand (qr_Command record))) as Hs by (unfold SaveCommand, FindCommand; leaves_walk).
  pose proof (leaves_run _ _ _ _ _ Hs E2) as L4. tx_step H. untouched books E3 L5.
  tx_step H. apply tx_exec_ok in E4 as (E4 & Hc6 & _).
  match type of H with ?m _ = _ => assert (leaves books m) as Hm end.
  { unfold readFacts. pose proof applyDecision_leaves. pose proof AppendAudit_leaves. leaves_walk; done. }
  eapply balanced_books; [exact (leaves_run _ _ _ _ _ Hm H)|]. unfold balanced. rewrite E4. cbn.
  assert (balanced (conn_db c5)) as Hb5 by (eapply balanced_books; [|exact Hb]; congruence).
  apply (Ledger_cycles _ (db_cycles (conn_db c5))); [exact Hb5| |].
  - intros id cy Hcy. destruct (decide (qr_CycleID record = id)) as [<-|Hne].
    + destruct (con_cycles _ Hc6) as [Hall _]. specialize (Hall (qr_CycleID record) (reset_cycle cy)).
      cbn in Hall. rewrite lookup_update_at, decide_True, Hcy in * by done. exists (reset_cycle cy). split; [done|].
      split; [done|]. destruct (Hall eq_refl) as (_ & _ & _ & ([? _] & [? _] & _) & _). by intros [].
    + exists cy. rewrite lookup_update_at, decide_False by done. split; [done|]. split; [done|].
      intros d. split; [done|]. by apply (lg_quota _ _ _ Hb5 id).
  - intros id cy Hcy Hn. rewrite lookup_update_at, Hn in Hcy. by case_decide.
Qed.

Lemma settleCycles_balanced k now template audit c out c2 : Constraints (conn_db c) -> balanced (conn_db c) ->
  settleCycles k now template audit c = (Ok out, c2) ->
  balanced (conn_db c2) /\ exists cy, open_cycle k (conn_db c2) = Some cy.
Proof.
  intros Hc Hb H. destruct (settleCycles_settled _ _ _ _ _ _ _ Hc H) as (n & c1 & Hs & (cy & Ho & _) & Ht & Hd & E).
  pose proof E as E'. injection E' as _ Ec _. split.
  - eapply balanced_books; [exact E|]. unfold balanced. rewrite Ht, Hd. apply (Ledger_cycles _ (db_cycles (conn_db c))); [done| |].
    + intros id c0 H0. destruct (st_kept _ _ _ _ _ Hs id c0 H0) as (c' & Hc' & Hor). exists c'. split; [done|].
      destruct Hor as [->|(-> & _)]; (split; [done|]); intros d; (split; [by destruct d|]);
        pose proof (lg_quota _ _ _ Hb id c0 d H0); by destruct d.
    + intros id c0 H0 Hn d. destruct (st_new _ _ _ _ _ Hs id c0 H0 Hn) as (_ & H1 & H2 & H3 & H4 & _).
      destruct d; cbn; lia.
  - exists cy. unfold open_cycle in *. by rewrite Ec.
Qed.

(** ** Traffic *)
Lemma open_row (cycles : gmap ID QuotaCycleRecord) k id cy : unique_on is_open qc_AllocationID cycles -> cycles !! id = Some cy ->
  qc_AllocationID cy = k -> is_open cy = true -> forall f, update_rows (cycle_of k) f cycles = <[id := f cy]> cycles.
Proof.
  intros Hu Hid Hk Ho f. apply map_eq. intros id'. unfold update_rows. rewrite lookup_fmap.
  destruct (decide (id' = id)) as [->|Hne].
  - rewrite lookup_insert_eq, Hid. cbn. unfold cycle_of. by rewrite bool_decide_eq_true_2, Ho by done.
  - rewrite lookup_insert_ne by done. destruct (cycles !! id') as [c'|] eqn:E; [|done]. cbn. f_equal.
    destruct (cycle_of k c') eqn:Ec; [|done]. apply andb_true_iff in Ec as [Ea%bool_decide_eq_true Ho'].
    exfalso. apply Hne. symmetry. apply (Hu id cy Hid id' c' E); congruence.
Qed.

Lemma Ledger_traffic totals cycles daily u now id cy : Ledger totals cycles daily ->
  unique_on is_open qc_AllocationID cycles -> cycles !! id = Some cy -> qc_AllocationID cy = tu_AllocationID u ->
  is_open cy = true ->
  Ledger (update_at (tu_AllocationID u) every (add_totals (tu_UplinkDelta u) (tu_DownlinkDelta u) now) totals)
    (update_rows (cycle_of (tu_AllocationID u)) (add_cycle (tu_UplinkDelta u) (tu_DownlinkDelta u)) cycles)
    (upsert_daily u now daily).
Proof.
  intros [H1 H2 H3] Hu Hid Hk Ho. rewrite (open_row cycles _ id cy) by done.
  assert (forall k t d, update_at (tu_AllocationID u) every (add_totals (tu_UplinkDelta u) (tu_DownlinkDelta u) now) totals !! k = Some t ->
    exists t0, totals !! k = Some t0 /\ lifetime d t = lifetime d t0 + (if decide (tu_AllocationID u = k) then increment d u else 0)) as Ht.
  { intros k t d. rewrite lookup_update_at. case_decide; [|intros Hl; exists t; split; [done|lia]].
    intros (t0 & Ht0 & ->)%fmap_Some. exists t0. split; [done|]. by destruct d. }
  split.
  - intros k t d (t0 & Ht0 & ->)%(fun H => Ht k t d H). rewrite (msum_update _ _ _ cy), (H1 k t0 d Ht0) by done.
    unfold in_cycle. change (qc_AllocationID (add_cycle _ _ cy)) with (qc_AllocationID cy). rewrite !Hk.
    case_decide; destruct d; cbn; lia.
  - intros k t d (t0 & Ht0 & ->)%(fun H => Ht k t d H). rewrite (H2 k t0 d Ht0). unfold upsert_daily.
    destruct (daily !! _) as [r|] eqn:Er; [rewrite (msum_update _ _ _ r) by done|rewrite msum_insert by done];
      unfold on_day; cbn [fst]; repeat case_decide; try done; destruct d; cbn; lia.
  - intros id' c' d [[<- <-]|[Hne Hc']]%lookup_insert_Some; [|by eapply H3].
    pose proof (H3 id cy d Hid). destruct d; cbn in *; lia.
Qed.

Lemma add_traffic_balanced u now c r c2 : balanced (conn_db c) -> Constraints (conn_db c) ->
  (exists cy, open_cycle (tu_AllocationID u) (conn_db c) = Some cy) ->
  add_traffic u now c = (Ok r, c2) -> balanced (conn_db c2).
Proof.
  intros Hb Hc (cy & (Hk & Hop & id & Hid)%open_cycle_some) H. unfold add_traffic in H.
  destruct (bool_decide _ || bool_decide _); [|by apply tx_ret_ok in H as [_ ->]].
  tx_step H. apply wrap_ok, tx_exec_ok in E as (E & _). tx_step H. apply wrap_ok, tx_exec_ok in E0 as (E0 & _).
  apply wrap_ok, tx_exec_ok in H as (H & _). unfold balanced. rewrite H, E0, E. cbn.
  destruct (con_cycles _ Hc) as (_ & _ & Hu). by eapply Ledger_traffic.
Qed.

Lemma insert_events_leaves es : leaves books (insert_events es).
Proof. induction es; cbn; unfold insertContinuityEvent; leaves_walk. Qed.

Lemma commit_update_balanced now result u c r c2 : Constraints (conn_db c) -> balanced (conn_db c) ->
  commit_update now result u c = (Ok r, c2) -> balanced (conn_db c2).
Proof.
  intros Hc Hb H. unfold commit_update in H. tx_step H. destruct a as [rolled restored].
  destruct (settleCycles_balanced _ _ _ _ _ _ _ Hc Hb E) as [Hb0 (cy & Ho)].
  tx_step H. pose proof E0 as E0'. apply wrap_ok, tx_exec_ok in E0' as (E1 & Hc1 & _).
  tx_step H.
  assert (balanced (conn_db c3)) as Hb3.
  { eapply add_traffic_balanced; [|by rewrite E1| |exact E2].
    - eapply balanced_books; [|exact Hb0]. by rewrite E1.
    - exists cy. by rewrite E1. }
  tx_step H. pose proof (leaves_run _ _ _ _ _ (insert_events_leaves _) E3) as L4.
  match type of H with ?m _ = _ => assert (leaves books m) as Hm end.
  { unfold block_if_exceeded, readFacts. pose proof applyDecision_leaves. pose proof AppendAudit_leaves. leaves_walk; done. }
  eapply balanced_books; [exact (leaves_run _ _ _ _ _ Hm H)|]. by eapply balanced_books.
Qed.

Lemma commit_updates_balanced now result us c r c2 : Forall (fun u => tu_QuotaBlock u <> None) us ->
  Good (conn_db c) -> balanced (conn_db c) -> commit_updates now result us c = (Ok r, c2) -> balanced (conn_db c2).
Proof.
  intros Hus. revert result c. induction Hus as [|u us Hu _ IH]; intros result c Hg Hb H; cbn [commit_updates] in H.
  { by apply tx_ret_ok in H as [_ ->]. }
  tx_step H. destruct (commit_update_keeps now result u Hu c _ _ Hg E) as [Hg' _].
  eapply IH; [exact Hg'| |exact H]. by eapply commit_update_balanced; [apply Hg|..].
Qed.


(** ** Every transaction *)
Lemma SaveCommand_leaves command : leaves books (SaveCommand command).
Proof. unfold SaveCommand, FindCommand. leaves_walk. Qed.
Lemma commandReplay_leaves command : leaves books (commandReplay command).
Proof. unfold commandReplay, FindCommand. leaves_walk. Qed.
Lemma append_all_leaves es : leaves books (append_all es).
Proof. pose proof AppendAudit_leaves. induction es; cbn; leaves_walk; done. Qed.
Lemma insertOperation_leaves op : leaves books (insertOperation op).
Proof. unfold insertOperation, setInboundDesired. leaves_walk. Qed.
Lemma supersedeOlder_leaves k r now : leaves books (supersedeOlder k r now).
Proof. unfold supersedeOlder. leaves_walk. Qed.
#[local] Hint Resolve applyDecision_leaves AppendAudit_leaves SaveCommand_leaves commandReplay_leaves append_all_leaves
  insertOperation_leaves supersedeOlder_leaves : leaves.

Lemma create_balanced record c : Constraints (conn_db c) -> balanced (conn_db c) ->
  (forall d, gross d (uc_Cycle record) = 0 /\ accounted d (uc_Cycle record) = 0) ->
  balanced (conn_db (CreateUser record c).2).
Proof.
  intros Hc Hb Hz. apply balanced_tx; [|done]. intros r c2 H. tx_step H. apply tx_read_ok in E as [-> ->].
  destruct (db_commands (conn_db c) !! _) as [existing|].
  { case_bool_decide; [done|]. by apply tx_ret_ok in H as [_ ->]. }
  tx_step H. untouched books H L. eapply balanced_books; [exact L|]. by eapply insert_user_rows_balanced.
Qed.

Ltac same_books :=
  apply balanced_leaves; [|assumption]; intros; leaves_walk; apply leaves_exec; intros db; by case_match.

Lemma step_balanced old c c' : Good (conn_db c) -> balanced (conn_db c) -> step old c c' -> balanced (conn_db c').
Proof.
  intros Hg Hb Hs. destruct Hs.
  - apply create_balanced; [apply Hg|done|by intros []].
  - unfold UpdateUser, update_user, readFacts. same_books.
  - by apply reset_balanced.
  - apply balanced_tx; [|done]. intros r c2 E. by eapply settleCycles_balanced; [apply Hg|..].
  - unfold CommitTrafficBatch. destruct (tb_Updates batch) as [|u us] eqn:Eu; [done|].
    apply balanced_tx; [|done]. intros r c2 E. eapply (commit_updates_balanced _ _ (u :: us)); [assumption|exact Hg|exact Hb|exact E].
  - unfold ChangeInboundPort. same_books.
  - unfold StoreUsers.RotateCredential. same_books.
  - unfold SoftDeleteUser. same_books.
  - unfold EnqueueReconcile. same_books.
  - unfold LeaseDueSync, lease_tx, loadUserByAllocation. same_books.
  - unfold RenewSyncLease. same_books.
  - unfold ConfirmSync, confirm_credentials, destroy_credentials, activate_credential, confirmInboundPresence, releaseInboundPort. same_books.
  - unfold RescheduleSync, finishLeased. same_books.
  - unfold FailSync, finishLeased. same_books.
  - unfold RecordObservation. same_books.
  - unfold ConfirmInboundPresence, confirmInboundPresence. same_books.
  - unfold EnqueueDriftRemoval. same_books.
  - unfold LeaseDueDriftRemoval. same_books.
  - unfold RenewDriftRemovalLease. same_books.
  - unfold CompleteDriftRemoval, finishDriftRemoval, update_drift. same_books.
  - unfold RescheduleDriftRemoval, finishDriftRemoval, update_drift. same_books.
  - unfold FailDriftRemoval, finishDriftRemoval, update_drift. same_books.
  - unfold CreateTemplate, FindCommand. same_books.
  - unfold UpdateTemplate. same_books.
  - unfold ArchiveTemplate. same_books.
  - unfold CompleteTemplateValidation, update_instance. same_books.
  - unfold RequestRevalidation. same_books.
  - unfold AdvanceCapabilityGeneration, update_instance. same_books.
  - unfold InvalidateStaleCapabilityEvidence. same_books.
  - unfold MarkInstanceHealthy, update_instance. same_books.
  - unfold MarkInstanceUnreachable, update_instance. same_books.
  - unfold UpdateSettings. same_books.
  - unfold EnsureSingletons. same_books.
  - unfold CreateAdministrator. same_books.
  - unfold UpdateAdministratorPassword. same_books.
  - unfold InsertSession. same_books.
  - unfold RevokeSession. same_books.
  - unfold RevokeAllSessions. same_books.
  - unfold Find. same_books.
  - unfold Commit, session_record, upsert_session. same_books.
  - unfold Delete. same_books.
  - unfold Store_AppendAudit. same_books.
  - unfold SetTemplateCompatibility. same_books.
  - done.
Qed.

Lemma history_balanced h c : history h c -> balanced (conn_db c).
Proof.
  induction 1 as [n|h c old c' Hh Hb Hin Hs].
  - split; cbn; intros ? ? ? Hl; by rewrite lookup_empty in Hl.
  - eapply step_balanced; [exact (proj1 (history_good _ _ Hh))|exact Hb|exact Hs].
Qed.

(** C34: in every reachable state, however the commits of traffic, rollovers,
    resets, edits and everything else have interleaved, the lifetime total of a
    user is, in each direction, the sum of the user's cycles and the sum of the
    user's days. What a cycle counts against the quota is part of what it
    carried, and neither a cycle nor a day holds more than the lifetime total:
    so an increment that fits the lifetime and the accounted totals, which is
    all the collector tests, fits every counter it is added to. *)
Theorem books_balance h c k t d : history h c -> db_totals (conn_db c) !! k = Some t ->
  lifetime d t = msum (in_cycle k d) (db_cycles (conn_db c)) /\
  lifetime d t = msum (on_day k d) (db_daily (conn_db c)) /\
  (forall id cy, db_cycles (conn_db c) !! id = Some cy -> qc_AllocationID cy = k ->
     0 <= accounted d cy <= gross d cy /\ gross d cy <= lifetime d t <= MaxInt64) /\
  (forall day r, db_daily (conn_db c) !! (k, day) = Some r -> 0 <= carried_on d r <= lifetime d t).
Proof.
  intros Hh Ht. pose proof (history_balanced h c Hh) as [H1 H2 H3].
  destruct (history_good _ _ Hh) as [[Hc _] _]. destruct (con_cycles _ Hc) as [Hcy _].
  destruct (con_traffic _ Hc) as (Htt & _ & Hdd & _).
  assert (lifetime d t <= MaxInt64) as Hmax by (destruct (Htt k t Ht) as ([? ?] & [? ?] & _); by destruct d).
  assert (forall id cy, db_cycles (conn_db c) !! id = Some cy -> 0 <= gross d cy /\ 0 <= accounted d cy) as Hpos.
  { intros id cy Hid. destruct (Hcy id cy Hid) as (_ & _ & _ & ([? ?] & [? ?] & [? ?] & [? ?] & _) & _). by destruct d. }
  split; [by apply H1|]. split; [by apply H2|]. split.
  - intros id cy Hid Hk. pose proof (Hpos id cy Hid). pose proof (H3 id cy d Hid).
    enough (in_cycle k d id cy <= msum (in_cycle k d) (db_cycles (conn_db c))) as Hm.
    { rewrite <- (H1 k t d Ht) in Hm. unfold in_cycle in Hm. rewrite decide_True in Hm by done. lia. }
    apply msum_member; [|done]. intros id' cy' H'. unfold in_cycle. case_decide; [|done]. by apply (Hpos id').
  - assert (forall key r, db_daily (conn_db c) !! key = Some r -> 0 <= carried_on d r) as Hp.
    { intros key r Hr. destruct (Hdd key r Hr) as ([? ?] & [? ?] & _). by destruct d. }
    intros day r Hr. split; [by eapply Hp|].
    enough (on_day k d (k, day) r <= msum (on_day k d) (db_daily (conn_db c))) as Hm.
    { rewrite <- (H2 k t d Ht) in Hm. unfold on_day in Hm. by rewrite decide_True in Hm by done. }
    apply msum_member; [|done]. intros key r' H'. unfold on_day. case_decide; [|done]. by apply (Hp key).
Qed.
End Steps.

(** Alice's first counters, and those of a day and a half later. *)
Definition demo_update (up down at_ : Z) (n : Z) : TrafficUpdate :=
  mkTrafficUpdate alice_allocation
    (mkCursor alice_allocation None (Some up) (Some down) 0 0 (Some (t0 + at_ * Second)) (Some (t0 + at_ * Second)) None)
    up down (DayBounds (t0 + at_ * Second) (Some UTC)).1 (DayBounds (t0 + at_ * Second) (Some UTC)).2 "UTC" []
    (Some (operation_template (demo_id n) alice_allocation (t0 + at_ * Second))) None.
Definition conn9 : Conn := (CommitTrafficBatch (mkBatch (t0 + 10 * Second) [demo_update 100 200 10 60]) conn8).2.
Definition conn10 : Conn := (CommitTrafficBatch (mkBatch (t0 + 129600 * Second) [demo_update 30 40 129600 61]) conn9).2.

Lemma conn10_reachable : reachable conn10.
Proof.
  apply (reach_step conn9); [|apply step_traffic; by repeat constructor].
  apply (reach_step conn8); [|apply step_traffic; by repeat constructor].
  apply (reach_step conn7); [|apply step_confirm]. apply (reach_step conn5); [|apply step_lease]. apply conn5_reachable.
Qed.

Lemma books_balance_witness : exists h t, history h conn10 /\
  db_totals (conn_db conn10) !! alice_allocation = Some t /\ lifetime Uplink t = 130 /\
  size (db_daily (conn_db conn10)) = 2%nat /\
  lifetime Uplink t = msum (on_day alice_allocation Uplink) (db_daily (conn_db conn10)).
Proof.
  destruct conn10_reachable as (h & Hh & _).
  assert (from_option (fun t => lifetime Uplink t =? 130) false (db_totals (conn_db conn10) !! alice_allocation) = true) as H1
    by (vm_compute; reflexivity).
  destruct (db_totals (conn_db conn10) !! alice_allocation) as [t|] eqn:Et; [|discriminate H1].
  exists h, t. split; [exact Hh|]. split; [reflexivity|]. split; [by apply Z.eqb_eq in H1|].
  split; [vm_compute; reflexivity|]. exact (proj1 (proj2 (books_balance h conn10 alice_allocation t Uplink Hh Et))).
Defined.
