(* ===== verification/Adapter.v ===== *)
(** * The adapter interface: internal/ports/xray.go

    The commands and observations exchanged with the node, the calls of the
    interface, and the contract of specs/002-per-user-inbound/contracts/
    xray-adapter.md as a relation: which answers a node may give to a call and
    what has happened on it by then. A call that fails for another reason than
    the ones the contract names may have been carried out or not. *)

From Stdlib Require Import ZArith Lia.
From S2P Require Import Prelude GoTypes Identity Inbound Tokens Template.

(** ** Commands and observations *)
Record InstanceTarget := mkTarget {
  it_InstanceID : ID;
  it_APIEndpoint : string;
  it_ExpectedVersion : string;
  it_RPCTimeout : Duration }.

Record InstanceObservation := mkObservation {
  ob_ObservedAt : Time;
  ob_UptimeSeconds : Z;
  ob_BootEpoch : Time;
  ob_BootEpochKnown : bool }.

Record RuntimeInbound := mkRuntime {
  ri_TemplateID : ID;
  ri_InboundTag : string;
  ri_Method : string }.

Record TemplateProbe := mkProbe {
  pr_TemplateID : ID;
  pr_ListenAddress : string;
  pr_ProbePort : Z;
  pr_Method : string;
  pr_Network : Network }.

Record InboundClient := mkClient {
  cl_StatisticsID : string;
  cl_CredentialVersion : Z;
  cl_UserKey : RedactedString }.

Record CreateInboundCommand := mkCreateInbound {
  ci_OperationID : ID;
  ci_InboundTag : string;
  ci_ListenAddress : string;
  ci_Port : Z;
  ci_Method : string;
  ci_Network : Network;
  ci_ServerKey : RedactedString;
  ci_Client : InboundClient }.

Record RemoveInboundCommand := mkRemoveInbound {
  ro_OperationID : ID;
  ro_InboundTag : string }.

Record RemoteInbound := mkRemoteInbound {
  rb_InboundTag : string;
  rb_PanelManaged : bool;
  rb_UserCount : Z }.

Record RemoteUser := mkRemoteUser {
  ru_StatisticsID : string;
  ru_CredentialVersion : Z;
  ru_Present : bool;
  ru_Kind : string }.

Record AddUserCommand := mkAddUser {
  nu_OperationID : ID;
  nu_InboundTag : string;
  nu_AllocationID : ID;
  nu_StatisticsID : string;
  nu_CredentialVersion : Z;
  nu_UserKey : RedactedString }.

Record RemoveUserCommand := mkRemoveUser {
  rv_OperationID : ID;
  rv_InboundTag : string;
  rv_StatisticsID : string;
  rv_ExpectedStatisticsID : string }.

Record MutationReceipt := mkReceipt { mr_OperationID : ID; mr_ObservedAt : Time }.

Record CounterSnapshot := mkSnapshot {
  cs_StatisticsID : string;
  cs_Direction : Direction;
  cs_Bytes : Z;
  cs_ObservedAt : Time;
  cs_Found : bool }.

Record TrafficQuery := mkQuery { tq_Target : InstanceTarget; tq_StatisticsIDs : list string }.
Record TrafficRound := mkRound { tr_Observation : InstanceObservation; tr_Snapshots : list CounterSnapshot }.

Record TemplateCapabilities := mkCapabilities {
  tp_InboundCreatable : bool;
  tp_InboundRemovable : bool;
  tp_ProtocolSupported : bool;
  tp_MethodSupported : bool;
  tp_MultiUserSupported : bool;
  tp_TrafficAccounted : bool;
  tp_ProbeStatisticsID : string;
  tp_CompatibilityReason : string }.

Definition Compatible (c : TemplateCapabilities) : bool :=
  tp_InboundCreatable c && tp_InboundRemovable c && tp_ProtocolSupported c && tp_MethodSupported c &&
  tp_MultiUserSupported c && tp_TrafficAccounted c.

(** ** The interface *)
Inductive AdapterCall : Type -> Type :=
| Probe (target : InstanceTarget) : AdapterCall InstanceObservation
| ValidateTemplate (probe : TemplateProbe) : AdapterCall TemplateCapabilities
| ListInbounds : AdapterCall (list RemoteInbound)
| CreateInbound (command : CreateInboundCommand) : AdapterCall MutationReceipt
| RemoveInbound (command : RemoveInboundCommand) : AdapterCall MutationReceipt
| ListUsers (inbound : RuntimeInbound) : AdapterCall (list RemoteUser)
| AddUser (command : AddUserCommand) : AdapterCall MutationReceipt
| RemoveUser (command : RemoveUserCommand) : AdapterCall MutationReceipt
| ReadTraffic (query : TrafficQuery) : AdapterCall TrafficRound.

(** The tag of the inbound a call changes. *)
Definition mutated_tag {R} (call : AdapterCall R) : option string :=
  match call with
  | CreateInbound c => Some (ci_InboundTag c)
  | RemoveInbound c => Some (ro_InboundTag c)
  | AddUser c => Some (nu_InboundTag c)
  | RemoveUser c => Some (rv_InboundTag c)
  | _ => None
  end.

(** ** The node *)

(** An inbound as the node has it: its clients with the version of their key,
    and whether its port could be bound. *)
Record NodeInbound := mkNodeInbound {
  ni_Port : Z;
  ni_Listening : bool;
  ni_ServerKey : string;
  ni_Users : gmap string Z }.
#[global] Instance eta_NodeInbound : Eta NodeInbound := fun r =>
  mkNodeInbound (ni_Port r) (ni_Listening r) (ni_ServerKey r) (ni_Users r).
Abbreviation Node := (gmap string NodeInbound).

Definition kind_of (e : error) : option ErrorKind :=
  match e with AdapterError kind _ _ _ => Some kind | _ => None end.
(** The kinds that report the state of an inbound or a client. *)
Definition telling (e : error) : bool :=
  bool_decide (kind_of e = Some ErrorInboundAlreadyExists \/ kind_of e = Some ErrorInboundNotFound \/
               kind_of e = Some ErrorUserAlreadyExists \/ kind_of e = Some ErrorUserNotFound).

Definition created (command : CreateInboundCommand) (listening : bool) : NodeInbound :=
  mkNodeInbound (ci_Port command) listening (Reveal (ci_ServerKey command))
    {[ cl_StatisticsID (ci_Client command) := cl_CredentialVersion (ci_Client command) ]}.
Definition with_user (command : AddUserCommand) (i : NodeInbound) : NodeInbound :=
  i <| ni_Users := <[nu_StatisticsID command := nu_CredentialVersion command]> (ni_Users i) |>.
Definition without_user (command : RemoveUserCommand) (i : NodeInbound) : NodeInbound :=
  i <| ni_Users := delete (rv_StatisticsID command) (ni_Users i) |>.

(** The answer to a command, from what the command does when it is carried out
    ([effect], [None] when it cannot be) and which kind tells that it cannot
    be, or was not needed. *)
Definition commanded {R} (effect : option Node) (refusals : list (ErrorKind * Prop)) (n : Node)
    (answer : Res R) (n' : Node) : Prop :=
  match answer with
  | Ok _ => effect = Some n'
  | Err e =>
      if telling e then
        n' = n /\ exists kind holds, (kind, holds) ∈ refusals /\ kind_of e = Some kind /\ holds
      else n' = n \/ effect = Some n'
  end.

Definition create_effect (command : CreateInboundCommand) (listening : bool) (n : Node) : option Node :=
  match n !! ci_InboundTag command with
  | None => Some (<[ci_InboundTag command := created command listening]> n)
  | Some _ => None
  end.
Definition remove_effect (command : RemoveInboundCommand) (n : Node) : option Node :=
  match n !! ro_InboundTag command with
  | Some _ => Some (delete (ro_InboundTag command) n)
  | None => None
  end.
Definition add_effect (command : AddUserCommand) (n : Node) : option Node :=
  i ← n !! nu_InboundTag command;
  Some (<[nu_InboundTag command := with_user command i]> n).
Definition drop_effect (command : RemoveUserCommand) (n : Node) : option Node :=
  i ← n !! rv_InboundTag command;
  match ni_Users i !! rv_StatisticsID command with
  | Some _ => Some (<[rv_InboundTag command := without_user command i]> n)
  | None => None
  end.

(** What a node that keeps the contract may answer. A creation that fails may
    leave the inbound registered without listening. *)
Definition honest {R} (call : AdapterCall R) : Node -> Res R -> Node -> Prop :=
  match call in AdapterCall R return Node -> Res R -> Node -> Prop with
  | CreateInbound c => fun n r n' =>
      let taken := n !! ci_InboundTag c <> None in
      match r with
      | Ok _ => create_effect c true n = Some n'
      | Err _ => exists listening,
          commanded (create_effect c listening n) [(ErrorInboundAlreadyExists, taken)] n r n'
      end
  | RemoveInbound c => fun n r n' =>
      commanded (remove_effect c n) [(ErrorInboundNotFound, n !! ro_InboundTag c = None)] n r n'
  | AddUser c => fun n r n' =>
      let has_user := exists i, n !! nu_InboundTag c = Some i /\ ni_Users i !! nu_StatisticsID c <> None in
      commanded (add_effect c n)
        [(ErrorInboundNotFound, n !! nu_InboundTag c = None); (ErrorUserAlreadyExists, has_user)] n r n'
  | RemoveUser c => fun n r n' =>
      let lacks_user := exists i, n !! rv_InboundTag c = Some i /\ ni_Users i !! rv_StatisticsID c = None in
      commanded (drop_effect c n)
        [(ErrorInboundNotFound, n !! rv_InboundTag c = None); (ErrorUserNotFound, lacks_user)] n r n'
  | ListInbounds => fun n r n' =>
      n' = n /\ match r with
                | Ok l => forall tag, tag ∈ rb_InboundTag <$> l <-> n !! tag <> None
                | Err e => telling e = false
                end
  | ListUsers q => fun n r n' =>
      n' = n /\ match r with
                | Ok l => forall id, (exists u, u ∈ l /\ ru_StatisticsID u = id /\ ru_Present u = true) <->
                                     exists i, n !! ri_InboundTag q = Some i /\ ni_Users i !! id <> None
                | Err e => telling e = true -> kind_of e = Some ErrorInboundNotFound /\ n !! ri_InboundTag q = None
                end
  | ValidateTemplate p => fun n r n' =>
      forall tag, tag <> NamespacePrefix +:+ "probe-" +:+ pr_TemplateID p -> n' !! tag = n !! tag
  | Probe _ => fun n r n' => n' = n
  | ReadTraffic _ => fun n r n' => n' = n
  end.
