(* ===== verification/Calls.v ===== *)
(** * Calls

    The services and workers talk to the store, the adapter, the clock and the
    random sources, and other transactions run in between. They are programs
    over these calls: a call and, for each of its answers, the rest of the
    program. What answers the calls is left to [Fencing]. *)

From Stdlib Require Import ZArith Lia.
From S2P Require Import Prelude GoTypes Identity Text Inbound Tokens User Sync Quota Traffic Template Cycle Records Database Secrets StoreCore StoreSync StoreQuota StoreUsers StoreTraffic StoreDrift StoreTemplates StoreListings Adapter.

(** ** Programs over calls *)
Inductive Prog (E : Type -> Type) (A : Type) : Type :=
| Done (a : A)
| Do {R : Type} (e : E R) (k : R -> Prog E A).
Arguments Done {E A} a.
Arguments Do {E A R} e k.

Fixpoint prog_bind {E A B} (p : Prog E A) (f : A -> Prog E B) : Prog E B :=
  match p with
  | Done a => f a
  | Do e k => Do e (fun r => prog_bind (k r) f)
  end.
#[global] Instance prog_ret E : MRet (Prog E) := fun A a => Done a.
#[global] Instance prog_mbind E : MBind (Prog E) := fun A B f p => prog_bind p f.

(** ** The calls *)

(** What the services and workers use of ports.Store. *)
Inductive StoreCall : Type -> Type :=
| CallLeaseDueSync (owner : string) (now : Time) (lease : Duration) : StoreCall (option SyncWork)
| CallRenewSyncLease (id : ID) (owner : string) (now : Time) (lease : Duration) : StoreCall bool
| CallConfirmSync (id : ID) (owner : string) (revision : Revision) (credentialVersion : Z) (present : bool) (now : Time) : StoreCall bool
| CallRescheduleSync (id : ID) (owner : string) (attempts : Z) (next : Time) (code summary : string) : StoreCall unit
| CallFailSync (id : ID) (owner code summary : string) (now : Time) : StoreCall unit
| CallLeaseDueDriftRemoval (owner : string) (now : Time) (lease : Duration) : StoreCall (option DriftRemoval)
| CallRenewDriftRemovalLease (id : ID) (owner : string) (now : Time) (lease : Duration) : StoreCall bool
| CallCompleteDriftRemoval (id : ID) (owner : string) (now : Time) (audit : AuditEvent) : StoreCall unit
| CallRescheduleDriftRemoval (id : ID) (owner : string) (attempts : Z) (next : Time) (code summary : string) : StoreCall unit
| CallFailDriftRemoval (id : ID) (owner code summary : string) (now : Time) (audit : AuditEvent) : StoreCall unit
| CallMarkInstanceHealthy (bootEpoch : option Time) (now : Time) : StoreCall unit
| CallMarkInstanceUnreachable (code summary : string) (now : Time) : StoreCall unit
| CallSetTemplateCompatibility (id : ID) (state : CompatibilityState) (reason : string) (now : Time) : StoreCall unit
| CallAppendAudit (event : AuditEvent) : StoreCall unit
| CallCollectionTargets : StoreCall (list CollectionTarget)
| CallCommitTrafficBatch (batch : TrafficBatch) : StoreCall TrafficCommitResult
| CallAdvanceCapabilityGeneration (signal : CapabilitySignal) (tolerance : Duration) (now : Time) : StoreCall (Z * bool)
| CallInvalidateStaleCapabilityEvidence (generation : Z) (now : Time) : StoreCall (list ID)
| CallTemplates (compatibleOnly : bool) : StoreCall (list InboundTemplate)
| CallListUsers (filter : UserFilter) : StoreCall (list UserRecord)
| CallUser (id : ID) : StoreCall UserRecord
| CallEnqueueDriftRemoval (templateID : ID) (inboundTag : string) (kind : DriftKind) (statisticsID : string) (now : Time) : StoreCall bool
| CallStaleDriftRemovals (templateID : ID) : StoreCall (list DriftRemoval)
| CallOrphanStaleDriftRemovals : StoreCall (list DriftRemoval)
| CallHasOpenRotation (allocationID : ID) : StoreCall bool
| CallHasOpenOperation (allocationID : ID) : StoreCall bool
| CallRecordObservation (allocationID : ID) (present : bool) (now : Time) : StoreCall unit
| CallConfirmInboundPresence (allocationID : ID) (present : bool) (now : Time) : StoreCall unit
| CallEnqueueReconcile (allocationID : ID) (expected : Revision) (op : SynchronizationOperation) (now : Time) : StoreCall bool
| CallDueCycles (now : Time) : StoreCall (list UserRecord)
| CallRolloverCycle (rollover : CycleRollover) : StoreCall (Z * bool)
| CallNextCycleEnd : StoreCall (option Time)
| CallManagedInstance : StoreCall ManagedInstanceRecord
| CallCreateTemplate (record : InboundTemplate) (command : DomainCommand) (audit : AuditEvent) : StoreCall (ID * bool)
| CallTemplate (id : ID) : StoreCall InboundTemplate
| CallUpdateTemplate (record : InboundTemplate) (expected : Revision) (command : DomainCommand) (audit : AuditEvent) : StoreCall unit
| CallRequestRevalidation (id : ID) (expected : Revision) (command : DomainCommand) (audit : AuditEvent) : StoreCall bool
| CallCompleteTemplateValidation (outcome : ValidationOutcome) : StoreCall bool
| CallAssignedPorts (templateID : ID) : StoreCall (list Z)
| CallTemplateCounterEvidence (templateID : ID) : StoreCall (Z * Z)
| CallPortPoolUsage (templateID : ID) : StoreCall PortPoolUsage
| CallLastCollectionAt : StoreCall (option Time)
| CallFailedOperations (limit : Z) : StoreCall (list FailedOperationRecord)
| CallDailyAggregates (allocationID : ID) (from to : Time) : StoreCall (list DailyAggregateRecord)
| CallContinuityEvents (allocationID : ID) (limit : Z) : StoreCall (list ContinuityEventListRecord)
| CallSyncOperations (allocationID : ID) (limit : Z) : StoreCall (list SynchronizationOperation)
| CallAuditEvents (filter : AuditFilter) : StoreCall (list AuditEvent * option AuditCursor)
| CallSettings : StoreCall PanelSettingsRecord
| CallUpdateSettings (timezone : string) (expected : Revision) (command : DomainCommand) (audit : AuditEvent) : StoreCall bool.

(** The store answers a call with its transaction; [wall] is the reading of
    the clock the store takes itself. *)
Definition store_tx {Zn : Zones} {En : Entropy} {Un : Unicode} {R} (wall : Time) (call : StoreCall R) : Tx R :=
  match call with
  | CallLeaseDueSync owner now lease => LeaseDueSync owner now lease
  | CallRenewSyncLease id owner now lease => RenewSyncLease id owner now lease
  | CallConfirmSync id owner revision v present now => ConfirmSync id owner revision v present now
  | CallRescheduleSync id owner attempts next code summary => RescheduleSync id owner attempts next code summary wall
  | CallFailSync id owner code summary now => FailSync id owner code summary now wall
  | CallLeaseDueDriftRemoval owner now lease => LeaseDueDriftRemoval owner now lease
  | CallRenewDriftRemovalLease id owner now lease => RenewDriftRemovalLease id owner now lease
  | CallCompleteDriftRemoval id owner now audit => CompleteDriftRemoval id owner now audit
  | CallRescheduleDriftRemoval id owner attempts next code summary => RescheduleDriftRemoval id owner attempts next code summary
  | CallFailDriftRemoval id owner code summary now audit => FailDriftRemoval id owner code summary now audit
  | CallMarkInstanceHealthy bootEpoch now => MarkInstanceHealthy bootEpoch now
  | CallMarkInstanceUnreachable code summary now => MarkInstanceUnreachable code summary now
  | CallSetTemplateCompatibility id state reason now => SetTemplateCompatibility id state reason now
  | CallAppendAudit event => Store_AppendAudit event
  | CallCollectionTargets => CollectionTargets
  | CallCommitTrafficBatch batch => CommitTrafficBatch batch
  | CallAdvanceCapabilityGeneration signal tolerance now => AdvanceCapabilityGeneration signal tolerance now
  | CallInvalidateStaleCapabilityEvidence generation now => InvalidateStaleCapabilityEvidence generation now
  | CallTemplates compatibleOnly => Templates compatibleOnly
  | CallListUsers filter => StoreUsers.ListUsers filter
  | CallUser id => GetUser id
  | CallEnqueueDriftRemoval templateID tag kind id now => EnqueueDriftRemoval templateID tag kind id now
  | CallStaleDriftRemovals templateID => StaleDriftRemovals templateID
  | CallOrphanStaleDriftRemovals => OrphanStaleDriftRemovals
  | CallHasOpenRotation id => HasOpenRotation id
  | CallHasOpenOperation id => HasOpenOperation id
  | CallRecordObservation id present now => RecordObservation id present now
  | CallConfirmInboundPresence id present now => ConfirmInboundPresence id present now
  | CallEnqueueReconcile id expected op now => EnqueueReconcile id expected op now
  | CallDueCycles now => DueCycles now
  | CallRolloverCycle rollover => RolloverCycle rollover
  | CallNextCycleEnd => NextCycleEnd
  | CallManagedInstance => ManagedInstance
  | CallCreateTemplate record command audit => CreateTemplate record command audit
  | CallTemplate id => GetTemplate id
  | CallUpdateTemplate record expected command audit => UpdateTemplate record expected command audit
  | CallRequestRevalidation id expected command audit => RequestRevalidation id expected command audit
  | CallCompleteTemplateValidation outcome => CompleteTemplateValidation outcome
  | CallAssignedPorts templateID => AssignedPorts templateID
  | CallTemplateCounterEvidence templateID => TemplateCounterEvidence templateID
  | CallPortPoolUsage templateID => PortPoolUsageOf templateID
  | CallLastCollectionAt => LastCollectionAt
  | CallFailedOperations limit => FailedOperations limit
  | CallDailyAggregates allocationID from to => DailyAggregates allocationID from to
  | CallContinuityEvents allocationID limit => ContinuityEvents allocationID limit
  | CallSyncOperations allocationID limit => SyncOperations allocationID limit
  | CallAuditEvents filter => AuditEvents filter
  | CallSettings => Settings
  | CallUpdateSettings timezone expected command audit => UpdateSettings timezone expected command audit
  end.

(** [Jitter]: what [s.random] does when it is called next; [Recovered]: the
    callback [onProfileRecovered]; [CtxErr]: [ctx.Err()]; [NotifySync]: the
    callback [notify], which wakes the synchronizer; [Revalidate]: the callback
    that queues a template for validation; [Degraded]: the flag of the
    reconciler, whose earlier value is the answer; [QueueValidation]: the callback
    [notify] of the template service, which queues a template for validation. *)
Inductive Effect : Type -> Type :=
| OnStore {R} (call : StoreCall R) : Effect (Res R)
| OnNode {R} (call : AdapterCall R) : Effect (Res R)
| Now : Effect Time
| Jitter : Effect (Z -> Z)
| DrawID : Effect (Res ID)
| DrawUserKey (method : string) : Effect (Res RedactedString)
| Failures (update : Z -> Z) : Effect Z
| Recovered (template : ID) : Effect unit
| CtxErr : Effect (option error)
| NotifySync : Effect unit
| Revalidate (template : ID) : Effect (option error)
| Degraded (now : bool) : Effect bool
| QueueValidation (template : ID) : Effect unit.

Abbreviation Worker := (Prog Effect).
Definition call {R} (e : Effect R) : Worker R := Do e Done.
Definition store {R} (c : StoreCall R) : Worker (Res R) := call (OnStore c).
Definition node {R} (c : AdapterCall R) : Worker (Res R) := call (OnNode c).

(** A call whose error ends the function. *)
Definition must {E A B} (p : Prog E (Res A)) (f : A -> Prog E (Res B)) : Prog E (Res B) :=
  r ← p; match r with Ok a => f a | Err e => mret (Err e) end.

(** A store call whose error is only logged. *)
Definition logged {R} (c : StoreCall R) : Worker unit := _ ← store c; mret tt.
