(* ===== verification/Trace.v ===== *)
(** * What a program asks for, in every run

    [traced G p Q past]: after the calls [past], the latest first, every call
    that the program makes satisfies [G] given what was answered before it, and
    every end satisfies [Q] of the result and of all calls made; whatever is
    answered. *)


From Stdlib Require Import ZArith Lia.
From S2P Require Import Prelude GoTypes Identity Text Inbound Tokens User Sync Quota Traffic Template Cycle Records Database StoreCore StoreSync Adapter Calls.

Section Trace.
Context {E : Type -> Type}.

Inductive Event : Type :=
| Answered {R} (e : E R) (r : R).
Abbreviation Guard := (list Event -> forall R, E R -> Prop).

Fixpoint traced (G : Guard) {A} (p : Prog E A) (Q : A -> list Event -> Prop) (past : list Event) : Prop :=
  match p with
  | Done a => Q a past
  | Do e k => G past _ e /\ forall r, traced G (k r) Q (Answered e r :: past)
  end.

Lemma traced_mono (G : Guard) {A} (p : Prog E A) (Q Q' : A -> list Event -> Prop) past :
  (forall a past', Q a past' -> Q' a past') -> traced G p Q past -> traced G p Q' past.
Proof.
  intros HQ. revert past. induction p as [a|R e k IH]; intros past Hp; [by apply HQ|]. destruct Hp as [Hg Hp].
  split; [done|]. intros r. apply IH, Hp.
Qed.
Lemma traced_weaken (G G' : Guard) {A} (p : Prog E A) Q past :
  (forall past R (e : E R), G past R e -> G' past R e) -> traced G p Q past -> traced G' p Q past.
Proof.
  intros HG. revert past. induction p as [a|R e k IH]; intros past Hp; [done|]. destruct Hp as [Hg Hp].
  split; [by apply HG|]. intros r. apply IH, Hp.
Qed.
Lemma traced_then (G : Guard) {A B} (p : Prog E A) (f : A -> Prog E B) P Q past : traced G p P past ->
  (forall a past', P a past' -> traced G (f a) Q past') -> traced G (p ≫= f) Q past.
Proof.
  revert past. induction p as [a|R e k IH]; intros past Hp Hf; [by apply Hf|]. destruct Hp as [Hg Hp].
  split; [done|]. intros r. by apply IH.
Qed.
Lemma traced_do (G : Guard) {R A} (e : E R) (f : R -> Prog E A) Q past : G past _ e ->
  (forall r, traced G (f r) Q (Answered e r :: past)) -> traced G (Do e Done ≫= f) Q past.
Proof. by split. Qed.

(** What was answered before stays in the record. *)
Definition extends (past past' : list Event) : Prop := forall event, event ∈ past -> event ∈ past'.
Lemma extends_refl past : extends past past.
Proof. by intros event. Qed.
Lemma extends_cons event past : extends past (event :: past).
Proof. intros event' Hin. by right. Qed.
Lemma extends_trans past1 past2 past3 : extends past1 past2 -> extends past2 past3 -> extends past1 past3.
Proof. intros H1 H2 event Hin. by apply H2, H1. Qed.
Lemma traced_extends (G : Guard) {A} (p : Prog E A) Q past : traced G p Q past ->
  traced G p (fun a past' => Q a past' /\ extends past past') past.
Proof.
  revert past. induction p as [a|R e k IH]; intros past Hp; [by split|]. destruct Hp as [Hg Hp]. split; [done|]. intros r.
  eapply traced_mono; [|apply IH, Hp]. intros a past' [HQ He]. split; [done|]. intros event Hin. apply He. by right.
Qed.
(** Steps one after the other, the first leaving [P]. *)
Lemma traced_seq (G : Guard) {A B} (p : Prog E A) (f : A -> Prog E B) P Q past : traced G p P past ->
  (forall a past', P a past' -> extends past past' -> traced G (f a) Q past') -> traced G (p ≫= f) Q past.
Proof. intros Hp Hf. eapply traced_then; [by apply traced_extends|]. intros a past' [HP He]. by apply Hf. Qed.

Definition anything : Guard := fun _ _ _ => True.
Lemma traced_any {A} (p : Prog E A) past : traced anything p (fun _ past' => extends past past') past.
Proof.
  eapply traced_mono; [|apply traced_extends with (Q := fun _ _ => True)]; [by intros a past' [_ He]|].
  revert past. induction p as [a|R e k IH]; intros past; [done|]. split; [done|]. intros r. apply IH.
Qed.
(** A guard that holds of every call made from here on. *)
Lemma traced_lift (G G' : Guard) {A} (p : Prog E A) Q past : traced G p Q past ->
  (forall past' R (e : E R), extends past past' -> G past' R e -> G' past' R e) -> traced G' p Q past.
Proof.
  revert past. induction p as [a|R e k IH]; intros past Hp HG; [done|]. destruct Hp as [Hg Hp].
  split; [by apply HG; [apply extends_refl|]|]. intros r. apply IH; [apply Hp|]. intros past' R' e' He.
  apply HG. eapply extends_trans; [apply extends_cons|exact He].
Qed.

(** No call so far was of a kind. *)
Definition none (P : Event -> bool) (past : list Event) : Prop := existsb P past = false.
Lemma none_cons P event past : P event = false -> none P past -> none P (event :: past).
Proof. intros He Hp. unfold none. cbn. by rewrite He. Qed.
Lemma traced_none (G : Guard) P {A} (p : Prog E A) Q past : (forall past R (e : E R) r, G past R e -> P (Answered e r) = false) ->
  traced G p Q past -> none P past -> traced G p (fun a past' => Q a past' /\ none P past') past.
Proof.
  intros HG. revert past. induction p as [a|R e k IH]; intros past Hp Hn; [done|]. destruct Hp as [Hg Hp].
  split; [done|]. intros r. apply IH; [apply Hp|]. apply none_cons; [|done]. by eapply HG.
Qed.

(** A run with given answers. *)
Fixpoint replay (answer : forall R, E R -> R) {A} (p : Prog E A) (past : list Event) : A * list Event :=
  match p with
  | Done a => (a, past)
  | Do e k => replay answer (k (answer _ e)) (Answered e (answer _ e) :: past)
  end.
Lemma traced_replay (G : Guard) answer {A} (p : Prog E A) Q past : traced G p Q past ->
  Q (replay answer p past).1 (replay answer p past).2.
Proof. revert past. induction p as [a|R e k IH]; intros past Hp; [done|]. apply IH, Hp. Qed.
End Trace.
Arguments Event E : clear implicits.

(** * What a program says, whatever it is told

    A program over calls is judged by the calls it makes, each in the light of
    the answers it has had so far, with no assumption on who answers. *)

(** A call that has been answered. *)
Record Exchange := mkExchange { x_type : Type; x_call : Effect x_type; x_answer : x_type }.
Arguments mkExchange {_} _ _.
(** The exchanges so far, the last one first. *)
Abbreviation Past := (list Exchange).

Definition asked {R} (past : Past) (e : Effect R) (answer : R) : Prop := mkExchange e answer ∈ past.

Lemma asked_now {R} (past : Past) (e : Effect R) answer : asked (mkExchange e answer :: past) e answer.
Proof. left. Qed.
Lemma asked_before {R} (past past' : Past) (e : Effect R) answer : past ⊆ past' -> asked past e answer -> asked past' e answer.
Proof. intros Hs Ha. by apply Hs. Qed.
Lemma past_cons (x : Exchange) (past past' : Past) : past ⊆ past' -> past ⊆ x :: past'.
Proof. intros Hs y Hy. right. by apply Hs. Qed.
Create HintDb dialogue.
#[export] Hint Resolve asked_now past_cons : dialogue.

Section Dialogue.
(** Which calls may be made after which exchanges. *)
Context (may : Past -> forall R, Effect R -> Prop).

Fixpoint dialogue {A} (past : Past) (p : Worker A) (Q : Past -> A -> Prop) : Prop :=
  match p with
  | Done a => Q past a
  | Do e k => may past _ e /\ forall r, dialogue (mkExchange e r :: past) (k r) Q
  end.

Lemma dialogue_mono {A} past (p : Worker A) (Q Q' : Past -> A -> Prop) :
  (forall past' a, past ⊆ past' -> Q past' a -> Q' past' a) -> dialogue past p Q -> dialogue past p Q'.
Proof.
  revert past. induction p as [a|R e k IH]; intros past HQ; [by apply HQ|]. intros [He Hk]. split; [done|].
  intros r. apply (IH r _); [|apply Hk]. intros past' a Hs. apply HQ. intros x Hx. apply Hs. by right.
Qed.
Lemma dialogue_bind {A B} past (p : Worker A) (f : A -> Worker B) (Q : Past -> B -> Prop) :
  dialogue past p (fun past' a => dialogue past' (f a) Q) -> dialogue past (p ≫= f) Q.
Proof.
  revert past. induction p as [a|R e k IH]; intros past; [done|]. intros [He Hk]. split; [done|].
  intros r. apply (IH r). apply Hk.
Qed.
(** The part that runs first, by what it promises. *)
Lemma dialogue_then {A B} past (p : Worker A) (f : A -> Worker B) (P : Past -> A -> Prop) (Q : Past -> B -> Prop) :
  dialogue past p P -> (forall past' a, past ⊆ past' -> P past' a -> dialogue past' (f a) Q) -> dialogue past (p ≫= f) Q.
Proof. intros Hp Hf. apply dialogue_bind. eapply dialogue_mono; [|exact Hp]. exact Hf. Qed.
Lemma dialogue_must {A B} past (p : Worker (Res A)) (f : A -> Worker (Res B)) (P : Past -> A -> Prop)
    (Q : Past -> Res B -> Prop) :
  dialogue past p (fun past' r => match r with Ok a => P past' a | Err e => Q past' (Err e) end) ->
  (forall past' a, past ⊆ past' -> P past' a -> dialogue past' (f a) Q) -> dialogue past (must p f) Q.
Proof. intros Hp Hf. eapply dialogue_then; [exact Hp|]. intros past' [a|e] Hs H; [by apply Hf|exact H]. Qed.
Lemma dialogue_call {R} past (e : Effect R) (Q : Past -> R -> Prop) : may past _ e ->
  (forall r, Q (mkExchange e r :: past) r) -> dialogue past (call e) Q.
Proof. by split. Qed.
Lemma dialogue_call_then {R B} past (e : Effect R) (f : R -> Worker B) (Q : Past -> B -> Prop) : may past _ e ->
  (forall r, dialogue (mkExchange e r :: past) (f r) Q) -> dialogue past (call e ≫= f) Q.
Proof. by split. Qed.
Lemma dialogue_must_call {R B} past (e : Effect (Res R)) (f : R -> Worker (Res B)) (Q : Past -> Res B -> Prop) :
  may past _ e -> (forall r, dialogue (mkExchange e (Ok r) :: past) (f r) Q) ->
  (forall err, Q (mkExchange e (Err err) :: past) (Err err)) -> dialogue past (must (call e) f) Q.
Proof. intros He Hf Hq. split; [exact He|]. intros [r|err]; [apply Hf|apply Hq]. Qed.

(** Calls that need no justification. *)
Fixpoint casual {A} (p : Worker A) : Prop :=
  match p with
  | Done _ => True
  | Do e k => (forall past, may past _ e) /\ forall r, casual (k r)
  end.
Lemma casual_dialogue {A} past (p : Worker A) : casual p -> dialogue past p (fun past' _ => past ⊆ past').
Proof.
  revert past. induction p as [a|R e k IH]; intros past; [by intros _ x|]. intros [He Hk]. split; [apply He|].
  intros r. eapply dialogue_mono; [|apply IH, Hk]. intros past' a _ Hs x Hx. apply Hs. by right.
Qed.
Lemma casual_then {A B} past (p : Worker A) (f : A -> Worker B) (Q : Past -> B -> Prop) : casual p ->
  (forall past' a, past ⊆ past' -> dialogue past' (f a) Q) -> dialogue past (p ≫= f) Q.
Proof. intros Hp Hf. eapply dialogue_then; [by apply casual_dialogue|]. intros past' a Hs _. by apply Hf. Qed.
End Dialogue.
