(* ===== verification/TrafficService.v ===== *)
(** * Collecting traffic: internal/application/traffic_service.go

    One round: the counters of every allocation on the node are read in
    batches, turned into updates, and committed in one transaction. Logging is
    left out. *)

From Stdlib Require Import ZArith Lia.
From S2P Require Import Prelude GoTypes Identity Text Inbound Tokens User Sync Quota Traffic Template Cycle Records Database Secrets StoreCore StoreSync StoreQuota StoreUsers StoreTraffic StoreDrift StoreTemplates UserService Adapter Calls.

(** [ts_notify]: whether a callback that wakes the synchronizer is set. *)
Record TrafficService := mkTrafficService {
  ts_target : InstanceTarget;
  ts_interval : Duration;
  ts_notify : bool }.
Definition NewTrafficService (target : InstanceTarget) (interval : Duration) (notify : bool) : TrafficService :=
  mkTrafficService target (if interval <=? 0 then 5 * Second else interval) notify.

Record CollectionSummary := mkCollection {
  sm_Targets : Z;
  sm_Applied : Z;
  sm_Blocked : Z;
  sm_Rolled : Z;
  sm_Restored : Z;
  sm_Skipped : Z;
  sm_Events : Z;
  sm_Duration : Duration }.
#[global] Instance eta_CollectionSummary : Eta CollectionSummary := fun r =>
  mkCollection (sm_Targets r) (sm_Applied r) (sm_Blocked r) (sm_Rolled r) (sm_Restored r) (sm_Skipped r)
    (sm_Events r) (sm_Duration r).

Definition readBatchSize : Z := 20.
Definition bootEpochQuantization : Duration := Second.
Definition zero_observation : InstanceObservation := mkObservation zero_time 0 zero_time false.

(** RFC 3339 text in whole seconds; [None] for the empty string. *)
Definition epochString (observation : InstanceObservation) : option Time :=
  if ob_BootEpochKnown observation then Some (epoch_text (ob_BootEpoch observation)) else None.

(** ** Consistent batches *)
Definition observationMismatch (first previous current : InstanceObservation) : string :=
  let seen := negb (IsZero (ob_ObservedAt previous)) in
  let regressed :=
    if seen && Before (ob_ObservedAt current) (ob_ObservedAt previous) then "observation time regressed between batches"
    else "" in
  if negb (Bool.eqb (ob_BootEpochKnown first) (ob_BootEpochKnown current)) then "boot epoch visibility changed between batches"
  else if ob_BootEpochKnown first then
    let difference := time_sub (ob_BootEpoch current) (ob_BootEpoch first) in
    let difference := if difference <? 0 then wrap64 (- difference) else difference in
    if bootEpochQuantization <? difference then "Xray restarted between batches (boot epoch changed)"
    else if seen && (ob_UptimeSeconds current <? ob_UptimeSeconds previous) then
      "Xray restarted between batches (uptime decreased)"
    else regressed
  else regressed.

(** [ids[start:end]] for the successive values of [start]. *)
Definition batches (ids : list string) : list (list string) :=
  let size := Z.to_nat readBatchSize in
  (fun k => take size (drop (k * size) ids)) <$> seq 0 ((length ids + (size - 1)) / size).

(** The samples of a round by identity and direction: a map of maps; a sample that is missing is the zero sample. *)
Abbreviation Samples := (gmap string (list (Direction * TrafficSample))).

Section Service.
Context {Zn : Zones}.
Context (s : TrafficService).

(** The loop over the batches: what is merged so far and the observation of
    the batch before; [None] before the first batch. *)
Fixpoint read_batches (ids : list (list string)) (so_far : option (TrafficRound * InstanceObservation)) : Worker (Res TrafficRound) :=
  match ids with
  | [] =>
      let '(merged, previous) := default (mkRound zero_observation [], zero_observation) so_far in
      let observation := tr_Observation merged in
      mret (Ok (if IsZero (ob_ObservedAt previous) then merged
                else mkRound (mkObservation (ob_ObservedAt previous) (ob_UptimeSeconds observation)
                                (ob_BootEpoch observation) (ob_BootEpochKnown observation)) (tr_Snapshots merged)))
  | batch :: ids =>
      must (node (ReadTraffic (mkQuery (ts_target s) batch))) (fun round =>
        match so_far with
        | None => read_batches ids (Some (mkRound (tr_Observation round) (tr_Snapshots round), tr_Observation round))
        | Some (merged, previous) =>
            let first := tr_Observation merged in
            let reason := observationMismatch first previous (tr_Observation round) in
            if bool_decide (reason <> "") then
              mret (Err (InconsistentRoundError reason (epochString first) (epochString (tr_Observation round))))
            else read_batches ids (Some (mkRound first (tr_Snapshots merged ++ tr_Snapshots round), tr_Observation round))
        end)
  end.
Definition readAll (ids : list string) : Worker (Res TrafficRound) := read_batches (batches ids) None.

(** ** One update *)
Definition sample_in (samples : list (Direction * TrafficSample)) (direction : Direction) : TrafficSample :=
  match find (fun p => bool_decide (p.1 = direction)) samples with Some p => p.2 | None => mkSample false 0 end.
Definition collect_samples (snapshots : list CounterSnapshot) : Samples :=
  foldl (fun m snapshot =>
    <[cs_StatisticsID snapshot :=
        (cs_Direction snapshot, mkSample (cs_Found snapshot) (cs_Bytes snapshot)) ::
        default [] (m !! cs_StatisticsID snapshot)]> m) ∅ snapshots.

Fixpoint dedupe_loop (seen : bool) (events : list ContinuityEvent) : list ContinuityEvent :=
  match events with
  | [] => []
  | event :: events =>
      if bool_decide (e_Type event = EventNodeRestart) then
        if seen then dedupe_loop true events
        else mkContinuity (e_Type event) "" (e_OldCounter event) (e_NewCounter event) (e_CounterEpoch event) (e_Summary event)
             :: dedupe_loop true events
      else event :: dedupe_loop seen events
  end.
Definition dedupeRestart (events : list ContinuityEvent) : list ContinuityEvent := dedupe_loop false events.

Definition late (cursor : TrafficCursorRecord) (observedAt : Time) : bool :=
  match tc_LastObservedAt cursor with Some last => Before observedAt last | None => false end.
Definition restarted (cursor : TrafficCursorRecord) (observation : InstanceObservation) : bool :=
  match tc_BootEpoch cursor with
  | Some stored => RestartConfirmed stored (ob_BootEpoch observation) (ob_BootEpochKnown observation) (ts_interval s)
  | None => false
  end.
Definition sampled (cursor : TrafficCursorRecord) (observation : InstanceObservation)
    (samples : list (Direction * TrafficSample)) (direction : Direction) : DeltaResult :=
  let counter := match direction with Uplink => tc_UplinkCounter cursor | Downlink => tc_DownlinkCounter cursor end in
  let epoch := match direction with Uplink => tc_UplinkEpoch cursor | Downlink => tc_DownlinkEpoch cursor end in
  ApplySample (direction_string direction) (mkDirCursor counter epoch) (sample_in samples direction)
    (restarted cursor observation) (bool_decide (tc_MissingSince cursor <> None)).

(** An increment is dropped when a total could not represent it. *)
Definition lifetime_delta (total delta : Z) (direction : Direction) : Z * list ContinuityEvent :=
  match AddDelta total delta with
  | Ok _ => (delta, [])
  | Err _ => (0, [mkContinuity EventOverflow (direction_string direction) None None 0 "lifetime total would overflow"])
  end.
Definition cycle_delta (accounted delta : Z) : Z := match AddDelta accounted delta with Ok _ => delta | Err _ => 0 end.

Definition gap_events (cursor : TrafficCursorRecord) (observedAt : Time) : list ContinuityEvent :=
  match tc_LastObservedAt cursor with
  | Some last =>
      if BoundaryGap last observedAt (ts_interval s) then
        [mkContinuity EventBoundaryGap "" None None 0 "collection gap exceeded two intervals"]
      else []
  | None => []
  end.

Definition next_cursor (target : CollectionTarget) (observation : InstanceObservation) (observedAt : Time)
    (uplink downlink : DeltaResult) : TrafficCursorRecord :=
  let cursor := ct_Cursor target in
  let lost := r_Missing uplink || r_Missing downlink in
  let found := negb (r_Missing uplink) || negb (r_Missing downlink) in
  mkCursor (a_ID (ct_Allocation target))
    (if ob_BootEpochKnown observation && found then epochString observation else tc_BootEpoch cursor)
    (dc_Counter (r_Cursor uplink)) (dc_Counter (r_Cursor downlink)) (dc_Epoch (r_Cursor uplink)) (dc_Epoch (r_Cursor downlink))
    (Some observedAt)
    (if found then Some observedAt else tc_LastSuccessAt cursor)
    (if lost then match tc_MissingSince cursor with Some t => Some t | None => Some observedAt end else None).

Fixpoint record_events (allocationID : ID) (observedAt : Time) (events : list ContinuityEvent) : Worker (Res (list ContinuityEventRecord)) :=
  match events with
  | [] => mret (Ok [])
  | event :: events =>
      must (call DrawID) (fun id =>
        must (record_events allocationID observedAt events) (fun records =>
          mret (Ok (mkEventRecord id allocationID event observedAt :: records))))
  end.

Definition quota_audit (id userID : ID) (observedAt : Time) : AuditEvent :=
  mkAudit id observedAt ActorSystem None "user" userID ActionQuotaExceeded AuditAccepted None None
    "accounted usage reached the quota; removal requested".

(** [None]: the sample is late and skipped. *)
Definition buildUpdate (target : CollectionTarget) (samples : list (Direction * TrafficSample))
    (observation : InstanceObservation) (observedAt : Time) : Worker (Res (option TrafficUpdate)) :=
  let cursor := ct_Cursor target in
  let id := a_ID (ct_Allocation target) in
  if late cursor observedAt then mret (Ok None)
  else
    let uplink := sampled cursor observation samples Uplink in
    let downlink := sampled cursor observation samples Downlink in
    let events := r_Events uplink ++ r_Events downlink in
    let events := if restarted cursor observation then dedupeRestart events else events in
    let '(up, up_events) := lifetime_delta (ct_TotalUplink target) (r_Delta uplink) Uplink in
    let '(down, down_events) := lifetime_delta (ct_TotalDownlink target) (r_Delta downlink) Downlink in
    let up := cycle_delta (qc_AccountedUplinkBytes (ct_Cycle target)) up in
    let down := cycle_delta (qc_AccountedDownlinkBytes (ct_Cycle target)) down in
    let location := default UTC (LoadLocation (qc_Timezone (ct_Cycle target))) in
    let '(dayStart, localDate) := DayBounds observedAt (Some location) in
    must (record_events id observedAt (events ++ gap_events cursor observedAt ++ up_events ++ down_events)) (fun records =>
      must (call DrawID) (fun opID =>
        must (call DrawID) (fun auditID =>
          mret (Ok (Some (mkTrafficUpdate id (next_cursor target observation observedAt uplink downlink) up down dayStart
                            localDate (qc_Timezone (ct_Cycle target)) records
                            (Some (operation_template opID id observedAt))
                            (Some (quota_audit auditID (u_ID (ct_User target)) observedAt)))))))).

(** ** The round *)
Definition signal_of (observation : InstanceObservation) (suspected : bool) : CapabilitySignal :=
  mkSignal (ob_BootEpoch observation) (ob_UptimeSeconds observation) (ob_BootEpochKnown observation) suspected.

Definition advanceGeneration (observation : InstanceObservation) : Worker (Res unit) :=
  now ← call Now;
  must (store (CallAdvanceCapabilityGeneration (signal_of observation false) CapabilityGenerationTolerance now)) (fun _ =>
    mret (Ok tt)).

Definition recordFailure (cause : error) : Worker unit :=
  let '(kind, summary) := match cause with
                          | AdapterError kind _ _ summary => (kind, summary)
                          | _ => (ErrorInternal, "traffic collection failed")
                          end in
  now ← call Now;
  logged (CallMarkInstanceUnreachable (kind_string kind) summary now).

Definition recordInconsistency (last : option Time) : Worker unit :=
  _ ← match last with
      | Some observed =>
          now ← call Now;
          logged (CallAdvanceCapabilityGeneration (mkSignal observed 0 true true) CapabilityGenerationTolerance now)
      | None => mret tt
      end;
  now ← call Now;
  logged (CallMarkInstanceHealthy last now).

(** The updates of all targets, and the summary of them. *)
Fixpoint build_updates (targets : list CollectionTarget) (samples : Samples) (observation : InstanceObservation)
    (observedAt : Time) (summary : CollectionSummary) (updates : list TrafficUpdate)
    : Worker (CollectionSummary * Res (list TrafficUpdate)) :=
  match targets with
  | [] => mret (summary, Ok updates)
  | target :: targets =>
      built ← buildUpdate target (default [] (samples !! i_StatisticsID (ct_Identity target))) observation observedAt;
      match built with
      | Err err => mret (summary, Err err)
      | Ok None => build_updates targets samples observation observedAt (summary <| sm_Skipped := sm_Skipped summary + 1 |>) updates
      | Ok (Some update) =>
          build_updates targets samples observation observedAt
            (summary <| sm_Events := sm_Events summary + Z.of_nat (length (tu_Events update)) |>
                     <| sm_Applied := sm_Applied summary + 1 |>)
            (updates ++ [update])
      end
  end.

Definition no_collection : CollectionSummary := mkCollection 0 0 0 0 0 0 0 0.

(** A function that also returns the summary when it fails. *)
Definition ends_with {A} (summary : CollectionSummary) (r : Res A) (f : A -> Worker (CollectionSummary * option error))
    : Worker (CollectionSummary * option error) :=
  match r with Ok a => f a | Err err => mret (summary, Some err) end.
Definition error_of {A} (r : Res A) : option error := match r with Ok _ => None | Err e => Some e end.

Definition probe_only (summary : CollectionSummary) : Worker (CollectionSummary * option error) :=
  probed ← node (Probe (ts_target s));
  match probed with
  | Err err => _ ← recordFailure err; mret (summary, Some err)
  | Ok observation =>
      advanced ← advanceGeneration observation;
      ends_with summary advanced (fun _ =>
        now ← call Now;
        healthy ← store (CallMarkInstanceHealthy (epochString observation) now);
        mret (summary, error_of healthy))
  end.

Definition commit_round (targets : list CollectionTarget) (round : TrafficRound) (started : Time)
    (summary : CollectionSummary) : Worker (CollectionSummary * option error) :=
  let observation := tr_Observation round in
  observedAt ← if IsZero (ob_ObservedAt observation) then call Now else mret (ob_ObservedAt observation);
  '(summary, built) ← build_updates targets (collect_samples (tr_Snapshots round)) observation observedAt summary [];
  ends_with summary built (fun updates =>
    committed ← store (CallCommitTrafficBatch (mkBatch observedAt updates));
    ends_with summary committed (fun result =>
      let summary := summary <| sm_Blocked := cres_Blocked result |> <| sm_Rolled := cres_Rolled result |>
                             <| sm_Restored := cres_Restored result |> in
      _ ← if (0 <? sm_Blocked summary + sm_Restored summary) && ts_notify s then call NotifySync else mret tt;
      advanced ← advanceGeneration observation;
      ends_with summary advanced (fun _ =>
        now ← call Now;
        healthy ← store (CallMarkInstanceHealthy (epochString observation) now);
        ends_with summary healthy (fun _ =>
          finished ← call Now;
          mret (summary <| sm_Duration := time_sub finished started |>, None))))).

Definition CollectOnce : Worker (CollectionSummary * option error) :=
  started ← call Now;
  listed ← store CallCollectionTargets;
  ends_with no_collection listed (fun targets =>
    let summary := no_collection <| sm_Targets := Z.of_nat (length targets) |> in
    match targets with
    | [] => probe_only summary
    | _ =>
        round ← readAll (i_StatisticsID ∘ ct_Identity <$> targets);
        match round with
        | Err ((InconsistentRoundError _ _ last) as err) =>
            _ ← recordInconsistency last;
            mret (summary <| sm_Skipped := Z.of_nat (length targets) |>, Some err)
        | Err err => _ ← recordFailure err; mret (summary, Some err)
        | Ok round => commit_round targets round started summary
        end
    end).
End Service.
