(* ===== verification/TrafficLaws.v ===== *)
(** * What a collection round charges

    The batches of a round are one reading of one process, and the batch that
    is committed charges exactly what they say. *)

From Stdlib Require Import ZArith Lia.
From S2P Require Import Prelude GoTypes Identity Text Inbound Tokens User Sync Quota Traffic Template Cycle Records Database StoreCore StoreSync StoreQuota StoreUsers StoreTraffic StoreTemplates UserService Adapter Calls Trace TrafficService.

(** ** Batches *)
Lemma concat_slices {A} (l : list A) size n :
  concat ((fun k => take size (drop (k * size) l)) <$> seq 0 n) = take (n * size) l.
Proof.
  induction n as [|n IH]; [by rewrite take_0|].
  rewrite seq_S, fmap_app, concat_app, IH. cbn. rewrite app_nil_r.
  replace (size + n * size)%nat with (n * size + size)%nat by lia. apply take_take_drop.
Qed.

Lemma batches_concat ids : concat (batches ids) = ids.
Proof.
  unfold batches. rewrite concat_slices. apply take_ge.
  change (Z.to_nat readBatchSize) with 20%nat. pose proof (Nat.div_mod_eq (length ids + (20 - 1)) 20).
  pose proof (Nat.mod_upper_bound (length ids + (20 - 1)) 20). lia.
Qed.

Definition queried (ids : list string) : Prop := (1 <= length ids <= Z.to_nat readBatchSize)%nat.
Lemma batches_sized ids : Forall queried (batches ids).
Proof.
  apply Forall_fmap, Forall_forall. intros k Hk. apply elem_of_seq in Hk. unfold queried. cbn.
  rewrite length_take, length_drop. change (Z.to_nat readBatchSize) with 20%nat in *.
  pose proof (Nat.div_mod_eq (length ids + (20 - 1)) 20).
  pose proof (Nat.mod_upper_bound (length ids + (20 - 1)) 20). lia.
Qed.

(** ** One process *)

(** A difference of less than -292 years cannot be told from none. *)
Definition close (a b : Time) : Prop := Z.abs (b - a) <= bootEpochQuantization \/ b - a <= MinInt64.
Definition same_process (first previous current : InstanceObservation) : Prop :=
  let seen := IsZero (ob_ObservedAt previous) = false in
  ob_BootEpochKnown first = ob_BootEpochKnown current /\
  (ob_BootEpochKnown first = true ->
     close (ob_BootEpoch first) (ob_BootEpoch current) /\ (seen -> ob_UptimeSeconds previous <= ob_UptimeSeconds current)) /\
  (seen -> ob_ObservedAt previous <= ob_ObservedAt current).


(** The absolute difference as the code takes it. *)
Lemma abs_difference d bound : in_int64 d -> 0 <= bound <= MaxInt64 ->
  (bound <? (if d <? 0 then wrap64 (- d) else d)) = false <-> Z.abs d <= bound \/ d = MinInt64.
Proof.
  unfold in_int64. intros Hd Hb. pose proof MinInt64_eq. destruct (Z.ltb_spec d 0) as [Hn|Hn]; [|rewrite Z.ltb_ge; lia].
  destruct (decide (d = MinInt64)) as [->|Hm].
  - rewrite Z.ltb_ge. split; [auto|]. intros _. change (wrap64 (- MinInt64)) with MinInt64. lia.
  - rewrite wrap64_id; [rewrite Z.ltb_ge; lia|]. unfold in_int64. rewrite MaxInt64_eq, MinInt64_eq in *. lia.
Qed.
Lemma time_sub_range t u : in_int64 (time_sub t u).
Proof. unfold in_int64, time_sub. pose proof MaxInt64_eq. pose proof MinInt64_eq. lia. Qed.

Lemma close_spec a b :
  let difference := time_sub b a in
  (bootEpochQuantization <? (if difference <? 0 then wrap64 (- difference) else difference)) = false <-> close a b.
Proof.
  cbn. rewrite abs_difference; [|apply time_sub_range|vm_compute; split; discriminate].
  unfold close, time_sub. rewrite MinInt64_eq, MaxInt64_eq. change bootEpochQuantization with 1000000000. lia.
Qed.

Lemma observationMismatch_spec first previous current :
  observationMismatch first previous current = "" <-> same_process first previous current.
Proof.
  unfold observationMismatch, same_process, Before. rewrite <- close_spec. cbv zeta.
  destruct (ob_BootEpochKnown first), (ob_BootEpochKnown current); cbn [Bool.eqb negb];
    try (split; [discriminate|by intros [? _]]);
    destruct (IsZero (ob_ObservedAt previous)); cbn [negb andb];
    repeat match goal with |- context [if ?b then _ else _] => destruct b eqn:? end; to_prop;
    (split; [intros Hr; try discriminate; split_and!; intros; try done; lia|]); intros (_ & H1 & H2); try done;
    exfalso; try (specialize (H1 eq_refl) as [H1 H3]); try (specialize (H2 eq_refl)); try (specialize (H3 eq_refl)); try done; lia.
Qed.

(** The answers to the batches after the first one. *)
Fixpoint follow (first previous : InstanceObservation) (rounds : list TrafficRound) : Prop :=
  match rounds with
  | [] => True
  | round :: rounds => same_process first previous (tr_Observation round) /\ follow first (tr_Observation round) rounds
  end.
Definition one_process (rounds : list TrafficRound) : Prop :=
  match rounds with
  | [] => True
  | round :: rounds => follow (tr_Observation round) (tr_Observation round) rounds
  end.

Definition at_time (observation : InstanceObservation) (t : Time) : InstanceObservation :=
  if IsZero t then observation
  else mkObservation t (ob_UptimeSeconds observation) (ob_BootEpoch observation) (ob_BootEpochKnown observation).
(** The round the batches make: the process of the first one, the time of the
    last one, all the counters. *)
Definition merged (rounds : list TrafficRound) : TrafficRound :=
  let first := from_option tr_Observation zero_observation (head rounds) in
  let last_ := from_option tr_Observation zero_observation (last rounds) in
  mkRound (at_time first (ob_ObservedAt last_)) (concat (tr_Snapshots <$> rounds)).

Lemma follow_snoc first previous rounds round : follow first previous rounds ->
  same_process first (default previous (tr_Observation <$> last rounds)) (tr_Observation round) ->
  follow first previous (rounds ++ [round]).
Proof.
  revert previous. induction rounds as [|r rounds IH]; intros previous; cbn; [by split|].
  intros [Hr Hf] Hs. split; [done|]. apply IH; [done|]. rewrite last_cons in Hs. destruct (last rounds); exact Hs.
Qed.
Lemma one_process_snoc r rounds round : one_process (r :: rounds) ->
  same_process (tr_Observation r) (from_option tr_Observation zero_observation (last (r :: rounds))) (tr_Observation round) ->
  one_process ((r :: rounds) ++ [round]).
Proof.
  cbn. intros Hf Hs. apply follow_snoc; [done|]. rewrite last_cons in Hs. destruct (last rounds); exact Hs.
Qed.

(** ** The updates of a round *)
Section Laws.
Context {Zn : Zones}.
Context (s : TrafficService).

Definition samples_of (target : CollectionTarget) (round : TrafficRound) : list (Direction * TrafficSample) :=
  default [] (collect_samples (tr_Snapshots round) !! i_StatisticsID (ct_Identity target)).
Definition sampled_of (target : CollectionTarget) (round : TrafficRound) (direction : Direction) : DeltaResult :=
  sampled s (ct_Cursor target) (tr_Observation round) (samples_of target round) direction.
(** The increment, unless a total of the user could not hold it. *)
Definition charged (total accounted delta : Z) : Z :=
  if is_ok (AddDelta total delta) && is_ok (AddDelta accounted delta) then delta else 0.
Definition update_of (round : TrafficRound) (observedAt : Time) (target : CollectionTarget) (u : TrafficUpdate) : Prop :=
  let up := sampled_of target round Uplink in
  let down := sampled_of target round Downlink in
  tu_AllocationID u = a_ID (ct_Allocation target) /\
  tu_UplinkDelta u = charged (ct_TotalUplink target) (qc_AccountedUplinkBytes (ct_Cycle target)) (r_Delta up) /\
  tu_DownlinkDelta u = charged (ct_TotalDownlink target) (qc_AccountedDownlinkBytes (ct_Cycle target)) (r_Delta down) /\
  tu_Cursor u = next_cursor target (tr_Observation round) observedAt up down /\
  (tu_DayStartUTC u, tu_LocalDate u) =
    DayBounds observedAt (Some (default UTC (LoadLocation (qc_Timezone (ct_Cycle target))))) /\
  exists op audit, tu_QuotaBlock u = Some op /\ op_AllocationID op = a_ID (ct_Allocation target) /\
    tu_Audit u = Some audit /\ au_TargetID audit = u_ID (ct_User target).

(** The calls of a round: readings of at most a batch, no change of the node,
    the health of the instance, and a batch that charges what the store listed and the node answered. *)
Definition read_batch (past : Past) (batch : list string) (round : TrafficRound) : Prop :=
  asked past (OnNode (ReadTraffic (mkQuery (ts_target s) batch))) (Ok round).
Definition completed (past : Past) (round : TrafficRound) (observedAt : Time) : Prop :=
  if IsZero (ob_ObservedAt (tr_Observation round)) then asked past Now observedAt
  else observedAt = ob_ObservedAt (tr_Observation round).
Definition charges (past : Past) (batch : TrafficBatch) : Prop := exists targets rounds,
  let round := merged rounds in
  let observedAt := tb_ObservedAt batch in
  asked past (OnStore CallCollectionTargets) (Ok targets) /\
  Forall2 (read_batch past) (batches (i_StatisticsID ∘ ct_Identity <$> targets)) rounds /\
  one_process rounds /\ completed past round observedAt /\
  Forall2 (update_of round observedAt)
    (filter (fun target => late (ct_Cursor target) observedAt = false) targets) (tb_Updates batch).
Definition is_commit (x : Exchange) : bool :=
  match x_call x with OnStore (CallCommitTrafficBatch _) => true | _ => false end.
Definition uncommitted (past : Past) : Prop := Forall (fun x => is_commit x = false) past.
Definition collecting (past : Past) (R : Type) (e : Effect R) : Prop :=
  match e with
  | OnStore (CallCommitTrafficBatch batch) => uncommitted past /\ charges past batch
  | OnStore CallCollectionTargets | OnStore (CallAdvanceCapabilityGeneration _ _ _)
  | OnStore (CallMarkInstanceHealthy _ _) | OnStore (CallMarkInstanceUnreachable _ _ _) => True
  | OnStore _ => False
  | OnNode (ReadTraffic query) => queried (tq_StatisticsIDs query)
  | OnNode call => mutated_tag call = None
  | _ => True
  end.
(** *** Reading *)
Definition so_far (rounds : list TrafficRound) : option (TrafficRound * InstanceObservation) :=
  match rounds with
  | [] => None
  | r :: _ => Some (mkRound (tr_Observation r) (concat (tr_Snapshots <$> rounds)),
                    from_option tr_Observation zero_observation (last rounds))
  end.
Definition read_ok (past : Past) (batches : list (list string)) (r : Res TrafficRound) : Prop :=
  uncommitted past /\
  match r with
  | Ok round => exists rounds, Forall2 (read_batch past) batches rounds /\ one_process rounds /\ round = merged rounds
  | Err _ => True
  end.

Lemma so_far_merged rounds :
  let '(m, previous) := default (mkRound zero_observation [], zero_observation) (so_far rounds) in
  (if IsZero (ob_ObservedAt previous) then m
   else mkRound (mkObservation (ob_ObservedAt previous) (ob_UptimeSeconds (tr_Observation m))
                   (ob_BootEpoch (tr_Observation m)) (ob_BootEpochKnown (tr_Observation m))) (tr_Snapshots m)) = merged rounds.
Proof. destruct rounds as [|r rounds]; [reflexivity|]. cbn -[last]. unfold merged, at_time. cbn -[last]. by case_if. Qed.
Lemma so_far_snoc r rounds round : so_far ((r :: rounds) ++ [round]) =
  Some (mkRound (tr_Observation r) (concat (tr_Snapshots <$> r :: rounds) ++ tr_Snapshots round), tr_Observation round).
Proof.
  unfold so_far. cbn [app]. rewrite (app_comm_cons rounds [round] r), last_snoc, fmap_app, concat_app. cbn. by rewrite app_nil_r.
Qed.

Lemma read_batch_mono past past' : past ⊆ past' -> forall batches rounds,
  Forall2 (read_batch past) batches rounds -> Forall2 (read_batch past') batches rounds.
Proof. intros Hs batches rounds H. eapply Forall2_impl; [exact H|]. intros ? ?. by apply asked_before. Qed.

Lemma read_batches_dialogue ids bs rounds past : Forall queried ids -> Forall2 (read_batch past) bs rounds ->
  one_process rounds -> uncommitted past ->
  dialogue collecting past (read_batches s ids (so_far rounds)) (fun past' => read_ok past' (bs ++ ids)).
Proof.
  revert bs rounds past. induction ids as [|ids rest IH]; intros bs rounds past Hq Hb Hp Hu.
  - cbn [read_batches]. pose proof (so_far_merged rounds) as Hm. destruct (default _ _) as [m previous].
    rewrite Hm, app_nil_r. cbn. split; [done|]. by exists rounds.
  - apply Forall_cons in Hq as [Hq Hqs]. cbn [read_batches]. apply dialogue_must_call; [exact Hq| |].
    2: { intros err. split; [by apply Forall_cons|done]. }
    intros round. set (past' := _ :: past).
    assert (Forall2 (read_batch past') (bs ++ [ids]) (rounds ++ [round])) as Hb'.
    { apply Forall2_app; [|constructor; [apply asked_now|constructor]].
      eapply read_batch_mono; [|exact Hb]. by apply past_cons. }
    assert (uncommitted past') as Hu' by by apply Forall_cons.
    replace (bs ++ ids :: rest) with ((bs ++ [ids]) ++ rest) by by rewrite <- app_assoc.
    destruct rounds as [|r rounds]; cbn [so_far].
    { pose proof (IH _ [round] past' Hqs Hb' I Hu') as H. cbn in H. rewrite app_nil_r in H. exact H. }
    case_bool_decide as Hr; [by split|].
    assert (observationMismatch (tr_Observation r) (from_option tr_Observation zero_observation (last (r :: rounds)))
              (tr_Observation round) = "") as Hs%observationMismatch_spec by exact Hr.
    pose proof (IH _ _ past' Hqs Hb' (one_process_snoc _ _ _ Hp Hs) Hu') as H. rewrite so_far_snoc in H. exact H.
Qed.

(** *** Building *)
Lemma charged_spec total accounted delta direction :
  cycle_delta accounted (lifetime_delta total delta direction).1 = charged total accounted delta.
Proof.
  unfold cycle_delta, lifetime_delta, charged. destruct (AddDelta total delta); cbn [is_ok andb fst].
  - by destruct (AddDelta accounted delta).
  - by destruct (AddDelta accounted 0).
Qed.

Lemma record_events_dialogue id t events past : uncommitted past ->
  dialogue collecting past (record_events id t events) (fun past' _ => uncommitted past').
Proof.
  revert past. induction events as [|event events IH]; intros past Hu; [done|]. cbn [record_events].
  apply dialogue_must_call; [done| |by constructor]. intros r.
  eapply (dialogue_must _ _ _ _ (fun past' _ => uncommitted past')); [|done].
  eapply dialogue_mono; [|apply IH; by constructor]. by intros past' [].
Qed.

Lemma buildUpdate_dialogue target round observedAt past : uncommitted past ->
  dialogue collecting past (buildUpdate s target (samples_of target round) (tr_Observation round) observedAt)
    (fun past' r => uncommitted past' /\
       match r with
       | Ok (Some u) => late (ct_Cursor target) observedAt = false /\ update_of round observedAt target u
       | Ok None => late (ct_Cursor target) observedAt = true
       | Err _ => True
       end).
Proof.
  intros Hu. unfold buildUpdate. destruct (late _ _) eqn:El; [done|].
  change (sampled s (ct_Cursor target) (tr_Observation round) (samples_of target round)) with (sampled_of target round).
  pose proof (charged_spec (ct_TotalUplink target) (qc_AccountedUplinkBytes (ct_Cycle target))
    (r_Delta (sampled_of target round Uplink)) Uplink) as Hup.
  pose proof (charged_spec (ct_TotalDownlink target) (qc_AccountedDownlinkBytes (ct_Cycle target))
    (r_Delta (sampled_of target round Downlink)) Downlink) as Hdown.
  destruct (lifetime_delta _ _ Uplink) as [up up_events], (lifetime_delta _ _ Downlink) as [down down_events].
  destruct (DayBounds _ _) as [dayStart localDate] eqn:Ed. cbn [fst] in Hup, Hdown.
  eapply (dialogue_must _ _ _ _ (fun past' _ => uncommitted past')).
  { eapply dialogue_mono; [|by apply record_events_dialogue]. by intros past' []. }
  intros past1 records _ Hu1. apply dialogue_must_call; [done| |split; [by constructor|done]].
  intros opID. apply dialogue_must_call; [done| |split; [by repeat constructor|done]].
  intros auditID. split; [by repeat constructor|]. split; [done|]. unfold update_of. cbn. rewrite Hup, Hdown, Ed.
  split_and!; try done. by do 2 eexists.
Qed.

Lemma build_updates_dialogue targets round observedAt done_ updates summary past : uncommitted past ->
  let on_time := filter (fun target => late (ct_Cursor target) observedAt = false) in
  Forall2 (update_of round observedAt) (on_time done_) updates ->
  dialogue collecting past
    (build_updates s targets (collect_samples (tr_Snapshots round)) (tr_Observation round) observedAt summary updates)
    (fun past' out => uncommitted past' /\
       forall updates, out.2 = Ok updates -> Forall2 (update_of round observedAt) (on_time (done_ ++ targets)) updates).
Proof.
  intros Hu on_time. revert done_ updates summary past Hu.
  induction targets as [|target targets IH]; intros done_ updates summary past Hu Hd; cbn [build_updates].
  { split; [done|]. intros us [= <-]. by rewrite app_nil_r. }
  eapply dialogue_then; [by apply buildUpdate_dialogue|]. intros past' [[u|]|err] _ [Hu' Hb]; [| |by split].
  - destruct Hb as [Hl Hb]. replace (done_ ++ target :: targets) with ((done_ ++ [target]) ++ targets) by by rewrite <- app_assoc.
    apply IH; [done|]. unfold on_time. rewrite filter_app, filter_cons_True, filter_nil by done.
    apply Forall2_app; [done|]. by constructor.
  - replace (done_ ++ target :: targets) with ((done_ ++ [target]) ++ targets) by by rewrite <- app_assoc.
    apply IH; [done|]. unfold on_time. rewrite filter_app, filter_cons_False, filter_nil, app_nil_r by congruence. done.
Qed.

(** *** The round *)
Definition committed_round (past : Past) (out : CollectionSummary * option error) : Prop :=
  out.2 = None -> asked past (OnStore CallCollectionTargets) (Ok []) \/
    exists batch result, asked past (OnStore (CallCommitTrafficBatch batch)) (Ok result) /\
      sm_Blocked out.1 = cres_Blocked result /\ sm_Restored out.1 = cres_Restored result.

Lemma advance_dialogue observation past : dialogue collecting past (advanceGeneration observation) (fun past' _ => past ⊆ past').
Proof. apply casual_dialogue. split; [done|]. intros now. split; [done|]. by intros [[]|]. Qed.

Lemma closing_dialogue observation summary (finish : unit -> Worker (CollectionSummary * option error)) past :
  (forall past', past ⊆ past' -> dialogue collecting past' (finish tt) committed_round) ->
  dialogue collecting past
    (advanced ← advanceGeneration observation;
     ends_with summary advanced (fun _ =>
       now ← call Now;
       healthy ← store (CallMarkInstanceHealthy (epochString observation) now);
       ends_with summary healthy finish)) committed_round.
Proof.
  intros Hf. eapply dialogue_then; [apply advance_dialogue|]. intros past1 [[]|err] _ H1; [|done].
  split; [done|]. intros now. split; [done|]. intros [[]|err]; [|done]. apply Hf. by do 2 apply past_cons.
Qed.

Lemma probe_only_dialogue summary past : asked past (OnStore CallCollectionTargets) (Ok []) ->
  dialogue collecting past (probe_only s summary) committed_round.
Proof.
  intros Ha. split; [done|]. intros [observation|err].
  - eapply dialogue_then; [apply advance_dialogue|]. intros past1 [[]|err] _ H1; [|done].
    split; [done|]. intros now. split; [done|]. intros r _. left. apply (asked_before past); [|done].
    do 2 apply past_cons. intros x Hx. apply H1. by right.
  - eapply dialogue_then; [apply casual_dialogue|done]. unfold recordFailure. destruct err; by repeat split.
Qed.

Lemma commit_round_dialogue targets rounds started summary past :
  asked past (OnStore CallCollectionTargets) (Ok targets) ->
  Forall2 (read_batch past) (batches (i_StatisticsID ∘ ct_Identity <$> targets)) rounds ->
  one_process rounds -> uncommitted past ->
  dialogue collecting past (commit_round s targets (merged rounds) started summary) committed_round.
Proof.
  intros Ht Hr Hp Hu. unfold commit_round.
  eapply (dialogue_then _ _ _ _ (fun past' observedAt => uncommitted past' /\ completed past' (merged rounds) observedAt)).
  { unfold completed. destruct (IsZero _); [|done]. split; [done|]. intros now. split; [by constructor|apply asked_now]. }
  intros past1 observedAt H1 [Hu1 Hc]. eapply dialogue_then; [apply (build_updates_dialogue targets _ _ []); [done|constructor]|].
  intros past2 [summary' built] H2 [Hu2 Hb]. destruct built as [updates|err]; [|done]. cbn [ends_with].
  assert (past ⊆ past2) as H12 by (by etransitivity).
  split.
  { split; [done|]. exists targets, rounds. cbn. split; [by eapply asked_before|]. split; [by eapply read_batch_mono|].
    split; [done|]. split; [|by apply (Hb updates)]. unfold completed in *. destruct (IsZero _); [exact (asked_before _ _ _ _ H2 Hc)|done]. }
  intros [result|err]; [|done]. cbn [ends_with]. set (past3 := _ :: past2).
  eapply dialogue_then; [apply casual_dialogue; destruct (_ && _); by repeat split|]. intros past4 [] H4 _.
  apply closing_dialogue. intros past5 H5. split; [done|]. intros finished _. right. exists (mkBatch observedAt updates), result.
  split; [|done]. apply (asked_before past3); [|apply asked_now]. apply past_cons. by etransitivity.
Qed.

Lemma CollectOnce_says : dialogue collecting [] (CollectOnce s) committed_round.
Proof.
  unfold CollectOnce. split; [done|]. intros started. split; [done|]. intros [targets|err]; [|done]. cbn [ends_with].
  destruct targets as [|target rest]; [apply probe_only_dialogue, asked_now|].
  set (targets := target :: rest). set (past := _ :: _ :: []).
  eapply dialogue_then.
  { apply (read_batches_dialogue (batches (i_StatisticsID ∘ ct_Identity <$> targets)) [] []);
      [apply batches_sized|constructor|done|by repeat constructor]. }
  intros past1 r H1 [Hu Hr]. destruct r as [round|err].
  - destruct Hr as (rounds & Hb & Hp & ->). apply commit_round_dialogue; try done. apply (asked_before past); [done|apply asked_now].
  - assert (dialogue collecting past1 (_ ← recordFailure err; mret (no_collection <| sm_Targets := Z.of_nat (length targets) |>, Some err))
              committed_round) as Hfail.
    { eapply dialogue_then; [apply casual_dialogue|done]. unfold recordFailure. destruct err; by repeat split. }
    destruct err; try exact Hfail. eapply dialogue_then; [apply casual_dialogue|done].
    destruct LastEpoch; by repeat split.
Qed.


(** ** Bounds *)
Definition counter_in_range (c : Z) : Prop := 0 <= c <= MaxInt64.
Definition cursor_in_range (c : option Z) : Prop := match c with Some c => counter_in_range c | None => True end.
Definition target_in_range (target : CollectionTarget) : Prop :=
  counter_in_range (ct_TotalUplink target) /\ counter_in_range (ct_TotalDownlink target) /\
  counter_in_range (qc_AccountedUplinkBytes (ct_Cycle target)) /\
  counter_in_range (qc_AccountedDownlinkBytes (ct_Cycle target)) /\
  cursor_in_range (tc_UplinkCounter (ct_Cursor target)) /\ cursor_in_range (tc_DownlinkCounter (ct_Cursor target)).
Definition unsigned (snapshots : list CounterSnapshot) : Prop := Forall (fun c => 0 <= cs_Bytes c) snapshots.

Lemma ApplySample_in_range direction cursor sample confirmed missing :
  cursor_in_range (dc_Counter cursor) -> 0 <= s_Bytes sample ->
  let r := ApplySample direction cursor sample confirmed missing in
  counter_in_range (r_Delta r) /\ cursor_in_range (dc_Counter (r_Cursor r)) /\ r_Delta r <= s_Bytes sample.
Proof.
  destruct cursor as [[old|] epoch]; cbn; intros Hc Hs; unfold ApplySample; cbn [dc_Counter];
    unfold cursor_in_range, counter_in_range in *; pose proof MaxInt64_eq;
    destruct (s_Found sample); cbn; try (split_and!; first [done|lia]);
    destruct (Z.ltb_spec MaxInt64 (s_Bytes sample)); cbn; try (split_and!; first [done|lia]).
  destruct confirmed; cbn; [split_and!; lia|]. destruct (Z.ltb_spec (s_Bytes sample) old); cbn; [split_and!; lia|].
  rewrite sub64 by lia. split_and!; lia.
Qed.

Lemma collect_samples_unsigned snapshots id samples : unsigned snapshots ->
  collect_samples snapshots !! id = Some samples -> Forall (fun p => 0 <= s_Bytes p.2) samples.
Proof.
  intros Hs. unfold collect_samples.
  assert (map_Forall (fun _ samples => Forall (fun p : Direction * TrafficSample => 0 <= s_Bytes p.2) samples) (∅ : Samples)) as H0
    by apply map_Forall_empty.
  revert H0. generalize (∅ : Samples) as m. induction Hs as [|c l Hc Hs IH]; cbn; intros m Hm; [apply Hm|].
  apply IH. apply map_Forall_insert_2; [|done]. constructor; [done|].
  destruct (m !! cs_StatisticsID c) as [l'|] eqn:El; [|constructor]. exact (Hm _ _ El).
Qed.
Lemma sample_in_unsigned samples direction : Forall (fun p => 0 <= s_Bytes p.2) samples -> 0 <= s_Bytes (sample_in samples direction).
Proof.
  intros Hs. unfold sample_in. destruct (find _ _) as [p|] eqn:Ef; [|done].
  apply find_some in Ef as [Hin _]. apply list_elem_of_In in Hin. rewrite Forall_forall in Hs. by apply Hs.
Qed.
Lemma sampled_in_range target round direction : target_in_range target -> unsigned (tr_Snapshots round) ->
  let r := sampled_of target round direction in
  counter_in_range (r_Delta r) /\ cursor_in_range (dc_Counter (r_Cursor r)).
Proof.
  intros (_ & _ & _ & _ & Hu & Hd) Hs. unfold sampled_of, sampled, samples_of.
  edestruct (ApplySample_in_range (direction_string direction)) as (H1 & H2 & _); [| |by split].
  - by destruct direction.
  - apply sample_in_unsigned. destruct (collect_samples _ !! _) eqn:El; [|constructor]. by eapply collect_samples_unsigned.
Qed.

(** The increment that is granted fits, and only one that would not fit is
    dropped. *)
Definition granted (total accounted delta increment : Z) : Prop :=
  0 <= increment /\ total + increment <= MaxInt64 /\ accounted + increment <= MaxInt64 /\
  (increment = delta \/ increment = 0 /\ (MaxInt64 < total + delta \/ MaxInt64 < accounted + delta)).
Lemma charged_granted total accounted delta : counter_in_range total -> counter_in_range accounted ->
  counter_in_range delta -> granted total accounted delta (charged total accounted delta).
Proof.
  unfold counter_in_range. intros Ht Ha Hd. unfold granted, charged, AddDelta.
  assert (forall base, 0 <= base <= MaxInt64 -> (addBytes base delta).2 = (MaxInt64 <? base + delta)) as Hadd.
  { intros base Hb. unfold addBytes.
    rewrite wrap64_id by (unfold in_int64; rewrite MaxInt64_eq, MinInt64_eq in *; lia). destruct (Z.ltb_spec MaxInt64 (base + delta)); repeat case_if; to_prop; cbn; lia. }
  pose proof (Hadd total Ht) as H1. pose proof (Hadd accounted Ha) as H2.
  destruct (addBytes total delta) as [? o1], (addBytes accounted delta) as [? o2]. cbn in H1, H2. subst o1 o2.
  destruct (Z.ltb_spec MaxInt64 (total + delta)), (Z.ltb_spec MaxInt64 (accounted + delta)); cbn; lia.
Qed.

(** C31: whatever counters the node reports, an update adds to no total of the
    user more than a 64-bit integer can hold, lifetime or accounted, never
    subtracts, and drops an increment only when it would not fit; the counters
    of the cursor stay representable. *)
Theorem buildUpdate_never_overflows target round observedAt : target_in_range target -> unsigned (tr_Snapshots round) ->
  dialogue collecting [] (buildUpdate s target (samples_of target round) (tr_Observation round) observedAt)
    (fun _ r => forall u, r = Ok (Some u) ->
       granted (ct_TotalUplink target) (qc_AccountedUplinkBytes (ct_Cycle target))
         (r_Delta (sampled_of target round Uplink)) (tu_UplinkDelta u) /\
       granted (ct_TotalDownlink target) (qc_AccountedDownlinkBytes (ct_Cycle target))
         (r_Delta (sampled_of target round Downlink)) (tu_DownlinkDelta u) /\
       cursor_in_range (tc_UplinkCounter (tu_Cursor u)) /\ cursor_in_range (tc_DownlinkCounter (tu_Cursor u))).
Proof.
  intros Ht Hs. eapply dialogue_mono; [|apply buildUpdate_dialogue; constructor]. intros past r _ [_ Hr] u ->.
  destruct Hr as (_ & _ & -> & -> & -> & _).
  destruct (sampled_in_range target round Uplink Ht Hs) as [Hu Huc], (sampled_in_range target round Downlink Ht Hs) as [Hd Hdc].
  destruct Ht as (? & ? & ? & ? & _).
  split; [by apply charged_granted|]. split; [by apply charged_granted|done].
Qed.

(** ** Flags the directions share *)
Definition after_round (target : CollectionTarget) (round : TrafficRound) (observedAt : Time) : CollectionTarget :=
  target <| ct_Cursor := next_cursor target (tr_Observation round) observedAt
              (sampled_of target round Uplink) (sampled_of target round Downlink) |>.

Lemma epoch_text_near t : t - Second < epoch_text t <= t.
Proof.
  unfold epoch_text. change Second with 1000000000. pose proof (Z.div_mod t 1000000000 ltac:(lia)).
  pose proof (Z.mod_pos_bound t 1000000000 ltac:(lia)). lia.
Qed.
Lemma near_epoch_not_restarted stored observed interval : 2 * Second <= interval -> Z.abs (observed - stored) < 2 * Second ->
  RestartConfirmed stored observed true interval = false.
Proof.
  intros Hi Hd. unfold RestartConfirmed. cbn [negb orb]. destruct (IsZero stored); [done|].
  change Second with 1000000000 in *. rewrite time_sub_exact by (unfold in_int64; rewrite MaxInt64_eq, MinInt64_eq; lia).
  destruct (Z.ltb_spec (observed - stored) 0); apply Z.ltb_ge; [|lia].
  rewrite wrap64_id; [lia|]. unfold in_int64. rewrite MaxInt64_eq, MinInt64_eq. lia.
Qed.

(** C32: the comment in buildUpdate says the cursor keeps its boot epoch while a
    counter is missing, so that the restart is still confirmed when the counter
    comes back and all it then holds is charged. That holds only while both
    directions are missing: the epoch advances with the first direction that is
    found again, and when the other one comes back the restart is not confirmed
    any more. It is charged what it exceeds the counter of the process before,
    not what it holds. *)
Theorem restart_forgotten_by_missing_direction target first second observedAt old :
  let later := after_round target first observedAt in
  let sample := sample_in (samples_of target second) Downlink in
  2 * Second <= ts_interval s ->
  restarted s (ct_Cursor target) (tr_Observation first) = true ->
  restarted s (ct_Cursor target) (tr_Observation second) = true ->
  Z.abs (ob_BootEpoch (tr_Observation second) - ob_BootEpoch (tr_Observation first)) <= bootEpochQuantization ->
  r_Missing (sampled_of target first Uplink) = false -> r_Missing (sampled_of target first Downlink) = true ->
  tc_DownlinkCounter (ct_Cursor target) = Some old -> 0 <= old ->
  s_Found sample = true -> 0 <= s_Bytes sample <= MaxInt64 ->
  r_Delta (sampled_of target second Downlink) = s_Bytes sample /\
  r_Delta (sampled_of later second Downlink) = Z.max 0 (s_Bytes sample - old).
Proof.
  intros later sample Hi H1 H2 He Hu Hd Hold Hnn Hf Hb.
  assert (ob_BootEpochKnown (tr_Observation first) = true /\ ob_BootEpochKnown (tr_Observation second) = true) as [K1 K2].
  { unfold restarted, RestartConfirmed in H1, H2. destruct (tc_BootEpoch _); [|done].
    destruct (ob_BootEpochKnown (tr_Observation first)), (ob_BootEpochKnown (tr_Observation second)); done. }
  assert (restarted s (ct_Cursor later) (tr_Observation second) = false) as Hr.
  { unfold restarted. cbn -[RestartConfirmed]. unfold epochString. rewrite K1, Hu. cbn -[RestartConfirmed]. rewrite K2.
    apply near_epoch_not_restarted; [done|]. pose proof (epoch_text_near (ob_BootEpoch (tr_Observation first))).
    change bootEpochQuantization with Second in He. lia. }
  assert (r_Cursor (sampled_of target first Downlink) = mkDirCursor (Some old) (tc_DownlinkEpoch (ct_Cursor target))) as Hc.
  { revert Hd. unfold sampled_of, sampled, ApplySample. rewrite Hold. cbn [dc_Counter].
    by repeat match goal with |- context [if ?b then _ else _] => destruct b; cbn end. }
  assert (sample = sample_in (samples_of later second) Downlink) as Hs by done.
  split; unfold sampled_of, sampled; [rewrite H2|rewrite Hr]; [fold sample|rewrite <- Hs].
  - unfold ApplySample. rewrite Hf, Hold. cbn. destruct (Z.ltb_spec MaxInt64 (s_Bytes sample)); [lia|done].
  - cbn [later after_round ct_Cursor]. unfold ApplySample. rewrite Hf. cbn -[Z.max sampled_of]. rewrite Hc. cbn -[Z.max].
    destruct (Z.ltb_spec MaxInt64 (s_Bytes sample)); [lia|]. destruct (Z.ltb_spec (s_Bytes sample) old); cbn -[Z.max]; [lia|].
    rewrite sub64 by lia. lia.
Qed.

(** The flag of a missing counter is shared as well: while one direction is
    missing, the other one is reported as reappeared in every round. *)
Lemma present_direction_reappears target first second observedAt old :
  let later := after_round target first observedAt in
  let sample := sample_in (samples_of target second) Uplink in
  r_Missing (sampled_of target first Downlink) = true ->
  dc_Counter (r_Cursor (sampled_of target first Uplink)) = Some old ->
  s_Found sample = true -> s_Bytes sample <= MaxInt64 ->
  exists event, event ∈ r_Events (sampled_of later second Uplink) /\ e_Type event = EventReappeared /\
    e_OldCounter event = Some old.
Proof.
  intros later sample Hd Hu Hf Hb.
  assert (sample = sample_in (samples_of later second) Uplink) as Hs by done.
  assert (tc_UplinkCounter (ct_Cursor later) = Some old) as Hc by exact Hu.
  assert (bool_decide (tc_MissingSince (ct_Cursor later) <> None) = true) as Hm.
  { cbn -[sampled_of]. rewrite Hd, orb_true_r. apply bool_decide_eq_true. by destruct (tc_MissingSince _). }
  unfold sampled_of, sampled, ApplySample. rewrite <- Hs, Hf, Hc, Hm. cbn [negb dc_Counter].
  destruct (Z.ltb_spec MaxInt64 (s_Bytes sample)); [lia|].
  rewrite (bool_decide_eq_true_2 (Some old <> None)) by done. cbn.
  eexists (mkContinuity EventReappeared _ (Some old) _ _ _). split; [|done].
  repeat match goal with |- context [if ?b then _ else _] => destruct b end; cbn; left.
Qed.
End Laws.
