(* ===== verification/TemplateService.v ===== *)
(** * Inbound templates: internal/application/template_service.go

    Registering, editing and validating templates, and the loop of
    internal/worker/validator.go that validates what is not known to work. The
    node lock is held during a validation; logging is left out. *)

From Stdlib Require Import ZArith Lia.
From S2P Require Import Prelude GoTypes Identity Ports Text Inbound Tokens User Sync Quota Traffic Template Cycle Records Database Secrets StoreCore StoreSync StoreQuota StoreUsers StoreTraffic StoreDrift StoreTemplates StoreListings UserService Adapter Calls Trace TrafficService.

Definition ErrValidationStale : error := PlainError "template changed during validation; result discarded".

Record TemplateInput := mkTemplateInput {
  ti_Name : string;
  ti_PublicHost : string;
  ti_ListenAddress : string;
  ti_PortPoolStart : Z;
  ti_PortPoolEnd : Z;
  ti_Method : string;
  ti_Network : Network;
  ti_RequestID : ID;
  ti_ExpectedRevision : Revision;
  ti_ActorID : ID;
  ti_Fingerprint : string }.

Record RevalidateInput := mkRevalidateInput {
  rv_ID : ID;
  rv_ExpectedRevision : Revision;
  rv_RequestID : ID;
  rv_ActorID : ID;
  rv_Fingerprint : string }.

(** [tm_notify]: whether the callback that queues a validation is set. *)
Record TemplateService := mkTemplateService { tm_target : InstanceTarget; tm_notify : bool }.
Definition NewTemplateService (target : InstanceTarget) (notify : bool) : TemplateService := mkTemplateService target notify.

Section Service.
Context {Un : Unicode} {Sh : Sha256}.
Context (s : TemplateService).

Definition queue_validation (id : ID) : Worker unit := if tm_notify s then call (QueueValidation id) else mret tt.

(** ** Registration and edits *)
Definition template_command (request actor id : ID) (action fingerprint : string) (now : Time) : DomainCommand :=
  mkCommand request ActorAdministrator (Some actor) action "template" id fingerprint CommandCompleted
    ("/templates/" +:+ id) now (Some now).
Definition template_audit (auditID request actor id : ID) (action : string) (result : AuditResult) (summary : string)
    (now : Time) : AuditEvent :=
  mkAudit auditID now ActorAdministrator (Some actor) "template" id action result (Some request) None summary.

Definition templateCommand (input : TemplateInput) (id : ID) (action : string) (now : Time) (fingerprint : string)
    : Worker (Res (DomainCommand * AuditEvent)) :=
  must (call DrawID) (fun auditID =>
    mret (Ok (template_command (ti_RequestID input) (ti_ActorID input) id action fingerprint now,
              template_audit auditID (ti_RequestID input) (ti_ActorID input) id action AuditSucceeded
                "inbound template saved" now))).

Definition template_fields (input : TemplateInput) : list string :=
  [ti_Name input; ti_PublicHost input; ti_ListenAddress input; pretty (ti_PortPoolStart input);
   pretty (ti_PortPoolEnd input); ti_Method input; ti_Network input].

Definition template_of (id instanceID : ID) (input : TemplateInput) (now : Time) : Res InboundTemplate :=
  NewInboundTemplate id instanceID (ti_Name input) (ti_PublicHost input) (ti_ListenAddress input)
    (ti_PortPoolStart input) (ti_PortPoolEnd input) (ti_Method input) (ti_Network input) now.

Definition RegisterTemplate (input : TemplateInput) : Worker (Res ID) :=
  if negb (Valid (ti_RequestID input)) then mret (Err invalid_request)
  else
    must (store CallManagedInstance) (fun inst =>
    must (call DrawID) (fun templateID =>
    now ← call Now;
    must (mret (template_of templateID (mi_ID inst) input now)) (fun template =>
    let fingerprint := fingerprint_or (ti_Fingerprint input) (ActionTemplateRegistered :: template_fields input) in
    must (templateCommand input templateID ActionTemplateRegistered now fingerprint) (fun '(command, audit) =>
    must (store (CallCreateTemplate template command audit)) (fun '(id, replay) =>
    _ ← if negb replay then queue_validation id else mret tt;
    mret (Ok id)))))).

Definition TemplateService_List (compatibleOnly : bool) : Worker (Res (list InboundTemplate)) := store (CallTemplates compatibleOnly).
Definition TemplateService_Get (id : ID) : Worker (Res InboundTemplate) := store (CallTemplate id).
Definition StatsSuspect (id : ID) : Worker (Res bool) :=
  must (store (CallTemplateCounterEvidence id)) (fun '(listening, observed) =>
    mret (Ok ((0 <? listening) && (observed =? 0)))).
Definition TemplateService_PortUsage (id : ID) : Worker (Res PortPoolUsage) := store (CallPortPoolUsage id).

(** The edited template: the stored state goes over to it, and is forgotten
    when the method or the listen address changes. *)
Definition contract_changed (current validated : InboundTemplate) : bool :=
  bool_decide (t_Method current <> t_Method validated) || bool_decide (t_ListenAddress current <> t_ListenAddress validated).
Definition edited_template (current validated : InboundTemplate) (now : Time) : InboundTemplate :=
  let carried := validated <| t_Revision := t_Revision current |> <| t_CreatedAt := t_CreatedAt current |>
    <| t_UpdatedAt := now |> <| t_Compatibility := t_Compatibility current |>
    <| t_CompatibilityReason := t_CompatibilityReason current |> <| t_LastValidatedAt := t_LastValidatedAt current |>
    <| t_ArchivedAt := t_ArchivedAt current |> in
  if contract_changed current validated then
    carried <| t_Compatibility := CompatibilityUnverified |> <| t_CompatibilityReason := "" |> <| t_LastValidatedAt := None |>
  else carried.

Definition TemplateService_Update (id : ID) (input : TemplateInput) : Worker (Res unit) :=
  must (store (CallTemplate id)) (fun current =>
  now ← call Now;
  must (mret (template_of id (t_InstanceID current) input now)) (fun validated =>
  now ← call Now;
  let edited := edited_template current validated now in
  let fingerprint := fingerprint_or (ti_Fingerprint input)
    (ActionTemplateUpdated :: id :: template_fields input ++ [pretty (ti_ExpectedRevision input)]) in
  must (templateCommand input id ActionTemplateUpdated now fingerprint) (fun '(command, audit) =>
  must (store (CallUpdateTemplate edited (ti_ExpectedRevision input) command audit)) (fun _ =>
  _ ← if contract_changed current validated then queue_validation id else mret tt;
  mret (Ok tt))))).

Definition TemplateService_Revalidate (input : RevalidateInput) : Worker (Res bool) :=
  if negb (Valid (rv_RequestID input)) then mret (Err invalid_request)
  else
    let fingerprint := fingerprint_or (rv_Fingerprint input)
      [ActionTemplateRevalidationRequested; rv_ID input; pretty (rv_ExpectedRevision input)] in
    now ← call Now;
    must (call DrawID) (fun auditID =>
    let command := template_command (rv_RequestID input) (rv_ActorID input) (rv_ID input)
      ActionTemplateRevalidationRequested fingerprint now in
    let audit := template_audit auditID (rv_RequestID input) (rv_ActorID input) (rv_ID input)
      ActionTemplateRevalidationRequested AuditAccepted "administrator requested template revalidation" now in
    must (store (CallRequestRevalidation (rv_ID input) (rv_ExpectedRevision input) command audit)) (fun replay =>
    _ ← if negb replay then queue_validation (rv_ID input) else mret tt;
    mret (Ok replay))).

(** ** Validation *)
Definition adapterSummary (err : error) (fallback : string) : string :=
  match err with
  | AdapterError _ _ _ summary => if bool_decide (summary <> "") then summary else fallback
  | _ => fallback
  end.
Definition retryable (err : error) : bool := match err with AdapterError _ _ r _ => r | _ => false end.

(** The outcome before the node's generation and the state are filled in. *)
Definition base_outcome (record : InboundTemplate) (state : CompatibilityState) (reason : string) (now : Time)
    (epoch : option Time) (generation : Z) : ValidationOutcome :=
  mkOutcome (t_ID record) (t_Revision record) state reason now "incompatible" epoch generation "incompatible_profile" reason
    None (mkAudit "" zero_time ActorSystem None "" "" "" AuditSucceeded None None "").
Definition with_health (state : CompatibilityState) (now : Time) (o : ValidationOutcome) : ValidationOutcome :=
  let health h code summary success :=
    mkOutcome (vo_TemplateID o) (vo_ExpectedRevision o) (vo_State o) (vo_Reason o) (vo_ValidatedAt o) h (vo_BootEpoch o)
      (vo_CapabilityGeneration o) code summary success (vo_Audit o) in
  if bool_decide (state = CompatibilityCompatible) then health "healthy" "" "" (Some now)
  else if bool_decide (state = CompatibilityUnreachable) then health "unreachable" "instance_unavailable" (vo_ErrorSummary o) (vo_SuccessAt o)
  else if bool_decide (state = CompatibilityUnverified) then health "healthy" "" (vo_ErrorSummary o) (vo_SuccessAt o)
  else o.
Definition with_audit (record : InboundTemplate) (auditID : ID) (now : Time) (o : ValidationOutcome) : ValidationOutcome :=
  let result := if bool_decide (vo_State o <> CompatibilityCompatible) then AuditFailed else AuditSucceeded in
  mkOutcome (vo_TemplateID o) (vo_ExpectedRevision o) (vo_State o) (vo_Reason o) (vo_ValidatedAt o) (vo_Health o) (vo_BootEpoch o)
    (vo_CapabilityGeneration o) (vo_ErrorCode o) (vo_ErrorSummary o) (vo_SuccessAt o)
    (mkAudit auditID now ActorSystem None "template" (t_ID record) ActionTemplateValidated result None None (vo_Reason o)).

(** The epoch and the generation of the process the observation is of. *)
Definition bound_to (observation : option InstanceObservation) (now : Time) : Worker (Res (option Time * Z)) :=
  match observation with
  | Some o =>
      if ob_BootEpochKnown o then
        must (store (CallAdvanceCapabilityGeneration (signal_of o false) CapabilityGenerationTolerance now)) (fun '(generation, _) =>
          mret (Ok (epochString o, generation)))
      else mret (Ok (None, 0))
  | None => mret (Ok (None, 0))
  end.

Definition complete (record : InboundTemplate) (state : CompatibilityState) (reason : string)
    (observation : option InstanceObservation) (now : Time) : Worker (Res unit) :=
  must (bound_to observation now) (fun '(epoch, generation) =>
  must (call DrawID) (fun auditID =>
  let outcome := with_audit record auditID now (with_health state now (base_outcome record state reason now epoch generation)) in
  must (store (CallCompleteTemplateValidation outcome)) (fun applied =>
  if negb applied then mret (Err ErrValidationStale) else mret (Ok tt)))).

Definition probe_of (record : InboundTemplate) (port : Z) : TemplateProbe :=
  mkProbe (t_ID record) (t_ListenAddress record) port (t_Method record) (t_Network record).

Definition RunValidation (id : ID) : Worker (Res unit) :=
  must (store (CallTemplate id)) (fun record =>
  now ← call Now;
  probed ← node (Probe (tm_target s));
  match probed with
  | Err err => complete record CompatibilityUnreachable (adapterSummary err "Xray API is unavailable") None now
  | Ok observation =>
      must (store (CallAssignedPorts id)) (fun assigned =>
      match NextAvailablePort (t_Pool record) assigned with
      | Err _ =>
          complete record CompatibilityUnverified
            "port pool is exhausted; free a port or widen the range before validating" (Some observation) now
      | Ok probePort =>
          answer ← node (ValidateTemplate (probe_of record probePort));
          match answer with
          | Err err =>
              complete record (if retryable err then CompatibilityUnreachable else CompatibilityIncompatible)
                (adapterSummary err "template validation failed") (Some observation) now
          | Ok capabilities =>
              if negb (Compatible capabilities) then
                let reason := tp_CompatibilityReason capabilities in
                complete record CompatibilityIncompatible
                  (if bool_decide (reason = "") then "node does not satisfy the SS2022 multi-user contract" else reason)
                  (Some observation) now
              else complete record CompatibilityCompatible "" (Some observation) now
          end
      end)
  end).

(** ** The validator (internal/worker/validator.go) *)

(** The queue of the validator: a channel of 64 identifiers; an identifier
    that finds it full is dropped. *)
Definition queue_size : nat := 64.
Definition Enqueue (id : ID) (queue : list ID) : list ID :=
  if bool_decide (length queue < queue_size)%nat then queue ++ [id] else queue.

(** [ValidateNow] holds the node lock. *)
Definition ValidateNow (id : ID) : Worker (Res unit) := RunValidation id.
Definition validate (id : ID) : Worker unit := _ ← ValidateNow id; mret tt.

Definition needs_validation (t : InboundTemplate) : bool :=
  bool_decide (t_Compatibility t = CompatibilityUnverified) || bool_decide (t_Compatibility t = CompatibilityUnreachable).
Fixpoint sweep (templates : list InboundTemplate) : Worker unit :=
  match templates with
  | [] => mret tt
  | t :: templates => _ ← if needs_validation t then validate (t_ID t) else mret tt; sweep templates
  end.
Definition SweepOnce : Worker (Res unit) :=
  must (store (CallTemplates false)) (fun templates => _ ← sweep templates; mret (Ok tt)).
End Service.
