(* ===== verification/PanelServices.v ===== *)
(** * Settings, dashboard, audit and quota cycles

    internal/application/settings_service.go, dashboard_service.go,
    audit_service.go and quota_service.go: programs over the calls of the
    store. Logging is left out. *)

From Stdlib Require Import ZArith Lia.
From S2P Require Import Prelude GoTypes Ports Identity Text Inbound Tokens User Sync Quota Traffic Template Cycle Records Database Secrets StoreCore StoreSync StoreQuota StoreUsers StoreTraffic StoreDrift StoreTemplates StoreListings UserService Adapter Calls Trace.

(** ** Settings *)
Record UpdateSettingsInput := mkSettingsInput {
  si_QuotaTimezone : string;
  si_ExpectedRevision : Revision;
  si_RequestID : ID;
  si_ActorID : ID;
  si_Fingerprint : string }.

Definition settingsTargetID : ID := "00000000-0000-4000-8000-000000000001".
Definition bad_timezone : error := ValidationError "quota_timezone" "timezone must be a valid IANA name".

Section Settings.
Context {Zn : Zones} {Un : Unicode} {Sh : Sha256}.

Definition SettingsService_Get : Worker (Res PanelSettingsRecord) := store CallSettings.

(** UTC when the settings or the zone cannot be read. *)
Definition Location : Worker Cycle.Location :=
  settings ← store CallSettings;
  match settings with
  | Err _ => mret UTC
  | Ok settings => mret (default UTC (LoadLocation (ps_QuotaTimezone settings)))
  end.

Definition settings_command (input : UpdateSettingsInput) (fingerprint : string) (now : Time) : DomainCommand :=
  mkCommand (si_RequestID input) ActorAdministrator (Some (si_ActorID input)) ActionSettingsUpdated "settings" settingsTargetID
    fingerprint CommandCompleted "/settings" now (Some now).
Definition settings_audit (auditID : ID) (input : UpdateSettingsInput) (name : string) (now : Time) : AuditEvent :=
  mkAudit auditID now ActorAdministrator (Some (si_ActorID input)) "settings" settingsTargetID ActionSettingsUpdated
    AuditSucceeded (Some (si_RequestID input)) None ("quota timezone set to " +:+ name +:+ "; applies from the next cycle").

Definition SettingsService_Update (input : UpdateSettingsInput) : Worker (Res bool) :=
  if negb (Valid (si_RequestID input)) then mret (Err invalid_request)
  else
    let name := TrimSpace (si_QuotaTimezone input) in
    if bool_decide (name = "") || bool_decide (name = "Local") then mret (Err bad_timezone)
    else
      match LoadLocation name with
      | None => mret (Err bad_timezone)
      | Some _ =>
          now ← call Now;
          must (call DrawID) (fun auditID =>
          let fingerprint := fingerprint_or (si_Fingerprint input) [ActionSettingsUpdated; name; pretty (si_ExpectedRevision input)] in
          store (CallUpdateSettings name (si_ExpectedRevision input) (settings_command input fingerprint now)
                   (settings_audit auditID input name now)))
      end.
End Settings.

(** ** The dashboard *)
Record DashboardService := mkDashboardService { dh_interval : Duration; dh_reconcile : Duration }.
Definition NewDashboardService (interval reconcile : Duration) : DashboardService :=
  mkDashboardService (if interval <=? 0 then 5 * Second else interval) (if reconcile <=? 0 then 15 * Second else reconcile).

Record DashboardSummary := mkSummary {
  ds_Instance : option ManagedInstanceRecord;
  ds_LastCollectionAt : option Time;
  ds_Stale : bool;
  ds_TotalUsers : Z;
  ds_Active : Z;
  ds_Disabled : Z;
  ds_QuotaExceeded : Z;
  ds_Pending : Z;
  ds_StuckSync : Z;
  ds_Deleted : Z;
  ds_AccountedBytes : Z;
  ds_PortsCapacity : Z;
  ds_PortsAssigned : Z;
  ds_PortsRemaining : Z;
  ds_PortsOutside : Z;
  ds_PortsRebuilding : Z;
  ds_Failed : list FailedOperationRecord;
  ds_GeneratedAt : Time }.
#[global] Instance eta_DashboardSummary : Eta DashboardSummary := fun r =>
  mkSummary (ds_Instance r) (ds_LastCollectionAt r) (ds_Stale r) (ds_TotalUsers r) (ds_Active r) (ds_Disabled r)
    (ds_QuotaExceeded r) (ds_Pending r) (ds_StuckSync r) (ds_Deleted r) (ds_AccountedBytes r) (ds_PortsCapacity r)
    (ds_PortsAssigned r) (ds_PortsRemaining r) (ds_PortsOutside r) (ds_PortsRebuilding r) (ds_Failed r) (ds_GeneratedAt r).
Definition empty_summary (now : Time) : DashboardSummary := mkSummary None None false 0 0 0 0 0 0 0 0 0 0 0 0 0 [] now.

Section Dashboard.
Context (s : DashboardService).

Definition isStale (inst : ManagedInstanceRecord) (last : option Time) (now : Time) : bool :=
  if bool_decide (mi_HealthState inst = "unreachable") || bool_decide (mi_HealthState inst = "incompatible") then true
  else
    match last with
    | None =>
        match mi_LastSuccessAt inst with
        | None => true
        | Some success => mul64 2 (dh_interval s) <? time_sub now success
        end
    | Some last => mul64 2 (dh_interval s) <? time_sub now last
    end.

Definition count_state (state : DisplayStateT) (m : DashboardSummary) : DashboardSummary :=
  match state with
  | DisplayActive => m <| ds_Active := ds_Active m + 1 |>
  | DisplayDisabled | DisplayDisabling => m <| ds_Disabled := ds_Disabled m + 1 |>
  | DisplayQuotaExceeded | DisplayQuotaDisabling => m <| ds_QuotaExceeded := ds_QuotaExceeded m + 1 |>
  | _ => m
  end.
Definition rebuilding (record : UserRecord) : bool :=
  DesiredPresent (ur_Allocation record) (ur_User record) &&
  negb (bool_decide (in_ObservedPresent (ir_Inbound (ur_Inbound record)) = Some true)).
Definition add_user_row (now : Time) (record : UserRecord) (m : DashboardSummary) : DashboardSummary :=
  let a := ur_Allocation record in
  let state := DisplayState a (ur_User record) in
  if bool_decide (state = DisplayDeleted) then m <| ds_Deleted := ds_Deleted m + 1 |>
  else
    let m := count_state state m in
    let m := m <| ds_TotalUsers := ds_TotalUsers m + 1 |> in
    let m := if PendingSync a then
               let m := m <| ds_Pending := ds_Pending m + 1 |> in
               if mul64 3 (dh_reconcile s) <? time_sub now (a_UpdatedAt a) then m <| ds_StuckSync := ds_StuckSync m + 1 |> else m
             else m in
    let m := if rebuilding record then m <| ds_PortsRebuilding := ds_PortsRebuilding m + 1 |> else m in
    let cycle := ur_Cycle record in
    m <| ds_AccountedBytes := add64 (ds_AccountedBytes m) (add64 (qc_AccountedUplinkBytes cycle) (qc_AccountedDownlinkBytes cycle)) |>.
Definition add_users (now : Time) (users : list UserRecord) (m : DashboardSummary) : DashboardSummary :=
  foldl (fun m record => add_user_row now record m) m users.

Definition add_usage (usage : PortPoolUsage) (m : DashboardSummary) : DashboardSummary :=
  m <| ds_PortsCapacity := ds_PortsCapacity m + pu_Capacity usage |> <| ds_PortsAssigned := ds_PortsAssigned m + pu_Assigned usage |>
    <| ds_PortsRemaining := ds_PortsRemaining m + pu_Remaining usage |>
    <| ds_PortsOutside := ds_PortsOutside m + Z.of_nat (length (pu_Outside usage)) |>.

(** A function that also returns what it has summed up so far. *)
Definition or_partial {A} (m : DashboardSummary) (p : Worker (Res A)) (f : A -> Worker (DashboardSummary * option error))
    : Worker (DashboardSummary * option error) :=
  r ← p; match r with Ok a => f a | Err err => mret (m, Some err) end.

Fixpoint add_templates (templates : list InboundTemplate) (m : DashboardSummary)
    (f : DashboardSummary -> Worker (DashboardSummary * option error)) : Worker (DashboardSummary * option error) :=
  match templates with
  | [] => f m
  | t :: templates => or_partial m (store (CallPortPoolUsage (t_ID t))) (fun usage => add_templates templates (add_usage usage m) f)
  end.

Definition Summary : Worker (DashboardSummary * option error) :=
  now ← call Now;
  let m := empty_summary now in
  or_partial m (store CallManagedInstance) (fun inst =>
  let m := m <| ds_Instance := Some inst |> in
  or_partial m (store CallLastCollectionAt) (fun last =>
  let m := m <| ds_LastCollectionAt := last |> <| ds_Stale := isStale inst last now |> in
  or_partial m (store (CallListUsers (mkFilter "" "" true))) (fun users =>
  let m := add_users now users m in
  or_partial m (store (CallTemplates false)) (fun templates =>
  add_templates templates m (fun m =>
  or_partial m (store (CallFailedOperations 5)) (fun failed => mret (m <| ds_Failed := failed |>, None))))))).

Record UserDetailRecord := mkDetail {
  dt_Record : UserRecord;
  dt_Daily : list DailyAggregateRecord;
  dt_Events : list ContinuityEventListRecord;
  dt_Sync : list SynchronizationOperation }.
Definition UserDetail (record : UserRecord) : Worker (UserDetailRecord * option error) :=
  let id := a_ID (ur_Allocation record) in
  let cycle := ur_Cycle record in
  daily ← store (CallDailyAggregates id (qc_StartsAt cycle) (qc_EndsAt cycle));
  match daily with
  | Err err => mret (mkDetail record [] [] [], Some err)
  | Ok daily =>
      events ← store (CallContinuityEvents id 20);
      match events with
      | Err err => mret (mkDetail record daily [] [], Some err)
      | Ok events =>
          sync ← store (CallSyncOperations id 10);
          match sync with
          | Err err => mret (mkDetail record daily events [], Some err)
          | Ok sync => mret (mkDetail record daily events sync, None)
          end
      end
  end.
End Dashboard.

(** ** The audit trail *)
Definition AuditService_List (filter : AuditFilter) : Worker (Res (list AuditEvent * option AuditCursor)) :=
  store (CallAuditEvents filter).

(** * Rolling quota cycles over *)

(** [qs_notify]: whether a callback that wakes the synchronizer is set. *)
Record QuotaService := mkQuotaService { qs_notify : bool }.
Definition NewQuotaService (notify : bool) : QuotaService := mkQuotaService notify.

Section Service.
Context (s : QuotaService).

Definition restore_audit (id userID : ID) (now : Time) : AuditEvent :=
  mkAudit id now ActorSystem None "user" userID ActionCycleRestored AuditAccepted None None
    "new quota cycle opened; access restore requested".
Definition rollover_of (record : UserRecord) (opID auditID : ID) (now : Time) : CycleRollover :=
  mkRollover (a_ID (ur_Allocation record)) (operation_template opID "" now)
    (Some (restore_audit auditID (u_ID (ur_User record)) now)) now.

(** A function that also returns the number of boundaries when it fails. *)
Definition or_stop {A} (rollovers : Z) (p : Worker (Res A)) (f : A -> Worker (Z * option error)) : Worker (Z * option error) :=
  r ← p; match r with Ok a => f a | Err err => mret (rollovers, Some err) end.

Fixpoint roll_records (due : list UserRecord) (now : Time) (rollovers : Z) (restoredAny : bool) : Worker (Z * option error) :=
  match due with
  | [] =>
      _ ← if restoredAny && qs_notify s then call NotifySync else mret tt;
      mret (rollovers, None)
  | record :: due =>
      or_stop rollovers (call DrawID) (fun opID =>
        or_stop rollovers (call DrawID) (fun auditID =>
          or_stop rollovers (store (CallRolloverCycle (rollover_of record opID auditID now))) (fun '(rolled, restored) =>
            if 0 <? rolled then
              let rollovers := rollovers + rolled in
              or_stop rollovers (store (CallUser (u_ID (ur_User record)))) (fun _ =>
                roll_records due now rollovers (restored || restoredAny))
            else roll_records due now rollovers (restored || restoredAny))))
  end.

Definition RolloverDue (now : Time) : Worker (Z * option error) :=
  or_stop 0 (store (CallDueCycles now)) (fun due => roll_records due now 0 false).

Definition NextBoundary : Worker (Res (option Time)) := store CallNextCycleEnd.
End Service.
