(* ===== verification/ReconciliationService.v ===== *)
(** * Reconciling the node: internal/application/reconciliation_service.go

    One round: the inbounds and clients of the node are compared with the
    allocations of the panel; what differs is queued. The lock of the node is
    held throughout; logging is left out. *)

From Stdlib Require Import ZArith Lia.
From S2P Require Import Prelude GoTypes Identity Text Inbound Tokens User Sync Quota Traffic Template Cycle Records Database Secrets StoreCore StoreSync StoreQuota StoreUsers StoreTraffic StoreDrift StoreTemplates UserService Adapter Calls Trace TrafficService.

(** The order in which [range] visits the keys of a map, which the language
    leaves open. *)
Class MapOrder := iterate : gset string -> list string.
Class MapOrderOk `{MapOrder} := { iterate_keys : forall keys, iterate keys ≡ₚ elements keys }.

(** [rs_notify], [rs_revalidate]: whether the callbacks are set. *)
Record ReconciliationService := mkReconciliationService {
  rs_target : InstanceTarget;
  rs_interval : Duration;
  rs_notify : bool;
  rs_revalidate : bool }.
Definition NewReconciliationService (target : InstanceTarget) (interval : Duration) (notify revalidate : bool)
    : ReconciliationService :=
  mkReconciliationService target (if interval <=? 0 then 15 * Second else interval) notify revalidate.

Record ReconcileSummary := mkReconcile {
  rc_Profiles : Z;
  rc_Drift : Z;
  rc_RemovedUnknown : Z;
  rc_ConfirmedAbsent : Z;
  rc_StuckSync : Z;
  rc_Revalidated : Z;
  rc_Reconnected : bool;
  rc_Duration : Duration }.
#[global] Instance eta_ReconcileSummary : Eta ReconcileSummary := fun r =>
  mkReconcile (rc_Profiles r) (rc_Drift r) (rc_RemovedUnknown r) (rc_ConfirmedAbsent r) (rc_StuckSync r)
    (rc_Revalidated r) (rc_Reconnected r) (rc_Duration r).

(** The variables of the function: the summary and [enqueued]. *)
Record Round := mkReconcileRound { rd_summary : ReconcileSummary; rd_enqueued : bool }.
#[global] Instance eta_Round : Eta Round := fun r => mkReconcileRound (rd_summary r) (rd_enqueued r).
Abbreviation Outcome := (Round * option error)%type.

(** A call whose error ends the round. *)
Definition or_return {A} (st : Round) (p : Worker (Res A)) (f : A -> Worker Outcome) : Worker Outcome :=
  r ← p; match r with Ok a => f a | Err err => mret (st, Some err) end.
(** [for _, x := range xs], where the body may end the round. *)
Fixpoint each {A} (xs : list A) (body : A -> Round -> Worker Outcome) (st : Round) : Worker Outcome :=
  match xs with
  | [] => mret (st, None)
  | x :: xs =>
      out ← body x st;
      match out with
      | (st, None) => each xs body st
      | (st, Some err) => mret (st, Some err)
      end
  end.
(** The next part of the round. *)
Definition and_then (p : Worker Outcome) (f : Round -> Worker Outcome) : Worker Outcome :=
  out ← p; match out with (st, None) => f st | (st, Some err) => mret (st, Some err) end.

(** A change of the summary, and one together with [enqueued = true]. *)
Definition noted (f : ReconcileSummary -> ReconcileSummary) (st : Round) : Round := st <| rd_summary := f (rd_summary st) |>.
Definition queued (f : ReconcileSummary -> ReconcileSummary) (st : Round) : Round := noted f st <| rd_enqueued := true |>.
Definition count_removed : Round -> Round := queued (fun m => m <| rc_RemovedUnknown := rc_RemovedUnknown m + 1 |>).
Definition count_absent : Round -> Round := queued (fun m => m <| rc_ConfirmedAbsent := rc_ConfirmedAbsent m + 1 |>).
Definition count_stuck : Round -> Round := noted (fun m => m <| rc_StuckSync := rc_StuckSync m + 1 |>).
Definition count_drift : Round -> Round := queued (fun m => m <| rc_Drift := rc_Drift m + 1 |>).

Section Service.
Context {Mo : MapOrder}.
Context (s : ReconciliationService).

Definition adapterKind (err : error) : ErrorKind * string :=
  match err with
  | AdapterError kind _ _ summary => (kind, summary)
  | _ => (ErrorInternal, "Xray operation failed")
  end.

Definition markDegraded (cause : error) : Worker unit :=
  let '(kind, summary) := adapterKind cause in
  _ ← call (Degraded true);
  now ← call Now;
  logged (CallMarkInstanceUnreachable (kind_string kind) summary now).
Definition clearDegraded : Worker bool := call (Degraded false).

(** An error of the node also marks the instance. *)
Definition or_degrade {A} (st : Round) (p : Worker (Res A)) (f : A -> Worker Outcome) : Worker Outcome :=
  r ← p; match r with Ok a => f a | Err err => _ ← markDegraded err; mret (st, Some err) end.

Definition anyTemplateID (templates : list InboundTemplate) : ID :=
  match find (fun t => bool_decide (t_ArchivedAt t = None)) templates with Some t => t_ID t | None => "" end.

Definition tag_of (record : UserRecord) : string := in_InboundTag (ir_Inbound (ur_Inbound record)).
Definition wanted (record : UserRecord) : bool := DesiredPresent (ur_Allocation record) (ur_User record).
Definition panel_tags (inbounds : list RemoteInbound) : gset string :=
  list_to_set (rb_InboundTag <$> List.filter rb_PanelManaged inbounds).

(** All the inbounds that should listen are gone, and one was seen before. *)
Definition vanished (users : list UserRecord) (remote : gset string) : bool :=
  let expected := List.filter wanted users in
  let listening := List.filter (fun r => bool_decide (tag_of r ∈ remote)) expected in
  let previously := List.filter (fun r => bool_decide (in_ObservedPresent (ir_Inbound (ur_Inbound r)) = Some true)) expected in
  (0 <? Z.of_nat (length expected)) && (Z.of_nat (length listening) =? 0) && (0 <? Z.of_nat (length previously)).

Fixpoint revalidate_all (ids : list ID) : Worker unit :=
  match ids with
  | [] => mret tt
  | id :: ids => _ ← if rs_revalidate s then _ ← call (Revalidate id); mret tt else mret tt; revalidate_all ids
  end.

Definition visit_template (template : InboundTemplate) (st : Round) : Worker Outcome :=
  let st := noted (fun m => m <| rc_Profiles := rc_Profiles m + 1 |>) st in
  _ ← if rc_Reconnected (rd_summary st) && bool_decide (t_Compatibility template = CompatibilityUnreachable) && rs_revalidate s
      then _ ← call (Revalidate (t_ID template)); mret tt else mret tt;
  mret (st, None).

(** ** Unknown inbounds and clients *)
Definition visit_tag (templates : list InboundTemplate) (users : list UserRecord) (now : Time) (tag : string) (st : Round) : Worker Outcome :=
  if bool_decide (tag ∈ (tag_of <$> users)) then mret (st, None)
  else
    or_return st (store (CallEnqueueDriftRemoval (anyTemplateID templates) tag DriftInbound tag now)) (fun created =>
      mret (if (created : bool) then count_removed st else st, None)).

(** The clients of one inbound; the answer also tells whether the expected one
    is there. *)
Fixpoint visit_clients (template : InboundTemplate) (record : UserRecord) (rotating : bool) (now : Time)
    (remote : list RemoteUser) (st : Round) (expected : bool) : Worker (Round * Res bool) :=
  match remote with
  | [] => mret (st, Ok expected)
  | user :: remote =>
      let next := visit_clients template record rotating now remote in
      let id := i_StatisticsID (ur_Identity record) in
      if negb (ru_Present user) then next st expected
      else if bool_decide (ru_StatisticsID user = id) then next st true
      else if rotating && bool_decide (ru_StatisticsID user = RotationSafetyID id) then next st expected
      else
        created ← store (CallEnqueueDriftRemoval (t_ID template) (tag_of record) DriftIdentity (ru_StatisticsID user) now);
        match created with
        | Err err => mret (st, Err err)
        | Ok created => next (if (created : bool) then count_removed st else st) expected
        end
  end.

(** Whether the expected client is there, when the inbound is. *)
Definition visit_inbound (template : InboundTemplate) (record : UserRecord) (now : Time) (st : Round)
    (f : bool -> Round -> Worker Outcome) : Worker Outcome :=
  or_degrade st (node (ListUsers (mkRuntime (t_ID template) (tag_of record) (t_Method template)))) (fun remote =>
    or_return st (store (CallHasOpenRotation (a_ID (ur_Allocation record)))) (fun rotating =>
      '(st, expected) ← visit_clients template record rotating now remote st false;
      match expected with
      | Err err => mret (st, Some err)
      | Ok expected => f expected st
      end)).

(** ** Allocations *)
Definition reconcile_operation (record : UserRecord) (opID : ID) (now : Time) : SynchronizationOperation :=
  let a := ur_Allocation record in
  NewSynchronizationOperation opID (a_ID a) (a_DesiredRevision a + 1) (wanted record)
    (Some (a_DesiredCredentialVersion a)) SyncReconcile (InboundPhaseFor (wanted record)) now.

Definition repair (record : UserRecord) (now : Time) (actual : bool) (st : Round) : Worker Outcome :=
  let a := ur_Allocation record in
  or_return st (store (CallRecordObservation (a_ID a) actual now)) (fun _ =>
  or_return st (store (CallConfirmInboundPresence (a_ID a) actual now)) (fun _ =>
    if PendingSync a then
      mret (if mul64 3 (rs_interval s) <? time_sub now (a_UpdatedAt a) then count_stuck st else st, None)
    else if Bool.eqb actual (wanted record) then mret (st, None)
    else
      or_return st (store (CallHasOpenOperation (a_ID a))) (fun open =>
        if (open : bool) then mret (st, None)
        else
          or_return st (call DrawID) (fun opID =>
          or_return st (store (CallEnqueueReconcile (a_ID a) (a_DesiredRevision a) (reconcile_operation record opID now) now))
            (fun created => mret (if (created : bool) then count_drift st else st, None)))))).

Definition template_by_id (templates : list InboundTemplate) : gmap ID InboundTemplate :=
  foldl (fun m t => <[t_ID t := t]> m) ∅ templates.

Definition visit_user (templates : list InboundTemplate) (remote : gset string) (now : Time) (record : UserRecord) (st : Round) : Worker Outcome :=
  match template_by_id templates !! a_TemplateID (ur_Allocation record) with
  | Some template =>
      if bool_decide (t_Compatibility template = CompatibilityIncompatible) then mret (st, None)
      else if bool_decide (tag_of record ∈ remote) then visit_inbound template record now st (repair record now)
      else repair record now false st
  | None => mret (st, None)
  end.

(** ** Removals that failed for good *)
Definition confirm_absent (owner : ID) (remote : gset string) (now : Time) (removal : DriftRemoval) (st : Round) : Worker Outcome :=
  if bool_decide (rm_InboundTag removal ∈ remote) then mret (st, None)
  else
    or_return st (store (CallEnqueueDriftRemoval owner (rm_InboundTag removal) (rm_Kind removal) (rm_StatisticsID removal) now))
      (fun created => mret (if (created : bool) then count_absent st else st, None)).
Definition visit_stale (remote : gset string) (now : Time) (template : InboundTemplate) (st : Round) : Worker Outcome :=
  or_return st (store (CallStaleDriftRemovals (t_ID template))) (fun stale =>
    each stale (confirm_absent (t_ID template) remote now) st).
Definition visit_orphans (remote : gset string) (now : Time) (st : Round) : Worker Outcome :=
  or_return st (store CallOrphanStaleDriftRemovals) (fun orphans => each orphans (confirm_absent "" remote now) st).

(** ** The round *)
Definition compare (templates : list InboundTemplate) (users : list UserRecord) (remote : gset string) (now started : Time)
    (st : Round) : Worker Outcome :=
  and_then (each templates visit_template st) (fun st =>
  and_then (each (iterate remote) (visit_tag templates users now) st) (fun st =>
  and_then (each users (visit_user templates remote now) st) (fun st =>
  and_then (each templates (visit_stale remote now) st) (fun st =>
  and_then (visit_orphans remote now st) (fun st =>
    _ ← if rd_enqueued st && rs_notify s then call NotifySync else mret tt;
    finished ← call Now;
    mret (noted (fun m => m <| rc_Duration := time_sub finished started |>) st, None)))))).

Definition renew_evidence (observation : InstanceObservation) (suspected : bool) (now : Time) (st : Round)
    (f : Round -> Worker Outcome) : Worker Outcome :=
  or_return st (store (CallAdvanceCapabilityGeneration (signal_of observation suspected) CapabilityGenerationTolerance now))
    (fun '(generation, _) =>
  or_return st (store (CallMarkInstanceHealthy (epochString observation) now)) (fun _ =>
  or_return st (store (CallInvalidateStaleCapabilityEvidence generation now)) (fun stale =>
    _ ← revalidate_all stale;
    f (noted (fun m => m <| rc_Revalidated := Z.of_nat (length stale) |>) st)))).

Definition reconcile_round : Worker Outcome :=
  started ← call Now;
  let st := mkReconcileRound (mkReconcile 0 0 0 0 0 0 false 0) false in
  or_degrade st (node (Probe (rs_target s))) (fun observation =>
    reconnected ← clearDegraded;
    let st := noted (fun m => m <| rc_Reconnected := reconnected |>) st in
    now ← call Now;
    or_return st (store (CallTemplates false)) (fun templates =>
    or_return st (store (CallListUsers (mkFilter "" "" true))) (fun users =>
    or_degrade st (node ListInbounds) (fun inbounds =>
      let remote := panel_tags inbounds in
      renew_evidence observation (reconnected || vanished users remote) now st (fun st =>
        compare templates users remote now started st))))).

Definition ReconcileOnce : Worker (ReconcileSummary * option error) :=
  '(st, err) ← reconcile_round; mret (rd_summary st, err).
End Service.
