(* ===== verification/XrayClient.v ===== *)
(** * The adapter of the real node: internal/adapter/xray

    client.go, handler.go, inbound.go, errors.go, stats.go and probe.go as
    programs over the calls they make: the gRPC requests to Xray, the clock, the
    random source, the port that is bound as a test, and the SS2022 exchange
    through the probe inbound (sing-shadowsocks over local sockets), of which
    only the outcome is used. Deadlines show in the answers. The encoding of
    the configuration to protobuf is the library's. *)

From Stdlib Require Import ZArith Lia.
From S2P Require Import Prelude GoTypes Identity Ports Text Inbound Tokens Template Net Database Secrets Password Adapter Calls.

(** ** gRPC *)
Inductive Code : Set :=
| CodeOK | Canceled | Unknown | InvalidArgument | DeadlineExceeded | NotFound | AlreadyExists | PermissionDenied
| ResourceExhausted | FailedPrecondition | Aborted | OutOfRange | Unimplemented | Internal | Unavailable | DataLoss | Unauthenticated.
#[global] Instance Code_eq_dec : EqDecision Code. Proof. solve_decision. Defined.

(** [ge_Deadline]: the error is context.DeadlineExceeded itself. *)
Record RpcError := mkRpcError { ge_Code : Code; ge_Text : string; ge_Deadline : bool }.

(** The configuration of an inbound, as the panel builds it. *)
Inductive XNetwork : Set := Network_TCP | Network_UDP.
Record XUser := mkXUser { xu_Level : Z; xu_Email : string; xu_Key : string }.
Record ReceiverConfig := mkReceiver { rc_From : Z; rc_To : Z; rc_Listen : string }.
Record MultiUserServerConfig := mkProxy {
  mu_Method : string; mu_Key : string; mu_Users : list XUser; mu_Network : list XNetwork }.
Record InboundHandlerConfig := mkHandlerConfig {
  hc_Tag : string; hc_ReceiverSettings : ReceiverConfig; hc_ProxySettings : MultiUserServerConfig }.
Inductive AlterOperation :=
| AddUserOperation (user : XUser)
| RemoveUserOperation (email : string).

Inductive Request : Type -> Type :=
| GetSysStats : Request Z
| GetInboundUsers (tag : string) : Request (list string)
| GetInboundUsersCount (tag : string) : Request Z
| ListInboundTags : Request (list string)
| AddInboundRequest (config : InboundHandlerConfig) : Request unit
| RemoveInboundRequest (tag : string) : Request unit
| AlterInbound (tag : string) (operation : AlterOperation) : Request unit
| GetStats (name : string) (reset : bool) : Request (option (string * Z)).

(** What the adapter asks its surroundings for. [BindPort]: [None] when the port
    cannot be bound, otherwise the outcome of closing it. [Pause]: 50 ms, or the
    error of the context. *)
Inductive XrayEffect : Type -> Type :=
| Rpc {R} (request : Request R) : XrayEffect (result RpcError R)
| ClientNow : XrayEffect Time
| TimeNow : XrayEffect Time
| BindPort (address : string) : XrayEffect (option (option error))
| NewProbeKey (method : string) : XrayEffect (Res RedactedString)
| NewRun : XrayEffect (Res ID)
| StartEcho (network : XNetwork) : XrayEffect (Res string)
| Exchange (network : XNetwork) (host : string) (port : Z) (method : string) (serverKey userKey : RedactedString)
    (echo : string) : XrayEffect (option error)
| Pause : XrayEffect (option error).
Abbreviation Xray := (Prog XrayEffect).
Definition ask {R} (e : XrayEffect R) : Xray R := Do e Done.

Section Client.
Context {Un : Unicode} {Fo : Folding}.

(** ** Errors (errors.go) *)
Definition mapError (operation : string) (err : RpcError) : error :=
  let adapter kind retryable summary := AdapterError kind operation retryable summary in
  let code := ge_Code err in
  let says phrase := Contains (ToLower (ge_Text err)) phrase in
  if bool_decide (code = DeadlineExceeded) || ge_Deadline err then adapter ErrorDeadlineExceeded true "Xray operation timed out"
  else if bool_decide (code = Unavailable) then adapter ErrorInstanceUnavailable true "Xray API is unavailable"
  else if bool_decide (code = InvalidArgument) then adapter ErrorInvalidArgument false "Xray rejected invalid input"
  else if bool_decide (code = NotFound) then
    if bool_decide (operation = "validate_template") || bool_decide (operation = "list_users") then
      adapter ErrorProfileNotFound false "inbound was not found"
    else if bool_decide (operation = "read_traffic") then adapter ErrorStatsNotFound false "Xray statistics were not found"
    else if bool_decide (operation = "remove_inbound") || bool_decide (operation = "list_inbounds") then
      adapter ErrorInboundNotFound false "inbound was not found"
    else adapter ErrorUserNotFound false "Xray target was not found"
  else if bool_decide (code = AlreadyExists) then adapter ErrorUserAlreadyExists false "Xray user already exists"
  else if bool_decide (code = PermissionDenied) || bool_decide (code = Unauthenticated) then
    adapter ErrorUpstreamRejected false "Xray rejected the operation"
  else if says "address already in use" then adapter ErrorPortUnavailable false "port is already in use on the node"
  else if says "existing tag found" then adapter ErrorInboundAlreadyExists false "inbound tag already exists"
  else if says "handler not found" then adapter ErrorInboundNotFound false "inbound was not found"
  else if says "not enough information for making a decision" && bool_decide (operation = "remove_inbound") then
    adapter ErrorInboundNotFound false "inbound was not found"
  else if says "not a usermanager" then adapter ErrorIncompatibleProfile false "inbound does not support dynamic users"
  else if says "already exists" then adapter ErrorUserAlreadyExists false "Xray user already exists"
  else if says "not found" then adapter ErrorUserNotFound false "Xray target was not found"
  else adapter ErrorInternal true "Xray operation failed".

(** A request whose error ends the function. *)
Definition rpc {R A} (operation : string) (request : Request R) (f : R -> Xray (Res A)) : Xray (Res A) :=
  a ← ask (Rpc request);
  match a with Ok r => f r | Err err => mret (Err (mapError operation err)) end.

(** ** The connection (client.go) *)
Record Client := mkXrayClient { xc_timeout : Duration }.

(** [dial]: what [grpc.NewClient] answers. *)
Definition New (dial : string -> option RpcError) (target : InstanceTarget) : Res Client :=
  match SplitHostPort (it_APIEndpoint target) with
  | None => Err (AdapterError ErrorInvalidArgument "connect" false "invalid Xray API endpoint")
  | Some (host, _) =>
      let loopback := match parse_ip host with Some ip => IsLoopback ip | None => false end in
      if negb (EqualFold host "localhost") && negb loopback then
        Err (AdapterError ErrorInvalidArgument "connect" false "Xray API must be loopback")
      else
        let timeout := if it_RPCTimeout target <=? 0 then 5 * Second else it_RPCTimeout target in
        match dial (it_APIEndpoint target) with
        | Some err => Err (mapError "connect" err)
        | None => Ok (mkXrayClient timeout)
        end
  end.

(** ** Observation and clients (handler.go) *)
Definition Truncate (t : Time) (d : Duration) : Time := t - t mod d.
Definition timeDurationSeconds (seconds : Z) : Duration := seconds * Second.

Definition client_Probe (target : InstanceTarget) : Xray (Res InstanceObservation) :=
  rpc "probe" GetSysStats (fun uptime =>
  now ← ask ClientNow;
  mret (Ok (mkObservation now uptime (Truncate now Second - timeDurationSeconds uptime) true))).

Definition guardPanelInbound (operation tag : string) : option error :=
  if IsPanelNamespace tag then None
  else Some (AdapterError ErrorInvalidArgument operation false "refusing to mutate an inbound outside the panel namespace").

Definition remote_user (email : string) : RemoteUser :=
  mkRemoteUser email 0 true (if IsPanelNamespace email then "managed" else "external").
Definition client_ListUsers (inbound : RuntimeInbound) : Xray (Res (list RemoteUser)) :=
  rpc "list_users" (GetInboundUsers (ri_InboundTag inbound)) (fun emails => mret (Ok (remote_user <$> emails))).

Definition methodFromKey (encoded : string) : string :=
  match decode64 encoded with
  | Some key => if bool_decide (length key = 16%nat) then MethodAES128 else MethodAES256
  | None => MethodAES256
  end.

Definition receipt (operationID : ID) : Xray (Res MutationReceipt) :=
  now ← ask ClientNow; mret (Ok (mkReceipt operationID now)).

Definition client_AddUser (command : AddUserCommand) : Xray (Res MutationReceipt) :=
  let key := Reveal (nu_UserKey command) in
  match guardPanelInbound "add_user" (nu_InboundTag command) with
  | Some err => mret (Err err)
  | None =>
      match ValidateUserKey (methodFromKey key) key with
      | Err _ => mret (Err (AdapterError ErrorInvalidArgument "add_user" false "invalid user key"))
      | Ok _ =>
          rpc "add_user" (AlterInbound (nu_InboundTag command) (AddUserOperation (mkXUser 0 (nu_StatisticsID command) key)))
            (fun _ => receipt (nu_OperationID command))
      end
  end.

(** The last client that is entitled to the inbound is not removed. *)
Definition client_RemoveUser (command : RemoveUserCommand) : Xray (Res MutationReceipt) :=
  match guardPanelInbound "remove_user" (rv_InboundTag command) with
  | Some err => mret (Err err)
  | None =>
      let expected := rv_ExpectedStatisticsID command in
      if bool_decide (expected = "") then
        mret (Err (AdapterError ErrorInvalidArgument "remove_user" false
                     "remove_user requires the inbound's expected managed identity"))
      else
        rpc "remove_user" (GetInboundUsers (rv_InboundTag command)) (fun emails =>
        let present := existsb (fun email => bool_decide (email = rv_StatisticsID command)) emails in
        let survivor := existsb (fun email => negb (bool_decide (email = rv_StatisticsID command)) &&
          (bool_decide (email = expected) || bool_decide (email = RotationSafetyID expected))) emails in
        if present && negb survivor then
          mret (Err (AdapterError ErrorLastManagedClient "remove_user" false
                       "refusing to remove the last managed client of an inbound"))
        else
          rpc "remove_user" (AlterInbound (rv_InboundTag command) (RemoveUserOperation (rv_StatisticsID command)))
            (fun _ => receipt (rv_OperationID command)))
  end.

(** ** Inbounds (inbound.go) *)
Definition refused (summary : string) : error := AdapterError ErrorInvalidArgument "create_inbound" false summary.
Definition networksFor (network : Network) : Res (list XNetwork) :=
  if bool_decide (network = NetworkTCP) then Ok [Network_TCP]
  else if bool_decide (network = NetworkUDP) then Ok [Network_UDP]
  else if bool_decide (network = NetworkTCPUDP) then Ok [Network_TCP; Network_UDP]
  else Err (refused "unsupported network selection").

Definition buildInboundConfig (command : CreateInboundCommand) : Res InboundHandlerConfig :=
  let client := ci_Client command in
  _ ← ValidateInboundTag (ci_InboundTag command);
  _ ← ValidateInboundClients 1;
  if bool_decide (cl_StatisticsID client = "") || negb (IsPanelNamespace (cl_StatisticsID client)) then
    Err (refused "client statistics identity must use the panel namespace")
  else if (ci_Port command <? MinAssignablePort) || (MaxAssignablePort <? ci_Port command) then
    Err (refused "port is outside the assignable range")
  else if negb (ParseIP (ci_ListenAddress command)) then Err (refused "listen address must be an IP literal")
  else
    match ValidateUserKey (ci_Method command) (Reveal (ci_ServerKey command)) with
    | Err _ => Err (refused "invalid server key for the selected method")
    | Ok _ =>
        match ValidateUserKey (ci_Method command) (Reveal (cl_UserKey client)) with
        | Err _ => Err (refused "invalid user key for the selected method")
        | Ok _ =>
            networks ← networksFor (ci_Network command);
            Ok (mkHandlerConfig (ci_InboundTag command)
                  (mkReceiver (ci_Port command) (ci_Port command) (ci_ListenAddress command))
                  (mkProxy (ci_Method command) (Reveal (ci_ServerKey command))
                     [mkXUser 0 (cl_StatisticsID client) (Reveal (cl_UserKey client))] networks))
        end
    end.

Definition probePort (listenAddress : string) (port : Z) : Xray (option error) :=
  bound ← ask (BindPort (JoinHostPort listenAddress (pretty port)));
  mret (match bound with
        | None => Some (AdapterError ErrorPortUnavailable "create_inbound" false "port is already in use on the node")
        | Some closed => closed
        end).

Definition client_CreateInbound (command : CreateInboundCommand) : Xray (Res MutationReceipt) :=
  match buildInboundConfig command with
  | Err err => mret (Err err)
  | Ok config =>
      failed ← probePort (ci_ListenAddress command) (ci_Port command);
      match failed with
      | Some err => mret (Err err)
      | None => rpc "create_inbound" (AddInboundRequest config) (fun _ => receipt (ci_OperationID command))
      end
  end.

Definition client_RemoveInbound (command : RemoveInboundCommand) : Xray (Res MutationReceipt) :=
  if negb (IsPanelNamespace (ro_InboundTag command)) then
    mret (Err (AdapterError ErrorInvalidArgument "remove_inbound" false
                 "refusing to remove an inbound outside the panel namespace"))
  else
    rpc "remove_inbound" (RemoveInboundRequest (ro_InboundTag command)) (fun _ => receipt (ro_OperationID command)).

(** Clients are counted on the panel's inbounds only. *)
Fixpoint remote_inbounds (tags : list string) (result : list RemoteInbound) : Xray (Res (list RemoteInbound)) :=
  match tags with
  | [] => mret (Ok result)
  | tag :: tags =>
      if IsPanelNamespace tag then
        rpc "list_inbounds" (GetInboundUsersCount tag) (fun count =>
          remote_inbounds tags (result ++ [mkRemoteInbound tag true count]))
      else remote_inbounds tags (result ++ [mkRemoteInbound tag false 0])
  end.
Definition client_ListInbounds : Xray (Res (list RemoteInbound)) :=
  rpc "list_inbounds" ListInboundTags (fun tags => remote_inbounds tags []).

(** ** Counters (stats.go) *)
Definition snapshot_of (identity : string) (direction : Direction) (observed : Time) (name : string)
    (answer : result RpcError (option (string * Z))) : Res CounterSnapshot :=
  match answer with
  | Err err =>
      if bool_decide (ge_Code err = NotFound) then Ok (mkSnapshot identity direction 0 observed false)
      else Err (mapError "read_traffic" err)
  | Ok stat =>
      match stat with
      | Some (found, value) =>
          if bool_decide (found <> name) || (value <? 0) then
            Err (AdapterError ErrorInternal "read_traffic" true "malformed Xray statistics response")
          else Ok (mkSnapshot identity direction value observed true)
      | None => Err (AdapterError ErrorInternal "read_traffic" true "malformed Xray statistics response")
      end
  end.
Fixpoint read_counters (counters : list (string * Direction)) (observation : InstanceObservation)
    (snapshots : list CounterSnapshot) : Xray (Res TrafficRound) :=
  match counters with
  | [] => mret (Ok (mkRound observation snapshots))
  | (identity, direction) :: counters =>
      match CounterName identity direction with
      | Err err => mret (Err err)
      | Ok name =>
          answer ← ask (Rpc (GetStats name false));
          match snapshot_of identity direction (ob_ObservedAt observation) name answer with
          | Err err => mret (Err err)
          | Ok snapshot => read_counters counters observation (snapshots ++ [snapshot])
          end
      end
  end.
Definition both_directions (identities : list string) : list (string * Direction) :=
  identity ← identities; [(identity, Uplink); (identity, Downlink)].
Definition client_ReadTraffic (query : TrafficQuery) : Xray (Res TrafficRound) :=
  if 20 <? Z.of_nat (length (tq_StatisticsIDs query)) then
    mret (Err (AdapterError ErrorInvalidArgument "read_traffic" false "traffic query exceeds supported allocation count"))
  else
    probed ← client_Probe (tq_Target query);
    observation ← match probed with
                  | Ok observation => mret observation
                  | Err _ => now ← ask ClientNow; mret (mkObservation now 0 zero_time false)
                  end;
    read_counters (both_directions (tq_StatisticsIDs query)) observation [].

(** ** The capability probe (probe.go) *)
Definition probeTrafficBudget : Duration := 5 * Second.
Definition no_counters : string :=
  "node does not report per-user traffic counters; enable statsUserUplink and statsUserDownlink".
Definition bad_network : error :=
  AdapterError ErrorInvalidArgument "validate_template" false "template probe carries an unsupported network selection".

Definition dialTarget (listenAddress : string) : string :=
  match parse_ip listenAddress with
  | Some ip => if IsUnspecified ip then "127.0.0.1" else listenAddress
  | None => "127.0.0.1"
  end.

Definition resetCounters (statisticsID : string) : Xray unit :=
  let reset direction : Xray unit :=
    match CounterName statisticsID direction with
    | Err _ => mret tt
    | Ok name => _ ← ask (Rpc (GetStats name true)); mret tt
    end in
  _ ← reset Uplink; reset Downlink.

Definition network_text (network : XNetwork) : string := match network with Network_TCP => "TCP" | Network_UDP => "UDP" end.
(** One exchange over a network the template uses. *)
Definition exchange_over (network : XNetwork) (probe : TemplateProbe) (serverKey userKey : RedactedString) : Xray (option error) :=
  echo ← ask (StartEcho network);
  match echo with
  | Err err => mret (Some err)
  | Ok echo =>
      failed ← ask (Exchange network (dialTarget (pr_ListenAddress probe)) (pr_ProbePort probe) (pr_Method probe) serverKey userKey echo);
      mret (match failed with
            | Some err => Some (PlainError ("probe inbound did not carry authenticated " +:+ network_text network +:+ " traffic: "
                                              +:+ error_text err))
            | None => None
            end)
  end.
Definition uses (network : XNetwork) (probe : TemplateProbe) : bool :=
  let own := match network with Network_TCP => NetworkTCP | Network_UDP => NetworkUDP end in
  bool_decide (pr_Network probe = own) || bool_decide (pr_Network probe = NetworkTCPUDP).
Definition exchange_if_used (network : XNetwork) (probe : TemplateProbe) (serverKey userKey : RedactedString) : Xray (option error) :=
  if uses network probe then exchange_over network probe serverKey userKey else mret None.

(** The counter has a value in the direction. *)
Definition counted (direction : Direction) (snapshots : list CounterSnapshot) : bool :=
  existsb (fun s => cs_Found s && negb (cs_Bytes s =? 0) && bool_decide (cs_Direction s = direction)) snapshots.

(** The counters are read until both have a value or the budget is used up;
    [None] when the fuel is. *)
Fixpoint await_counters (fuel : nat) (statisticsID : string) (deadline : Time) : Xray (option (Res (bool * string))) :=
  match fuel with
  | O => mret None
  | S fuel =>
      round ← client_ReadTraffic (mkQuery (mkTarget "" "" "" 0) [statisticsID]);
      match round with
      | Err err => mret (Some (Err err))
      | Ok round =>
          if counted Uplink (tr_Snapshots round) && counted Downlink (tr_Snapshots round) then mret (Some (Ok (true, "")))
          else
            now ← ask TimeNow;
            if After now deadline then mret (Some (Ok (false, no_counters)))
            else
              cancelled ← ask Pause;
              match cancelled with
              | Some err => mret (Some (Err err))
              | None => await_counters fuel statisticsID deadline
              end
      end
  end.

Definition supported_network (network : Network) : bool :=
  bool_decide (network = NetworkTCP) || bool_decide (network = NetworkUDP) || bool_decide (network = NetworkTCPUDP).

Section Probing.
Context (fuel : nat).

Definition account_traffic (probe : TemplateProbe) (serverKey userKey : RedactedString) (statisticsID : string)
    : Xray (option (Res (bool * string))) :=
  if negb (supported_network (pr_Network probe)) then mret (Some (Err bad_network))
  else
    failed ← exchange_if_used Network_TCP probe serverKey userKey;
    match failed with
    | Some err => mret (Some (Err err))
    | None =>
        failed ← exchange_if_used Network_UDP probe serverKey userKey;
        match failed with
        | Some err => mret (Some (Err err))
        | None => start ← ask TimeNow; await_counters fuel statisticsID (start + probeTrafficBudget)
        end
    end.
(** The counters are reset on every way out. *)
Definition verifyUserTrafficAccounting (probe : TemplateProbe) (serverKey userKey : RedactedString) (statisticsID : string)
    : Xray (option (Res (bool * string))) :=
  outcome ← account_traffic probe serverKey userKey statisticsID;
  _ ← resetCounters statisticsID;
  mret outcome.

#[global] Instance eta_TemplateCapabilities : Eta TemplateCapabilities := fun r =>
  mkCapabilities (tp_InboundCreatable r) (tp_InboundRemovable r) (tp_ProtocolSupported r) (tp_MethodSupported r)
    (tp_MultiUserSupported r) (tp_TrafficAccounted r) (tp_ProbeStatisticsID r) (tp_CompatibilityReason r).

(** What the probe inbound showed, before it is removed. *)
Definition examine_probe (probe : TemplateProbe) (command : CreateInboundCommand) (capabilities : TemplateCapabilities)
    (created : Res MutationReceipt) : Xray (option (TemplateCapabilities * option error)) :=
  match created with
  | Err err =>
      match err with
      | AdapterError _ _ false summary =>
          mret (Some (capabilities <| tp_CompatibilityReason := "node could not create a probe inbound: " +:+ summary |>, None))
      | _ => mret (Some (capabilities, Some err))
      end
  | Ok _ =>
      let capabilities := capabilities <| tp_InboundCreatable := true |> in
      counted ← ask (Rpc (GetInboundUsersCount (ci_InboundTag command)));
      match counted with
      | Err err => mret (Some (capabilities, Some (mapError "validate_template" err)))
      | Ok count =>
          let capabilities := capabilities <| tp_MultiUserSupported := 0 <? count |> in
          if negb (0 <? count) then
            mret (Some (capabilities <| tp_CompatibilityReason := "node does not satisfy the Shadowsocks 2022 multi-user contract" |>, None))
          else
            accounted ← verifyUserTrafficAccounting probe (ci_ServerKey command) (cl_UserKey (ci_Client command))
                          (cl_StatisticsID (ci_Client command));
            mret (match accounted with
                  | None => None
                  | Some (Err err) => Some (capabilities, Some err)
                  | Some (Ok (accounted, reason)) =>
                      let capabilities := capabilities <| tp_TrafficAccounted := accounted |> in
                      Some (if accounted then capabilities else capabilities <| tp_CompatibilityReason := reason |>, None)
                  end)
      end
  end.

(** The deferred removal of the probe inbound. *)
Definition remove_probe (tag : string) (outcome : TemplateCapabilities * option error)
    : Xray (TemplateCapabilities * option error) :=
  answer ← client_RemoveInbound (mkRemoveInbound "" tag);
  let removed := match answer with Ok _ => true | Err err => bool_decide (kind_of err = Some ErrorInboundNotFound) end in
  let '(capabilities, err) := outcome in
  let capabilities := capabilities <| tp_InboundRemovable := removed |> in
  mret (if tp_InboundCreatable capabilities && negb removed
        then capabilities <| tp_CompatibilityReason := "node created the probe inbound but could not remove it" |>
        else capabilities, err).

Definition probe_command (probe : TemplateProbe) (run : ID) (serverKey userKey : RedactedString) : CreateInboundCommand :=
  mkCreateInbound "" (NamespacePrefix +:+ "probe-" +:+ pr_TemplateID probe) (pr_ListenAddress probe) (pr_ProbePort probe)
    (pr_Method probe) (pr_Network probe) serverKey (mkClient (NamespacePrefix +:+ "probe-" +:+ run) 1 userKey).

Definition client_ValidateTemplate (probe : TemplateProbe) : Xray (option (TemplateCapabilities * option error)) :=
  let capabilities := mkCapabilities false false true false false false "" "" in
  if negb (supported_network (pr_Network probe)) then mret (Some (capabilities, Some bad_network))
  else
    let supported := bool_decide (pr_Method probe = MethodAES128) || bool_decide (pr_Method probe = MethodAES256) in
    let capabilities := capabilities <| tp_MethodSupported := supported |> in
    if negb supported then
      mret (Some (capabilities <| tp_CompatibilityReason := "unsupported Shadowsocks 2022 method" |>, None))
    else
      let or_fail {A} (answer : Res A) (f : A -> Xray (option (TemplateCapabilities * option error))) :=
        match answer with Ok a => f a | Err err => mret (Some (capabilities, Some err)) end in
      serverKey ← ask (NewProbeKey (pr_Method probe));
      or_fail serverKey (fun serverKey =>
      userKey ← ask (NewProbeKey (pr_Method probe));
      or_fail userKey (fun userKey =>
      run ← ask NewRun;
      or_fail run (fun run =>
      let command := probe_command probe run serverKey userKey in
      let capabilities := capabilities <| tp_ProbeStatisticsID := cl_StatisticsID (ci_Client command) |> in
      created ← client_CreateInbound command;
      outcome ← examine_probe probe command capabilities created;
      match outcome with
      | None => mret None
      | Some outcome => done_ ← remove_probe (ci_InboundTag command) outcome; mret (Some done_)
      end))).
End Probing.

(** ** The adapter as the panel calls it *)
Definition answered {A} (p : Xray A) : Xray (option A) := r ← p; mret (Some r).
Definition validated_result (fuel : nat) (probe : TemplateProbe) : Xray (option (Res TemplateCapabilities)) :=
  validated ← client_ValidateTemplate fuel probe;
  mret (match validated with
        | Some (capabilities, None) => Some (Ok capabilities)
        | Some (_, Some err) => Some (Err err)
        | None => None
        end).
Definition client_call (fuel : nat) {R} (call : AdapterCall R) : Xray (option (Res R)) :=
  match call in AdapterCall R return Xray (option (Res R)) with
  | Probe target => answered (client_Probe target)
  | ValidateTemplate probe =>
      validated_result fuel probe
  | ListInbounds => answered client_ListInbounds
  | CreateInbound command => answered (client_CreateInbound command)
  | RemoveInbound command => answered (client_RemoveInbound command)
  | ListUsers inbound => answered (client_ListUsers inbound)
  | AddUser command => answered (client_AddUser command)
  | RemoveUser command => answered (client_RemoveUser command)
  | ReadTraffic query => answered (client_ReadTraffic query)
  end.
End Client.
