(* ===== verification/XrayLaws.v ===== *)
(** * The adapter of the real node keeps the contract

    What the panel relies on of Xray, as measured in specs/002-per-user-inbound/
    (research.md R-002 to R-006 and contracts/xray-adapter.md), is [documented];
    under it every call of the interface answers and acts as [Adapter.honest]
    allows, which is what the theorems about the synchronizer assume. *)

From Stdlib Require Import ZArith Lia.
From S2P Require Import Prelude GoTypes Identity Ports Text Inbound Tokens Template Net Database Secrets Password Adapter Calls XrayClient.

(** ** Xray *)
Record XInbound := mkXInbound {
  xi_Port : Z; xi_Listening : bool; xi_ServerKey : string; xi_Users : gmap string string }.
#[global] Instance eta_XInbound : Eta XInbound := fun r =>
  mkXInbound (xi_Port r) (xi_Listening r) (xi_ServerKey r) (xi_Users r).
(** The registered inbounds by tag, with the keys of their clients. *)
Abbreviation XNode := (gmap string XInbound).

Definition of_config (config : InboundHandlerConfig) (listening : bool) : XInbound :=
  mkXInbound (rc_From (hc_ReceiverSettings config)) listening (mu_Key (hc_ProxySettings config))
    (list_to_map ((fun u => (xu_Email u, xu_Key u)) <$> mu_Users (hc_ProxySettings config))).

Section Xray.
Context {Un : Unicode}.

(** The phrases by which an error is told, in the order they are looked for. *)
Definition phrases : list string :=
  ["address already in use"; "existing tag found"; "handler not found";
   "not enough information for making a decision"; "not a usermanager"; "already exists"; "not found"].
Definition first_phrase (e : RpcError) : option string := List.find (Contains (ToLower (ge_Text e))) phrases.
(** An error of Xray itself: gRPC gives it no code. *)
Definition reports (e : RpcError) (phrase : string) : Prop :=
  ge_Code e = Unknown /\ ge_Deadline e = false /\ first_phrase e = Some phrase.
(** An error of the connection: the request may have been carried out. *)
Definition unreachable (e : RpcError) : Prop :=
  ge_Deadline e = true \/ ge_Code e = DeadlineExceeded \/ ge_Code e = Unavailable \/
  ((ge_Code e ∉ [InvalidArgument; NotFound; AlreadyExists; PermissionDenied; Unauthenticated]) /\ first_phrase e = None).

Definition user_added (tag : string) (u : XUser) (x : XNode) (x' : XNode) : Prop := exists i,
  x !! tag = Some i /\ xi_Users i !! xu_Email u = None /\
  x' = <[tag := i <| xi_Users := <[xu_Email u := xu_Key u]> (xi_Users i) |>]> x.
Definition user_removed (tag email : string) (x : XNode) (x' : XNode) : Prop := exists i,
  x !! tag = Some i /\ xi_Users i !! email <> None /\
  x' = <[tag := i <| xi_Users := delete email (xi_Users i) |>]> x.

(** What Xray may answer to a request on a node, and the node then. *)
Definition documented {R} (request : Request R) : XNode -> result RpcError R -> XNode -> Prop :=
  match request in Request R return XNode -> result RpcError R -> XNode -> Prop with
  | GetSysStats => fun x r x' => x' = x /\ match r with Ok uptime => 0 <= uptime < 2 ^ 32 | Err _ => True end
  | GetStats _ _ => fun x _ x' => x' = x
  | ListInboundTags => fun x r x' => x' = x /\
      match r with Ok tags => forall tag, tag ∈ tags <-> x !! tag <> None | Err e => unreachable e end
  | GetInboundUsers tag => fun x r x' => x' = x /\
      match r with
      | Ok emails => exists i, x !! tag = Some i /\ forall id, id ∈ emails <-> xi_Users i !! id <> None
      | Err e => unreachable e \/ reports e "not a usermanager" \/ (reports e "handler not found" /\ x !! tag = None)
      end
  | GetInboundUsersCount tag => fun x r x' => x' = x /\
      match r with
      | Ok count => exists i, x !! tag = Some i /\ count = Z.of_nat (size (xi_Users i))
      | Err e => unreachable e \/ reports e "not a usermanager" \/ (reports e "handler not found" /\ x !! tag = None)
      end
  | AddInboundRequest config => fun x r x' =>
      let registered listening := x !! hc_Tag config = None /\ x' = <[hc_Tag config := of_config config listening]> x in
      match r with
      | Ok _ => registered true
      | Err e => (reports e "existing tag found" /\ x !! hc_Tag config <> None /\ x' = x) \/
                 (reports e "address already in use" /\ registered false) \/
                 (unreachable e /\ (x' = x \/ exists listening, registered listening))
      end
  | RemoveInboundRequest tag => fun x r x' =>
      match r with
      | Ok _ => x !! tag <> None /\ x' = delete tag x
      | Err e => (reports e "not enough information for making a decision" /\ x !! tag = None /\ x' = x) \/
                 (unreachable e /\ (x' = x \/ x !! tag <> None /\ x' = delete tag x))
      end
  | AlterInbound tag operation => fun x r x' =>
      match operation with
      | AddUserOperation u =>
          match r with
          | Ok _ => user_added tag u x x'
          | Err e => (reports e "handler not found" /\ x !! tag = None /\ x' = x) \/
                     (reports e "already exists" /\ (exists i, x !! tag = Some i /\ xi_Users i !! xu_Email u <> None) /\ x' = x) \/
                     (reports e "not a usermanager" /\ x' = x) \/
                     (unreachable e /\ (x' = x \/ user_added tag u x x'))
          end
      | RemoveUserOperation email =>
          match r with
          | Ok _ => user_removed tag email x x'
          | Err e => (reports e "handler not found" /\ x !! tag = None /\ x' = x) \/
                     (reports e "not found" /\ (exists i, x !! tag = Some i /\ xi_Users i !! email = None) /\ x' = x) \/
                     (reports e "not a usermanager" /\ x' = x) \/
                     (unreachable e /\ (x' = x \/ user_removed tag email x x'))
          end
      end
  end.

(** ** What the errors become *)
Lemma mapError_unreachable operation e : unreachable e -> telling (mapError operation e) = false.
Proof.
  intros Hu. unfold mapError. destruct (bool_decide (ge_Code e = DeadlineExceeded) || ge_Deadline e) eqn:Ed; [done|].
  apply orb_false_iff in Ed as [Ed Ef]. apply bool_decide_eq_false in Ed. case_bool_decide as Ea; [done|].
  destruct Hu as [?|[?|[?|[Hc Hp]]]]; [congruence|done|done|].
  rewrite !not_elem_of_cons in Hc. destruct Hc as (H1 & H2 & H3 & H4 & H5 & _).
  unfold first_phrase in Hp. pose proof (find_none _ _ Hp) as Hn.
  rewrite !bool_decide_eq_false_2 by done. cbn [orb].
  rewrite !Hn by (cbn; tauto). done.
Qed.
Lemma mapError_reports operation e phrase : reports e phrase ->
  exists kind summary retryable, mapError operation e = AdapterError kind operation retryable summary /\
    (phrase = "address already in use" -> kind = ErrorPortUnavailable) /\
    (phrase = "existing tag found" -> kind = ErrorInboundAlreadyExists) /\
    (phrase = "handler not found" -> kind = ErrorInboundNotFound) /\
    (phrase = "not enough information for making a decision" -> operation = "remove_inbound" -> kind = ErrorInboundNotFound) /\
    (phrase = "not a usermanager" -> kind = ErrorIncompatibleProfile) /\
    (phrase = "already exists" -> kind = ErrorUserAlreadyExists) /\
    (phrase = "not found" -> kind = ErrorUserNotFound).
Proof.
  intros (Hc & Hd & Hp). unfold mapError. rewrite Hc, Hd. rewrite !bool_decide_eq_false_2 by done. cbn [orb].
  unfold first_phrase, phrases in Hp. cbn [List.find] in Hp.
  destruct (Contains _ "address already in use"); [injection Hp as <-; by do 3 eexists|].
  destruct (Contains _ "existing tag found"); [injection Hp as <-; by do 3 eexists|].
  destruct (Contains _ "handler not found"); [injection Hp as <-; by do 3 eexists|].
  destruct (Contains _ "not enough information for making a decision").
  { injection Hp as <-. cbn [andb]. case_bool_decide; [by do 3 eexists|].
    repeat case_match; do 3 eexists; split_and!; done. }
  cbn [andb].
  destruct (Contains _ "not a usermanager"); [injection Hp as <-; by do 3 eexists|].
  destruct (Contains _ "already exists"); [injection Hp as <-; by do 3 eexists|].
  destruct (Contains _ "not found"); [injection Hp as <-; by do 3 eexists|done].
Qed.

(** ** Running the programs of the adapter *)

(** The node, and the clock of the loop that waits for counters. *)
Record XWorld := mkXWorld { xw_node : XNode; xw_clock : Time }.

(** Steps that leave the node as it is. *)
Definition idle (w w' : XWorld) : Prop := xw_node w' = xw_node w /\ xw_clock w <= xw_clock w'.

Definition served {R} (e : XrayEffect R) : XWorld -> R -> XWorld -> Prop :=
  match e in XrayEffect R return XWorld -> R -> XWorld -> Prop with
  | Rpc request => fun w r w' => documented request (xw_node w) r (xw_node w') /\ xw_clock w <= xw_clock w'
  | TimeNow => fun w r w' => xw_node w' = xw_node w /\ xw_clock w <= r /\ xw_clock w' = r
  | Pause => fun w r w' => xw_node w' = xw_node w /\ xw_clock w <= xw_clock w' /\
      (r = None -> xw_clock w + 50 * Millisecond <= xw_clock w')
  | BindPort _ => fun w r w' => idle w w' /\ (forall e, r = Some (Some e) -> kind_of e = None)
  | _ => fun w _ w' => idle w w'
  end.

Fixpoint runs {A} (p : Xray A) (Q : A -> XWorld -> Prop) (w : XWorld) : Prop :=
  match p with
  | Done a => Q a w
  | Do e k => forall r w', served e w r w' -> runs (k r) Q w'
  end.

Lemma runs_mono {A} (p : Xray A) (Q Q' : A -> XWorld -> Prop) w : (forall a w', Q a w' -> Q' a w') -> runs p Q w -> runs p Q' w.
Proof.
  intros HQ. revert w. induction p as [a|R e k IH]; intros w Hp; [by apply HQ|]. intros r w' Hs. apply IH, Hp, Hs.
Qed.
Lemma runs_bind {A B} (p : Xray A) (f : A -> Xray B) Q w : runs p (fun a => runs (f a) Q) w -> runs (p ≫= f) Q w.
Proof. revert w. induction p as [a|R e k IH]; intros w Hp; [done|]. intros r w' Hs. apply IH, Hp, Hs. Qed.
Lemma runs_then {A B} (p : Xray A) (f : A -> Xray B) (P : A -> XWorld -> Prop) Q w : runs p P w ->
  (forall a w', P a w' -> runs (f a) Q w') -> runs (p ≫= f) Q w.
Proof. intros Hp Hf. apply runs_bind. by eapply runs_mono. Qed.
Lemma runs_ask {R A} (e : XrayEffect R) (f : R -> Xray A) Q w : (forall r w', served e w r w' -> runs (f r) Q w') ->
  runs (ask e ≫= f) Q w.
Proof. done. Qed.
Lemma runs_rpc {R A} operation (request : Request R) (f : R -> Xray (Res A)) Q w :
  (forall r w', documented request (xw_node w) (Ok r) (xw_node w') -> xw_clock w <= xw_clock w' -> runs (f r) Q w') ->
  (forall e w', documented request (xw_node w) (Err e) (xw_node w') -> xw_clock w <= xw_clock w' ->
     Q (Err (mapError operation e)) w') ->
  runs (rpc operation request f) Q w.
Proof. intros Hf He [r|e] w' [Hd Hc]; [by apply Hf|by apply He]. Qed.

Fixpoint looks {A} (p : Xray A) : Prop :=
  match p with
  | Done _ => True
  | Do e k => (forall w r w', served e w r w' -> idle w w') /\ forall r, looks (k r)
  end.
Lemma idle_trans w1 w2 w3 : idle w1 w2 -> idle w2 w3 -> idle w1 w3.
Proof. intros [H1 H2] [H3 H4]. split; [congruence|lia]. Qed.
Lemma looks_runs {A} (p : Xray A) w : looks p -> runs p (fun _ w' => idle w w') w.
Proof.
  revert w. induction p as [a|R e k IH]; intros w; [by split|]. intros [He Hk] r w' Hs. apply He in Hs as Hi.
  eapply runs_mono; [|by apply IH]. intros a w'' Hi'. by eapply idle_trans.
Qed.
Lemma looks_bind {A B} (p : Xray A) (f : A -> Xray B) : looks p -> (forall a, looks (f a)) -> looks (p ≫= f).
Proof. induction p as [a|R e k IH]; [intros _ Hf; apply Hf|]. intros [He Hk] Hf. split; [done|]. intros r. by apply IH. Qed.

(** ** The node of the contract *)
(** What the panel sends when it creates an inbound. *)
Record built (command : CreateInboundCommand) (config : InboundHandlerConfig) : Prop := {
  bu_tag : hc_Tag config = ci_InboundTag command;
  bu_from : rc_From (hc_ReceiverSettings config) = ci_Port command;
  bu_to : rc_To (hc_ReceiverSettings config) = ci_Port command;
  bu_server : mu_Key (hc_ProxySettings config) = Reveal (ci_ServerKey command);
  bu_users : mu_Users (hc_ProxySettings config) =
    [mkXUser 0 (cl_StatisticsID (ci_Client command)) (Reveal (cl_UserKey (ci_Client command)))];
  bu_port : MinAssignablePort <= ci_Port command <= MaxAssignablePort;
  bu_namespace : IsPanelNamespace (ci_InboundTag command) = true;
  bu_client : IsPanelNamespace (cl_StatisticsID (ci_Client command)) = true;
  bu_listen : ParseIP (ci_ListenAddress command) = true;
  bu_server_key : ValidateUserKey (ci_Method command) (Reveal (ci_ServerKey command)) = Ok tt;
  bu_user_key : ValidateUserKey (ci_Method command) (Reveal (cl_UserKey (ci_Client command))) = Ok tt }.

Section Abstraction.
(** [K id version key]: the key is the one of that version of the client's
    credential. *)
Context (K : string -> Z -> string -> Prop).

Record same_inbound (i : XInbound) (j : NodeInbound) : Prop := {
  sa_port : xi_Port i = ni_Port j;
  sa_listening : xi_Listening i = ni_Listening j;
  sa_server : xi_ServerKey i = ni_ServerKey j;
  sa_users : forall id, option_Forall2 (fun key version => K id version key) (xi_Users i !! id) (ni_Users j !! id) }.
Definition abstracts (x : XNode) (n : Node) : Prop := forall tag, option_Forall2 same_inbound (x !! tag) (n !! tag).

Lemma abstracts_tag x n tag : abstracts x n -> x !! tag <> None <-> n !! tag <> None.
Proof. intros Hx. specialize (Hx tag). by destruct Hx. Qed.
Lemma abstracts_none x n tag : abstracts x n -> x !! tag = None <-> n !! tag = None.
Proof. intros Hx. specialize (Hx tag). by destruct Hx. Qed.
Lemma abstracts_some x n tag i : abstracts x n -> x !! tag = Some i -> exists j, n !! tag = Some j /\ same_inbound i j.
Proof. intros Hx Hi. specialize (Hx tag). rewrite Hi in Hx. inversion Hx; subst. eauto. Qed.
Lemma abstracts_insert x n tag i j : abstracts x n -> same_inbound i j -> abstracts (<[tag := i]> x) (<[tag := j]> n).
Proof.
  intros Hx Hi tag'. destruct (decide (tag = tag')) as [<-|Ht]; [rewrite !lookup_insert_eq; by constructor|].
  rewrite !lookup_insert_ne by done. apply Hx.
Qed.
Lemma abstracts_delete x n tag : abstracts x n -> abstracts (delete tag x) (delete tag n).
Proof.
  intros Hx tag'. destruct (decide (tag = tag')) as [<-|Ht]; [rewrite !lookup_delete_eq; constructor|].
  rewrite !lookup_delete_ne by done. apply Hx.
Qed.
Lemma same_user i j id : same_inbound i j -> xi_Users i !! id <> None <-> ni_Users j !! id <> None.
Proof. intros [_ _ _ Hu]. specialize (Hu id). by destruct Hu. Qed.
Lemma same_with_user i j id version key : same_inbound i j -> K id version key ->
  same_inbound (i <| xi_Users := <[id := key]> (xi_Users i) |>) (j <| ni_Users := <[id := version]> (ni_Users j) |>).
Proof.
  intros [H1 H2 H3 H4] Hk. split; cbn; try done. intros id'. destruct (decide (id = id')) as [<-|Hi].
  - rewrite !lookup_insert_eq. by constructor.
  - rewrite !lookup_insert_ne by done. apply H4.
Qed.
Lemma same_without_user i j id : same_inbound i j ->
  same_inbound (i <| xi_Users := delete id (xi_Users i) |>) (j <| ni_Users := delete id (ni_Users j) |>).
Proof.
  intros [H1 H2 H3 H4]. split; cbn; try done. intros id'. destruct (decide (id = id')) as [<-|Hi].
  - rewrite !lookup_delete_eq. constructor.
  - rewrite !lookup_delete_ne by done. apply H4.
Qed.

(** The keys of a command are the ones of the versions it names. *)
Definition keyed {R} (call : AdapterCall R) : Prop :=
  match call with
  | CreateInbound c => K (cl_StatisticsID (ci_Client c)) (cl_CredentialVersion (ci_Client c)) (Reveal (cl_UserKey (ci_Client c)))
  | AddUser c => K (nu_StatisticsID c) (nu_CredentialVersion c) (Reveal (nu_UserKey c))
  | _ => True
  end.

(** ** Creation *)
Lemma buildInboundConfig_built command config : buildInboundConfig command = Ok config -> built command config.
Proof.
  unfold buildInboundConfig. intros H. inv_ok H. inv_ok H. clear E0. do 3 (case_if_in H; [done|]).
  destruct (ValidateUserKey (ci_Method command) (Reveal (ci_ServerKey command))) as [[]|] eqn:Es; [|done].
  destruct (ValidateUserKey (ci_Method command) (Reveal (cl_UserKey (ci_Client command)))) as [[]|] eqn:Eu; [|done].
  inv_ok H. injection H as <-. unfold ValidateInboundTag in E. destruct (IsPanelNamespace (ci_InboundTag command)) eqn:Et; [|done].
  to_prop. by split; cbn; try done; try lia.
Qed.
Lemma buildInboundConfig_quiet command e : buildInboundConfig command = Err e -> telling e = false.
Proof.
  unfold buildInboundConfig, ValidateInboundTag, ValidateInboundClients, networksFor, mbind, result_bind, rbind. cbn [Z.eqb].
  repeat case_match; intros; by simplify_eq.
Qed.

Lemma created_abstracts command config listening : built command config -> keyed (CreateInbound command) ->
  same_inbound (of_config config listening) (created command listening).
Proof.
  intros [_ Hp _ Hs Hu _ _ _ _ _ _] Hk. split; cbn; [done|done|done|]. intros id. rewrite Hu. cbn.
  destruct (decide (cl_StatisticsID (ci_Client command) = id)) as [<-|Hi].
  - rewrite lookup_insert_eq, lookup_singleton_eq. by constructor.
  - rewrite lookup_insert_ne, lookup_empty, lookup_singleton_ne by done. constructor.
Qed.

(** A call that did nothing and claims nothing. *)
Definition contract {R} (call : AdapterCall R) (n : Node) (r : Res R) (w' : XWorld) : Prop :=
  exists n', abstracts (xw_node w') n' /\ honest call n r n'.

Lemma honest_quiet {R} (call : AdapterCall R) n e : telling e = false -> honest call n (Err e) n.
Proof.
  intros He. destruct call; cbn; unfold commanded; rewrite ?He; try done; try (by left); try (by split; [|congruence]).
  exists true. by left.
Qed.
Lemma contract_quiet {R} (call : AdapterCall R) n e w' : telling e = false -> abstracts (xw_node w') n -> contract call n (Err e) w'.
Proof. intros He Hx. exists n. split; [done|]. by apply honest_quiet. Qed.
(** The answer of a command whose effect the abstraction carries. *)
Lemma commanded_unsure {R} effect refusals n e n' : telling e = false -> n' = n \/ effect = Some n' ->
  commanded effect refusals n (Err e : Res R) n'.
Proof. intros He Hn. cbn. by rewrite He. Qed.
Lemma refusal_told {R} effect refusals n kind operation retryable summary (holds : Prop) : (kind, holds) ∈ refusals -> holds ->
  telling (AdapterError kind operation retryable summary) = true ->
  commanded effect refusals n (Err (AdapterError kind operation retryable summary) : Res R) n.
Proof. intros Hin Hh Ht. cbn. rewrite Ht. split; [done|]. by exists kind, holds. Qed.

(** The kinds of the adapter's errors that tell nothing. *)
Lemma mapError_kind operation e phrase kind :
  reports e phrase ->
  (phrase = "address already in use" /\ kind = ErrorPortUnavailable) \/
  (phrase = "existing tag found" /\ kind = ErrorInboundAlreadyExists) \/
  (phrase = "handler not found" /\ kind = ErrorInboundNotFound) \/
  (phrase = "not enough information for making a decision" /\ operation = "remove_inbound" /\ kind = ErrorInboundNotFound) \/
  (phrase = "not a usermanager" /\ kind = ErrorIncompatibleProfile) \/
  (phrase = "already exists" /\ kind = ErrorUserAlreadyExists) \/
  (phrase = "not found" /\ kind = ErrorUserNotFound) ->
  exists retryable summary, mapError operation e = AdapterError kind operation retryable summary.
Proof.
  intros Hr Hk. destruct (mapError_reports operation _ _ Hr) as (kind' & summary & retryable & -> & H).
  exists retryable, summary. destruct H as (H1 & H2 & H3 & H4 & H5 & H6 & H7). f_equal.
  destruct Hk as [[? ?]|[[? ?]|[[? ?]|[(? & ? & ?)|[[? ?]|[[? ?]|[? ?]]]]]]]; subst; auto.
Qed.

Lemma client_CreateInbound_contract command n w : abstracts (xw_node w) n -> keyed (CreateInbound command) ->
  runs (client_CreateInbound command) (contract (CreateInbound command) n) w.
Proof.
  intros Hx Hk. unfold client_CreateInbound.
  destruct (buildInboundConfig command) as [config|e] eqn:Eb;
    [|apply contract_quiet; [by eapply buildInboundConfig_quiet|done]].
  apply buildInboundConfig_built in Eb as Hb. pose proof (bu_tag _ _ Hb) as Ht.
  intros r w1 [[Hn _] Hr]. rewrite <- Hn in Hx.
  destruct r as [[e|]|]; cbn [mret runs prog_bind prog_ret].
  { apply contract_quiet; [|done]. unfold telling. by rewrite (Hr e). }
  2:{ by apply contract_quiet. }
  apply runs_rpc.
  - intros [] w2 [Hnone Hw2] _ now w3 [Hw3 _]. cbn. rewrite Ht in *.
    exists (<[ci_InboundTag command := created command true]> n). split.
    + rewrite Hw3, Hw2. apply abstracts_insert; [done|]. by apply created_abstracts.
    + cbn [honest]. unfold create_effect. by rewrite (proj1 (abstracts_none _ _ _ Hx) Hnone).
  - intros e w2 Hd _. cbn in Hd. rewrite Ht in Hd.
    assert (forall listening, xw_node w1 !! ci_InboundTag command = None ->
      xw_node w2 = <[ci_InboundTag command := of_config config listening]> (xw_node w1) -> telling (mapError "create_inbound" e) = false ->
      contract (CreateInbound command) n (Err (mapError "create_inbound" e)) w2) as Hmade.
    { intros listening Hnone Hw2 He. exists (<[ci_InboundTag command := created command listening]> n). split.
      - rewrite Hw2. apply abstracts_insert; [done|]. by apply created_abstracts.
      - exists listening. apply commanded_unsure; [done|]. right. unfold create_effect.
        by rewrite (proj1 (abstracts_none _ _ _ Hx) Hnone). }
    destruct Hd as [(He & Htaken & Hw2)|[(He & Hnone & Hw2)|[He [Hw2|(listening & Hnone & Hw2)]]]].
    + destruct (mapError_kind "create_inbound" e _ ErrorInboundAlreadyExists He) as (retryable & summary & ->); [tauto|].
      exists n. split; [by rewrite Hw2|]. exists true. eapply refusal_told; [by left| |done].
      by eapply abstracts_tag in Htaken.
    + apply (Hmade false); [done..|].
      by destruct (mapError_kind "create_inbound" e _ ErrorPortUnavailable He) as (retryable & summary & ->); [tauto|].
    + apply contract_quiet; [by apply mapError_unreachable|]. by rewrite Hw2.
    + apply (Hmade listening); [done..|]. by apply mapError_unreachable.
Qed.

Lemma client_RemoveInbound_contract command n w : abstracts (xw_node w) n ->
  runs (client_RemoveInbound command) (contract (RemoveInbound command) n) w.
Proof.
  intros Hx. unfold client_RemoveInbound. case_if; [by apply contract_quiet|].
  assert (forall w', xw_node w !! ro_InboundTag command <> None -> xw_node w' = delete (ro_InboundTag command) (xw_node w) ->
    abstracts (xw_node w') (delete (ro_InboundTag command) n) /\ remove_effect command n = Some (delete (ro_InboundTag command) n)) as Hgone.
  { intros w' Hin ->. split; [by apply abstracts_delete|]. unfold remove_effect.
    eapply abstracts_tag in Hin; [|done]. by destruct (n !! _). }
  apply runs_rpc.
  - intros [] w1 [Hin Hw1] _ now w2 [Hw2 _]. rewrite <- Hw2 in Hw1. exists (delete (ro_InboundTag command) n). by apply Hgone.
  - intros e w1 Hd _. destruct Hd as [(He & Hnone & Hw1)|[He [Hw1|[Hin Hw1]]]].
    + destruct (mapError_kind "remove_inbound" e _ ErrorInboundNotFound He) as (retryable & summary & ->); [tauto|].
      exists n. split; [by rewrite Hw1|]. eapply refusal_told; [by left| |done]. by eapply abstracts_none in Hnone.
    + apply contract_quiet; [by apply mapError_unreachable|]. by rewrite Hw1.
    + exists (delete (ro_InboundTag command) n). destruct (Hgone w1 Hin Hw1) as [Ha Heff]. split; [done|].
      apply commanded_unsure; [by apply mapError_unreachable|]. by right.
Qed.

Lemma client_AddUser_contract command n w : abstracts (xw_node w) n -> keyed (AddUser command) ->
  runs (client_AddUser command) (contract (AddUser command) n) w.
Proof.
  intros Hx Hk. unfold client_AddUser, guardPanelInbound. case_if; [|by apply contract_quiet].
  destruct (ValidateUserKey _ _); [|by apply contract_quiet].
  set (u := mkXUser 0 (nu_StatisticsID command) (Reveal (nu_UserKey command))).
  assert (forall w', user_added (nu_InboundTag command) u (xw_node w) (xw_node w') -> exists n',
    abstracts (xw_node w') n' /\ add_effect command n = Some n') as Hadded.
  { intros w' (i & Hi & _ & ->). destruct (abstracts_some _ _ _ _ Hx Hi) as (j & Hj & Hij).
    eexists. split; [|by unfold add_effect; rewrite Hj]. apply abstracts_insert; [done|]. by apply same_with_user. }
  apply runs_rpc.
  - intros [] w1 Hd _ now w2 [Hw2 _]. destruct (Hadded w1 Hd) as (n' & Ha & Heff). exists n'. by rewrite Hw2.
  - intros e w1 Hd _. destruct Hd as [(He & Hnone & Hw1)|[(He & (i & Hi & Hu) & Hw1)|[[He Hw1]|[He Hw1]]]].
    + destruct (mapError_kind "add_user" e _ ErrorInboundNotFound He) as (retryable & summary & ->); [tauto|].
      exists n. split; [by rewrite Hw1|]. eapply refusal_told; [by left| |done]. by eapply abstracts_none in Hnone.
    + destruct (mapError_kind "add_user" e _ ErrorUserAlreadyExists He) as (retryable & summary & ->); [tauto|].
      exists n. split; [by rewrite Hw1|]. eapply refusal_told; [by right; left| |done].
      destruct (abstracts_some _ _ _ _ Hx Hi) as (j & Hj & Hij). exists j. split; [done|]. by eapply same_user in Hu.
    + destruct (mapError_kind "add_user" e _ ErrorIncompatibleProfile He) as (retryable & summary & ->); [tauto|].
      apply contract_quiet; [done|]. by rewrite Hw1.
    + assert (telling (mapError "add_user" e) = false) as Hq by (by apply mapError_unreachable).
      destruct Hw1 as [Hw1|Hw1]; [apply contract_quiet; [done|by rewrite Hw1]|].
      destruct (Hadded w1 Hw1) as (n' & Ha & Heff). exists n'. split; [done|]. apply commanded_unsure; [done|]. by right.
Qed.

(** The answers to a request for the clients of an inbound that is not to be
    had. *)
Lemma users_refused operation tag e n w w' : abstracts (xw_node w) n ->
  documented (GetInboundUsers tag) (xw_node w) (Err e) (xw_node w') ->
  abstracts (xw_node w') n /\
  (telling (mapError operation e) = false \/
   exists retryable summary, mapError operation e = AdapterError ErrorInboundNotFound operation retryable summary /\ n !! tag = None).
Proof.
  intros Hx [-> He]. split; [done|]. destruct He as [He|[He|[He Hnone]]].
  - left. by apply mapError_unreachable.
  - left. by destruct (mapError_kind operation e _ ErrorIncompatibleProfile He) as (retryable & summary & ->); [tauto|].
  - right. destruct (mapError_kind operation e _ ErrorInboundNotFound He) as (retryable & summary & ->); [tauto|].
    exists retryable, summary. split; [done|]. by eapply abstracts_none in Hnone.
Qed.

Lemma client_RemoveUser_contract command n w : abstracts (xw_node w) n ->
  runs (client_RemoveUser command) (contract (RemoveUser command) n) w.
Proof.
  intros Hx. unfold client_RemoveUser, guardPanelInbound. case_if; [|by apply contract_quiet].
  case_if; [by apply contract_quiet|]. apply runs_rpc.
  2:{ intros e w1 Hd _. destruct (users_refused "remove_user" _ _ _ _ _ Hx Hd) as [Ha [Hq|(retryable & summary & -> & Hn)]].
      - by apply contract_quiet.
      - exists n. split; [done|]. by eapply refusal_told; [by left| |]. }
  intros emails w1 [Hw1 _] _. rewrite <- Hw1 in Hx. cbv zeta. case_if; [by apply contract_quiet|].
  assert (forall w', user_removed (rv_InboundTag command) (rv_StatisticsID command) (xw_node w1) (xw_node w') -> exists n',
    abstracts (xw_node w') n' /\ drop_effect command n = Some n') as Hdropped.
  { intros w' (i & Hi & Hu & ->). destruct (abstracts_some _ _ _ _ Hx Hi) as (j & Hj & Hij).
    eapply same_user in Hu; [|done]. eexists. split.
    2:{ unfold drop_effect. rewrite Hj. cbn. by destruct (ni_Users j !! _). }
    apply abstracts_insert; [done|]. by apply same_without_user. }
  apply runs_rpc.
  - intros [] w2 Hd _ now w3 [Hw3 _]. destruct (Hdropped w2 Hd) as (n' & Ha & Heff). exists n'. by rewrite Hw3.
  - intros e w2 Hd _. destruct Hd as [(He & Hnone & Hw2)|[(He & (i & Hi & Hu) & Hw2)|[[He Hw2]|[He Hw2]]]].
    + destruct (mapError_kind "remove_user" e _ ErrorInboundNotFound He) as (retryable & summary & ->); [tauto|].
      exists n. split; [by rewrite Hw2|]. eapply refusal_told; [by left| |done]. by eapply abstracts_none in Hnone.
    + destruct (mapError_kind "remove_user" e _ ErrorUserNotFound He) as (retryable & summary & ->); [tauto|].
      exists n. split; [by rewrite Hw2|]. eapply refusal_told; [by right; left| |done].
      destruct (abstracts_some _ _ _ _ Hx Hi) as (j & Hj & Hij). exists j. split; [done|].
      destruct (ni_Users j !! _) eqn:E; [|done]. exfalso. eapply same_user; [done| |exact Hu]. by rewrite E.
    + destruct (mapError_kind "remove_user" e _ ErrorIncompatibleProfile He) as (retryable & summary & ->); [tauto|].
      apply contract_quiet; [done|]. by rewrite Hw2.
    + assert (telling (mapError "remove_user" e) = false) as Hq by (by apply mapError_unreachable).
      destruct Hw2 as [Hw2|Hw2]; [apply contract_quiet; [done|by rewrite Hw2]|].
      destruct (Hdropped w2 Hw2) as (n' & Ha & Heff). exists n'. split; [done|]. apply commanded_unsure; [done|]. by right.
Qed.
End Abstraction.
End Xray.
