(* ===== verification/XrayContract.v ===== *)
(** * The contract of the adapter, call by call

    The observations and the capability probe of the real adapter under Xray's
    documented answers, and the theorem that every call keeps the contract the
    synchronizer is proved against. *)

From Stdlib Require Import ZArith Lia.
From S2P Require Import Prelude GoTypes Identity Ports Text Inbound Tokens Template Net Database Secrets Password Adapter Calls XrayClient XrayLaws Demo.

Section Contract.
Context {Un : Unicode}.
Context (K : string -> Z -> string -> Prop).
Local Abbreviation contract := (contract K).
Local Abbreviation abstracts := (abstracts K).

(** ** Observations *)
Lemma looks_rpc {R A} operation (request : Request R) (f : R -> Xray (Res A)) :
  (forall x r x', documented request x r x' -> x' = x) -> (forall r, looks (f r)) -> looks (rpc operation request f).
Proof. intros Hd Hf. split; [intros w r w' [Hr Hc]; split; [by eapply Hd|done]|]. by intros [r|e]; [apply Hf|]. Qed.
Lemma looks_ask {R A} (e : XrayEffect R) (f : R -> Xray A) :
  (forall w r w', served e w r w' -> idle w w') -> (forall r, looks (f r)) -> looks (ask e ≫= f).
Proof. by split. Qed.
Lemma looks_now {A} (f : Time -> Xray A) : (forall r, looks (f r)) -> looks (ask ClientNow ≫= f).
Proof. by apply looks_ask. Qed.

Lemma looks_Probe target : looks (client_Probe target).
Proof. apply looks_rpc; [by intros ??? [? _]|]. intros uptime. by apply looks_now. Qed.
Lemma looks_read_counters counters observation snapshots : looks (read_counters counters observation snapshots).
Proof.
  revert snapshots. induction counters as [|[identity direction] counters IH]; intros snapshots; [done|]. cbn [read_counters].
  destruct (CounterName identity direction); [|done].
  apply looks_ask; [by intros w r w' [Hr Hc]|]. intros answer. destruct (snapshot_of _ _ _ _ answer); [apply IH|done].
Qed.
Lemma looks_ReadTraffic query : looks (client_ReadTraffic query).
Proof.
  unfold client_ReadTraffic. case_if; [done|]. apply looks_bind; [apply looks_Probe|]. intros probed.
  apply looks_bind; [|intros; apply looks_read_counters]. destruct probed; [done|]. by apply looks_now.
Qed.

Lemma client_ListUsers_contract inbound n w : abstracts (xw_node w) n ->
  runs (client_ListUsers inbound) (contract (ListUsers inbound) n) w.
Proof.
  intros Hx. apply runs_rpc.
  - intros emails w1 [Hw1 (i & Hi & Hin)] _. exists n. split; [by rewrite Hw1|]. split; [done|]. intros id.
    destruct (abstracts_some _ _ _ _ _ Hx Hi) as (j & Hj & Hij). split.
    + intros (u & Hu & <- & _). apply list_elem_of_fmap in Hu as (email & -> & He). exists j. split; [done|].
      eapply same_user; [done|]. by apply Hin.
    + intros (j' & Hj' & Hid). simplify_eq. exists (remote_user id). split; [|done]. apply list_elem_of_fmap_2, Hin.
      by eapply same_user.
  - intros e w1 Hd _. destruct (users_refused K "list_users" _ _ _ _ _ Hx Hd) as [Ha [Hq|(retryable & summary & -> & Hn)]].
    + by apply contract_quiet.
    + exists n. split; [done|]. by split.
Qed.

Lemma remote_inbounds_listed tags result w : (forall tag, tag ∈ tags -> xw_node w !! tag <> None) ->
  runs (remote_inbounds tags result) (fun r w' => xw_node w' = xw_node w /\
    match r with Ok l => rb_InboundTag <$> l = (rb_InboundTag <$> result) ++ tags | Err e => telling e = false end) w.
Proof.
  revert result w. induction tags as [|tag tags IH]; intros result w Hin; [by rewrite app_nil_r|]. cbn [remote_inbounds].
  assert (forall l b count, (rb_InboundTag <$> l) = (rb_InboundTag <$> result ++ [mkRemoteInbound tag b count]) ++ tags ->
    rb_InboundTag <$> l = (rb_InboundTag <$> result) ++ tag :: tags) as Hcons.
  { intros l b count ->. by rewrite fmap_app, <- app_assoc. }
  case_if.
  - apply runs_rpc.
    + intros count w1 [Hw1 _] _. eapply runs_mono; [|apply IH; rewrite Hw1; intros; apply Hin; by right].
      intros [l|e] w' [-> Hl]; (split; [done|]); [by eapply Hcons|done].
    + intros e w1 [Hw1 He] _. split; [done|]. destruct He as [He|[He|[_ Hn]]].
      * by apply mapError_unreachable.
      * by destruct (mapError_kind "list_inbounds" e _ ErrorIncompatibleProfile He) as (retryable & summary & ->); [tauto|].
      * destruct (Hin tag); [by left|done].
  - eapply runs_mono; [|apply IH; intros; apply Hin; by right].
    intros [l|e] w' [-> Hl]; (split; [done|]); [by eapply Hcons|done].
Qed.
Lemma client_ListInbounds_contract n w : abstracts (xw_node w) n -> runs client_ListInbounds (contract ListInbounds n) w.
Proof.
  intros Hx. apply runs_rpc.
  - intros tags w1 [Hw1 Htags] _. eapply runs_mono; [|apply remote_inbounds_listed; intros tag; rewrite Hw1; apply Htags].
    intros r w2 [Hw2 Hr]. exists n. split; [by rewrite Hw2, Hw1|]. split; [done|]. destruct r as [l|e]; [|done].
    intros tag. rewrite Hr. cbn. rewrite Htags. by apply abstracts_tag with (K := K).
  - intros e w1 [Hw1 He] _. apply contract_quiet; [by apply mapError_unreachable|]. by rewrite Hw1.
Qed.

(** ** The capability probe *)

(** The probe inbound is the only one that may differ. *)
Definition only_at (tag : string) (n : Node) (w : XWorld) : Prop :=
  exists n', abstracts (xw_node w) n' /\ forall tag', tag' <> tag -> n' !! tag' = n !! tag'.
Lemma only_at_refl tag n w : abstracts (xw_node w) n -> only_at tag n w.
Proof. by exists n. Qed.
Lemma only_at_idle tag n w w' : idle w w' -> only_at tag n w -> only_at tag n w'.
Proof. intros [Hw _] (n' & Ha & Hn). exists n'. by rewrite Hw. Qed.

Lemma honest_elsewhere {R} (call : AdapterCall R) tag n r n' : honest call n r n' -> mutated_tag call = Some tag ->
  forall tag', tag' <> tag -> n' !! tag' = n !! tag'.
Proof.
  intros Hh Hm tag' Ht.
  assert (forall S (effect : option Node) l (r' : Res S), (forall n1, effect = Some n1 -> n1 !! tag' = n !! tag') ->
    commanded effect l n r' n' -> n' !! tag' = n !! tag') as Hcommanded.
  { intros S effect l [a|e] He; cbn; [apply He|]. case_if; [by intros [-> _]|]. intros [->|Hn]; [done|by apply He]. }
  destruct call; try done; injection Hm as <-; cbn in Hh.
  - assert (forall listening n1, create_effect command listening n = Some n1 -> n1 !! tag' = n !! tag') as He.
    { intros listening n1. unfold create_effect. destruct (n !! _); [done|]. intros [= <-]. by rewrite lookup_insert_ne. }
    destruct r; [by eapply He|]. destruct Hh as [listening Hh]. eapply Hcommanded; [|exact Hh]. apply He.
  - eapply Hcommanded; [|exact Hh]. unfold remove_effect. intros n1. destruct (n !! _); [|done]. intros [= <-].
    by rewrite lookup_delete_ne.
  - eapply Hcommanded; [|exact Hh]. unfold add_effect. intros n1. destruct (n !! _); [|done]. intros [= <-].
    by rewrite lookup_insert_ne.
  - eapply Hcommanded; [|exact Hh]. unfold drop_effect. intros n1. destruct (n !! _) as [i|]; [|done]. cbn.
    destruct (ni_Users i !! _); [|done]. intros [= <-]. by rewrite lookup_insert_ne.
Qed.
Lemma contract_only_at {R} (call : AdapterCall R) tag n n0 r w' : contract call n r w' -> mutated_tag call = Some tag ->
  (forall tag', tag' <> tag -> n !! tag' = n0 !! tag') -> only_at tag n0 w'.
Proof.
  intros (n' & Ha & Hh) Hm Hn. exists n'. split; [done|]. intros tag' Ht. rewrite <- Hn by done. by eapply honest_elsewhere.
Qed.

Lemma looks_resetCounters id : looks (resetCounters id).
Proof.
  unfold resetCounters. apply looks_bind; [|intros _]; (destruct (CounterName id _); [|done]); (apply looks_ask; [by intros w r w' [Hr Hc]|done]).
Qed.
Lemma looks_exchange network probe serverKey userKey : looks (exchange_if_used network probe serverKey userKey).
Proof.
  unfold exchange_if_used. case_if; [|done]. apply looks_ask; [done|]. intros [echo|e]; [|done]. by apply looks_ask.
Qed.

(** The clock moves between the turns, so the wait for counters ends. *)
Lemma await_counters_answers fuel id deadline w : deadline < xw_clock w + 50 * Millisecond * (Z.of_nat fuel - 1) -> (0 < fuel)%nat ->
  runs (await_counters fuel id deadline) (fun r w' => idle w w' /\ r <> None) w.
Proof.
  revert w. induction fuel as [|fuel IH]; intros w Hd Hf; [lia|]. cbn [await_counters].
  eapply runs_then; [apply looks_runs, looks_ReadTraffic|]. intros round w1 Hi1. destruct round as [round|e]; [|done].
  case_if; [done|]. apply runs_ask. intros now w2 (Hn2 & Hc2 & Hnow).
  assert (idle w w2) as Hi2 by (eapply idle_trans; [exact Hi1|split; [done|lia]]).
  case_if; [done|]. apply runs_ask. intros cancelled w3 (Hn3 & Hc3 & Hp).
  assert (idle w w3) as Hi3 by (eapply idle_trans; [exact Hi2|by split]).
  destruct cancelled as [e|]; [done|]. specialize (Hp eq_refl). unfold After in Eif0. to_prop.
  destruct Hi2 as [_ Hc]. assert (0 < Millisecond) by done.
  assert (0 < fuel)%nat as Hfuel by (destruct fuel; lia).
  eapply runs_mono; [|apply IH; [lia|done]]. intros r w4 [Hi4 Hr]. split; [by eapply idle_trans|done].
Qed.

Lemma account_traffic_answers fuel probe serverKey userKey id w : (102 <= fuel)%nat ->
  runs (account_traffic fuel probe serverKey userKey id) (fun r w' => idle w w' /\ r <> None) w.
Proof.
  intros Hf. unfold account_traffic. case_if; [done|].
  eapply runs_then; [apply looks_runs, looks_exchange|]. intros failed w1 Hi1. destruct failed; [done|].
  eapply runs_then; [apply looks_runs, looks_exchange|]. intros failed w2 Hi2. destruct failed; [split; [by eapply idle_trans|done]|].
  apply runs_ask. intros start w3 (Hn3 & Hc3 & Hs).
  assert (idle w w3) as Hi3 by (eapply idle_trans; [exact Hi1|]; eapply idle_trans; [exact Hi2|split; [done|lia]]).
  eapply runs_mono; [|apply await_counters_answers; [|lia]].
  - intros r w4 [Hi4 Hr]. split; [by eapply idle_trans|done].
  - subst start. unfold probeTrafficBudget, Second, Millisecond. lia.
Qed.
Lemma verify_answers fuel probe serverKey userKey id w : (102 <= fuel)%nat ->
  runs (verifyUserTrafficAccounting fuel probe serverKey userKey id) (fun r w' => idle w w' /\ r <> None) w.
Proof.
  intros Hf. eapply runs_then; [by apply account_traffic_answers|]. intros outcome w1 [Hi1 Ho].
  eapply runs_then; [apply looks_runs, looks_resetCounters|]. intros [] w2 Hi2. split; [by eapply idle_trans|done].
Qed.

Lemma examine_probe_answers fuel probe command capabilities created w : (102 <= fuel)%nat ->
  runs (examine_probe fuel probe command capabilities created) (fun r w' => idle w w' /\ r <> None) w.
Proof.
  intros Hf. assert (idle w w) as Hw by (split; [done|lia]). unfold examine_probe.
  destruct created as [receipt|e]; [|by repeat case_match].
  apply runs_ask. intros counted w1 [Hn1 Hc1]. assert (idle w w1) as Hi1 by (split; [apply Hn1|done]).
  destruct counted as [count|e]; [|done]. cbv zeta. case_if; [done|].
  eapply runs_then; [by apply verify_answers|]. intros accounted w2 [Hi2 Ha].
  split; [by eapply idle_trans|]. by destruct accounted as [[[[] ?]|]|].
Qed.

Lemma client_ValidateTemplate_contract fuel probe n w : (102 <= fuel)%nat -> abstracts (xw_node w) n ->
  (forall run key, K (NamespacePrefix +:+ "probe-" +:+ run) 1 key) ->
  runs (client_ValidateTemplate fuel probe)
    (fun r w' => r <> None /\ only_at (NamespacePrefix +:+ "probe-" +:+ pr_TemplateID probe) n w') w.
Proof.
  intros Hf Hx Hk. unfold client_ValidateTemplate. cbv zeta.
  assert (forall w', idle w w' -> only_at (NamespacePrefix +:+ "probe-" +:+ pr_TemplateID probe) n w') as Hidle.
  { intros w' Hi. by eapply only_at_idle, only_at_refl. }
  assert (idle w w) as Hw by (split; [done|lia]).
  case_if; [split; [done|by apply Hidle]|]. case_if; [split; [done|by apply Hidle]|].
  apply runs_ask. intros serverKey w1 Hi1. destruct serverKey as [serverKey|e]; [|split; [done|by apply Hidle]].
  apply runs_ask. intros userKey w2 Hi2. assert (idle w w2) as Hi by (by eapply idle_trans).
  destruct userKey as [userKey|e]; [|split; [done|by apply Hidle]].
  apply runs_ask. intros run w3 Hi3. assert (idle w w3) as Hi' by (by eapply idle_trans).
  destruct run as [run|e]; [|split; [done|by apply Hidle]].
  eapply runs_then; [apply (client_CreateInbound_contract K _ n); [destruct Hi' as [-> _]; done|apply Hk]|].
  intros created w4 Hcreated. eapply contract_only_at with (n0 := n) in Hcreated as (n4 & Ha4 & Hn4); [|done..].
  eapply runs_then; [by apply examine_probe_answers|]. intros outcome w5 [[Hn5 _] Ho]. destruct outcome as [[capabilities err]|]; [|done].
  unfold remove_probe. apply runs_bind.
  eapply runs_then; [apply (client_RemoveInbound_contract K _ n4); by rewrite Hn5|]. intros answer w6 Hremoved.
  split; [done|]. by eapply contract_only_at.
Qed.

(** ** The adapter *)

(** The keys of a command are those of the versions it names, and a probe's
    identity is as good with one key as with another. *)
Definition keys_known {R} (call : AdapterCall R) : Prop :=
  keyed K call /\ forall run key, K (NamespacePrefix +:+ "probe-" +:+ run) 1 key.

Lemma answered_runs {A} (p : Xray A) Q w : runs p Q w -> runs (answered p) (fun r w' => exists a, r = Some a /\ Q a w') w.
Proof. intros Hp. eapply runs_then; [exact Hp|]. intros a w' Ha. by exists a. Qed.
Lemma looks_contract {R} (call : AdapterCall R) (p : Xray (Res R)) n w : looks p -> abstracts (xw_node w) n ->
  (forall r, honest call n r n) -> runs (answered p) (fun r w' => exists a, r = Some a /\ contract call n a w') w.
Proof.
  intros Hp Hx Hh. apply answered_runs. eapply runs_mono; [|by apply looks_runs]. intros r w' [Hw _]. exists n. by rewrite Hw.
Qed.

(** C6: under Xray's documented answers every call of the real adapter keeps
    the contract that the panel's workers are verified against: from a node
    that a state of the contract describes, it comes to an answer (the wait for
    counters ends within 102 turns) which the contract allows, and leaves a
    node that the contract's state after the call describes. *)
Theorem client_keeps_contract {R} (call : AdapterCall R) fuel n w : (102 <= fuel)%nat -> abstracts (xw_node w) n -> keys_known call ->
  runs (client_call fuel call) (fun r w' => exists a, r = Some a /\ contract call n a w') w.
Proof.
  intros Hf Hx [Hk Hprobe]. destruct call; cbn [client_call].
  - by apply looks_contract; [apply looks_Probe| |].
  - eapply runs_then; [by apply (client_ValidateTemplate_contract fuel probe n)|].
    intros [[capabilities [err|]]|] w' [Hr (n' & Ha & Hn)]; [| |done]; (eexists; split; [done|]; by exists n').
  - by apply answered_runs, client_ListInbounds_contract.
  - by apply answered_runs, client_CreateInbound_contract.
  - by apply answered_runs, client_RemoveInbound_contract.
  - by apply answered_runs, client_ListUsers_contract.
  - by apply answered_runs, client_AddUser_contract.
  - by apply answered_runs, client_RemoveUser_contract.
  - by apply looks_contract; [apply looks_ReadTraffic| |].
Qed.
End Contract.

(** ** A node *)

(** An Xray that keeps its users in order and never fails on its own. *)
Definition xray_says (text : string) : RpcError := mkRpcError Unknown text false.
Definition demo_answer {R} (request : Request R) (x : XNode) : result RpcError R * XNode :=
  match request in Request R return result RpcError R * XNode with
  | GetSysStats => (Ok 100, x)
  | GetStats _ _ => (Err (mkRpcError NotFound "counter not found" false), x)
  | ListInboundTags => (Ok (map_to_list x).*1, x)
  | GetInboundUsers tag =>
      (match x !! tag with Some i => Ok (map_to_list (xi_Users i)).*1 | None => Err (xray_says "handler not found") end, x)
  | GetInboundUsersCount tag =>
      (match x !! tag with Some i => Ok (Z.of_nat (size (xi_Users i))) | None => Err (xray_says "handler not found") end, x)
  | AddInboundRequest config =>
      match x !! hc_Tag config with
      | Some _ => (Err (xray_says "existing tag found"), x)
      | None => (Ok tt, <[hc_Tag config := of_config config true]> x)
      end
  | RemoveInboundRequest tag =>
      match x !! tag with
      | Some _ => (Ok tt, delete tag x)
      | None => (Err (xray_says "not enough information for making a decision"), x)
      end
  | AlterInbound tag operation =>
      match x !! tag with
      | None => (Err (xray_says "handler not found"), x)
      | Some i =>
          match operation with
          | AddUserOperation u =>
              match xi_Users i !! xu_Email u with
              | Some _ => (Err (xray_says "user already exists"), x)
              | None => (Ok tt, <[tag := i <| xi_Users := <[xu_Email u := xu_Key u]> (xi_Users i) |>]> x)
              end
          | RemoveUserOperation email =>
              match xi_Users i !! email with
              | Some _ => (Ok tt, <[tag := i <| xi_Users := delete email (xi_Users i) |>]> x)
              | None => (Err (xray_says "user not found"), x)
              end
          end
      end
  end.
Lemma demo_documented {R} (request : Request R) x :
  documented request x (demo_answer request x).1 (demo_answer request x).2.
Proof.
  assert (forall {V} (m : gmap string V) key, key ∈ (map_to_list m).*1 <-> m !! key <> None) as Hkeys.
  { intros V m key. rewrite list_elem_of_fmap. setoid_rewrite elem_of_map_to_list'. split.
    - intros ([key' v] & -> & Hv). cbn in *. by rewrite Hv.
    - intros Hv. destruct (m !! key) as [v|] eqn:E; [|done]. by exists (key, v). }
  assert (reports (xray_says "handler not found") "handler not found") as Hhandler by done.
  destruct request; cbn; try done.
  - destruct (x !! tag) as [i|] eqn:E; (split; [done|]); [by exists i; split|by right; right].
  - destruct (x !! tag) as [i|] eqn:E; (split; [done|]); [by exists i; split|by right; right].
  - destruct (x !! hc_Tag config) as [i|] eqn:E; cbn; [by left|done].
  - destruct (x !! tag) as [i|] eqn:E; cbn; [done|by left].
  - destruct (x !! tag) as [i|] eqn:E; [|by destruct operation; left].
    destruct operation as [u|email].
    + destruct (xi_Users i !! xu_Email u) as [key|] eqn:Eu; cbn; [|by exists i].
      right. left. split_and!; [done| |done]. exists i. by rewrite Eu.
    + destruct (xi_Users i !! email) as [key|] eqn:Eu; cbn; [exists i; by rewrite Eu|].
      right. left. split_and!; [done| |done]. by exists i.
Qed.

Definition demo_serve_effect {R} (e : XrayEffect R) (w : XWorld) : R * XWorld :=
  let later := mkXWorld (xw_node w) (xw_clock w + 50 * Millisecond) in
  match e in XrayEffect R return R * XWorld with
  | Rpc request => let '(r, x) := demo_answer request (xw_node w) in (r, mkXWorld x (xw_clock w))
  | ClientNow => (xw_clock w, w)
  | TimeNow => (xw_clock w, w)
  | BindPort _ => (Some None, w)
  | NewProbeKey _ => (Ok (NewRedactedString "AQEBAQEBAQEBAQEBAQEBAQ=="), w)
  | NewRun => (Ok "run", w)
  | StartEcho _ => (Ok "127.0.0.1:40000", w)
  | Exchange _ _ _ _ _ _ _ => (None, w)
  | Pause => (None, later)
  end.
Fixpoint demo_serve {A} (p : Xray A) (w : XWorld) : A * XWorld :=
  match p with
  | Done a => (a, w)
  | Do e k => let '(r, w) := demo_serve_effect e w in demo_serve (k r) w
  end.
Lemma demo_served {R} (e : XrayEffect R) w : served e w (demo_serve_effect e w).1 (demo_serve_effect e w).2.
Proof.
  destruct e; cbn; try (by split; [|lia]).
  - pose proof (demo_documented request (xw_node w)) as Hd. destruct (demo_answer request (xw_node w)). by split; [|cbn; lia].
  - by split; [split; [|lia]|].
  - split_and!; [done| |]; unfold Millisecond; lia.
Qed.
Lemma demo_serve_runs {A} (p : Xray A) Q w : runs p Q w -> Q (demo_serve p w).1 (demo_serve p w).2.
Proof.
  revert w. induction p as [a|R e k IH]; intros w Hp; [done|]. cbn. pose proof (demo_served e w) as Hs.
  destruct (demo_serve_effect e w) as [r w']. apply IH, Hp, Hs.
Qed.

Definition demo_create : CreateInboundCommand :=
  mkCreateInbound "op" "xpanel-in" "0.0.0.0" 20000 MethodAES128 NetworkTCP (NewRedactedString "AQEBAQEBAQEBAQEBAQEBAQ==")
    (mkClient "xpanel-u" 1 (NewRedactedString "AQEBAQEBAQEBAQEBAQEBAQ==")).
Definition demo_probe : TemplateProbe := mkProbe "template" "0.0.0.0" 20000 MethodAES128 NetworkTCPUDP.
Lemma client_keeps_contract_witness :
  let K (id : string) (version : Z) (key : string) := version = 1 in
  let w := mkXWorld ∅ t0 in
  let created := demo_serve (client_call 102 (CreateInbound demo_create)) w in
  let probed := demo_serve (client_call 102 (ValidateTemplate demo_probe)) w in
  created.1 = Some (Ok (mkReceipt "op" t0)) /\
  (exists r, created.1 = Some r /\ contract K (CreateInbound demo_create) ∅ r created.2) /\
  probed.1 = Some (Ok (mkCapabilities true true true true true false "xpanel-probe-run" no_counters)) /\
  (exists r, probed.1 = Some r /\ contract K (ValidateTemplate demo_probe) ∅ r probed.2).
Proof.
  cbv zeta.
  assert (forall R (call : AdapterCall R), keys_known (fun _ version _ => version = 1) call ->
    let out := demo_serve (client_call 102 call) (mkXWorld ∅ t0) in
    exists r, out.1 = Some r /\ contract (fun _ version _ => version = 1) call ∅ r out.2) as H.
  { intros R call Hk.
    assert (abstracts (fun _ version _ => version = 1) (xw_node (mkXWorld ∅ t0)) ∅) as Hx.
    { intros tag. cbn. rewrite !lookup_empty. constructor. }
    pose proof (client_keeps_contract _ call 102 ∅ _ ltac:(lia) Hx Hk) as Hr. exact (demo_serve_runs _ _ _ Hr). }
  split; [by vm_compute|]. split; [by apply H|]. split; [by vm_compute|by apply H].
Defined.
