(* ===== verification/XrayTrace.v ===== *)
(** * What the adapter asks Xray for, whatever Xray answers

    The calls of the real adapter with the record of what was asked and
    answered before: which changes of the node it can request at all, and what
    a capability probe that reports a compatible node has seen. *)


From Stdlib Require Import ZArith Lia.
From S2P Require Import Prelude GoTypes Ports Identity Text Inbound Tokens Template Net Database Secrets Password Adapter Calls Trace XrayClient XrayLaws.

Section Trace.
Context {Un : Unicode}.

Lemma traced_rpc (G : list (Event XrayEffect) -> forall R, XrayEffect R -> Prop) {R A} operation (request : Request R) (f : R -> Xray (Res A)) Q past :
  G past _ (Rpc request) ->
  (forall r, traced G (f r) Q (Answered (Rpc request) (Ok r) :: past)) ->
  (forall e, Q (Err (mapError operation e)) (Answered (Rpc request) (Err e) :: past)) ->
  traced G (rpc operation request f) Q past.
Proof. intros Hg Hf He. split; [done|]. intros [r|e]; [apply Hf|apply He]. Qed.

(** ** What it may ask for *)

(** An inbound is created as the panel builds it, and clients change on the
    panel's inbounds only; a client is removed right after its inbound was
    seen with another one, entitled to it, or without the client. *)
Definition survivor (email : string) (emails : list string) : Prop :=
  email ∈ emails -> exists other, other ∈ emails /\ other <> email.
Definition allowed_request (past : list (Event XrayEffect)) {R} (request : Request R) : Prop :=
  match request with
  | AddInboundRequest config =>
      IsPanelNamespace (hc_Tag config) = true /\
      MinAssignablePort <= rc_From (hc_ReceiverSettings config) <= MaxAssignablePort /\
      rc_To (hc_ReceiverSettings config) = rc_From (hc_ReceiverSettings config) /\
      ParseIP (rc_Listen (hc_ReceiverSettings config)) = true /\
      exists u, mu_Users (hc_ProxySettings config) = [u] /\ IsPanelNamespace (xu_Email u) = true /\
        ValidateUserKey (mu_Method (hc_ProxySettings config)) (xu_Key u) = Ok tt /\
        ValidateUserKey (mu_Method (hc_ProxySettings config)) (mu_Key (hc_ProxySettings config)) = Ok tt
  | RemoveInboundRequest tag => IsPanelNamespace tag = true
  | AlterInbound tag (AddUserOperation u) => IsPanelNamespace tag = true /\ ValidateUserKey (methodFromKey (xu_Key u)) (xu_Key u) = Ok tt
  | AlterInbound tag (RemoveUserOperation email) => IsPanelNamespace tag = true /\
      exists emails past', past = Answered (Rpc (GetInboundUsers tag)) (Ok emails) :: past' /\ survivor email emails
  | _ => True
  end.
Definition allowed (past : list (Event XrayEffect)) (R : Type) (e : XrayEffect R) : Prop :=
  match e with Rpc request => allowed_request past request | _ => True end.
Local Abbreviation asks p := (forall past, traced allowed p (fun _ _ => True) past).

Lemma asks_bind {A B} (p : Xray A) (f : A -> Xray B) : asks p -> (forall a, asks (f a)) -> asks (p ≫= f).
Proof. intros Hp Hf past. eapply traced_then; [apply Hp|]. intros a past' _. apply Hf. Qed.
Lemma asks_ask {R A} (e : XrayEffect R) (f : R -> Xray A) : (forall past, allowed past R e) -> (forall r, asks (f r)) -> asks (ask e ≫= f).
Proof. intros He Hf past. split; [done|]. intros r. apply Hf. Qed.
Lemma asks_rpc {R A} operation (request : Request R) (f : R -> Xray (Res A)) : (forall past, allowed_request past request) ->
  (forall r, asks (f r)) -> asks (rpc operation request f).
Proof. intros He Hf past. apply traced_rpc; [apply He|intros; apply Hf|done]. Qed.
Lemma asks_receipt operationID : asks (receipt operationID).
Proof. by apply asks_ask. Qed.

Lemma asks_Probe target : asks (client_Probe target).
Proof. apply asks_rpc; [done|]. intros uptime. by apply asks_ask. Qed.
Lemma asks_read_counters counters observation snapshots : asks (read_counters counters observation snapshots).
Proof.
  revert snapshots. induction counters as [|[identity direction] counters IH]; intros snapshots; [done|]. cbn [read_counters].
  destruct (CounterName identity direction); [|done]. apply asks_ask; [done|]. intros answer.
  destruct (snapshot_of _ _ _ _ answer); [apply IH|done].
Qed.
Lemma asks_ReadTraffic query : asks (client_ReadTraffic query).
Proof.
  unfold client_ReadTraffic. case_if; [done|]. apply asks_bind; [apply asks_Probe|]. intros probed.
  apply asks_bind; [|intros; apply asks_read_counters]. destruct probed; [done|]. by apply asks_ask.
Qed.
Lemma asks_remote_inbounds tags result : asks (remote_inbounds tags result).
Proof.
  revert result. induction tags as [|tag tags IH]; intros result; [done|]. cbn [remote_inbounds]. case_if; [|apply IH].
  apply asks_rpc; [done|]. intros count. apply IH.
Qed.
Lemma asks_CreateInbound command : asks (client_CreateInbound command).
Proof.
  unfold client_CreateInbound. destruct (buildInboundConfig command) as [config|e] eqn:Eb; [|done].
  assert (mu_Method (hc_ProxySettings config) = ci_Method command /\ rc_Listen (hc_ReceiverSettings config) = ci_ListenAddress command) as [Hm Hl].
  { revert Eb. unfold buildInboundConfig, mbind, result_bind, rbind. repeat case_match; intros; by simplify_eq. }
  apply buildInboundConfig_built in Eb as []. apply asks_ask; [done|]. intros bound.
  apply asks_bind; [done|]. intros failed. destruct failed; [done|]. apply asks_rpc; [|intros []; apply asks_receipt].
  intros past. cbn. rewrite bu_tag, bu_from, bu_to, bu_server, Hm, Hl. split_and!; try done; try lia. by eexists.
Qed.
Lemma asks_RemoveInbound command : asks (client_RemoveInbound command).
Proof.
  unfold client_RemoveInbound. case_if; [done|]. apply asks_rpc; [|intros []; apply asks_receipt]. intros past. cbn. by to_prop.
Qed.
Lemma asks_AddUser command : asks (client_AddUser command).
Proof.
  unfold client_AddUser, guardPanelInbound. case_if; [|done]. destruct (ValidateUserKey _ _) as [[]|] eqn:Ev; [|done].
  by apply asks_rpc; [|intros []; apply asks_receipt].
Qed.
Lemma asks_RemoveUser command : asks (client_RemoveUser command).
Proof.
  unfold client_RemoveUser, guardPanelInbound. case_if; [|done]. case_if; [done|]. intros past. cbv zeta.
  apply traced_rpc; [done| |done]. intros emails. case_if; [done|].
  apply traced_rpc; [|intros []; apply asks_receipt|done]. split; [done|]. eexists _, _. split; [done|].
  intros Hin. apply andb_false_iff in Eif1 as [Hp|Hs].
  - rewrite existsb_spec in Hp. specialize (Hp _ Hin). by rewrite bool_decide_eq_true_2 in Hp.
  - to_prop. apply existsb_true in Hs as (other & Ho & Hs). to_prop. by exists other.
Qed.
Lemma asks_reset statisticsID : asks (resetCounters statisticsID).
Proof. apply asks_bind; [|intros _]; (destruct (CounterName _ _); [by apply asks_ask|done]). Qed.
Lemma asks_exchange network probe serverKey userKey : asks (exchange_if_used network probe serverKey userKey).
Proof.
  unfold exchange_if_used. case_if; [|done]. apply asks_ask; [done|]. intros [echo|]; [|done]. by apply asks_ask.
Qed.
Lemma asks_await fuel id deadline : asks (await_counters fuel id deadline).
Proof.
  induction fuel as [|fuel IH]; [done|]. cbn [await_counters]. apply asks_bind; [apply asks_ReadTraffic|]. intros [round|]; [|done].
  case_if; [done|]. apply asks_ask; [done|]. intros now. case_if; [done|]. apply asks_ask; [done|]. by intros [].
Qed.
Lemma asks_verify fuel probe serverKey userKey id : asks (verifyUserTrafficAccounting fuel probe serverKey userKey id).
Proof.
  apply asks_bind; [|intros; by apply asks_bind; [apply asks_reset|]]. unfold account_traffic. case_if; [done|].
  apply asks_bind; [apply asks_exchange|]. intros []; [done|]. apply asks_bind; [apply asks_exchange|]. intros []; [done|].
  apply asks_ask; [done|]. intros start. apply asks_await.
Qed.
Lemma asks_examine fuel probe command capabilities created : asks (examine_probe fuel probe command capabilities created).
Proof.
  unfold examine_probe. destruct created as [receipt|e]; [|by repeat case_match].
  apply asks_ask; [done|]. intros [count|]; [|done]. cbv zeta. case_if; [done|].
  by apply asks_bind; [apply asks_verify|].
Qed.
Lemma asks_ValidateTemplate fuel probe : asks (client_ValidateTemplate fuel probe).
Proof.
  unfold client_ValidateTemplate. cbv zeta. case_if; [done|]. case_if; [done|].
  apply asks_ask; [done|]. intros [serverKey|]; [|done]. apply asks_ask; [done|]. intros [userKey|]; [|done].
  apply asks_ask; [done|]. intros [run|]; [|done].
  apply asks_bind; [apply asks_CreateInbound|]. intros created. apply asks_bind; [apply asks_examine|].
  intros [[capabilities err]|]; [|done]. apply asks_bind; [|done]. apply asks_bind; [apply asks_RemoveInbound|]. done.
Qed.

(** C7: whatever Xray answers, no call of the adapter asks for a change
    outside the panel's namespace: an inbound is created with one port of the
    assignable range, an address literal and exactly one client, of the panel's
    namespace and with keys of the method's length; inbounds and clients are
    removed or added under the panel's tags only; and a client is removed only
    right after Xray listed the inbound with another client, or without it. *)
Theorem requests_stay_in_namespace fuel {R} (call : AdapterCall R) : traced allowed (client_call fuel call) (fun _ _ => True) [].
Proof.
  assert (forall A (p : Xray (Res A)), asks p -> traced allowed (answered p) (fun _ _ => True) []) as Hanswered.
  { intros A p Hp. by apply (asks_bind p). }
  destruct call; cbn [client_call]; try apply Hanswered.
  - apply asks_Probe.
  - apply (asks_bind _ _ (asks_ValidateTemplate fuel probe)). by intros [[? []]|].
  - apply asks_rpc; [done|]. intros tags. apply asks_remote_inbounds.
  - apply asks_CreateInbound.
  - apply asks_RemoveInbound.
  - by apply asks_rpc.
  - apply asks_AddUser.
  - apply asks_RemoveUser.
  - apply asks_ReadTraffic.
Qed.
End Trace.

(** * What a capability probe has seen

    The verdict of [client_ValidateTemplate] against the record of the calls
    that were answered: a capability is reported only when the node showed it,
    and the probe inbound is taken away again. *)

Section Probed.
Context {Un : Unicode}.

Local Abbreviation ends_with p Q past := (traced anything p Q past).

Definition seen {R} (past : list (Event XrayEffect)) (request : Request R) (answer : result RpcError R) : Prop := Answered (Rpc request) answer ∈ past.

(** ** Counters *)
Definition backed (past : list (Event XrayEffect)) (s : CounterSnapshot) : Prop := cs_Found s = true ->
  exists name, CounterName (cs_StatisticsID s) (cs_Direction s) = Ok name /\ 0 <= cs_Bytes s /\
    seen past (GetStats name false) (Ok (Some (name, cs_Bytes s))).
Lemma backed_extends past past' s : extends past past' -> backed past s -> backed past' s.
Proof. intros He Hb Hf. destruct (Hb Hf) as (name & Hn & H0 & Hs). exists name. split_and!; [done..|]. by apply He. Qed.

Lemma read_counters_backed counters observation snapshots past :
  (forall s, s ∈ snapshots -> backed past s) ->
  ends_with (read_counters counters observation snapshots) (fun out past' => forall round, out = Ok round ->
    forall s, s ∈ tr_Snapshots round -> backed past' s /\ (s ∈ snapshots \/ (cs_StatisticsID s, cs_Direction s) ∈ counters)) past.
Proof.
  revert snapshots past. induction counters as [|[identity direction] counters IH]; intros snapshots past Hb; cbn [read_counters].
  { intros round [= <-] s Hs. split; [by apply Hb|by left]. }
  destruct (CounterName identity direction) as [name|e] eqn:En; [|done]. apply traced_do; [done|]. intros answer.
  destruct (snapshot_of _ _ _ _ answer) as [snapshot|e] eqn:Es; [|done].
  assert (cs_StatisticsID snapshot = identity /\ cs_Direction snapshot = direction /\
    (cs_Found snapshot = true -> 0 <= cs_Bytes snapshot /\ answer = Ok (Some (name, cs_Bytes snapshot)))) as (<- & <- & Ha).
  { revert Es. unfold snapshot_of. destruct answer as [[[found value]|]|e]; [|done|by case_if; intros; simplify_eq].
    case_if; [done|]. intros [= <-]. to_prop. cbn. destruct (decide (found = name)) as [->|]; [done|]. by exfalso. }
  eapply traced_mono; [|apply IH].
  - intros out past' Hout round Hr s Hs. destruct (Hout round Hr s Hs) as [Hback [Hin|Hin]]; (split; [done|]); [|by right; right].
    apply elem_of_app in Hin as [Hin|Hin%list_elem_of_singleton]; [by left|]. subst s. right. by left.
  - intros s [Hin|Hin%list_elem_of_singleton]%elem_of_app.
    + eapply backed_extends; [|by apply Hb]. intros event He. by right.
    + subst s. intros Hf. destruct (Ha Hf) as [H0 ->]. exists name. split_and!; [done..|]. by left.
Qed.
Lemma ReadTraffic_backed query past : ends_with (client_ReadTraffic query) (fun out past' => forall round, out = Ok round ->
  forall s, s ∈ tr_Snapshots round -> backed past' s /\ cs_StatisticsID s ∈ tq_StatisticsIDs query) past.
Proof.
  unfold client_ReadTraffic. case_if; [done|]. eapply traced_then; [apply traced_any|]. intros probed past1 _.
  eapply traced_then; [apply traced_any|]. intros observation past2 _.
  eapply traced_mono; [|by apply read_counters_backed; intros s Hs%not_elem_of_nil].
  intros out past3 Hout round Hr s Hs. destruct (Hout round Hr s Hs) as [Hb [Hin|Hin]]; [by apply not_elem_of_nil in Hin|].
  split; [done|]. unfold both_directions in Hin. apply list_elem_of_bind in Hin as (identity & Hid & Hin).
  rewrite !elem_of_cons, elem_of_nil in Hid. destruct Hid as [[= -> _]|[[= -> _]|[]]]; done.
Qed.

(** Both counters of the identity were read with a value. *)
Definition counters_seen (statisticsID : string) (past : list (Event XrayEffect)) : Prop := forall direction, exists name bytes,
  CounterName statisticsID direction = Ok name /\ 0 < bytes /\ seen past (GetStats name false) (Ok (Some (name, bytes))).
Lemma counted_seen statisticsID direction past snapshots : counted direction snapshots = true ->
  (forall s, s ∈ snapshots -> backed past s /\ cs_StatisticsID s ∈ [statisticsID]) -> exists name bytes,
  CounterName statisticsID direction = Ok name /\ 0 < bytes /\ seen past (GetStats name false) (Ok (Some (name, bytes))).
Proof.
  unfold counted. intros (s & Hs & Hc)%existsb_true Hall. to_prop. destruct (Hall s Hs) as [Hb Hid%list_elem_of_singleton].
  destruct (Hb ltac:(done)) as (name & Hn & H0' & Hseen). exists name, (cs_Bytes s). subst. split_and!; [done|lia|done].
Qed.
Lemma await_counters_seen fuel statisticsID deadline past : ends_with (await_counters fuel statisticsID deadline)
  (fun out past' => forall reason, out = Some (Ok (true, reason)) -> counters_seen statisticsID past') past.
Proof.
  revert past. induction fuel as [|fuel IH]; intros past; [done|]. cbn [await_counters].
  eapply traced_then; [apply ReadTraffic_backed|]. intros [round|e] past1 Hr; [|done]. case_if.
  - intros reason _ direction. to_prop. destruct direction; eapply counted_seen; [done|by apply Hr|done|by apply Hr].
  - apply traced_do; [done|]. intros now. case_if; [done|]. apply traced_do; [done|]. intros [e|]; [done|]. apply IH.
Qed.

(** ** Exchanges *)
Definition exchanged (network : XNetwork) (probe : TemplateProbe) (past : list (Event XrayEffect)) : Prop := exists host serverKey userKey echo,
  Answered (Exchange network host (pr_ProbePort probe) (pr_Method probe) serverKey userKey echo) None ∈ past.
Lemma exchange_seen network probe serverKey userKey past : ends_with (exchange_if_used network probe serverKey userKey)
  (fun out past' => out = None -> uses network probe = true -> exchanged network probe past') past.
Proof.
  unfold exchange_if_used. case_if; [|done]. apply traced_do; [done|]. intros [echo|e]; [|done].
  apply traced_do; [done|]. intros [e|]; [done|]. intros _ _. do 4 eexists. by left.
Qed.

(** Traffic of the identity was carried and counted. *)
Definition accounted_for (probe : TemplateProbe) (statisticsID : string) (past : list (Event XrayEffect)) : Prop :=
  counters_seen statisticsID past /\ forall network, uses network probe = true -> exchanged network probe past.
Lemma accounted_extends probe id past past' : extends past past' -> accounted_for probe id past -> accounted_for probe id past'.
Proof.
  intros He [Hc Hx]. split.
  - intros direction. destruct (Hc direction) as (name & bytes & ? & ? & ?). exists name, bytes. split_and!; [done..|]. by apply He.
  - intros network Hu. destruct (Hx network Hu) as (h & k1 & k2 & echo & Hin). exists h, k1, k2, echo. by apply He.
Qed.
Lemma verify_seen fuel probe serverKey userKey id past : ends_with (verifyUserTrafficAccounting fuel probe serverKey userKey id)
  (fun out past' => forall reason, out = Some (Ok (true, reason)) -> accounted_for probe id past') past.
Proof.
  apply traced_seq with (P := fun out past' => forall reason, out = Some (Ok (true, reason)) -> accounted_for probe id past').
  - unfold account_traffic. case_if; [done|]. eapply traced_seq; [apply exchange_seen|]. intros [e|] past1 Ht _; [done|].
    eapply traced_seq; [apply exchange_seen|]. intros [e|] past2 Hu H12; [done|]. apply traced_do; [done|]. intros start.
    eapply traced_mono; [|apply traced_extends, await_counters_seen]. intros out past3 [Hout H23] reason Hr.
    split; [by eapply Hout|]. intros network Hused.
    assert (exchanged network probe past2) as (h & k1 & k2 & echo & Hin).
    { destruct network; [|by apply Hu]. destruct (Ht eq_refl Hused) as (h & k1 & k2 & echo & Hin). exists h, k1, k2, echo. by apply H12. }
    exists h, k1, k2, echo. apply H23. by right.
  - intros out past1 Hout _. eapply traced_then; [apply traced_any|]. intros [] past2 He reason Hr.
    eapply accounted_extends; [exact He|by eapply Hout].
Qed.

(** ** The verdict *)
Definition probe_tag (probe : TemplateProbe) : string := NamespacePrefix +:+ "probe-" +:+ pr_TemplateID probe.
(** A creation of an inbound was asked for. *)
Definition is_creation (event : Event XrayEffect) : bool :=
  match event with
  | Answered (Rpc (AddInboundRequest _)) _ => true
  | _ => false
  end.

(** What each reported capability rests on. *)
Record rests_on (probe : TemplateProbe) (capabilities : TemplateCapabilities) (past : list (Event XrayEffect)) : Prop := {
  on_creation : tp_InboundCreatable capabilities = true -> exists config,
    seen past (AddInboundRequest config) (Ok tt) /\ hc_Tag config = probe_tag probe /\
    rc_From (hc_ReceiverSettings config) = pr_ProbePort probe /\ mu_Method (hc_ProxySettings config) = pr_Method probe;
  on_count : tp_MultiUserSupported capabilities = true -> exists count,
    0 < count /\ seen past (GetInboundUsersCount (probe_tag probe)) (Ok count);
  on_traffic : tp_TrafficAccounted capabilities = true -> accounted_for probe (tp_ProbeStatisticsID capabilities) past;
  on_method : tp_MethodSupported capabilities = true -> pr_Method probe = MethodAES128 \/ pr_Method probe = MethodAES256 }.
Definition taken_away (probe : TemplateProbe) (past : list (Event XrayEffect)) : Prop := exists answer,
  seen past (RemoveInboundRequest (probe_tag probe)) answer.
Definition gone (probe : TemplateProbe) (past : list (Event XrayEffect)) : Prop := exists answer,
  seen past (RemoveInboundRequest (probe_tag probe)) answer /\
  match answer with Ok _ => True | Err e => kind_of (mapError "remove_inbound" e) = Some ErrorInboundNotFound end.

Lemma CreateInbound_seen command past : ends_with (client_CreateInbound command) (fun out past' => is_ok out = true -> exists config,
  seen past' (AddInboundRequest config) (Ok tt) /\ built command config /\ mu_Method (hc_ProxySettings config) = ci_Method command) past.
Proof.
  unfold client_CreateInbound. destruct (buildInboundConfig command) as [config|e] eqn:Eb; [|done].
  assert (mu_Method (hc_ProxySettings config) = ci_Method command) as Hm.
  { revert Eb. unfold buildInboundConfig, mbind, result_bind, rbind. repeat case_match; intros; by simplify_eq. }
  apply buildInboundConfig_built in Eb. apply traced_do; [done|]. intros bound.
  eapply traced_then; [apply traced_any|]. intros [e|] past1 _; [done|]. apply traced_rpc; [done| |done].
  intros []. apply traced_do; [done|]. intros now _. exists config. split_and!; [right; by left|done..].
Qed.
Lemma RemoveInbound_seen probe past : ends_with (client_RemoveInbound (mkRemoveInbound "" (probe_tag probe)))
  (fun out past' => taken_away probe past' /\ extends past past' /\
    (match out with Ok _ => true | Err err => bool_decide (kind_of err = Some ErrorInboundNotFound) end = true -> gone probe past')) past.
Proof.
  unfold client_RemoveInbound.
  replace (IsPanelNamespace (ro_InboundTag (mkRemoveInbound "" (probe_tag probe)))) with true by done. cbn [negb].
  apply traced_rpc; [done| |].
  - intros []. apply traced_do; [done|]. intros now.
    assert (seen (Answered ClientNow now :: Answered (Rpc (RemoveInboundRequest (probe_tag probe))) (Ok tt) :: past)
      (RemoveInboundRequest (probe_tag probe)) (Ok tt)) as Hseen by (right; by left).
    split_and!; [by eexists|intros event Hin; by do 2 right|]. intros _. by eexists.
  - intros e. split_and!; [eexists; by left|intros event Hin; by right|]. intros Hk. to_prop. eexists. split; [by left|done].
Qed.

Lemma rests_extends probe capabilities past past' : extends past past' -> rests_on probe capabilities past -> rests_on probe capabilities past'.
Proof.
  intros He [H1 H2 H3 H4]. split; [| | |done].
  - intros Hc. destruct (H1 Hc) as (config & Hs & Hrest). exists config. split; [by apply He|done].
  - intros Hc. destruct (H2 Hc) as (count & Hp & Hs). exists count. split; [done|by apply He].
  - intros Hc. eapply accounted_extends; [done|by apply H3].
Qed.
(** A verdict that claims no more than another rests on no more. *)
Lemma rests_less probe c c' past : rests_on probe c past -> (tp_InboundCreatable c' = true -> tp_InboundCreatable c = true) ->
  (tp_MultiUserSupported c' = true -> tp_MultiUserSupported c = true) -> (tp_MethodSupported c' = true -> tp_MethodSupported c = true) ->
  (tp_TrafficAccounted c' = true -> tp_TrafficAccounted c = true /\ tp_ProbeStatisticsID c' = tp_ProbeStatisticsID c) ->
  rests_on probe c' past.
Proof. intros [H1 H2 H3 H4] ?? ? Ht. split; auto. intros Hc. destruct (Ht Hc) as [Hc' ->]. auto. Qed.

Lemma examine_seen fuel probe command capabilities created past : ci_InboundTag command = probe_tag probe ->
  tp_ProbeStatisticsID capabilities = cl_StatisticsID (ci_Client command) ->
  rests_on probe (capabilities <| tp_InboundCreatable := is_ok created |>) past ->
  tp_InboundCreatable capabilities = false -> tp_TrafficAccounted capabilities = false ->
  ends_with (examine_probe fuel probe command capabilities created)
    (fun out past' => forall c err, out = Some (c, err) -> rests_on probe c past') past.
Proof.
  intros Htag Hid Hr Hc Ha. unfold examine_probe. destruct created as [receipt|e].
  2:{ assert (forall c err, Some (capabilities, Some e) = Some (c, err) -> rests_on probe c past) as Hsame.
      { intros c err [= <- _]. apply (rests_less _ _ _ _ Hr); cbn; try done. by rewrite Hc. }
      repeat case_match; try exact Hsame. intros c err [= <- _].
      apply (rests_less _ _ _ _ Hr); cbn; try done. by rewrite Hc. }
  cbn [is_ok] in Hr. apply traced_do; [done|]. intros counted.
  set (past1 := _ :: past). assert (extends past past1) as He by (intros event Hin; by right).
  apply (rests_extends _ _ _ _ He) in Hr. destruct counted as [count|e].
  2:{ by intros c err [= <- _]. }
  assert (rests_on probe (capabilities <| tp_InboundCreatable := true |> <| tp_MultiUserSupported := 0 <? count |>) past1) as Hr2.
  { destruct Hr as [H1 H2 H3 H4]. split; cbn; try done. intros Hp. to_prop. exists count. split; [done|]. rewrite <- Htag. by left. }
  cbv zeta. case_if.
  { intros c err [= <- _]. by apply (rests_less _ _ _ _ Hr2). }
  eapply traced_then; [apply traced_extends, verify_seen|]. intros accounted past2 [Hv He2].
  apply (rests_extends _ _ _ _ He2) in Hr2. intros c err. destruct accounted as [[[[] reason]|e]|]; [| | |done]; intros [= <- _].
  - destruct Hr2 as [H1 H2 H3 H4]. split; cbn in *; try done. intros _. rewrite Hid. by eapply Hv.
  - apply (rests_less _ _ _ _ Hr2); cbn; try done.
  - done.
Qed.

(** C8: whatever Xray answers, a capability that a probe of a template reports
    was shown by the node during the probe: the probe inbound was created on the
    template's probe port with its method, Xray counted a client on it, an
    authenticated exchange went through it over every network the template
    uses and both counters of the probe's own identity were read with a value,
    and its removal was confirmed or found nothing left; and in every run that
    asked for the inbound its removal was asked for before the answer, also
    when the probe failed. *)
Theorem verdict_rests_on_the_node fuel probe :
  ends_with (client_ValidateTemplate fuel probe) (fun out past => forall capabilities err, out = Some (capabilities, err) ->
    rests_on probe capabilities past /\
    (tp_InboundRemovable capabilities = true -> gone probe past) /\
    (existsb is_creation past = true -> taken_away probe past)) [].
Proof.
  unfold client_ValidateTemplate. cbv zeta.
  assert (forall past s id reason, existsb is_creation past = false -> (s = true -> pr_Method probe = MethodAES128 \/ pr_Method probe = MethodAES256) ->
    let c := mkCapabilities false false true s false false id reason in
    rests_on probe c past /\ (tp_InboundRemovable c = true -> gone probe past) /\ (existsb is_creation past = true -> taken_away probe past)) as Hearly.
  { intros past s id reason Hn Hs. split_and!; [by split|done|by rewrite Hn]. }
  case_if; [by intros c err [= <- _]; apply Hearly|]. case_if.
  { apply negb_true_iff in Eif0. rewrite Eif0. intros c err [= <- _]. by apply (Hearly [] false ""). }
  apply negb_false_iff in Eif0. rewrite Eif0.
  assert (true = true -> pr_Method probe = MethodAES128 \/ pr_Method probe = MethodAES256) as Hm.
  { intros _. apply orb_true_iff in Eif0 as [?|?]; to_prop; auto. }
  apply traced_do; [done|]. intros [serverKey|e]; [|intros c err [= <- _]; by apply Hearly].
  apply traced_do; [done|]. intros [userKey|e]; [|intros c err [= <- _]; by apply Hearly].
  apply traced_do; [done|]. intros [run|e]; [|intros c err [= <- _]; by apply Hearly].
  set (command := probe_command probe run serverKey userKey).
  eapply traced_then; [apply CreateInbound_seen|]. intros created past1 Hcreated.
  eapply traced_then; [apply examine_seen; [done|done| |done|done]|].
  - split; cbn; try done. intros Hok. destruct (Hcreated Hok) as (config & Hs & [Ht Hf _ _ _ _ _ _ _ _ _] & Hmethod).
    exists config. split_and!; [done|by rewrite Ht|by rewrite Hf|by rewrite Hmethod].
  - intros [[c err]|] past2 Hr; [|done]. specialize (Hr c err eq_refl).
    eapply traced_then; [|intros done_ past3 Hd; exact Hd].
    unfold remove_probe. eapply traced_then; [apply RemoveInbound_seen|]. intros answer past3 (Htaken & He & Hgone) c' err' [= <- _].
    apply (rests_extends _ _ _ _ He) in Hr. case_if; (split_and!; [by apply (rests_less _ _ _ _ Hr)|exact Hgone|done]).
Qed.
End Probed.
