(* ===== verification/ConnectionService.v ===== *)
(** * Connection information: internal/application/connection_service.go

    What the panel hands to a user: host, port, method and the two keys, and
    the ss:// address that packs them ([net.JoinHostPort], [url.PathEscape]). *)

From Stdlib Require Import ZArith Lia Ascii.
From S2P Require Import Prelude GoTypes Identity Ports Text Inbound Tokens User Sync Quota Traffic Template Net Cycle Records Database Secrets Url StoreCore StoreSync StoreQuota StoreUsers StoreTraffic StoreDrift StoreTemplates UserService Adapter Calls.

Definition ErrConnectionPending : error := PlainError "connection information is pending synchronization".

Record ConnectionInfo := mkConnection {
  co_Host : string;
  co_Port : Z;
  co_Method : string;
  co_Label : string;
  co_Password : RedactedString;
  co_URI : RedactedString;
  co_Inactive : bool }.

(** ** The pieces of the address *)
Definition user_info (method password : string) : string := EncodeRaw true (bytes_of (method +:+ ":" +:+ password)).
Definition ss_uri (method password host : string) (port : Z) (label : string) : string :=
  "ss://" +:+ user_info method password +:+ "@" +:+ JoinHostPort host (pretty port) +:+ "#" +:+ PathEscape label.

Section Service.
Context {Ae : Aead} (keyring : Keyring).

Definition inbound_key (record : UserRecord) : Res string :=
  let i := ur_Inbound record in
  Decrypt keyring (ir_ServerKeyCiphertext i) (ir_ServerKeyNonce i)
    (SecretAAD "dedicated_inbounds" (a_ID (ur_Allocation record)) "server_key" (ir_KeyEncryptionVersion i)).
Definition credential_key (record : UserRecord) : Res string :=
  let c := ur_Credential record in
  Decrypt keyring (cr_KeyCiphertext c) (cr_KeyNonce c)
    (SecretAAD "access_credentials" (a_ID (ur_Allocation record)) "user_key" (cr_KeyEncryptionVersion c)).

Definition connection_of (record : UserRecord) : Res ConnectionInfo :=
  let a := ur_Allocation record in
  let credential := ur_Credential record in
  if bool_decide (u_Lifecycle (ur_User record) = LifecycleDeleted) then
    Err (InvalidStateError "connection information is unavailable for deleted users")
  else if bool_decide (cr_State credential <> CredentialActive) ||
          negb (a_DesiredCredentialVersion a =? cr_Version credential) then Err ErrConnectionPending
  else
    match inbound_key record with
    | Err _ => Err (PlainError "inbound key is unavailable")
    | Ok serverKey =>
        match credential_key record with
        | Err _ => Err (PlainError "credential key is unavailable")
        | Ok userKey =>
            let password := serverKey +:+ ":" +:+ userKey in
            let host := t_PublicHost (ur_Template record) in
            let port := in_Port (ir_Inbound (ur_Inbound record)) in
            let method := t_Method (ur_Template record) in
            let label := u_DisplayName (ur_User record) in
            Ok (mkConnection host port method label (NewRedactedString password)
                  (NewRedactedString (ss_uri method password host port label))
                  (negb (DesiredPresent a (ur_User record))))
        end
    end.

Definition BuildConnectionInfo (userID : ID) : Worker (Res ConnectionInfo) :=
  must (store (CallUser userID)) (fun record => mret (connection_of record)).
End Service.

(** ** What a client reads *)

Definition split_host_port (s : string) : option (string * string) :=
  match s with
  | String "["%char s =>
      '(host, rest) ← cut_at "]" s;
      match rest with String ":"%char port => Some (host, port) | _ => None end
  | _ => cut_at ":" s
  end.

(** SIP002: method, password, host, port and label of an address. *)
Definition parse_ss (uri : string) : option (string * string * string * Z * string) :=
  if HasPrefix uri "ss://" then
    '(main, fragment) ← cut_at "#" (string_drop 5 uri);
    '(userinfo, hostport) ← cut_at "@" main;
    plain ← DecodeRaw true userinfo;
    '(method, password) ← cut_at ":" (string_of_bytes plain);
    '(host, port) ← split_host_port hostport;
    label ← PathUnescape fragment;
    Some (method, password, host, decimal_value 0 port, label)
  else None.

(** ** Each piece is read back *)
(** A host name or address without the delimiters of the parser. *)
Definition plain_host (host : string) : bool :=
  negb (has_char "#" host) && negb (has_char "[" host) && negb (has_char "]" host).

Lemma split_join host port : plain_host host = true -> split_host_port (JoinHostPort host port) = Some (host, port).
Proof.
  intros [[_ Hb]%andb_true_iff Hc]%andb_true_iff. apply negb_true_iff in Hb, Hc. unfold JoinHostPort.
  destruct (has_char ":" host) eqn:E.
  - change ("[" +:+ host +:+ "]:" +:+ port) with (String "[" (host +:+ String "]" (String ":" port))).
    cbn [split_host_port]. by rewrite cut_at_app.
  - change (host +:+ ":" +:+ port) with (host +:+ String ":" port).
    assert (forall s, (forall t, s <> String "[" t) -> split_host_port s = cut_at ":" s) as Hs.
    { intros [|c s] Hn; [done|]. destruct c as [[] [] [] [] [] [] [] []]; try reflexivity. by destruct (Hn s). }
    rewrite Hs; [by apply cut_at_app|]. intros t Ht. destruct host as [|c host]; [done|].
    rewrite string_app_cons in Ht. injection Ht as -> _. done.
Qed.
Lemma user_info_free c method password : (forall v, 0 <= v < 64 -> raw_char true v <> c) -> has_char c (user_info method password) = false.
Proof.
  intros Hc. apply EncodeRaw_free; [|apply bytes_of_bytes]. intros v Hv. apply bool_decide_eq_false. by apply Hc.
Qed.
Lemma alphabet_free c : forallb (fun v => negb (bool_decide (raw_char true v = c))) (seqZ 0 64) = true ->
  forall v, 0 <= v < 64 -> raw_char true v <> c.
Proof.
  intros H v Hv. rewrite forallb_forall in H. specialize (H v). rewrite <- list_elem_of_In, elem_of_seqZ in H.
  specialize (H ltac:(lia)). by apply negb_true_iff, bool_decide_eq_false in H.
Qed.

Lemma parse_ss_uri method password host port label : has_char ":" method = false -> plain_host host = true -> 0 < port ->
  parse_ss (ss_uri method password host port label) = Some (method, password, host, port, label).
Proof.
  intros Hm Hh Hp. unfold parse_ss, ss_uri.
  set (rest := user_info method password +:+ "@" +:+ JoinHostPort host (pretty port) +:+ "#" +:+ PathEscape label).
  rewrite HasPrefix_app. change (string_drop 5 ("ss://" +:+ rest)) with rest.
  assert (rest = (user_info method password +:+ "@" +:+ JoinHostPort host (pretty port)) +:+ String "#" (PathEscape label)) as ->.
  { unfold rest. by rewrite <- !string_app_assoc. }
  assert (has_char "#" (JoinHostPort host (pretty port)) = false) as Hj.
  { assert (has_char "#" (pretty port) = false) as Hd.
    { apply (string_existsb_mono _ not_number_char); [|apply pretty_Z_number]. intros d. rewrite bool_decide_eq_true. by intros ->. }
    apply andb_true_iff in Hh as [[Hh%negb_true_iff _]%andb_true_iff _]. unfold JoinHostPort.
    case_if; rewrite !has_char_app, Hh, Hd; done. }
  rewrite cut_at_app; [|rewrite !has_char_app, Hj, user_info_free by (apply alphabet_free; by vm_compute); done]. cbn.
  change (user_info method password +:+ "@" +:+ JoinHostPort host (pretty port))
    with (user_info method password +:+ String "@" (JoinHostPort host (pretty port))).
  rewrite cut_at_app by (apply user_info_free, alphabet_free; by vm_compute). cbn.
  unfold user_info. rewrite DecodeRaw_EncodeRaw by apply bytes_of_bytes. cbn. rewrite string_of_bytes_of.
  change (method +:+ ":" +:+ password) with (method +:+ String ":" password). rewrite cut_at_app by done. cbn.
  rewrite split_join by done. cbn. rewrite PathUnescape_PathEscape. cbn. by rewrite decimal_value_pretty.
Qed.
