(* ===== verification/Web.v ===== *)
(** * Pages and responses: internal/web/handlers/common.go and errors.go

    A handler is a program over the calls it makes: the session manager (scs),
    the services, the random source. It ends with the one response it writes.
    A page is what is handed to the template: its data are the records the
    views are made from; the formatting of the views and the rendering are left
    out, as are the log lines. *)

From Stdlib Require Import ZArith Lia.
From S2P Require Import Prelude GoTypes Identity Ports Text Inbound Tokens User Sync Quota Traffic Template Net Cycle Records Database Secrets Url StoreCore StoreSync StoreQuota StoreUsers StoreTraffic StoreDrift StoreTemplates StoreListings UserService Form Adapter Calls TemplateService PanelServices ConnectionService.

(** ** Calls *)
Inductive SessionState : Set := Unmodified | Modified | Destroyed.
#[global] Instance SessionState_eq_dec : EqDecision SessionState. Proof. solve_decision. Defined.

(** The services of the pages. *)
Inductive ServiceCall : Type -> Type :=
| UsersList (filter : UserFilter) : ServiceCall (Res (list UserRecord))
| UsersGet (id : ID) : ServiceCall (Res UserRecord)
| UsersCreate (input : CreateUserInput) : ServiceCall (Res (ID * bool))
| UsersUpdate (input : UpdateUserInput) : ServiceCall (Res bool)
| UsersSetEnabled (input : SetEnabledInput) : ServiceCall (Res bool)
| UsersReset (input : ResetTrafficInput) : ServiceCall (Res bool)
| UsersChangePort (input : ChangePortInput) : ServiceCall (Res bool)
| UsersRotate (input : LifecycleInput) : ServiceCall (Res bool)
| UsersDelete (input : LifecycleInput) : ServiceCall (Res bool)
| ConnectionOf (id : ID) : ServiceCall (Res ConnectionInfo)
| TemplatesList (compatibleOnly : bool) : ServiceCall (Res (list InboundTemplate))
| TemplatesGet (id : ID) : ServiceCall (Res InboundTemplate)
| TemplatesRegister (input : TemplateInput) : ServiceCall (Res ID)
| TemplatesUpdate (id : ID) (input : TemplateInput) : ServiceCall (Res unit)
| TemplatesRevalidate (input : RevalidateInput) : ServiceCall (Res bool)
| TemplatesUsage (id : ID) : ServiceCall (Res PortPoolUsage)
| TemplatesSuspect (id : ID) : ServiceCall (Res bool)
| SettingsGet : ServiceCall (Res PanelSettingsRecord)
| SettingsUpdate (input : UpdateSettingsInput) : ServiceCall (Res bool)
| PanelLocation : ServiceCall Cycle.Location
| DashboardSummaryOf : ServiceCall (DashboardSummary * option error)
| DashboardDetail (record : UserRecord) : ServiceCall (UserDetailRecord * option error)
| AuditList (filter : AuditFilter) : ServiceCall (Res (list AuditEvent * option AuditCursor)).

(** The calls that change the panel. *)
Definition commands {R} (call : ServiceCall R) : bool :=
  match call with
  | UsersCreate _ | UsersUpdate _ | UsersSetEnabled _ | UsersReset _ | UsersChangePort _ | UsersRotate _ | UsersDelete _
  | TemplatesRegister _ | TemplatesUpdate _ _ | TemplatesRevalidate _ | SettingsUpdate _ => true
  | _ => false
  end.

(** [Establish]: AuthService.EstablishSession with the session manager's Commit
    inside; [Revoke]: AuthService.RevokeSession with its Destroy. *)
Inductive WebCall : Type -> Type :=
| Service {R} (call : ServiceCall R) : WebCall R
| Authenticated_ (username password source : string) : WebCall (Res AdministratorRecord)
| Establish (admin : AdministratorRecord) : WebCall (Res (string * Time))
| Revoke (id : ID) (version : Z) : WebCall (option error)
| LoginFailed (summary : string) : WebCall (option error)
| LogoutFailedOf (id : ID) (version : Z) (summary : string) : WebCall (option error)
| SessionValidOf (id : ID) (version : Z) : WebCall (Res bool)
| SessionLoad (token : string) : WebCall (option error)
| SessionGetString (key : string) : WebCall string
| SessionGetInt64 (key : string) : WebCall Z
| SessionPut (key : string) (value : string + Z) : WebCall unit
| SessionPopString (key : string) : WebCall string
| SessionToken : WebCall string
| SessionRenewToken : WebCall (option error)
| SessionDestroy : WebCall (option error)
| SessionCommit : WebCall (Res (string * Time))
| SessionStatus : WebCall SessionState
| WriteSessionCookie (token : string) (expiry : Time) : WebCall unit
| RandomID : WebCall (Res ID).
Abbreviation Web := (Prog WebCall).
Definition does {R} (c : WebCall R) : Web R := Do c Done.
Definition service {R} (c : ServiceCall R) : Web R := Do (Service c) Done.

(** ** Pages *)
Inductive PageData : Type :=
| NoData
| UserListData (users : list UserRecord) (query status : string) (total : Z) (includeDeleted stale : bool) (lastCollection : option Time)
| UserFormData (templates : list (InboundTemplate * option PortPoolUsage)) (noCompatible : bool)
| UserDetailData (record : UserRecord) (available pending : bool) (detail : option UserDetailRecord) (summary : option DashboardSummary)
| UserData (record : UserRecord)
| ConnectionData (record : UserRecord) (info : option ConnectionInfo)
| UserEditData (record : UserRecord)
| TemplateListData (templates : list InboundTemplate)
| TemplateFormData (edit : bool) (template : option InboundTemplate)
| TemplateData (template : InboundTemplate) (usage : option PortPoolUsage) (suspect : bool)
| SettingsData (timezone : string) (revision : Z)
| DashboardData (summary : DashboardSummary)
| AuditData (events : list AuditEvent) (users : list UserRecord) (filter : AuditFilter) (nextCursor : string).

Record Page := mkPage {
  pg_Title : string;
  pg_Section : string;
  pg_RequestID : string;
  pg_Authenticated : bool;
  pg_Flash : option (string * string);
  pg_ErrorSummary : string;
  pg_FieldErrors : Fields;
  pg_Values : Fields;
  pg_Data : PageData;
  pg_Zone : option Cycle.Location;
  pg_Version : Z;
  pg_Capacity : string }.
#[global] Instance eta_Page : Eta Page := fun r =>
  mkPage (pg_Title r) (pg_Section r) (pg_RequestID r) (pg_Authenticated r) (pg_Flash r) (pg_ErrorSummary r) (pg_FieldErrors r)
    (pg_Values r) (pg_Data r) (pg_Zone r) (pg_Version r) (pg_Capacity r).
Definition empty_page : Page := mkPage "" "" "" false None "" ∅ ∅ NoData None 0 "".

Inductive Body : Type :=
| Html (template : string) (data : Page)
| HtmlFragment (template : string) (data : Page)
| RedirectTo (path : string)
| Plain (text : string).
Record Response := mkResponse { rs_Status : Z; rs_Headers : list (string * string); rs_Body : Body }.

Definition StatusOK : Z := 200.
Definition StatusSeeOther : Z := 303.
Definition StatusBadRequest : Z := 400.
Definition StatusUnauthorized : Z := 401.
Definition StatusForbidden : Z := 403.
Definition StatusNotFound : Z := 404.
Definition StatusConflict : Z := 409.
Definition StatusUnprocessableEntity : Z := 422.
Definition StatusTooManyRequests : Z := 429.
Definition StatusInternalServerError : Z := 500.
Definition StatusServiceUnavailable : Z := 503.

(** ** Renderer *)
Definition render_page (status : Z) (name : string) (data : Page) : Response := mkResponse status [] (Html name data).
Definition render_fragment (status : Z) (name : string) (data : Page) : Response :=
  mkResponse status [("Vary", "HX-Request")] (HtmlFragment name data).
Definition render_error (status : Z) (message safeID : string) : Response :=
  render_page status "error.html" (empty_page <| pg_ErrorSummary := message |> <| pg_Values := {[ "error_id" := safeID ]} |>).
Definition Redirect (path : string) : Response := mkResponse StatusSeeOther [] (RedirectTo path).

(** ** Errors *)
#[global] Instance error_eq_dec : EqDecision error. Proof. solve_decision. Defined.

Record Failure := mkFailure { fl_Status : Z; fl_Field : string; fl_Message : string }.

Definition lookup_text (table : list (string * string)) (key : string) : option string :=
  snd <$> List.find (fun entry => bool_decide (entry.1 = key)) table.
Definition fieldMessages : list (string * string) := [
  ("display_name", "显示名称需为 1–64 个字符、不含控制字符");
  ("name", "名称需为 1–64 个字符、不含控制字符");
  ("public_host", "公开地址无效");
  ("listen_address", "监听地址必须是 IP 字面量，例如 0.0.0.0");
  ("port_pool_start", "端口池起始必须在 1024 到 65535 之间");
  ("port_pool_end", "端口池结束必须在 1024 到 65535 之间，且不小于起始端口");
  ("port", "端口必须位于端口池内且未被其他用户占用");
  ("method", "加密方式只支持 2022-blake3-aes-128-gcm 与 2022-blake3-aes-256-gcm");
  ("network", "网络能力只能是 tcp、udp 或 tcp_udp");
  ("reset_day", "重置日必须在 1 到 28 之间");
  ("limit_bytes", "配额必须为正整数且不超过 2^62 字节，或勾选“无限制”");
  ("quota", "配额必须为正整数且不超过 2^62 字节，或勾选“无限制”");
  ("template_id", "请选择一个兼容的入站模板");
  ("_request_id", "表单已过期，请刷新页面后重试");
  ("_version", "资源版本无效，请刷新页面后重试")].
Definition fieldMessage (field fallback : string) : string := default fallback (lookup_text fieldMessages field).

Definition conflictMessages : list (string * string) := [
  ("port is already assigned to another user", "该端口已分配给其他用户，请更换端口");
  ("port pool is exhausted; widen the range on the inbound template", "端口池已耗尽，请在入站模板中扩大端口范围");
  ("inbound template changed since the page was loaded", "入站模板已被修改，页面显示的是最新状态，请核对后重新提交");
  ("user name already exists", "显示名称已被使用，请更换后重试");
  ("inbound template already exists", "入站模板名称已存在");
  ("request identifier was reused with different input", "该请求已提交过且内容不同，请刷新页面后重新操作");
  ("inbound template changed or still has managed users", "入站模板仍有受管用户或已被修改");
  ("inbound template is not compatible", "所选入站模板当前不兼容，不能创建用户");
  ("inbound template must be revalidated against the running node", "节点已重启，入站模板需要重新验证能力后才能创建用户；面板会自动重跑验证，请稍候刷新");
  ("connection information is unavailable for deleted users", "已删除用户不再提供连接信息");
  ("template still has users, unconfirmed removals or pending synchronization; method and listen address cannot change until they are confirmed absent",
   "该模板下仍有用户、未确认的移除或待同步操作，加密方式与监听地址暂时不能修改")].
Definition conflictMessage (message : string) : string :=
  default ("当前状态不允许该操作：" +:+ message) (lookup_text conflictMessages message).

Definition Classify (err : error) : Failure :=
  match err with
  | ValidationError field message => mkFailure StatusUnprocessableEntity field (fieldMessage field message)
  | ConflictError message | InvalidStateError message => mkFailure StatusConflict "" (conflictMessage message)
  | NotFoundError _ => mkFailure StatusNotFound "" "请求的资源不存在"
  | _ => mkFailure StatusInternalServerError "" "请求暂时无法完成"
  end.

(** ** What the handlers share *)

(** Whether the session manager and the settings are there; they are but for
    tests. *)
Record Base := mkBase { ba_Sessions : bool; ba_Settings : bool }.

Definition sessionFlashKind : string := "flash_kind".
Definition sessionFlashMessage : string := "flash_message".
Definition SessionAdministratorID : string := "administrator_id".
Definition SessionPasswordVersion : string := "password_version".

Definition zero_request_id : string := "00000000000000000000000000000000".
Definition NewRequestID : Web string :=
  id ← does RandomID; mret (match id with Ok id => id | Err _ => zero_request_id end).

Section Shared.
Context (b : Base).

Definition Location : Web Cycle.Location := if ba_Settings b then service PanelLocation else mret UTC.
Definition Actor : Web ID := if ba_Sessions b then does (SessionGetString SessionAdministratorID) else mret "".
Definition SessionTokenOf : Web string := if ba_Sessions b then does SessionToken else mret "".
Definition Flash (kind message : string) : Web unit :=
  if ba_Sessions b then
    _ ← does (SessionPut sessionFlashKind (inl kind)); does (SessionPut sessionFlashMessage (inl message))
  else mret tt.

Definition pageSection (path : string) : string :=
  if bool_decide (path = "/") then "dashboard"
  else if HasPrefix path "/users" then "users"
  else if HasPrefix path "/templates" then "templates"
  else if HasPrefix path "/audit" then "audit"
  else if HasPrefix path "/settings" then "settings"
  else "".

Definition NewPage (r : HttpRequest) (title : string) : Web Page :=
  id ← NewRequestID;
  location ← Location;
  let page := empty_page <| pg_Title := title |> <| pg_Section := pageSection (rq_Path r) |> <| pg_RequestID := id |>
                         <| pg_Authenticated := true |> <| pg_Zone := Some location |> in
  if ba_Sessions b then
    message ← does (SessionPopString sessionFlashMessage);
    kind ← does (SessionPopString sessionFlashKind);
    mret (if bool_decide (message = "") then page
          else page <| pg_Flash := Some (if bool_decide (kind = "") then "success" else kind, message) |>)
  else mret page.

(** [Fail]: an error page; an internal error shows an identifier only. *)
Definition Fail_ (err : error) : Web Response :=
  let failure := Classify err in
  if fl_Status failure =? StatusInternalServerError then
    id ← NewRequestID; mret (render_error (fl_Status failure) (fl_Message failure) id)
  else mret (render_error (fl_Status failure) (fl_Message failure) "").

Definition fails (failure : Failure) : bool :=
  (fl_Status failure =? StatusNotFound) || (fl_Status failure =? StatusInternalServerError).
(** The page of a form with what was wrong with it. *)
Definition with_failure (failure : Failure) (page : Page) : Page :=
  let page := page <| pg_ErrorSummary := fl_Message failure |> in
  if bool_decide (fl_Field failure = "") then page
  else page <| pg_FieldErrors := <[fl_Field failure := fl_Message failure]> (pg_FieldErrors page) |>.

(** A service call whose error ends the handler. *)
Definition or_fail {A} (c : ServiceCall (Res A)) (f : A -> Web Response) : Web Response :=
  answer ← service c;
  match answer with Ok a => f a | Err err => Fail_ err end.

(** [pathID] and the page that answers an invalid one. *)
Definition with_id (value : string) (f : ID -> Web Response) : Web Response :=
  if Valid value then f value else mret (render_error StatusNotFound "请求的资源不存在" "").

Context {Un : Unicode} {Sh : Sha256}.
(** A submitted command; [versioned]: the version it was made from must be
    given. *)
Definition bad_form (versioned : bool) : Response :=
  render_error StatusBadRequest (if versioned then "表单格式无效或缺少资源版本" else "表单格式无效") "".
Definition with_form (r : HttpRequest) (action target : string) (f : CommandForm -> Web Response) : Web Response :=
  token ← SessionTokenOf;
  match ParseCommandForm r token action target with
  | Ok form => f form
  | Err _ => mret (bad_form false)
  end.
Definition with_versioned_form (r : HttpRequest) (action target : string) (f : CommandForm -> Z -> Web Response) : Web Response :=
  token ← SessionTokenOf;
  match ParseCommandForm r token action target with
  | Ok form => match cf_Version form with Some version => f form version | None => mret (bad_form true) end
  | Err _ => mret (bad_form true)
  end.
End Shared.
