(* ===== verification/WebPages.v ===== *)
(** * The pages: internal/web/handlers/{users,templates,settings,dashboard,audit}.go *)

From Stdlib Require Import ZArith Lia Ascii.
From S2P Require Import Prelude GoTypes Ports Identity Text Inbound Tokens User Sync Quota Traffic Template Net Cycle Records Database Secrets Url StoreCore StoreSync StoreQuota StoreUsers StoreTraffic StoreDrift StoreTemplates StoreListings UserService Form Adapter Calls TemplateService PanelServices ConnectionService Web.

Definition activeCapacity : Z := 20.
Definition statusOptions : list string := [""; "active"; "disabled"; "quota_exceeded"; "pending"; "deleted"].
Definition validStatus (status : string) : bool := existsb (fun option => bool_decide (option = status)) statusOptions.

(** The address of the polled table, with the filter of the page. *)
Definition set_value (key value : string) (v : Values) : Values := <[key := [value]]> v.
Definition FragmentQuery (query status : string) (includeDeleted : bool) : string :=
  let values : Values := ∅ in
  let values := if bool_decide (query = "") then values else set_value "q" query values in
  let values := if bool_decide (status = "") then values else set_value "status" status values in
  let values := if includeDeleted then set_value "deleted" "1" values else values in
  if bool_decide (values = ∅) then "/fragments/users-table" else "/fragments/users-table?" +:+ Encode values.

Section Users.
Context {Un : Unicode} {Sh : Sha256}.
(** [h_Dashboard]: the service of the dashboard is there. *)
Context (b : Base) (h_Dashboard : bool).

Definition URLQuery (r : HttpRequest) : Values := (ParseQuery (rq_RawQuery r)).1.

Definition capacityNotice : Web string :=
  records ← service (UsersList (mkFilter "" "" false));
  mret (match records with
        | Ok records => if Z.of_nat (length records) <=? activeCapacity then ""
                        else "活跃访问分配已超过 " +:+ pretty activeCapacity +:+ " 个的验收容量，性能目标不再承诺"
        | Err _ => ""
        end).

Definition list_filter (query status deleted : string) : UserFilter :=
  mkFilter query (if validStatus status then status else "") (bool_decide (deleted = "1")).
Definition Users_List (r : HttpRequest) : Web Response :=
  let params := URLQuery r in
  let filter := list_filter (TrimSpace (Get params "q")) (Get params "status") (Get params "deleted") in
  or_fail (UsersList filter) (fun records =>
  page ← NewPage b r "用户";
  capacity ← capacityNotice;
  mret (render_page StatusOK "users_list.html"
    (page <| pg_Capacity := capacity |>
          <| pg_Data := UserListData records (uf_Query filter) (uf_Status filter) (Z.of_nat (length records)) (uf_IncludeDeleted filter) false None |>))).

(** The compatible templates with what is left of their port pools. *)
Fixpoint with_usage (templates : list InboundTemplate) : Web (list (InboundTemplate * option PortPoolUsage)) :=
  match templates with
  | [] => mret []
  | t :: templates =>
      usage ← service (TemplatesUsage (t_ID t));
      rest ← with_usage templates;
      mret ((t, match usage with Ok usage => Some usage | Err _ => None end) :: rest)
  end.
Definition formData (f : Res PageData -> Web Response) : Web Response :=
  records ← service (TemplatesList true);
  match records with
  | Ok records => views ← with_usage records; f (Ok (UserFormData views (bool_decide (records = []))))
  | Err err => f (Err err)
  end.
Definition user_form (status : Z) (page : Page) : Web Response :=
  formData (fun data =>
    match data with
    | Err err => Fail_ err
    | Ok data =>
        capacity ← capacityNotice;
        mret (render_page status "user_form.html" (page <| pg_Capacity := capacity |> <| pg_Data := data |>))
    end).

Definition Users_NewForm (r : HttpRequest) : Web Response :=
  page ← NewPage b r "创建用户";
  user_form StatusOK (page <| pg_Values := {[ "reset_day" := "1"; "quota_unit" := "GiB" ]} |>).
Definition renderUserForm (r : HttpRequest) (values : Fields) (cause : error) : Web Response :=
  let failure := Classify cause in
  if fails failure then Fail_ cause
  else
    page ← NewPage b r "创建用户";
    user_form (fl_Status failure) (with_failure failure (page <| pg_Values := values |>)).

(** The port field: empty for a port of the panel's choice. *)
Definition port_field (raw : string) : Res (option Z) :=
  if bool_decide (raw = "") then Ok None
  else match ParseInt raw with
       | Some port => Ok (Some port)
       | None => Err (ValidationError "port" "port must be a number")
       end.
Definition created_path (id : ID) : string := "/users/" +:+ id.
Definition Users_Create (r : HttpRequest) : Web Response :=
  with_form b r "user_create" "" (fun form =>
  let values := cf_Values form in
  actor ← Actor b;
  if negb (Valid (field values "template_id")) then
    renderUserForm r values (ValidationError "template_id" "inbound template is required")
  else
    match port_field (TrimSpace (field values "port")) with
    | Err err => renderUserForm r values err
    | Ok port =>
        match parseQuota values with
        | Err err => renderUserForm r values err
        | Ok limit =>
            answer ← service (UsersCreate (mkCreateInput (field values "display_name") (field values "template_id") port limit
              (Atoi (TrimSpace (field values "reset_day"))) (cf_RequestID form) actor (cf_Fingerprint form)));
            match answer with
            | Err err => renderUserForm r values err
            | Ok (id, _) => _ ← Flash b "success" "用户已创建，正在同步到节点"; mret (Redirect (created_path id))
            end
        end
    end).

Definition unless_failed {A} (answer : A * option error) : option A :=
  match answer.2 with None => Some answer.1 | Some _ => None end.
(** The detail page; what cannot be read of the dashboard is left out. *)
Definition detailData (record : UserRecord) : Web PageData :=
  let credential := ur_Credential record in
  let confirmed := bool_decide (cr_State credential = CredentialActive) &&
                   (a_DesiredCredentialVersion (ur_Allocation record) =? cr_Version credential) in
  let live := negb (bool_decide (u_Lifecycle (ur_User record) = LifecycleDeleted)) in
  let data := UserDetailData record (confirmed && live) (negb confirmed && live) in
  if h_Dashboard then
    detail ← service (DashboardDetail record);
    summary ← service DashboardSummaryOf;
    mret (data (unless_failed detail) (unless_failed summary))
  else mret (data None None).
Definition user_title (prefix : string) (record : UserRecord) : string := prefix +:+ u_DisplayName (ur_User record).
Definition versioned (record : UserRecord) (page : Page) : Page := page <| pg_Version := u_Revision (ur_User record) |>.

Definition Users_Detail (r : HttpRequest) (path_id : string) : Web Response :=
  with_id path_id (fun id =>
  or_fail (UsersGet id) (fun record =>
  page ← NewPage b r (user_title "用户：" record);
  data ← detailData record;
  mret (render_page StatusOK "user_detail.html" (versioned record page <| pg_Data := data |>)))).

Definition Users_Connection (r : HttpRequest) (path_id : string) : Web Response :=
  with_id path_id (fun id =>
  or_fail (UsersGet id) (fun record =>
  page ← NewPage b r (user_title "连接信息：" record);
  info ← service (ConnectionOf id);
  let shown info : Web Response := mret (render_page StatusOK "user_connection.html" (page <| pg_Data := ConnectionData record info |>)) in
  match info with
  | Ok info => shown (Some info)
  | Err err => if bool_decide (err = ErrConnectionPending) then shown None else Fail_ err
  end)).

(** ** Editing *)
Definition Users_EditForm (r : HttpRequest) (path_id : string) : Web Response :=
  with_id path_id (fun id =>
  or_fail (UsersGet id) (fun record =>
  if bool_decide (u_Lifecycle (ur_User record) = LifecycleDeleted) then
    mret (render_error StatusConflict "已删除的用户不能再编辑" "")
  else
    page ← NewPage b r (user_title "编辑用户：" record);
    mret (render_page StatusOK "user_edit.html"
      (versioned record page <| pg_Values := editValues record |> <| pg_Data := UserEditData record |>)))).

Definition renderEditForm (r : HttpRequest) (id : ID) (values : Fields) (cause : error) : Web Response :=
  let failure := Classify cause in
  if fails failure then Fail_ cause
  else
    or_fail (UsersGet id) (fun record =>
    page ← NewPage b r (user_title "编辑用户：" record);
    mret (render_page (fl_Status failure) "user_edit.html"
      (versioned record (with_failure failure (page <| pg_Values := values |>)) <| pg_Data := UserEditData record |>))).

Definition Users_Update (r : HttpRequest) (path_id : string) : Web Response :=
  with_id path_id (fun id =>
  with_versioned_form b r "user_update" id (fun form version =>
  let values := cf_Values form in
  match parseQuota values with
  | Err err => renderEditForm r id values err
  | Ok limit =>
      actor ← Actor b;
      answer ← service (UsersUpdate (mkUpdateInput id (field values "display_name") limit (Atoi (TrimSpace (field values "reset_day")))
        (bool_decide (field values "admin_enabled" = "on")) version (cf_RequestID form) actor (cf_Fingerprint form)));
      match answer with
      | Err err => renderEditForm r id values err
      | Ok _ => _ ← Flash b "success" "用户已更新；影响节点的变更会自动同步"; mret (Redirect (created_path id))
      end
  end)).

(** ** Confirmed actions *)
Definition confirmationPage (r : HttpRequest) (path_id template titlePrefix : string) : Web Response :=
  with_id path_id (fun id =>
  or_fail (UsersGet id) (fun record =>
  if bool_decide (u_Lifecycle (ur_User record) = LifecycleDeleted) then
    mret (render_error StatusConflict "已删除的用户不能再执行此操作" "")
  else
    page ← NewPage b r (user_title titlePrefix record);
    mret (render_page StatusOK template (versioned record page <| pg_Data := UserData record |>)))).
Definition Users_ResetForm (r : HttpRequest) (path_id : string) : Web Response :=
  with_id path_id (fun id =>
  or_fail (UsersGet id) (fun record =>
  page ← NewPage b r (user_title "重置本周期流量：" record);
  mret (render_page StatusOK "user_reset_traffic.html" (page <| pg_Data := UserData record |>)))).
Definition Users_RotateForm (r : HttpRequest) (path_id : string) : Web Response := confirmationPage r path_id "user_rotate.html" "轮换凭证：".
Definition Users_PortForm (r : HttpRequest) (path_id : string) : Web Response := confirmationPage r path_id "user_port.html" "更换端口：".
Definition Users_DeleteForm (r : HttpRequest) (path_id : string) : Web Response := confirmationPage r path_id "user_delete.html" "删除用户：".

(** A conflict is answered with the latest state of the user. *)
Definition conflictOrFail (r : HttpRequest) (id : ID) (cause : error) : Web Response :=
  let failure := Classify cause in
  if negb (fl_Status failure =? StatusConflict) then Fail_ cause
  else
    or_fail (UsersGet id) (fun record =>
    page ← NewPage b r (user_title "用户：" record);
    data ← detailData record;
    mret (render_page StatusConflict "user_detail.html"
      (versioned record page <| pg_ErrorSummary := fl_Message failure |> <| pg_Data := data |>))).
(** The end of an action: where it leads when it was accepted. *)
Definition acted {A} (c : ServiceCall (Res A)) (refused : error -> Web Response) (message path : string) : Web Response :=
  answer ← service c;
  match answer with
  | Ok _ => _ ← Flash b "success" message; mret (Redirect path)
  | Err err => refused err
  end.

Definition Users_Reset (r : HttpRequest) (path_id : string) : Web Response :=
  with_id path_id (fun id =>
  with_form b r "user_reset_traffic" id (fun form =>
  actor ← Actor b;
  acted (UsersReset (mkResetInput id (cf_RequestID form) actor (cf_Fingerprint form))) Fail_
    "本周期用量已清零；若配额是唯一阻断原因，访问将自动恢复" (created_path id))).

Definition setEnabled (r : HttpRequest) (path_id : string) (enabled : bool) : Web Response :=
  with_id path_id (fun id =>
  with_versioned_form b r (if enabled then "user_enable" else "user_disable") id (fun form version =>
  actor ← Actor b;
  acted (UsersSetEnabled (mkEnabledInput id enabled version (cf_RequestID form) actor (cf_Fingerprint form))) (conflictOrFail r id)
    (if enabled then "已请求启用；若用量仍符合配额，节点确认后即可建立新连接"
     else "已请求禁用；节点确认后拒绝新连接，已建立的连接可能继续") (created_path id))).
Definition Users_Enable (r : HttpRequest) (path_id : string) : Web Response := setEnabled r path_id true.
Definition Users_Disable (r : HttpRequest) (path_id : string) : Web Response := setEnabled r path_id false.

Definition renderPortForm (r : HttpRequest) (id : ID) (values : Fields) (cause : error) : Web Response :=
  or_fail (UsersGet id) (fun record =>
  let failure := Classify cause in
  if fails failure then Fail_ cause
  else
    page ← NewPage b r (user_title "更换端口：" record);
    mret (render_page (fl_Status failure) "user_port.html"
      (with_failure failure (versioned record page <| pg_Data := UserData record |> <| pg_Values := values |>)))).
Definition Users_ChangePort (r : HttpRequest) (path_id : string) : Web Response :=
  with_id path_id (fun id =>
  with_versioned_form b r "user_port" id (fun form version =>
  let values := cf_Values form in
  match ParseInt (TrimSpace (field values "port")) with
  | None => renderPortForm r id values (ValidationError "port" "port must be a number")
  | Some port =>
      actor ← Actor b;
      acted (UsersChangePort (mkPortInput id port version (cf_RequestID form) actor (cf_Fingerprint form)))
        (fun err => match err with
                    | ValidationError _ _ => renderPortForm r id values err
                    | _ => conflictOrFail r id err
                    end)
        "端口更换已开始；节点确认后请把新的连接信息重新交付给使用者" (created_path id)
  end)).

Definition Users_Rotate (r : HttpRequest) (path_id : string) : Web Response :=
  with_id path_id (fun id =>
  with_versioned_form b r "user_rotate" id (fun form version =>
  actor ← Actor b;
  acted (UsersRotate (mkLifecycleInput id version (cf_RequestID form) actor (cf_Fingerprint form))) (conflictOrFail r id)
    "凭证轮换已开始；节点确认新凭证后，连接信息页才会展示新密码，旧凭证随后失效" (created_path id))).
Definition Users_Delete (r : HttpRequest) (path_id : string) : Web Response :=
  with_id path_id (fun id =>
  with_versioned_form b r "user_delete" id (fun form version =>
  actor ← Actor b;
  acted (UsersDelete (mkLifecycleInput id version (cf_RequestID form) actor (cf_Fingerprint form))) (conflictOrFail r id)
    "用户已删除；节点确认移除后凭证销毁，历史用量与审计保留" "/users")).
End Users.

(** * The other pages *)

(** ** Inbound templates *)
Definition templateInput (form : CommandForm) (actor : ID) (expected : Revision) : TemplateInput :=
  let values := cf_Values form in
  mkTemplateInput (field values "name") (TrimSpace (field values "public_host")) (TrimSpace (field values "listen_address"))
    (Atoi (TrimSpace (field values "port_pool_start"))) (Atoi (TrimSpace (field values "port_pool_end")))
    (field values "method") (field values "network") (cf_RequestID form) expected actor (cf_Fingerprint form).
Definition templateValues (t : InboundTemplate) : Fields :=
  {[ "name" := t_Name t; "public_host" := t_PublicHost t; "listen_address" := t_ListenAddress t;
     "port_pool_start" := pretty (Start (t_Pool t)); "port_pool_end" := pretty (End (t_Pool t));
     "method" := t_Method t; "network" := t_Network t ]}.
Definition zero_template : InboundTemplate :=
  mkTemplate "" "" "" "" "" "" (mkPortPool 0 0) "" "" CompatibilityUnverified "" None 0 0 None zero_time zero_time.

Section Pages.
Context {Un : Unicode} {Sh : Sha256} (b : Base).

Definition Templates_List (r : HttpRequest) : Web Response :=
  or_fail (TemplatesList false) (fun records =>
  page ← NewPage b r "入站模板";
  mret (render_page StatusOK "templates_list.html" (page <| pg_Data := TemplateListData records |>))).

Definition Templates_NewForm (r : HttpRequest) : Web Response :=
  page ← NewPage b r "登记入站模板";
  mret (render_page StatusOK "template_form.html"
    (page <| pg_Values := {[ "method" := MethodAES256; "network" := NetworkTCPUDP ]} |> <| pg_Data := TemplateFormData false None |>)).

Definition renderTemplateForm (r : HttpRequest) (edit : option ID) (values : Fields) (cause : error) : Web Response :=
  let failure := Classify cause in
  if fails failure then Fail_ cause
  else
    page ← NewPage b r (match edit with Some _ => "编辑入站模板" | None => "登记入站模板" end);
    let page := with_failure failure (page <| pg_Values := values |>) in
    match edit with
    | None => mret (render_page (fl_Status failure) "template_form.html" (page <| pg_Data := TemplateFormData false None |>))
    | Some id =>
        record ← service (TemplatesGet id);
        mret (render_page (fl_Status failure) "template_form.html"
          (match record with
           | Ok record => page <| pg_Version := t_Revision record |> <| pg_Data := TemplateFormData true (Some record) |>
           | Err _ => page <| pg_Data := TemplateFormData true None |>
           end))
    end.

Definition template_path (id : ID) : string := "/templates/" +:+ id.
Definition Templates_Create (r : HttpRequest) : Web Response :=
  with_form b r "template_register" "" (fun form =>
  actor ← Actor b;
  answer ← service (TemplatesRegister (templateInput form actor 0));
  match answer with
  | Err err => renderTemplateForm r None (cf_Values form) err
  | Ok id => _ ← Flash b "success" "入站模板已保存，正在验证节点能力"; mret (Redirect (template_path id))
  end).

Definition Templates_Detail (r : HttpRequest) (path_id : string) : Web Response :=
  with_id path_id (fun id =>
  or_fail (TemplatesGet id) (fun record =>
  page ← NewPage b r ("入站模板：" +:+ t_Name record);
  usage ← service (TemplatesUsage id);
  suspect ← service (TemplatesSuspect id);
  mret (render_page StatusOK "template_detail.html"
    (page <| pg_Version := t_Revision record |>
          <| pg_Data := TemplateData record (match usage with Ok usage => Some usage | Err _ => None end)
                          (match suspect with Ok suspect => suspect | Err _ => false end) |>)))).

Definition Templates_EditForm (r : HttpRequest) (path_id : string) : Web Response :=
  with_id path_id (fun id =>
  or_fail (TemplatesGet id) (fun record =>
  page ← NewPage b r "编辑入站模板";
  mret (render_page StatusOK "template_form.html"
    (page <| pg_Version := t_Revision record |> <| pg_Values := templateValues record |> <| pg_Data := TemplateFormData true (Some record) |>)))).

Definition Templates_Update (r : HttpRequest) (path_id : string) : Web Response :=
  with_id path_id (fun id =>
  with_versioned_form b r "template_update" id (fun form version =>
  actor ← Actor b;
  acted b (TemplatesUpdate id (templateInput form actor version)) (renderTemplateForm r (Some id) (cf_Values form))
    "入站模板已更新" (template_path id))).

Definition Templates_Revalidate (r : HttpRequest) (path_id : string) : Web Response :=
  with_id path_id (fun id =>
  with_versioned_form b r "template_revalidate" id (fun form version =>
  actor ← Actor b;
  acted b (TemplatesRevalidate (mkRevalidateInput id version (cf_RequestID form) actor (cf_Fingerprint form)))
    (renderTemplateForm r (Some id) (templateValues zero_template)) "已重新排队验证入站模板" (template_path id))).

(** ** Settings *)
Definition settings_page (status : Z) (page : Page) (settings : PanelSettingsRecord) : Response :=
  render_page status "settings.html"
    (page <| pg_Version := ps_Revision settings |> <| pg_Data := SettingsData (ps_QuotaTimezone settings) (ps_Revision settings) |>).
Definition Settings_Show (r : HttpRequest) : Web Response :=
  or_fail SettingsGet (fun settings =>
  page ← NewPage b r "面板设置";
  mret (settings_page StatusOK (page <| pg_Values := {[ "quota_timezone" := ps_QuotaTimezone settings ]} |>) settings)).
Definition settings_refused (r : HttpRequest) (values : Fields) (err : error) : Web Response :=
  let failure := Classify err in
  if fl_Status failure =? StatusInternalServerError then Fail_ err
  else
    or_fail SettingsGet (fun settings =>
    page ← NewPage b r "面板设置";
    let page := page <| pg_Values := values |> <| pg_ErrorSummary := fl_Message failure |> in
    let page := if bool_decide (fl_Field failure = "") then page
                else page <| pg_FieldErrors := {[ fl_Field failure :=
                       fieldMessage (fl_Field failure) "时区必须是有效的 IANA 名称，例如 Asia/Shanghai" ]} |> in
    mret (settings_page (fl_Status failure) page settings)).
Definition Settings_Update (r : HttpRequest) : Web Response :=
  with_versioned_form b r "settings_update" "settings" (fun form version =>
  actor ← Actor b;
  acted b (SettingsUpdate (mkSettingsInput (field (cf_Values form) "quota_timezone") version (cf_RequestID form) actor (cf_Fingerprint form)))
    (settings_refused r (cf_Values form)) "配额时区已更新，将从下一个配额周期起生效" "/settings").

(** ** The dashboard and its fragments *)
Definition Dashboard_Show (r : HttpRequest) : Web Response :=
  answer ← service DashboardSummaryOf;
  match answer.2 with
  | Some err => Fail_ err
  | None =>
      page ← NewPage b r "仪表盘";
      mret (render_page StatusOK "dashboard.html" (page <| pg_Data := DashboardData answer.1 |>))
  end.
Definition fragment_page : Web Page :=
  location ← Location b; mret (empty_page <| pg_Authenticated := true |> <| pg_Zone := Some location |>).
Definition fragment_unavailable (message : string) : Response :=
  render_fragment StatusServiceUnavailable "fragment_unavailable.html" (empty_page <| pg_ErrorSummary := message |>).
Definition Fragment_Summary (r : HttpRequest) : Web Response :=
  answer ← service DashboardSummaryOf;
  match answer.2 with
  | Some _ => mret (fragment_unavailable "数据暂时不可用，页面显示的是最后一次确认的数据（陈旧）")
  | None =>
      page ← fragment_page;
      mret (render_fragment StatusOK "dashboard_summary.html" (page <| pg_Data := DashboardData answer.1 |>))
  end.
Definition Fragment_UsersTable (r : HttpRequest) : Web Response :=
  let params := URLQuery r in
  let filter := list_filter (Get params "q") (Get params "status") (Get params "deleted") in
  records ← service (UsersList filter);
  match records with
  | Err _ => mret (fragment_unavailable "用户列表暂时不可用，显示的是最后一次确认的数据（陈旧）")
  | Ok records =>
      answer ← service DashboardSummaryOf;
      let stale := bool_decide (answer.2 <> None) || ds_Stale answer.1 in
      page ← fragment_page;
      mret (render_fragment StatusOK "users_table.html"
        (page <| pg_Data := UserListData records (uf_Query filter) (uf_Status filter) (Z.of_nat (length records)) (uf_IncludeDeleted filter)
                              stale (ds_LastCollectionAt answer.1) |>))
  end.

(** ** The audit trail *)
Definition auditPageSize : Z := 50.
Definition audit_actions : list string := [
  ActionLogin; ActionLogout; ActionAdministratorInitialized; ActionPasswordReset; ActionUserCreated; ActionUserUpdated;
  ActionUserEnabled; ActionUserDisabled; ActionCredentialRotated; ActionUserDeleted; ActionQuotaExceeded; ActionTrafficReset;
  ActionCycleRestored; ActionSyncSucceeded; ActionSyncFailed; ActionPortChanged; ActionPortAssigned; ActionPortReleased;
  ActionInboundCreated; ActionInboundRemoved; ActionTemplateRegistered; ActionTemplateUpdated; ActionTemplateValidated;
  ActionSettingsUpdated; ActionReconcileRemovedUnknown].
Definition ValidAuditAction (value : string) : bool :=
  existsb (fun option => bool_decide (option = value)) audit_actions || bool_decide (value = "").
Definition ValidAuditResult (value : string) : bool :=
  existsb (fun option => bool_decide (option = value)) (audit_result_text <$> [AuditAccepted; AuditSucceeded; AuditFailed; AuditSuperseded]) ||
  bool_decide (value = "").

Definition parseAuditCursor (raw : string) : option AuditCursor :=
  '(instant, id) ← cut_at ":" raw;
  at_ ← ParseInt instant;
  if Valid id then Some (mkAuditCursor (fromMillis at_) id) else None.
Definition cursor_text (cursor : AuditCursor) : string := pretty (millis (ac_OccurredAt cursor)) +:+ ":" +:+ ac_ID cursor.

Definition audit_filter (params : Values) : AuditFilter :=
  let keep (valid : string -> bool) value := if valid value then value else "" in
  mkAuditFilter (keep Valid (Get params "user")) (keep ValidAuditAction (Get params "action")) (keep ValidAuditResult (Get params "result"))
    (parseAuditCursor (Get params "cursor")) auditPageSize.
(** The values of the next page: the filter of this one and its cursor. *)
Definition next_values (filter : AuditFilter) (next : AuditCursor) : Values :=
  let set_if key value v := if bool_decide (value = "") then v else set_value key value v in
  set_value "cursor" (cursor_text next)
    (set_if "result" (af_Result filter) (set_if "action" (af_Action filter) (set_if "user" (af_TargetID filter) ∅))).
Definition next_link (filter : AuditFilter) (next : option AuditCursor) : string :=
  match next with Some next => "/audit?" +:+ Encode (next_values filter next) | None => "" end.

Definition Audit_List (r : HttpRequest) : Web Response :=
  let filter := audit_filter (URLQuery r) in
  or_fail (AuditList filter) (fun '(events, next) =>
  or_fail (UsersList (mkFilter "" "" true)) (fun users =>
  page ← NewPage b r "审计记录";
  mret (render_page StatusOK "audit.html" (page <| pg_Data := AuditData events users filter (next_link filter next) |>)))).
End Pages.
