(* ===== verification/Views.v ===== *)
(** * What the templates are given: internal/web/views

    The views of users, templates, quotas, the dashboard and the audit trail,
    with the texts of states, dates and sizes. Sizes go through 64-bit floats:
    a non-negative one is an integer over a power of two, and each operation
    rounds the integer to 53 bits. *)

From Stdlib Require Import ZArith Lia.
From S2P Require Import Prelude GoTypes Ports Identity Text Inbound Tokens User Sync Quota Traffic Template Cycle Records Database StoreCore StoreListings PanelServices Web WebPages.

(** ** Labels (status.go, dashboard.go, audit.go) *)
Definition StateLabel (state : DisplayStateT) : string :=
  match state with
  | DisplayDeleted => "已删除" | DisplayDisabling => "手动禁用（移除待同步）" | DisplayDisabled => "手动禁用"
  | DisplayQuotaDisabling => "配额超限（移除待同步）" | DisplayQuotaExceeded => "配额超限"
  | DisplayEnabling => "启用中（待同步）" | DisplayActive => "已启用"
  end.
Definition CompatibilityLabel (state : CompatibilityState) : string :=
  if bool_decide (state = CompatibilityCompatible) then "兼容"
  else if bool_decide (state = CompatibilityIncompatible) then "不兼容"
  else if bool_decide (state = CompatibilityUnreachable) then "不可达"
  else "待验证".
Definition compatibilityReasons : list (string * string) := [
  ("unsupported Shadowsocks 2022 method", "节点不支持所选的 Shadowsocks 2022 加密方式");
  ("node does not satisfy the Shadowsocks 2022 multi-user contract", "节点不支持 Shadowsocks 2022 多用户身份，无法为每个用户下发独立密钥");
  ("node created the probe inbound but could not remove it",
   "节点能创建入站但无法移除：停用、删除与配额封禁都将无法生效，请检查 Xray 的 HandlerService 权限");
  ("template validation failed", "入站模板校验失败，请稍后重试或检查节点状态")].
Definition probePrefix : string := "node could not create a probe inbound: ".
Definition CompatibilityReasonSentence (reason : string) : string :=
  if bool_decide (reason = "") then ""
  else match lookup_text compatibilityReasons reason with
       | Some translated => translated
       | None => if HasPrefix reason probePrefix then "节点无法创建探针入站：" +:+ string_drop (String.length probePrefix) reason else reason
       end.
Definition HealthLabel (state : string) : string :=
  if bool_decide (state = "healthy") then "健康"
  else if bool_decide (state = "unreachable") then "不可达"
  else if bool_decide (state = "incompatible") then "不兼容"
  else "未知".
Definition one_of (kind : string) (kinds : list ErrorKind) : bool := existsb (fun k => bool_decide (kind_string k = kind)) kinds.
Definition ErrorSentence (kind : string) : string :=
  if bool_decide (kind = "") then ""
  else if one_of kind [ErrorInstanceUnavailable; ErrorDeadlineExceeded] then "节点暂时不可达，系统会自动重试"
  else if one_of kind [ErrorIncompatibleProfile; ErrorUnsupportedProtocol; ErrorProfileNotFound; ErrorVersionMismatch]
       then "入站模板与节点不兼容，需要运维检查 Xray 配置"
  else if one_of kind [ErrorUserAlreadyExists; ErrorUserNotFound] then "节点状态与面板不一致，系统正在自动修复"
  else "节点拒绝了本次操作，已记录审计".
Definition EventSentence (eventType : ContinuityType) : string :=
  match eventType with
  | EventNodeRestart => "节点已重启，已从重启后的计数重新开始计量"
  | EventCounterDecrease => "节点计数异常回落，已建立新基线，期间流量可能未计入"
  | EventMissing => "节点暂时未返回该用户的流量计数"
  | EventReappeared => "计数已恢复"
  | EventBoundaryGap => "采集间隔超过预期，跨边界流量已归入本次采集完成时的周期"
  | EventOverflow => "计数值超出可表示范围，本次样本已忽略"
  | EventBaseline => "已建立首次计量基线"
  end.
Definition ReasonLabel (reason : SyncReason) : string :=
  match reason with
  | SyncCreate => "创建" | SyncEnable => "启用" | SyncDisable => "禁用" | SyncQuotaBlock => "配额封禁" | SyncQuotaRestore => "配额恢复"
  | SyncRotate => "凭证轮换" | SyncDelete => "删除" | SyncPortChange => "更换端口" | SyncReconcile => "协调修复"
  end.
Definition SyncStateLabel (state : SyncState) : string :=
  match state with
  | SyncPending => "待执行" | SyncLeased => "执行中" | SyncRetryWait => "等待重试" | SyncSucceeded => "已确认"
  | SyncSuperseded => "已被更新意图取代" | SyncPermanentFailed => "永久失败"
  end.
Definition ActorLabel (actor : ActorType) : string :=
  match actor with ActorAdministrator => "管理员" | ActorLocalCLI => "本机命令行" | ActorSystem => "系统" end.
Definition auditActionLabels : list (string * string) := zip audit_actions [
  "登录"; "登出"; "管理员初始化"; "密码重置"; "创建用户"; "修改用户"; "启用用户"; "禁用用户"; "轮换凭证"; "删除用户"; "配额超限";
  "手动重置流量"; "周期恢复"; "同步确认"; "同步失败"; "更换端口"; "分配端口"; "释放端口"; "创建入站"; "移除入站"; "登记入站模板";
  "修改入站模板"; "验证入站模板"; "修改设置"; "协调移除未知身份"].
Definition AuditActionLabel (action : string) : string := default action (lookup_text auditActionLabels action).
Definition AuditResultLabel (result : AuditResult) : string :=
  match result with AuditAccepted => "已接受" | AuditSucceeded => "成功" | AuditFailed => "失败" | AuditSuperseded => "已取代" end.

(** ** Sizes and times (format.go) *)

(** The nearest float of a non-negative integer, ties to even. *)
Definition round53 (m : Z) : Z :=
  let s := Z.log2 m - 52 in
  if s <=? 0 then m
  else
    let q := Z.shiftr m s in
    let r := m - Z.shiftl q s in
    let half := Z.shiftl 1 (s - 1) in
    Z.shiftl (if (half <? r) || ((half =? r) && Z.odd q) then q + 1 else q) s.
(** [roundHalfUp(float64(value)/2^k)], in hundredths. *)
Definition roundHalfUp (value k : Z) : Z :=
  Z.shiftr (round53 (round53 (round53 value * 100) + Z.shiftl 1 (k - 1))) k.
Definition hundredths (n : Z) : string := pretty (n / 100) +:+ "." +:+ pad 2 (pretty (n mod 100)).
Definition FormatBytes (value : Z) : string :=
  let value := Z.max 0 value in
  if Z.shiftl 1 40 <=? value then hundredths (roundHalfUp value 40) +:+ " TiB"
  else if Z.shiftl 1 30 <=? value then hundredths (roundHalfUp value 30) +:+ " GiB"
  else if Z.shiftl 1 20 <=? value then hundredths (roundHalfUp value 20) +:+ " MiB"
  else if 1024 <=? value then pretty ((2 * value + 1024) / 2048) +:+ " KiB"
  else pretty value +:+ " B".

Definition FormatTime (value : option Time) (location : option Cycle.Location) : string :=
  match value with
  | Some t =>
      if IsZero t then ""
      else
        let l := or_utc location in
        let '(year, month, day) := local_date l t in
        let second := local_sec l t mod 86400 in
        pad 4 (pretty year) +:+ "-" +:+ pad 2 (pretty month) +:+ "-" +:+ pad 2 (pretty day) +:+ " " +:+
        pad 2 (pretty (second / 3600)) +:+ ":" +:+ pad 2 (pretty (second / 60 mod 60)) +:+ ":" +:+ pad 2 (pretty (second mod 60))
  | None => ""
  end.
Definition FormatTimeValue (value : Time) (location : option Cycle.Location) : string := FormatTime (Some value) location.

(** ** Quotas and users (user.go) *)
Record QuotaView := mkQuotaView {
  qv_Unlimited : bool;
  qv_LimitBytes : Z;
  qv_LimitText : string;
  qv_UplinkText : string;
  qv_DownlinkText : string;
  qv_UsedBytes : Z;
  qv_UsedText : string;
  qv_RemainingText : string;
  qv_OverageText : string;
  qv_Percent : Z;
  qv_ResetDay : Z;
  qv_CycleStart : string;
  qv_CycleEnd : string;
  qv_Timezone : string;
  qv_GrossText : string }.
Definition NewQuotaView (policy : QuotaPolicyRecord) (cycle : QuotaCycleRecord) (location : option Cycle.Location) : QuotaView :=
  let used := add64 (qc_AccountedUplinkBytes cycle) (qc_AccountedDownlinkBytes cycle) in
  let view unlimited limit limitText remainingText overageText percent :=
    mkQuotaView unlimited limit limitText (FormatBytes (qc_AccountedUplinkBytes cycle)) (FormatBytes (qc_AccountedDownlinkBytes cycle))
      used (FormatBytes used) remainingText overageText percent (qp_ResetDay policy)
      (FormatTimeValue (qc_StartsAt cycle) location) (FormatTimeValue (qc_EndsAt cycle) location) (qc_Timezone cycle)
      (FormatBytes (add64 (qc_GrossUplinkBytes cycle) (qc_GrossDownlinkBytes cycle))) in
  match qp_LimitBytes policy with
  | None => view true 0 "无限制" "无限制" "" 0
  | Some limit =>
      let remaining := add64 limit (- used) in
      view false limit (FormatBytes limit) (FormatBytes (Z.max 0 remaining))
        (if remaining <? 0 then FormatBytes (- remaining) else "") (if 0 <? limit then Z.quot (mul64 used 100) limit else 0)
  end.

Record UserView := mkUserView {
  uv_ID : string;
  uv_DisplayName : string;
  uv_TemplateID : string;
  uv_TemplateName : string;
  uv_TemplateCompatible : bool;
  uv_Port : Z;
  uv_InboundTag : string;
  uv_Listening : bool;
  uv_Rebuilding : bool;
  uv_PortPoolStart : Z;
  uv_PortPoolEnd : Z;
  uv_TemplateStateLabel : string;
  uv_State : DisplayStateT;
  uv_StateLabel : string;
  uv_PendingSync : bool;
  uv_SyncError : string;
  uv_SyncErrorKind : string;
  uv_LastSyncAt : string;
  uv_Deleted : bool;
  uv_AdminEnabled : bool;
  uv_QuotaExceeded : bool;
  uv_Revision : Z;
  uv_CreatedAt : string;
  uv_Quota : QuotaView }.
Definition NewUserView (record : UserRecord) (location : option Cycle.Location) : UserView :=
  let user := ur_User record in
  let allocation := ur_Allocation record in
  let template := ur_Template record in
  let inbound := ir_Inbound (ur_Inbound record) in
  let state := DisplayState allocation user in
  let listening := bool_decide (in_ObservedPresent inbound = Some true) in
  let live := negb (bool_decide (u_Lifecycle user = LifecycleDeleted)) in
  mkUserView (u_ID user) (u_DisplayName user) (t_ID template) (t_Name template)
    (bool_decide (t_Compatibility template = CompatibilityCompatible)) (in_Port inbound) (in_InboundTag inbound) listening
    (live && DesiredPresent allocation user && negb listening) (Start (t_Pool template)) (End (t_Pool template))
    (CompatibilityLabel (t_Compatibility template)) state (StateLabel state) (live && PendingSync allocation)
    (ErrorSentence (a_LastSyncErrorCode allocation)) (a_LastSyncErrorCode allocation) (FormatTime (a_LastSyncAt allocation) location)
    (negb live) (a_AdminEnabled allocation) (bool_decide (a_QuotaState allocation = QuotaExceeded)) (u_Revision user)
    (FormatTimeValue (u_CreatedAt user) location) (NewQuotaView (ur_Policy record) (ur_Cycle record) location).
Definition NewUserViews (records : list UserRecord) (location : option Cycle.Location) : list UserView :=
  (fun record => NewUserView record location) <$> records.

(** ** Templates (template.go) *)
Record TemplateView := mkTemplateView {
  tv_ID : string;
  tv_Name : string;
  tv_PublicHost : string;
  tv_ListenAddress : string;
  tv_PortPoolStart : Z;
  tv_PortPoolEnd : Z;
  tv_PortPoolCapacity : Z;
  tv_Method : string;
  tv_Network : string;
  tv_Compatibility : string;
  tv_CompatibilityLabel : string;
  tv_Compatible : bool;
  tv_Reason : string;
  tv_LastValidatedAt : string;
  tv_Revision : Z;
  tv_Archived : bool }.
Definition NewTemplateView (t : InboundTemplate) (location : option Cycle.Location) : TemplateView :=
  mkTemplateView (t_ID t) (t_Name t) (t_PublicHost t) (t_ListenAddress t) (Start (t_Pool t)) (End (t_Pool t)) (Capacity (t_Pool t))
    (t_Method t) (t_Network t) (t_Compatibility t) (CompatibilityLabel (t_Compatibility t))
    (bool_decide (t_Compatibility t = CompatibilityCompatible)) (CompatibilityReasonSentence (t_CompatibilityReason t))
    (FormatTime (t_LastValidatedAt t) location) (t_Revision t) (bool_decide (t_ArchivedAt t <> None)).
Definition NewTemplateViews (records : list InboundTemplate) (location : option Cycle.Location) : list TemplateView :=
  (fun t => NewTemplateView t location) <$> records.

(** ** The dashboard (dashboard.go) *)
Record FailedOperationView := mkFailedView {
  fv_UserID : string;
  fv_DisplayName : string;
  fv_ReasonLabel : string;
  fv_StateLabel : string;
  fv_ErrorText : string;
  fv_AttemptCount : Z;
  fv_NextAttempt : string }.
Definition NewFailedOperationViews (records : list FailedOperationRecord) (location : option Cycle.Location) : list FailedOperationView :=
  (fun r => mkFailedView (fo_UserID r) (fo_DisplayName r) (ReasonLabel (fo_Reason r)) (SyncStateLabel (fo_State r))
              (ErrorSentence (fo_ErrorCode r)) (fo_AttemptCount r) (FormatTimeValue (fo_NextAttemptAt r) location)) <$> records.
Record DailyRowView := mkDailyView { dv_LocalDate : string; dv_UplinkText : string; dv_DownlinkText : string; dv_TotalText : string }.
Definition NewDailyRows (records : list DailyAggregateRecord) : list DailyRowView :=
  (fun r => mkDailyView (dl_LocalDate r) (FormatBytes (dl_UplinkBytes r)) (FormatBytes (dl_DownlinkBytes r))
              (FormatBytes (add64 (dl_UplinkBytes r) (dl_DownlinkBytes r)))) <$> records.
Record EventRow := mkEventRow { ev_OccurredAt : string; ev_Type : ContinuityType; ev_Direction : string; ev_Sentence : string }.
Definition NewEventRows (records : list ContinuityEventListRecord) (location : option Cycle.Location) : list EventRow :=
  (fun r => mkEventRow (FormatTimeValue (el_OccurredAt r) location) (el_Type r) (el_Direction r) (EventSentence (el_Type r))) <$> records.
Record SyncRow := mkSyncRow {
  yr_Revision : Z;
  yr_ReasonLabel : string;
  yr_Phase : string;
  yr_StateLabel : string;
  yr_Attempts : Z;
  yr_NextAttempt : string;
  yr_ErrorText : string;
  yr_CompletedAt : string }.
Definition NewSyncRows (operations : list SynchronizationOperation) (location : option Cycle.Location) : list SyncRow :=
  (fun op => mkSyncRow (op_DesiredRevision op) (ReasonLabel (op_Reason op)) (phase_string (op_Phase op)) (SyncStateLabel (op_State op))
     (op_AttemptCount op)
     (if bool_decide (op_State op = SyncRetryWait \/ op_State op = SyncPending) then FormatTimeValue (op_NextAttemptAt op) location else "")
     (ErrorSentence (op_LastErrorCode op)) (FormatTime (op_CompletedAt op) location)) <$> operations.

Record DashboardView := mkDashboardView {
  hv_HealthState : string;
  hv_HealthLabel : string;
  hv_LastSuccessAt : string;
  hv_LastErrorText : string;
  hv_LastCollectionAt : string;
  hv_Stale : bool;
  hv_GeneratedAt : string;
  hv_TotalUsers : Z;
  hv_Active : Z;
  hv_Disabled : Z;
  hv_QuotaExceeded : Z;
  hv_Pending : Z;
  hv_StuckSync : Z;
  hv_Deleted : Z;
  hv_AccountedText : string;
  hv_PortsCapacity : Z;
  hv_PortsAssigned : Z;
  hv_PortsRemaining : Z;
  hv_PortsOutside : Z;
  hv_PortsRebuilding : Z;
  hv_Failed : list FailedOperationView }.
(** The instance of a summary that was not read is the zero record. *)
Definition zero_instance : ManagedInstanceRecord := mkInstance "" "" "" "" "" None 0 0 None "" "" zero_time.
Definition NewDashboardView (summary : DashboardSummary) (location : option Cycle.Location) : DashboardView :=
  let instance := default zero_instance (ds_Instance summary) in
  mkDashboardView (mi_HealthState instance) (HealthLabel (mi_HealthState instance)) (FormatTime (mi_LastSuccessAt instance) location)
    (ErrorSentence (mi_LastErrorCode instance)) (FormatTime (ds_LastCollectionAt summary) location) (ds_Stale summary)
    (FormatTimeValue (ds_GeneratedAt summary) location) (ds_TotalUsers summary) (ds_Active summary) (ds_Disabled summary)
    (ds_QuotaExceeded summary) (ds_Pending summary) (ds_StuckSync summary) (ds_Deleted summary) (FormatBytes (ds_AccountedBytes summary))
    (ds_PortsCapacity summary) (ds_PortsAssigned summary) (ds_PortsRemaining summary) (ds_PortsOutside summary)
    (ds_PortsRebuilding summary) (NewFailedOperationViews (ds_Failed summary) location).

(** ** The audit trail (audit.go) *)
Record AuditRow := mkAuditRow {
  ar_OccurredAt : string;
  ar_ActorLabel : string;
  ar_TargetLabel : string;
  ar_TargetLink : string;
  ar_ActionLabel : string;
  ar_ResultLabel : string;
  ar_Summary : string }.
Definition audit_target (names : gmap ID string) (event : AuditEvent) : string * string :=
  let id := au_TargetID event in
  if bool_decide (au_TargetType event = "user") then ("用户 " +:+ default id (names !! id), "/users/" +:+ id)
  else if bool_decide (au_TargetType event = "template") then ("入站模板", "/templates/" +:+ id)
  else if bool_decide (au_TargetType event = "settings") then ("面板设置", "/settings")
  else ("管理员", "").
Definition NewAuditRows (events : list AuditEvent) (users : list UserRecord) (location : option Cycle.Location) : list AuditRow :=
  let names : gmap ID string := foldl (fun names user => <[u_ID (ur_User user) := u_DisplayName (ur_User user)]> names) ∅ users in
  (fun event => let '(label, link) := audit_target names event in
     mkAuditRow (FormatTimeValue (au_OccurredAt event) location) (ActorLabel (au_ActorType event)) label link
       (AuditActionLabel (au_Action event)) (AuditResultLabel (au_Result event)) (au_SafeSummary event)) <$> events.

(** ** Exactness *)
Lemma round53_small m : 0 <= m < 2 ^ 53 -> round53 m = m.
Proof.
  intros Hm. unfold round53. destruct (decide (m = 0)) as [->|Hne]; [done|].
  assert (Z.log2 m < 53) as Hl by (apply Z.log2_lt_pow2; lia). rewrite (proj2 (Z.leb_le _ _)) by lia. done.
Qed.
(** Up to 64 TiB a size is shown rounded half up to hundredths, as if there
    were no floats. *)
Lemma roundHalfUp_exact value k : 0 <= value <= 2 ^ 46 -> 1 <= k <= 40 ->
  roundHalfUp value k = (200 * value + 2 ^ k) / (2 * 2 ^ k).
Proof.
  intros Hv Hk. unfold roundHalfUp. rewrite Z.shiftl_1_l.
  assert (0 < 2 ^ (k - 1) <= 2 ^ 39) as Hh by (split; [apply Z.pow_pos_nonneg; lia|apply Z.pow_le_mono_r; lia]).
  assert (2 ^ k = 2 * 2 ^ (k - 1)) as Hp by (rewrite <- Z.pow_succ_r by lia; f_equal; lia).
  change (2 ^ 46) with 70368744177664 in Hv. change (2 ^ 39) with 549755813888 in Hh.
  rewrite (round53_small value), (round53_small (value * 100)), round53_small by (change (2 ^ 53) with 9007199254740992; lia).
  rewrite Z.shiftr_div_pow2 by lia. rewrite Hp.
  replace (200 * value + 2 * 2 ^ (k - 1)) with (2 * (value * 100 + 2 ^ (k - 1))) by lia.
  by rewrite Z.div_mul_cancel_l by lia.
Qed.

(** What the quota view shows of a limit: exact as long as a hundred times the
    use fits in 64 bits. *)
Lemma NewQuotaView_exact policy cycle location limit : qp_LimitBytes policy = Some limit -> 0 < limit <= 2 ^ 62 ->
  0 <= qc_AccountedUplinkBytes cycle -> 0 <= qc_AccountedDownlinkBytes cycle ->
  let used := qc_AccountedUplinkBytes cycle + qc_AccountedDownlinkBytes cycle in
  100 * used <= MaxInt64 ->
  let view := NewQuotaView policy cycle location in
  qv_UsedBytes view = used /\ qv_Percent view = 100 * used / limit /\ qv_RemainingText view = FormatBytes (Z.max 0 (limit - used)) /\
  qv_OverageText view = (if limit <? used then FormatBytes (used - limit) else "").
Proof.
  intros Hl Hlim Hu Hd used Hmax. cbv zeta. rewrite MaxInt64_eq in Hmax. unfold NewQuotaView. rewrite Hl.
  assert (add64 (qc_AccountedUplinkBytes cycle) (qc_AccountedDownlinkBytes cycle) = used) as -> by (apply wrap64_id; unfold in_int64; rewrite MinInt64_eq, MaxInt64_eq; lia).
  cbn [qv_UsedBytes qv_Percent qv_RemainingText qv_OverageText].
  assert (add64 limit (- used) = limit - used) as -> by (apply wrap64_id; unfold in_int64; rewrite MinInt64_eq, MaxInt64_eq; lia).
  split; [done|]. split; [|split; [done|]].
  - rewrite (proj2 (Z.ltb_lt 0 limit)) by lia. unfold mul64. rewrite wrap64_id by (unfold in_int64; rewrite MinInt64_eq, MaxInt64_eq; lia).
    rewrite Z.mul_comm. apply Z.quot_div_nonneg; lia.
  - destruct (limit <? used) eqn:E; to_prop.
    + rewrite (proj2 (Z.ltb_lt (limit - used) 0)) by lia. f_equal. lia.
    + by rewrite (proj2 (Z.ltb_ge (limit - used) 0)) by lia.
Qed.
(** Beyond, the product wraps: a sixteenth of the limit is shown as -1 percent. *)
Example percent_wraps : qv_Percent (NewQuotaView (mkPolicy "" (Some (2 ^ 62)) 1 0 0 0)
  (mkCycle "" "" 0 0 "UTC" 1 CycleOpen 0 0 (2 ^ 57) (2 ^ 57) 0 0 None) None) = -1.
Proof. vm_compute. reflexivity. Qed.
