(* ===== verification/WebServer.v ===== *)
(** * Sessions, login and routes: internal/web/handlers/auth.go, middleware/ and routes.go

    The request passes the session middleware, the CSRF checks and, but for the
    public routes, the check of the session, before its handler runs. The CSRF
    checks (gorilla/csrf and net/http's CrossOriginProtection) are a parameter.
    Requests are those with a clean path, which the mux does not redirect. *)

From Stdlib Require Import ZArith Lia Ascii.
From S2P Require Import Prelude GoTypes Identity Ports Text Inbound Tokens User Sync Quota Traffic Template Net Cycle Records Database Secrets Url Password StoreCore StoreSync StoreQuota StoreUsers StoreTraffic StoreDrift StoreTemplates StoreListings UserService AuthService Form Adapter Calls TemplateService PanelServices ConnectionService Web WebPages.

(** A response with what becomes of the session ([sessionCommitState]). *)
Record Reply := mkReply { rp_Response : Response; rp_Committed : bool; rp_Abandoned : bool }.
Definition replies (response : Response) : Reply := mkReply response false false.
Definition reply (p : Web Response) : Web Reply := response ← p; mret (replies response).

(** ** Login and logout (handlers/auth.go) *)
Definition login_page (status : Z) (headers : list (string * string)) (id summary : string) (values : Fields) : Response :=
  mkResponse status headers (Html "login.html"
    (empty_page <| pg_Title := "登录" |> <| pg_RequestID := id |> <| pg_ErrorSummary := summary |> <| pg_Values := values |>)).
Definition LoginPage (r : HttpRequest) : Web Reply :=
  administrator ← does (SessionGetString SessionAdministratorID);
  if bool_decide (administrator = "") then
    id ← NewRequestID; mret (replies (login_page StatusOK [] id "" ∅))
  else mret (replies (Redirect "/")).

Definition not_established : string := "login failed: session could not be established".
(** The session is abandoned and the failure recorded. *)
Definition loginNotEstablished (summary : string) : Web Reply :=
  _ ← does (LoginFailed summary);
  id ← NewRequestID;
  mret (mkReply (render_error StatusInternalServerError "登录暂时无法完成" id) false true).

Definition source_of (r : HttpRequest) : string :=
  match SplitHostPort (rq_RemoteAddr r) with Some (host, _) => host | None => rq_RemoteAddr r end.
Definition Auth_Login (r : HttpRequest) : Web Reply :=
  match ParseForm r with
  | None => mret (replies (render_error StatusBadRequest "表单格式无效" ""))
  | Some form =>
      let username := Get form "username" in
      let values : Fields := {[ "username" := username ]} in
      answer ← does (Authenticated_ username (Get form "password") (source_of r));
      match answer with
      | Err err =>
          id ← NewRequestID;
          mret (replies (match err with
                         | RateLimitError retryAfter =>
                             login_page StatusTooManyRequests [("Retry-After", pretty (Z.max 1 (Z.quot retryAfter Second)))] id
                               "尝试次数过多，请稍后重试" values
                         | _ => if bool_decide (err = ErrInvalidCredentials) then
                                  login_page StatusUnauthorized [] id "用户名或密码错误" values
                                else render_error StatusInternalServerError "登录暂时无法完成" id
                         end))
      | Ok admin =>
          renewed ← does SessionRenewToken;
          match renewed with
          | Some _ => loginNotEstablished not_established
          | None =>
              _ ← does (SessionPut SessionAdministratorID (inl (ad_ID admin)));
              _ ← does (SessionPut SessionPasswordVersion (inr (ad_PasswordVersion admin)));
              established ← does (Establish admin);
              match established with
              | Err _ => _ ← does SessionDestroy; loginNotEstablished not_established
              | Ok (token, expiry) =>
                  _ ← does (WriteSessionCookie token expiry);
                  mret (mkReply (Redirect "/") true false)
              end
          end
      end
  end.

Definition Auth_Logout (r : HttpRequest) : Web Reply :=
  id ← does (SessionGetString SessionAdministratorID);
  version ← does (SessionGetInt64 SessionPasswordVersion);
  revoked ← does (Revoke id version);
  match revoked with
  | Some _ =>
      _ ← does (LogoutFailedOf id version "logout failed: session could not be revoked");
      error_id ← NewRequestID;
      mret (replies (render_error StatusInternalServerError "退出暂时无法完成" error_id))
  | None => mret (replies (Redirect "/login"))
  end.

(** ** The session middleware (middleware/session.go) *)
Definition RequireAuth (next : HttpRequest -> Web Reply) (r : HttpRequest) : Web Reply :=
  id ← does (SessionGetString SessionAdministratorID);
  version ← does (SessionGetInt64 SessionPasswordVersion);
  let refused := if HasPrefix (rq_Path r) "/fragments/" || rq_HX r
                 then mkResponse StatusForbidden [] (Plain "会话已失效，请重新登录") else Redirect "/login" in
  if Valid id && (0 <? version) then
    valid ← does (SessionValidOf id version);
    match valid with
    | Err _ => mret (replies (mkResponse StatusInternalServerError [] (Plain "请求暂时无法完成")))
    | Ok valid => if (valid : bool) then next r else mret (replies refused)
    end
  else mret (replies refused).

Definition expire_cookie : Web unit := does (WriteSessionCookie "" zero_time).
(** Before the first byte of the response. *)
Definition finish (reply : Reply) : Web unit :=
  if rp_Abandoned reply then expire_cookie
  else
    status ← does SessionStatus;
    match status with
    | Modified =>
        if rp_Committed reply then mret tt
        else
          committed ← does SessionCommit;
          match committed with
          | Err _ => mret tt
          | Ok (token, expiry) => does (WriteSessionCookie token expiry)
          end
    | Destroyed => expire_cookie
    | Unmodified => mret tt
    end.
Definition LoadAndSave (cookie : string) (next : HttpRequest -> Web Reply) (r : HttpRequest) : Web Response :=
  loaded ← does (SessionLoad (default "" (rq_Cookies r !! cookie)));
  match loaded with
  | Some _ => mret (mkResponse StatusInternalServerError [] (Plain "请求暂时无法完成"))
  | None => reply ← next r; _ ← finish reply; mret (rp_Response reply)
  end.

(** [SecurityHeaders] *)
Definition with_headers (headers : list (string * string)) (response : Response) : Response :=
  mkResponse (rs_Status response) (headers ++ rs_Headers response) (rs_Body response).
Definition security_headers (path : string) : list (string * string) :=
  [("Referrer-Policy", "same-origin"); ("X-Content-Type-Options", "nosniff");
   ("Content-Security-Policy", "default-src 'self'; object-src 'none'; base-uri 'none'; frame-ancestors 'none'; form-action 'self'")] ++
  (if bool_decide (path = "/healthz") || bool_decide (path = "/readyz") then [] else [("Cache-Control", "no-store")]).
Definition SecurityHeaders (next : HttpRequest -> Web Response) (r : HttpRequest) : Web Response :=
  response ← next r; mret (with_headers (security_headers (rq_Path r)) response).

(** ** Routes (routes.go) *)
Inductive Segment : Set := Lit (text : string) | Wild.
Definition Handler : Type := HttpRequest -> string -> Web Reply.
Record Route := mkRoute { rt_Method : string; rt_Pattern : list Segment; rt_Handler : Handler }.

Definition path_segments (path : string) : list string :=
  match path with
  | String "/"%char "" => []
  | String "/"%char rest => split_char "/" rest
  | _ => [path]
  end.
(** The value of the wildcard, "" when there is none. *)
Fixpoint match_pattern (pattern : list Segment) (segments : list string) : option string :=
  match pattern, segments with
  | [], [] => Some ""
  | Lit text :: pattern, segment :: segments => if bool_decide (text = segment) then match_pattern pattern segments else None
  | Wild :: pattern, segment :: segments =>
      if bool_decide (segment = "") then None
      else rest ← match_pattern pattern segments; Some segment
  | _, _ => None
  end.
Definition allows (method asked : string) : bool :=
  bool_decide (method = asked) || (bool_decide (method = "GET") && bool_decide (asked = "HEAD")).
Fixpoint find_route (routes : list Route) (method : string) (segments : list string) : option (Route * string) :=
  match routes with
  | [] => None
  | route :: routes =>
      match (if allows (rt_Method route) method then match_pattern (rt_Pattern route) segments else None) with
      | Some value => Some (route, value)
      | None => find_route routes method segments
      end
  end.
Definition matches_path (segments : list string) (route : Route) : bool := bool_decide (match_pattern (rt_Pattern route) segments <> None).
Definition ServeMux (routes : list Route) (r : HttpRequest) : Web Reply :=
  match find_route routes (rq_Method r) (path_segments (rq_Path r)) with
  | Some (route, value) => rt_Handler route r value
  | None =>
      mret (replies (if existsb (matches_path (path_segments (rq_Path r))) routes
                     then mkResponse 405 [] (Plain "Method Not Allowed") else mkResponse StatusNotFound [] (Plain "404 page not found")))
  end.

(** Which services are there, and whether the server is ready. *)
Record RouteDependencies := mkDependencies {
  rd_Dashboard : bool; rd_Templates : bool; rd_Users : bool; rd_Audit : bool; rd_Settings : bool;
  rd_Secure : bool; rd_Ready : bool }.

Section Routes.
Context {Un : Unicode} {Sh : Sha256}.
(** [static]: the files of the manifest; [passes_csrf]: the CSRF checks. *)
Context (static : HttpRequest -> Response) (passes_csrf : HttpRequest -> bool) (deps : RouteDependencies).
Let base : Base := mkBase true (rd_Settings deps).

Definition on_page (f : HttpRequest -> Web Response) : Handler := fun r _ => reply (f r).
Definition on_item (f : HttpRequest -> string -> Web Response) : Handler := fun r id => reply (f r id).
Definition empty_dashboard (r : HttpRequest) : Web Response :=
  id ← NewRequestID;
  mret (render_page StatusOK "dashboard.html" (empty_page <| pg_Title := "仪表盘" |> <| pg_Section := "dashboard" |>
    <| pg_Authenticated := true |> <| pg_RequestID := id |> <| pg_Zone := Some UTC |>)).

Definition dashboard_routes : list Route :=
  if rd_Dashboard deps then [
    mkRoute "GET" [] (on_page (Dashboard_Show base));
    mkRoute "GET" [Lit "fragments"; Lit "dashboard-summary"] (on_page (Fragment_Summary base));
    mkRoute "GET" [Lit "fragments"; Lit "users-table"] (on_page (Fragment_UsersTable base))]
  else [mkRoute "GET" [] (on_page empty_dashboard)].
Definition template_routes : list Route :=
  if rd_Templates deps then [
    mkRoute "GET" [Lit "templates"] (on_page (Templates_List base));
    mkRoute "GET" [Lit "templates"; Lit "new"] (on_page (Templates_NewForm base));
    mkRoute "POST" [Lit "templates"] (on_page (Templates_Create base));
    mkRoute "GET" [Lit "templates"; Wild] (on_item (Templates_Detail base));
    mkRoute "GET" [Lit "templates"; Wild; Lit "edit"] (on_item (Templates_EditForm base));
    mkRoute "POST" [Lit "templates"; Wild] (on_item (Templates_Update base));
    mkRoute "POST" [Lit "templates"; Wild; Lit "revalidate"] (on_item (Templates_Revalidate base))]
  else [].
Definition user_routes : list Route :=
  if rd_Users deps then [
    mkRoute "GET" [Lit "users"] (on_page (Users_List base));
    mkRoute "GET" [Lit "users"; Lit "new"] (on_page (Users_NewForm base));
    mkRoute "POST" [Lit "users"] (on_page (Users_Create base));
    mkRoute "GET" [Lit "users"; Wild] (on_item (Users_Detail base (rd_Dashboard deps)));
    mkRoute "GET" [Lit "users"; Wild; Lit "connection"] (on_item (Users_Connection base));
    mkRoute "GET" [Lit "users"; Wild; Lit "edit"] (on_item (Users_EditForm base));
    mkRoute "POST" [Lit "users"; Wild] (on_item (Users_Update base));
    mkRoute "GET" [Lit "users"; Wild; Lit "reset-traffic"] (on_item (Users_ResetForm base));
    mkRoute "POST" [Lit "users"; Wild; Lit "reset-traffic"] (on_item (Users_Reset base));
    mkRoute "POST" [Lit "users"; Wild; Lit "enable"] (on_item (Users_Enable base (rd_Dashboard deps)));
    mkRoute "POST" [Lit "users"; Wild; Lit "disable"] (on_item (Users_Disable base (rd_Dashboard deps)));
    mkRoute "GET" [Lit "users"; Wild; Lit "rotate"] (on_item (Users_RotateForm base));
    mkRoute "POST" [Lit "users"; Wild; Lit "rotate"] (on_item (Users_Rotate base (rd_Dashboard deps)));
    mkRoute "GET" [Lit "users"; Wild; Lit "port"] (on_item (Users_PortForm base));
    mkRoute "POST" [Lit "users"; Wild; Lit "port"] (on_item (Users_ChangePort base (rd_Dashboard deps)));
    mkRoute "GET" [Lit "users"; Wild; Lit "delete"] (on_item (Users_DeleteForm base));
    mkRoute "POST" [Lit "users"; Wild; Lit "delete"] (on_item (Users_Delete base (rd_Dashboard deps)))]
  else [].
Definition other_routes : list Route :=
  (if rd_Audit deps then [mkRoute "GET" [Lit "audit"] (on_page (Audit_List base))] else []) ++
  (if rd_Settings deps then [mkRoute "GET" [Lit "settings"] (on_page (Settings_Show base));
                             mkRoute "POST" [Lit "settings"] (on_page (Settings_Update base))] else []).
Definition protected_routes : list Route :=
  dashboard_routes ++ [mkRoute "POST" [Lit "logout"] (fun r _ => Auth_Logout r)] ++ template_routes ++ user_routes ++ other_routes.
Definition protected : HttpRequest -> Web Reply := ServeMux protected_routes.

Definition ready (r : HttpRequest) : Response :=
  if rd_Ready deps then mkResponse StatusOK [] (Plain "ready") else mkResponse StatusServiceUnavailable [] (Plain "not ready").
Definition public_routes : list Route := [
  mkRoute "GET" [Lit "healthz"] (fun _ _ => mret (replies (mkResponse StatusOK [] (Plain "ok"))));
  mkRoute "GET" [Lit "readyz"] (fun r _ => mret (replies (ready r)));
  mkRoute "GET" [Lit "login"] (fun r _ => LoginPage r);
  mkRoute "POST" [Lit "login"] (fun r _ => Auth_Login r)].
(** Everything that is not public needs a session. *)
Definition public (r : HttpRequest) : Web Reply :=
  if allows "GET" (rq_Method r) && HasPrefix (rq_Path r) "/static/" then mret (replies (static r))
  else match find_route public_routes (rq_Method r) (path_segments (rq_Path r)) with
       | Some (route, value) => rt_Handler route r value
       | None => RequireAuth protected r
       end.
Definition CSRF (next : HttpRequest -> Web Reply) (r : HttpRequest) : Web Reply :=
  if passes_csrf r then next r else mret (replies (mkResponse StatusForbidden [] (Plain "请求完整性校验失败"))).
Definition session_cookie : string := if rd_Secure deps then "__Host-xpanel_session" else "xpanel_session".
Definition Routes : HttpRequest -> Web Response :=
  SecurityHeaders (LoadAndSave session_cookie (CSRF public)).
End Routes.
