(* ===== verification/WebLaws.v ===== *)
(** * What a page may do

    Every page is a program of readings, and a submitted form becomes at most
    one command of the services, made of the fields of the form; the response
    redirects exactly when it was accepted. *)

From Stdlib Require Import ZArith Lia.
From S2P Require Import Prelude GoTypes Identity Ports Text Inbound Tokens User Sync Quota Traffic Template Net Cycle Records Database Secrets Url StoreCore StoreSync StoreQuota StoreUsers StoreTraffic StoreDrift StoreTemplates StoreListings UserService AuthService Demo Form Adapter Calls Trace TemplateService PanelServices ConnectionService Web WebPages WebServer.

Abbreviation past_calls := (list (Event WebCall)).

(** ** Commands in the record of calls *)
Definition commands_panel (event : Event WebCall) : bool :=
  match event with Answered (Service call) _ => commands call | _ => false end.
(** A command that was accepted. *)
Definition accepted (event : Event WebCall) : bool :=
  match event with
  | @Answered _ R c r =>
      match c in WebCall R return R -> bool with
      | Service call =>
          match call in ServiceCall R return R -> bool with
          | UsersCreate _ => is_ok | UsersUpdate _ => is_ok | UsersSetEnabled _ => is_ok | UsersReset _ => is_ok
          | UsersChangePort _ => is_ok | UsersRotate _ => is_ok | UsersDelete _ => is_ok
          | TemplatesRegister _ => is_ok | TemplatesUpdate _ _ => is_ok | TemplatesRevalidate _ => is_ok
          | SettingsUpdate _ => is_ok
          | _ => fun _ => false
          end
      | _ => fun _ => false
      end r
  end.
(** What a page leaves in the session. *)
Definition flash_key (key : string) : bool := bool_decide (key = sessionFlashKind) || bool_decide (key = sessionFlashMessage).

Section Pages.
Context {Un : Unicode} {Sh : Sha256} (r : HttpRequest) (method value : string).

(** The form of the request as a command of the session. *)
Definition submitted (action target : string) (past : past_calls) (form : CommandForm) (actor : ID) : Prop := exists token,
  Answered SessionToken token ∈ past /\ ParseCommandForm r token action target = Ok form /\
  Answered (SessionGetString SessionAdministratorID) actor ∈ past.
(** ... about the resource the path names, made from the given version of it. *)
Definition concerns (action : string) (past : past_calls) (id : ID) (version : Revision) (request actor : ID) (fingerprint : string) : Prop :=
  id = value /\ Valid value = true /\ exists form, submitted action value past form actor /\ cf_Version form = Some version /\
  request = cf_RequestID form /\ fingerprint = cf_Fingerprint form.

(** A command comes from the form that was submitted. *)
Definition from_form (past : past_calls) {R} (call : ServiceCall R) : Prop :=
  match call with
  | UsersCreate i => exists form, submitted "user_create" "" past form (ci_ActorID i) /\ ci_RequestID i = cf_RequestID form /\
      ci_Fingerprint i = cf_Fingerprint form /\ ci_DisplayName i = field (cf_Values form) "display_name" /\
      ci_TemplateID i = field (cf_Values form) "template_id" /\ Valid (ci_TemplateID i) = true /\
      parseQuota (cf_Values form) = Ok (ci_LimitBytes i) /\ port_field (TrimSpace (field (cf_Values form) "port")) = Ok (UserService.ci_Port i)
  | UsersUpdate i => concerns "user_update" past (ui_ID i) (ui_ExpectedRevision i) (ui_RequestID i) (ui_ActorID i) (ui_Fingerprint i)
  | UsersSetEnabled i => concerns (if ei_Enabled i then "user_enable" else "user_disable") past (ei_ID i) (ei_ExpectedRevision i)
      (ei_RequestID i) (ei_ActorID i) (ei_Fingerprint i)
  | UsersReset i => ri_ID i = value /\ Valid value = true /\ exists form, submitted "user_reset_traffic" value past form (ri_ActorID i) /\
      ri_RequestID i = cf_RequestID form /\ ri_Fingerprint i = cf_Fingerprint form
  | UsersChangePort i => concerns "user_port" past (pi_ID i) (pi_ExpectedRevision i) (pi_RequestID i) (pi_ActorID i) (pi_Fingerprint i)
  | UsersRotate i => concerns "user_rotate" past (li_ID i) (li_ExpectedRevision i) (li_RequestID i) (li_ActorID i) (li_Fingerprint i)
  | UsersDelete i => concerns "user_delete" past (li_ID i) (li_ExpectedRevision i) (li_RequestID i) (li_ActorID i) (li_Fingerprint i)
  | TemplatesRegister i => exists form, submitted "template_register" "" past form (ti_ActorID i) /\ i = templateInput form (ti_ActorID i) 0
  | TemplatesUpdate id i => concerns "template_update" past id (ti_ExpectedRevision i) (ti_RequestID i) (ti_ActorID i) (ti_Fingerprint i)
  | TemplatesRevalidate i => concerns "template_revalidate" past (rv_ID i) (rv_ExpectedRevision i) (rv_RequestID i) (rv_ActorID i) (rv_Fingerprint i)
  | SettingsUpdate i => exists form, submitted "settings_update" "settings" past form (si_ActorID i) /\
      cf_Version form = Some (si_ExpectedRevision i) /\ si_RequestID i = cf_RequestID form /\ si_Fingerprint i = cf_Fingerprint form /\
      si_QuotaTimezone i = field (cf_Values form) "quota_timezone"
  | _ => True
  end.

(** What a page may call: no command but one, from the form of a POST; nothing
    of the login, and no commit of the session, in which it leaves a message. *)
Definition page_may (past : past_calls) (R : Type) (c : WebCall R) : Prop :=
  match c with
  | Service call => commands call = true -> method = "POST" /\ none commands_panel past /\ from_form past call
  | SessionPut key _ => flash_key key = true
  | SessionGetString _ | SessionGetInt64 _ | SessionPopString _ | SessionToken | RandomID => True
  | _ => False
  end.
(** The response leads on exactly when a command was accepted, and shows a
    connection only as it was handed out. *)
Definition shown_connection (response : Response) : option ConnectionInfo :=
  match rs_Body response with
  | Html _ page => match pg_Data page with ConnectionData _ info => info | _ => None end
  | _ => None
  end.
Definition page_done (response : Response) (past : past_calls) : Prop :=
  (rs_Status response =? StatusSeeOther) = existsb accepted past /\
  forall info, shown_connection response = Some info -> Answered (Service (ConnectionOf value)) (Ok info) ∈ past /\ Valid value = true.

(** ** Readings *)
Definition reads {R} (c : WebCall R) : bool :=
  match c with
  | Service call => negb (commands call)
  | SessionPut key _ => flash_key key
  | SessionGetString _ | SessionGetInt64 _ | SessionPopString _ | SessionToken | RandomID => true
  | _ => false
  end.
Definition looking {A} (p : Web A) : Prop := forall past, traced (fun _ _ c => reads c = true) p (fun _ _ => True) past.
(** A page that only reads, also after a command that was refused. *)
Definition reading (p : Web Response) : Prop := forall past, none accepted past -> traced page_may p page_done past.

Lemma reads_not_accepted {R} (c : WebCall R) a : reads c = true -> accepted (Answered c a) = false.
Proof. destruct c; try done. by destruct call. Qed.
Lemma reads_may {R} (c : WebCall R) past : reads c = true -> page_may past R c.
Proof. destruct c; try done. cbn. by destruct (commands call). Qed.
Lemma looking_ret {A} (a : A) : looking (mret a).
Proof. by intros past. Qed.
Lemma looking_do {R A} (c : WebCall R) (f : R -> Web A) : reads c = true -> (forall a, looking (f a)) -> looking (Do c Done ≫= f).
Proof. intros Hc Hf past. split; [done|]. intros a. apply Hf. Qed.
Lemma looking_bind {A B} (p : Web A) (f : A -> Web B) : looking p -> (forall a, looking (f a)) -> looking (p ≫= f).
Proof. intros Hp Hf past. eapply traced_then; [apply Hp|]. intros a past' _. apply Hf. Qed.
Lemma reading_ret response : rs_Status response <> StatusSeeOther -> shown_connection response = None -> reading (mret response).
Proof.
  intros Hs Hc past Hp. split; [|by rewrite Hc]. unfold none in Hp. rewrite Hp. by apply Z.eqb_neq.
Qed.
Lemma reading_bind {A} (p : Web A) (f : A -> Web Response) : looking p -> (forall a, reading (f a)) -> reading (p ≫= f).
Proof.
  intros Hp Hf past. specialize (Hp past). revert past Hp. induction p as [a|R c k IH]; intros past Hp Hn; [by apply Hf|].
  destruct Hp as [Hc Hk]. split; [by apply reads_may|]. intros a. apply IH; [apply Hk|].
  apply none_cons; [by apply reads_not_accepted|done].
Qed.
Lemma reading_do {R} (c : WebCall R) (f : R -> Web Response) : reads c = true -> (forall a, reading (f a)) -> reading (Do c Done ≫= f).
Proof. intros Hc. apply reading_bind. by intros past. Qed.

(** Steps of a walk through the calls of a page. *)
Ltac look :=
  repeat first
  [ apply looking_ret
  | apply looking_do; [done|intros]
  | apply looking_bind; [|intros]
  | done
  | progress case_match ].
Lemma looking_NewRequestID : looking NewRequestID.
Proof. look. Qed.
Lemma looking_Location b : looking (Location b).
Proof. unfold Location. look. Qed.
Lemma looking_NewPage b title : looking (NewPage b r title).
Proof.
  unfold NewPage. apply looking_bind; [apply looking_NewRequestID|intros]. apply looking_bind; [apply looking_Location|intros]. look.
Qed.
Lemma looking_Actor b : looking (Actor b).
Proof. unfold Actor. look. Qed.
Lemma looking_Flash b kind message : looking (Flash b kind message).
Proof. unfold Flash. look. Qed.
Lemma looking_capacity : looking capacityNotice.
Proof. unfold capacityNotice. look. Qed.
Lemma looking_usage templates : looking (with_usage templates).
Proof. induction templates as [|t templates IH]; [done|]. cbn [with_usage]. apply looking_do; [done|intros]. by apply looking_bind. Qed.
Lemma looking_fragment b : looking (fragment_page b).
Proof. unfold fragment_page. apply looking_bind; [apply looking_Location|done]. Qed.

Lemma reading_Fail err : reading (Fail_ err).
Proof.
  unfold Fail_. case_if; [apply reading_bind; [apply looking_NewRequestID|intros]|]; apply reading_ret; try done; by destruct err.
Qed.
Lemma Classify_status err : fl_Status (Classify err) <> StatusSeeOther.
Proof. by destruct err. Qed.
Lemma reading_or_fail {A} (c : ServiceCall (Res A)) f : commands c = false -> (forall a, reading (f a)) -> reading (or_fail c f).
Proof. intros Hc Hf. apply reading_do; [cbn; by rewrite Hc|]. intros [a|e]; [apply Hf|apply reading_Fail]. Qed.
Lemma reading_with_id f : (Valid value = true -> reading (f value)) -> reading (with_id value f).
Proof. intros Hf. unfold with_id. case_if; [by apply Hf|]. by apply reading_ret. Qed.
Lemma reading_NewPage b title f : (forall page, reading (f page)) -> reading (NewPage b r title ≫= f).
Proof. apply reading_bind, looking_NewPage. Qed.
Lemma reading_detail d record f : (forall available pending detail summary,
    reading (f (UserDetailData record available pending detail summary))) -> reading (detailData d record ≫= f).
Proof.
  intros Hf past Hn. unfold detailData. destruct d; [|by apply Hf].
  split; [done|]. intros detail. split; [done|]. intros summary. by apply Hf, none_cons, none_cons.
Qed.

Ltac read :=
  repeat first
  [ apply reading_with_id; intros
  | apply reading_or_fail; [done|intros]
  | apply reading_NewPage; intros
  | apply reading_detail; intros
  | apply reading_bind; [solve [apply looking_capacity|apply looking_usage|apply looking_fragment|apply looking_NewRequestID]|intros]
  | apply reading_do; [done|intros]
  | apply reading_Fail
  | apply reading_ret; [first [done|apply Classify_status]|first [done|unfold shown_connection, with_failure; cbn; by case_if]]
  | progress case_match ].

Lemma reading_user_form status page : status <> StatusSeeOther -> reading (user_form status page).
Proof.
  intros Hs. unfold user_form, formData. apply reading_do; [done|]. intros [records|e]; [|read].
  apply reading_bind; [apply looking_usage|intros]. apply reading_bind; [apply looking_capacity|intros]. by apply reading_ret.
Qed.
Lemma reading_renderUserForm b values cause : reading (renderUserForm b r values cause).
Proof. unfold renderUserForm. case_if; [read|]. apply reading_NewPage. intros page. apply reading_user_form, Classify_status. Qed.
Lemma reading_renderEditForm b id values cause : reading (renderEditForm b r id values cause).
Proof. unfold renderEditForm. case_if; read. Qed.
Lemma reading_conflict b d id cause : reading (conflictOrFail b d r id cause).
Proof. unfold conflictOrFail. case_if; read. Qed.
Lemma reading_renderPortForm b id values cause : reading (renderPortForm b r id values cause).
Proof. unfold renderPortForm. read. Qed.
Lemma reading_renderTemplateForm b edit values cause : reading (renderTemplateForm b r edit values cause).
Proof. unfold renderTemplateForm. case_if; read. Qed.
Lemma reading_settings_refused b values err : reading (settings_refused b r values err).
Proof. unfold settings_refused. case_if; read. Qed.

Lemma reading_confirmation b template prefix : reading (confirmationPage b r value template prefix).
Proof. unfold confirmationPage. read. Qed.
Lemma reading_connection b : reading (Users_Connection b r value).
Proof.
  unfold Users_Connection. apply reading_with_id. intros Hv. apply reading_or_fail; [done|]. intros record. apply reading_NewPage. intros page.
  intros past Hn. apply traced_do; [done|]. intros info.
  assert (none accepted (Answered (Service (ConnectionOf value)) info :: past)) as Hn' by (by apply none_cons).
  destruct info as [info|e].
  - split; [cbn; by unfold none in Hn; rewrite Hn|]. intros info' [= ->]. split; [by left|done].
  - case_if; [|by apply reading_Fail]. by apply reading_ret.
Qed.

(** The pages without a command. *)
Lemma reading_pages b d : Forall reading
  [Users_List b r; Users_NewForm b r; Users_Detail b d r value; Users_Connection b r value; Users_EditForm b r value;
   Users_ResetForm b r value; Users_RotateForm b r value; Users_PortForm b r value; Users_DeleteForm b r value;
   Templates_List b r; Templates_NewForm b r; Templates_Detail b r value; Templates_EditForm b r value; Settings_Show b r;
   Dashboard_Show b r; Fragment_Summary b r; Fragment_UsersTable b r; Audit_List b r; empty_dashboard r].
Proof.
  rewrite !Forall_cons, Forall_nil. split_and!.
  - unfold Users_List. cbv zeta. read.
  - unfold Users_NewForm. apply reading_NewPage. intros page. by apply reading_user_form.
  - unfold Users_Detail. read.
  - apply reading_connection.
  - unfold Users_EditForm. read.
  - unfold Users_ResetForm. read.
  - apply reading_confirmation.
  - apply reading_confirmation.
  - apply reading_confirmation.
  - unfold Templates_List. read.
  - unfold Templates_NewForm. read.
  - unfold Templates_Detail. read.
  - unfold Templates_EditForm. read.
  - unfold Settings_Show. read.
  - unfold Dashboard_Show. read.
  - unfold Fragment_Summary. read.
  - unfold Fragment_UsersTable. read.
  - unfold Audit_List. read.
  - unfold empty_dashboard. read.
  - exact I.
Qed.

(** ** Commands *)
Lemma reads_no_command {R} (c : WebCall R) a : reads c = true -> commands_panel (Answered c a) = false.
Proof. destruct c; try done. cbn. by destruct (commands call). Qed.
Lemma commands_accepted (past : past_calls) : none commands_panel past -> none accepted past.
Proof.
  unfold none. induction past as [|[R c a] past IH]; [done|]. cbn. intros [H1 H2]%orb_false_iff. rewrite IH by done.
  apply orb_false_iff. split; [|done]. destruct c; try done. by destruct call.
Qed.
Lemma submitted_extends action target past past' form actor : extends past past' -> submitted action target past form actor ->
  submitted action target past' form actor.
Proof. intros He (token & H1 & H2 & H3). exists token. split_and!; [by apply He|done|by apply He]. Qed.

(** A page from which one command may follow. *)
Definition acting (past : past_calls) (p : Web Response) : Prop := none commands_panel past -> traced page_may p page_done past.
Lemma acting_reading past p : reading p -> acting past p.
Proof. intros Hp Hn. by apply Hp, commands_accepted. Qed.
Lemma acting_do {R} (c : WebCall R) past f : reads c = true -> (forall a, acting (Answered c a :: past) (f a)) -> acting past (Do c Done ≫= f).
Proof.
  intros Hc Hf Hn. split; [by apply reads_may|]. intros a. apply Hf. apply none_cons; [by apply reads_no_command|done].
Qed.
Lemma acting_with_id past f : (Valid value = true -> acting past (f value)) -> acting past (with_id value f).
Proof. intros Hf. unfold with_id. case_if; [by apply Hf|]. apply acting_reading. by apply reading_ret. Qed.

Section Acting.
Context (settings : bool).
Let b : Base := mkBase true settings.

Lemma acting_Actor past f : (forall actor past', extends past past' -> Answered (SessionGetString SessionAdministratorID) actor ∈ past' ->
  acting past' (f actor)) -> acting past (Actor b ≫= f).
Proof. intros Hf. apply acting_do; [done|]. intros actor. apply Hf; [apply extends_cons|by left]. Qed.
Lemma reading_bad_form versioned : reading (mret (bad_form versioned)).
Proof. by apply reading_ret. Qed.
Lemma acting_with_form action target past f : (forall form token past', extends past past' -> Answered SessionToken token ∈ past' ->
  ParseCommandForm r token action target = Ok form -> acting past' (f form)) -> acting past (with_form b r action target f).
Proof.
  intros Hf. apply acting_do; [done|]. intros token. destruct (ParseCommandForm r token action target) as [form|e] eqn:E.
  - eapply Hf; [apply extends_cons|by left|done].
  - apply acting_reading, reading_bad_form.
Qed.
Lemma acting_with_versioned action target past f : (forall form version token past', extends past past' -> Answered SessionToken token ∈ past' ->
  ParseCommandForm r token action target = Ok form -> cf_Version form = Some version -> acting past' (f form version)) ->
  acting past (with_versioned_form b r action target f).
Proof.
  intros Hf. apply acting_do; [done|]. intros token. destruct (ParseCommandForm r token action target) as [form|e] eqn:E.
  - destruct (cf_Version form) as [version|] eqn:Ev; [|apply acting_reading, reading_bad_form].
    eapply Hf; [apply extends_cons|by left|done..].
  - apply acting_reading, reading_bad_form.
Qed.

(** The command itself, and where it leads. *)
Lemma redirect_done message path past : existsb accepted past = true ->
  traced page_may (_ ← Flash b "success" message; mret (Redirect path)) page_done past.
Proof. intros Ha. split; [done|]. intros []. split; [done|]. intros []. split; [by cbn; rewrite Ha|done]. Qed.
Definition command_may {A} (past : past_calls) (c : ServiceCall (Res A)) : Prop :=
  commands c = true /\ method = "POST" /\ from_form past c /\
  (forall a, accepted (Answered (Service c) (Ok a)) = true) /\ forall e, accepted (Answered (Service c) (Err e)) = false.
Lemma acting_command {A} (c : ServiceCall (Res A)) past (f : Res A -> Web Response) message path : command_may past c ->
  (forall a, f (Ok a) = (_ ← Flash b "success" message; mret (Redirect (path a)))) -> (forall e, reading (f (Err e))) ->
  acting past (service c ≫= f).
Proof.
  intros (Hc & Hm & Hf & Hok & Herr) Hyes Hno Hn. split; [by intros _|]. intros [a|e].
  - enough (traced page_may (f (Ok a)) page_done (Answered (Service c) (Ok a) :: past)) as Hdone by exact Hdone.
    rewrite Hyes. apply redirect_done. cbn [existsb]. by rewrite Hok.
  - apply Hno. apply none_cons; [apply Herr|by apply commands_accepted].
Qed.
Lemma acting_acted {A} (c : ServiceCall (Res A)) past refused message path : command_may past c -> (forall e, reading (refused e)) ->
  acting past (acted b c refused message path).
Proof. intros Hc Hr. by apply (acting_command c past _ message (fun _ => path)). Qed.

Lemma submitted_intro action target token past past' form actor : Answered SessionToken token ∈ past -> extends past past' ->
  ParseCommandForm r token action target = Ok form -> Answered (SessionGetString SessionAdministratorID) actor ∈ past' ->
  submitted action target past' form actor.
Proof. intros Ht He Hp Ha. exists token. split_and!; [by apply He|done..]. Qed.
Lemma concerns_intro action token past past' form version actor : Valid value = true -> Answered SessionToken token ∈ past ->
  extends past past' -> ParseCommandForm r token action value = Ok form -> cf_Version form = Some version ->
  Answered (SessionGetString SessionAdministratorID) actor ∈ past' ->
  concerns action past' value version (cf_RequestID form) actor (cf_Fingerprint form).
Proof. intros. split_and!; [done..|]. exists form. split_and!; [by eapply submitted_intro|done..]. Qed.

Context (is_post : method = "POST") (d : bool).

Lemma acting_Create past : acting past (Users_Create b r).
Proof.
  apply acting_with_form. intros form token past1 _ Ht Hf. apply acting_Actor. intros actor past2 He Ha.
  case_if; [apply acting_reading, reading_renderUserForm|]. destruct (port_field _) as [port|e] eqn:Ep; [|apply acting_reading, reading_renderUserForm].
  destruct (parseQuota _) as [limit|e] eqn:Eq; [|apply acting_reading, reading_renderUserForm].
  eapply (acting_command _ _ _ _ (fun answer => created_path answer.1)).
  - split_and!; [done|done| |done|done]. exists form. to_prop. split_and!; [by eapply submitted_intro|done..].
  - by intros [id replayed].
  - intros e. apply reading_renderUserForm.
Qed.
Lemma acting_Update past : acting past (Users_Update b r value).
Proof.
  apply acting_with_id. intros Hv. apply acting_with_versioned. intros form version token past1 _ Ht Hf Hver. cbv zeta.
  destruct (parseQuota _) as [limit|e] eqn:Eq; [|apply acting_reading, reading_renderEditForm].
  apply acting_Actor. intros actor past2 He Ha. eapply (acting_command _ _ _ _ (fun _ => created_path value)).
  - split_and!; [done|done| |done|done]. by eapply concerns_intro.
  - done.
  - intros e. apply reading_renderEditForm.
Qed.
(** The commands of one user or template that only differ in the call. *)
Lemma acting_versioned {A} action (call : CommandForm -> Revision -> ID -> ServiceCall (Res A)) refused message path past :
  (forall past form version actor, concerns action past value version (cf_RequestID form) actor (cf_Fingerprint form) ->
     command_may past (call form version actor)) ->
  (forall form e, reading (refused form e)) ->
  acting past (with_id value (fun id => with_versioned_form b r action id (fun form version =>
    actor ← Actor b; acted b (call form version actor) (refused form) message path))).
Proof.
  intros Hc Hr. apply acting_with_id. intros Hv. apply acting_with_versioned. intros form version token past1 _ Ht Hf Hver.
  apply acting_Actor. intros actor past2 He Ha. apply acting_acted; [|by apply Hr]. apply Hc. by eapply concerns_intro.
Qed.
Lemma acting_setEnabled enabled past : acting past (setEnabled b d r value enabled).
Proof. unfold setEnabled. apply acting_versioned; [by destruct enabled|]. intros. apply reading_conflict. Qed.
Lemma acting_ChangePort past : acting past (Users_ChangePort b d r value).
Proof.
  apply acting_with_id. intros Hv. apply acting_with_versioned. intros form version token past1 _ Ht Hf Hver. cbv zeta.
  destruct (ParseInt _) as [port|]; [|apply acting_reading, reading_renderPortForm].
  apply acting_Actor. intros actor past2 He Ha. apply acting_acted.
  - split_and!; [done|done| |done|done]. by eapply concerns_intro.
  - intros e. destruct e; try apply reading_conflict. apply reading_renderPortForm.
Qed.
Lemma acting_Reset past : acting past (Users_Reset b r value).
Proof.
  apply acting_with_id. intros Hv. apply acting_with_form. intros form token past1 _ Ht Hf.
  apply acting_Actor. intros actor past2 He Ha. apply acting_acted; [|apply reading_Fail].
  split_and!; [done|done| |done|done]. split_and!; [done..|]. exists form. split_and!; [by eapply submitted_intro|done..].
Qed.
Lemma acting_Rotate past : acting past (Users_Rotate b d r value).
Proof. unfold Users_Rotate. apply acting_versioned; [done|]. intros. apply reading_conflict. Qed.
Lemma acting_Delete past : acting past (Users_Delete b d r value).
Proof. unfold Users_Delete. apply acting_versioned; [done|]. intros. apply reading_conflict. Qed.
Lemma acting_Register past : acting past (Templates_Create b r).
Proof.
  apply acting_with_form. intros form token past1 _ Ht Hf. apply acting_Actor. intros actor past2 He Ha.
  eapply (acting_command _ _ _ _ template_path).
  - split_and!; [done|done| |done|done]. exists form. split; [by eapply submitted_intro|done].
  - done.
  - intros e. apply reading_renderTemplateForm.
Qed.
Lemma acting_UpdateTemplate past : acting past (Templates_Update b r value).
Proof. unfold Templates_Update. apply acting_versioned; [done|]. intros. apply reading_renderTemplateForm. Qed.
Lemma acting_Revalidate past : acting past (Templates_Revalidate b r value).
Proof. unfold Templates_Revalidate. apply acting_versioned; [done|]. intros. apply reading_renderTemplateForm. Qed.
Lemma acting_Settings past : acting past (Settings_Update b r).
Proof.
  apply acting_with_versioned. intros form version token past1 _ Ht Hf Hver. apply acting_Actor. intros actor past2 He Ha.
  apply acting_acted; [|apply reading_settings_refused]. split_and!; [done|done| |done|done].
  exists form. split_and!; [by eapply submitted_intro|done..].
Qed.
End Acting.

(** ** The routes *)
Definition as_page (reply : Reply) (past : past_calls) : Prop :=
  reply = replies (rp_Response reply) /\ page_done (rp_Response reply) past.
Definition as_page_of (p : Web Reply) (past : past_calls) : Prop := traced page_may p as_page past.
Lemma reply_acting past p : none commands_panel past -> acting past p -> as_page_of (reply p) past.
Proof. intros Hn Hp. eapply traced_then; [by apply Hp|]. intros response past' Hd. by split. Qed.
Lemma reply_reading past p : none commands_panel past -> reading p -> as_page_of (reply p) past.
Proof. intros Hn Hp. by apply reply_acting, acting_reading. Qed.
End Pages.

Section RoutesLaws.
Context {Un : Unicode} {Sh : Sha256} (deps : RouteDependencies) (r : HttpRequest) (value : string).

Definition page_routes : list Route := dashboard_routes deps ++ template_routes deps ++ user_routes deps ++ other_routes deps.
(** A route is a page of its method. *)
Definition is_page (past : past_calls) (route : Route) : Prop := as_page_of r (rt_Method route) value (rt_Handler route r value) past.

Context (past : past_calls) (clean : none commands_panel past).
Let b : Base := mkBase true (rd_Settings deps).
Ltac on_route :=
  first
  [ apply reply_reading; [exact clean|]; match goal with H : reading _ _ _ ?p |- reading _ _ _ ?p => exact H end
  | apply reply_acting; [exact clean|];
    lazymatch goal with
    | |- acting _ _ _ _ (Users_Create _ _) => apply acting_Create
    | |- acting _ _ _ _ (Users_Update _ _ _) => apply acting_Update
    | |- acting _ _ _ _ (Users_Enable _ _ _ _) => apply acting_setEnabled
    | |- acting _ _ _ _ (Users_Disable _ _ _ _) => apply acting_setEnabled
    | |- acting _ _ _ _ (Users_ChangePort _ _ _ _) => apply acting_ChangePort
    | |- acting _ _ _ _ (Users_Reset _ _ _) => apply acting_Reset
    | |- acting _ _ _ _ (Users_Rotate _ _ _ _) => apply acting_Rotate
    | |- acting _ _ _ _ (Users_Delete _ _ _ _) => apply acting_Delete
    | |- acting _ _ _ _ (Templates_Create _ _) => apply acting_Register
    | |- acting _ _ _ _ (Templates_Update _ _ _) => apply acting_UpdateTemplate
    | |- acting _ _ _ _ (Templates_Revalidate _ _ _) => apply acting_Revalidate
    | |- acting _ _ _ _ (Settings_Update _ _) => apply acting_Settings
    end; reflexivity ].
Ltac on_routes :=
  pose proof (reading_pages r "GET" value b (rd_Dashboard deps)) as Hreading; rewrite !Forall_cons in Hreading; repeat match type of Hreading with _ /\ _ => destruct Hreading as [? Hreading] end;
  repeat first [apply Forall_nil; exact I | apply Forall_cons; split; [unfold is_page, rt_Method, rt_Handler, on_page, on_item; on_route|]].
Lemma dashboard_pages : Forall (is_page past) (dashboard_routes deps).
Proof. unfold dashboard_routes. destruct (rd_Dashboard deps) eqn:E; cbv zeta; on_routes. Qed.
Lemma template_pages : Forall (is_page past) (template_routes deps).
Proof. unfold template_routes. destruct (rd_Templates deps); cbv zeta; on_routes. Qed.
Lemma user_pages : Forall (is_page past) (user_routes deps).
Proof. unfold user_routes. destruct (rd_Users deps); cbv zeta; on_routes. Qed.
Lemma other_pages : Forall (is_page past) (other_routes deps).
Proof.
  unfold other_routes. apply Forall_app. split; [destruct (rd_Audit deps)|destruct (rd_Settings deps)]; cbv zeta; on_routes.
Qed.
Lemma pages_traced : Forall (is_page past) page_routes.
Proof.
  unfold page_routes. rewrite !Forall_app. split_and!; [apply dashboard_pages|apply template_pages|apply user_pages|apply other_pages].
Qed.
End RoutesLaws.


(** The services of a panel that answer every command with success. *)
Definition demo_service {R} (call : ServiceCall R) : R :=
  match call in ServiceCall R return R with
  | UsersList _ => Ok [] | UsersGet _ => Err (SqlError "closed")
  | UsersCreate _ => Ok (demo_id 1, false) | UsersUpdate _ => Ok false | UsersSetEnabled _ => Ok false | UsersReset _ => Ok false
  | UsersChangePort _ => Ok false | UsersRotate _ => Ok false | UsersDelete _ => Ok false
  | ConnectionOf _ => Err ErrConnectionPending
  | TemplatesList _ => Ok [] | TemplatesGet _ => Err (SqlError "closed") | TemplatesRegister _ => Ok (demo_id 1)
  | TemplatesUpdate _ _ => Ok tt | TemplatesRevalidate _ => Ok false
  | TemplatesUsage _ => Err (SqlError "closed") | TemplatesSuspect _ => Ok false
  | SettingsGet => Err (SqlError "closed") | SettingsUpdate _ => Ok false
  | PanelLocation => UTC
  | DashboardSummaryOf => (empty_summary 0, None)
  | DashboardDetail record => (mkDetail record [] [] [], None)
  | AuditList _ => Ok ([], None)
  end.
(** A browser of the session "session" of the administrator [demo_id 3]. *)
Definition demo_answer (R : Type) (c : WebCall R) : R :=
  match c in WebCall R return R with
  | Service call => demo_service call
  | Authenticated_ _ _ _ => Ok (mkAdministrator (demo_id 3) "admin" "hash" 1 t0 t0)
  | Establish _ => Ok ("renewed", t0)
  | Revoke _ _ => None | LoginFailed _ => None | LogoutFailedOf _ _ _ => None
  | SessionValidOf _ _ => Ok true
  | SessionLoad _ => None
  | SessionGetString key => if bool_decide (key = SessionAdministratorID) then demo_id 3 else ""
  | SessionGetInt64 _ => 1
  | SessionPut _ _ => tt | SessionPopString _ => "" | SessionToken => "session"
  | SessionRenewToken => None | SessionDestroy => None
  | SessionCommit => Ok ("session", t0)
  | SessionStatus => Modified
  | WriteSessionCookie _ _ => tt
  | RandomID => Ok (demo_id 9)
  end.
Definition demo_deps : RouteDependencies := mkDependencies true true true true true true true.
Definition update_route : Route := mkRoute "POST" [Lit "users"; Wild] (on_item (Users_Update (mkBase true true))).
Definition updated_page : Reply * past_calls := replay demo_answer (rt_Handler update_route (demo_post "a" "7") (demo_id 1)) [].

