(* ===== verification/WebSafety.v ===== *)
(** * What the server does for whom

    The calls of a whole request, through the middleware and the routes: the
    services are reached with a session that was checked, and a session is
    opened for the administrator whose password was checked, once. *)

From Stdlib Require Import ZArith Lia.
From S2P Require Import Prelude GoTypes Identity Ports Text Inbound Tokens User Sync Quota Traffic Template Net Cycle Records Database Secrets Url Password StoreCore StoreSync StoreQuota StoreUsers StoreTraffic StoreDrift StoreTemplates StoreListings UserService AuthService Demo Form Adapter Calls Trace TemplateService PanelServices ConnectionService Web WebPages WebServer WebLaws.

(** The answer to an opened session. *)
Definition established (event : Event WebCall) : option (Res (string * Time)) :=
  match event with
  | @Answered _ R c r =>
      match c in WebCall R return R -> option (Res (string * Time)) with
      | Establish _ => fun r => Some r
      | _ => fun _ => None
      end r
  end.
Definition establishes (event : Event WebCall) : bool := if established event is Some _ then true else false.
(** Nothing of the panel has been changed, and no session opened. *)
Definition fresh (past : past_calls) : Prop := none commands_panel past /\ omap established past = [].

Section Safety.
Context {Un : Unicode} {Sh : Sha256} (static : HttpRequest -> Response) (passes_csrf : HttpRequest -> bool) (deps : RouteDependencies)
  (r : HttpRequest).

(** The session of the request was found to be the one of an administrator
    with this version of the password. *)
Definition session_checked (past : past_calls) (id : ID) (version : Z) : Prop :=
  Answered (SessionGetString SessionAdministratorID) id ∈ past /\ Answered (SessionGetInt64 SessionPasswordVersion) version ∈ past /\
  Answered (SessionValidOf id version) (Ok true) ∈ past /\ Valid id = true /\ 0 < version.
(** The name and password of the form are those of the administrator. *)
Definition password_checked (past : past_calls) (admin : AdministratorRecord) : Prop := exists form, ParseForm r = Some form /\
  Answered (Authenticated_ (Get form "username") (Get form "password") (source_of r)) (Ok admin) ∈ past.

Definition server_may (past : past_calls) (R : Type) (c : WebCall R) : Prop :=
  match c with
  | Service call => passes_csrf r = true /\ (exists id version, session_checked past id version) /\
      (commands call = true -> rq_Method r = "POST" /\ none commands_panel past)
  | Revoke id version => passes_csrf r = true /\ rq_Method r = "POST" /\ (exists id version, session_checked past id version) /\
      Answered (SessionGetString SessionAdministratorID) id ∈ past /\ Answered (SessionGetInt64 SessionPasswordVersion) version ∈ past
  | Authenticated_ _ _ _ => passes_csrf r = true /\ rq_Method r = "POST"
  | Establish admin => password_checked past admin /\ Answered SessionRenewToken None ∈ past /\ omap established past = [] /\
      Answered (SessionPut SessionAdministratorID (inl (ad_ID admin))) tt ∈ past /\
      Answered (SessionPut SessionPasswordVersion (inr (ad_PasswordVersion admin))) tt ∈ past
  | SessionPut key content => flash_key key = true \/ exists admin, password_checked past admin /\
      (key = SessionAdministratorID /\ content = inl (ad_ID admin) \/ key = SessionPasswordVersion /\ content = inr (ad_PasswordVersion admin))
  | SessionCommit => omap established past = []
  | WriteSessionCookie token expiry => token = "" \/ (exists admin, Answered (Establish admin) (Ok (token, expiry)) ∈ past) \/
      Answered SessionCommit (Ok (token, expiry)) ∈ past
  | _ => True
  end.

(** What the client is told of the session that was opened. *)
Definition session_told (response : Response) (past : past_calls) : Prop :=
  match omap established past with
  | [] => True
  | [Ok (token, expiry)] => rs_Body response = RedirectTo "/" /\ Answered (WriteSessionCookie token expiry) tt ∈ past
  | [Err _] => rs_Status response = StatusInternalServerError /\ Answered (WriteSessionCookie "" zero_time) tt ∈ past
  | _ => False
  end.
(** ... when the handler has ended. *)
Definition handled (reply : Reply) (past : past_calls) : Prop :=
  omap established past = [] \/
  (exists e, omap established past = [Err e] /\ rs_Status (rp_Response reply) = StatusInternalServerError /\ rp_Abandoned reply = true) \/
  (exists token expiry, omap established past = [Ok (token, expiry)] /\ reply = mkReply (Redirect "/") true false /\
     Answered (WriteSessionCookie token expiry) tt ∈ past).

Lemma established_cons event past : established event = None -> omap established (event :: past) = omap established past.
Proof. intros He. cbn. by rewrite He. Qed.
Lemma established_open admin answer past : omap established (Answered (Establish admin) answer :: past) = answer :: omap established past.
Proof. done. Qed.
Lemma told_cons response event past : established event = None -> session_told response past -> session_told response (event :: past).
Proof.
  intros He. unfold session_told. rewrite established_cons by done.
  destruct (omap established past) as [|[[token expiry]|e] [|]]; [done| |done| |done]; intros [H1 H2]; (split; [done|by right]).
Qed.
Lemma handled_cons reply event past : established event = None -> handled reply past -> handled reply (event :: past).
Proof.
  intros He. unfold handled. rewrite established_cons by done.
  intros [Hn|[Hr|(token & expiry & Ho & Hr & Hw)]]; [by left|by right; left|]. right. right. exists token, expiry.
  split_and!; [done..|by right].
Qed.

Lemma finish_told reply past : handled reply past ->
  traced server_may (finish reply) (fun _ past' => session_told (rp_Response reply) past') past.
Proof.
  intros Hh. unfold finish.
  assert (rp_Abandoned reply = true \/ session_told (rp_Response reply) past) as Hs.
  { unfold session_told. destruct Hh as [Hn|[(e & _ & _ & Ha)|(token & expiry & Ho & -> & Hw)]];
      [right; by rewrite Hn|by left|right; by rewrite Ho]. }
  assert (rp_Abandoned reply = true -> session_told (rp_Response reply) (Answered (WriteSessionCookie "" zero_time) tt :: past)) as Ha.
  { intros Ha. unfold session_told. rewrite established_cons by done.
    destruct Hh as [Hn|[(e & He & Hr & _)|(token & expiry & Ho & -> & Hw)]]; [by rewrite Hn|rewrite He; split; [done|by left]|done]. }
  destruct (rp_Abandoned reply) eqn:E; [split; [by left|]; intros []; by apply Ha|]. destruct Hs as [?|Hs]; [done|].
  split; [done|]. intros [| |]; cbn [traced].
  - by apply told_cons.
  - destruct (rp_Committed reply) eqn:Ec; [by apply told_cons|].
    assert (omap established past = []) as Hn.
    { destruct Hh as [Hn|[(e & He & Hr & Ha')|(token & expiry & Ho & -> & Hw)]]; [done|by rewrite E in Ha'|done]. }
    split; [by cbn; rewrite Hn|]. intros [[token expiry]|e]; [|by repeat apply told_cons].
    split; [right; right; by left|]. intros []. by repeat apply told_cons.
  - split; [by left|]. intros []. by repeat apply told_cons.
Qed.

Lemma not_established_told summary past : (omap established past = [] \/ exists e, omap established past = [Err e]) ->
  traced server_may (loginNotEstablished summary) handled past.
Proof.
  intros He. split; [done|]. intros answer. split; [done|]. intros id. do 2 (apply handled_cons; [done|]).
  destruct He as [He|[e He]]; [by left|right; left]. by exists e.
Qed.
Lemma fresh_cons event past : commands_panel event = false -> established event = None -> fresh past -> fresh (event :: past).
Proof. intros Hc He [Hf Ho]. split; [by apply none_cons|by rewrite established_cons]. Qed.

Lemma password_checked_cons event past admin : password_checked past admin -> password_checked (event :: past) admin.
Proof. intros (form & Hf & Ha). exists form. split; [done|by right]. Qed.
Hint Resolve password_checked_cons : core.

(** After the password: a new token, the session, and the cookie. *)
Definition opening (admin : AdministratorRecord) : Web Reply :=
  renewed ← does SessionRenewToken;
  match renewed with
  | Some _ => loginNotEstablished not_established
  | None =>
      _ ← does (SessionPut SessionAdministratorID (inl (ad_ID admin)));
      _ ← does (SessionPut SessionPasswordVersion (inr (ad_PasswordVersion admin)));
      established ← does (Establish admin);
      match established with
      | Err _ => _ ← does SessionDestroy; loginNotEstablished not_established
      | Ok (token, expiry) => _ ← does (WriteSessionCookie token expiry); mret (mkReply (Redirect "/") true false)
      end
  end.
Lemma opening_traced admin past : password_checked past admin -> omap established past = [] -> traced server_may (opening admin) handled past.
Proof.
  intros Hp Hn. split; [done|]. intros [err|].
  { apply not_established_told. left. by rewrite established_cons. }
  split; [right; exists admin; split; [by auto|by left]|]. intros []. split; [right; exists admin; split; [by auto|by right]|]. intros [].
  split; [split_and!; [by auto|by right; right; left|by rewrite !established_cons|by right; left|by left]|].
  intros [[token expiry]|e].
  - split; [right; left; exists admin; by left|]. intros []. right. right. exists token, expiry.
    split_and!; [by rewrite established_cons, established_open, !established_cons, Hn by done|done|by left].
  - split; [done|]. intros answer. apply not_established_told. right. exists e.
    by rewrite established_cons, established_open, !established_cons, Hn by done.
Qed.
Lemma login_traced past : passes_csrf r = true -> rq_Method r = "POST" -> omap established past = [] ->
  traced server_may (Auth_Login r) handled past.
Proof.
  intros Hc Hm Hn. unfold Auth_Login. destruct (ParseForm r) as [form|] eqn:Ef; [|by left].
  split; [done|]. intros [admin|err].
  - apply (opening_traced admin); [|by rewrite established_cons]. exists form. split; [done|by left].
  - split; [done|]. intros id. left. by rewrite !established_cons.
Qed.
Lemma logout_traced past id version : passes_csrf r = true -> rq_Method r = "POST" -> session_checked past id version ->
  omap established past = [] -> traced server_may (Auth_Logout r) handled past.
Proof.
  intros Hc Hm (H1 & H2 & H3 & Hv) Hn. split; [done|]. intros id'. split; [done|]. intros version'. split.
  { split_and!; [done..| |by right; left|by left]. exists id, version. split_and!; [do 2 right; exact H1|by do 2 right..| |]; apply Hv. }
  intros [err|].
  - split; [done|]. intros answer. split; [done|]. intros error_id. left. by rewrite !established_cons.
  - left. by rewrite !established_cons.
Qed.

(** ** Pages *)
Lemma allows_post asked : allows "POST" asked = true -> asked = "POST".
Proof. unfold allows. by intros [H|[H _]%andb_true_iff]%orb_true_iff; apply bool_decide_eq_true in H. Qed.
Lemma page_to_server method value past id version : passes_csrf r = true -> session_checked past id version ->
  allows method (rq_Method r) = true ->
  forall past' R (c : WebCall R), extends past past' -> page_may r method value past' R c -> server_may past' R c.
Proof.
  intros Hc (H1 & H2 & H3 & Hv) Hm past' R c He Hp. destruct c; try done; cbn in *.
  - split_and!; [done| |].
    + exists id, version. split_and!; [by apply He..| |]; apply Hv.
    + intros Hcmd. destruct (Hp Hcmd) as (-> & Hn & _). split; [by apply allows_post|done].
  - by left.
Qed.
Lemma established_none past : omap established past = [] <-> none establishes past.
Proof.
  unfold none, establishes. induction past as [|event past IH]; [done|]. cbn. destruct (established event); [done|exact IH].
Qed.
Lemma page_establishes method value past R (c : WebCall R) a : page_may r method value past R c -> establishes (Answered c a) = false.
Proof. by destruct c. Qed.
Lemma page_handled route value past id version : is_page r value past route -> passes_csrf r = true -> session_checked past id version ->
  allows (rt_Method route) (rq_Method r) = true -> omap established past = [] ->
  traced server_may (rt_Handler route r value) handled past.
Proof.
  intros Hp Hc Hs Hm Hn. eapply traced_mono; [|eapply traced_lift; [eapply traced_none with (P := establishes); [|exact Hp|by apply established_none]|]].
  - intros reply past' [_ He]. left. by apply established_none.
  - intros past' R c a. apply page_establishes.
  - by eapply page_to_server.
Qed.

Lemma find_route_in routes method segments route value : find_route routes method segments = Some (route, value) ->
  (route ∈ routes) /\ allows (rt_Method route) method = true.
Proof.
  induction routes as [|route' routes IH]; [done|]. cbn. destruct (allows (rt_Method route') method) eqn:Ea.
  - destruct (match_pattern _ _) as [value'|]; [intros [= -> ->]; by split; [left|]|]. intros [H1 H2]%IH. split; [by right|done].
  - intros [H1 H2]%IH. split; [by right|done].
Qed.
Lemma protected_traced past id version : passes_csrf r = true -> session_checked past id version -> fresh past ->
  traced server_may (protected deps r) handled past.
Proof.
  intros Hc Hs [Hf Hn]. unfold protected, ServeMux. destruct (find_route _ _ _) as [[route value]|] eqn:E; [|by left].
  apply find_route_in in E as [Hin Hm]. pose proof (pages_traced deps r value past Hf) as Hall. rewrite Forall_forall in Hall.
  assert (route ∈ page_routes deps \/ route = mkRoute "POST" [Lit "logout"] (fun r _ => Auth_Logout r)) as [Hp| ->].
  { unfold page_routes, protected_routes in *. rewrite !elem_of_app in *. rewrite list_elem_of_singleton in Hin. naive_solver. }
  - eapply page_handled; [by apply Hall|done..].
  - eapply logout_traced; [done|by apply allows_post|done..].
Qed.
Lemma auth_traced past : passes_csrf r = true -> fresh past -> traced server_may (RequireAuth (protected deps) r) handled past.
Proof.
  intros Hc Hf. apply traced_do; [done|]. intros id. apply traced_do; [done|]. intros version. cbv zeta.
  destruct (Valid id && (0 <? version)) eqn:Ev; [|left; rewrite !established_cons by done; apply Hf].
  apply andb_true_iff in Ev as [Hv Hlt]. apply Z.ltb_lt in Hlt. apply traced_do; [done|].
  intros [[|]|e]; [|left; rewrite !established_cons by done; apply Hf..].
  apply (protected_traced _ id version); [done| |by repeat apply fresh_cons].
  split_and!; [by right; right; left|by right; left|by left|done..].
Qed.
Lemma public_traced past : passes_csrf r = true -> fresh past -> traced server_may (public static deps r) handled past.
Proof.
  intros Hc Hf. unfold public. case_if; [left; apply Hf|]. destruct (find_route _ _ _) as [[route value]|] eqn:E; [|by apply auth_traced].
  apply find_route_in in E as [Hin Hm]. unfold public_routes in Hin. rewrite !elem_of_cons, elem_of_nil in Hin.
  destruct Hin as [->|[->|[->|[->|[]]]]].
  - left. apply Hf.
  - left. apply Hf.
  - apply traced_do; [done|]. intros id. case_if; [apply traced_do; [done|]; intros answer|]; left; rewrite !established_cons by done; apply Hf.
  - apply login_traced; [done|by apply allows_post|apply Hf].
Qed.

Definition server_done (response : Response) (past : past_calls) : Prop :=
  session_told response past /\
  (rq_Path r <> "/healthz" -> rq_Path r <> "/readyz" -> ("Cache-Control", "no-store") ∈ rs_Headers response).
Lemma server_traced : traced server_may (Routes static passes_csrf deps r) server_done [].
Proof.
  apply traced_then with (P := session_told).
  - apply traced_do; [done|]. intros [e|]; [done|]. eapply traced_then with (P := handled).
    + unfold CSRF. destruct (passes_csrf r) eqn:Ec; [by apply public_traced|by left].
    + intros reply past Hh. eapply traced_then; [by apply finish_told|]. by intros [] past' Ht.
  - intros response past Ht. split; [exact Ht|]. intros Hh Hr.
    apply elem_of_app. left. unfold security_headers. rewrite !bool_decide_eq_false_2 by done. apply elem_of_app. right. by left.
Qed.
End Safety.


(** ** A login *)
Definition demo_login : HttpRequest :=
  mkHttp "POST" "/login" "" form_type (Some form_type) (Some "username=admin&password=correct+horse") ∅ false "192.0.2.1:5000".
Definition logged_in_page : Response * past_calls :=
  replay demo_answer (Routes (fun _ => mkResponse 200 [] (Plain "")) (fun _ => true) demo_deps demo_login) [].
Example login_opens_a_session : omap established logged_in_page.2 = [Ok ("renewed", t0)] /\ rs_Status logged_in_page.1 = StatusSeeOther /\
  password_checked demo_login logged_in_page.2 (mkAdministrator (demo_id 3) "admin" "hash" 1 t0 t0).
Proof.
  split; [vm_compute; reflexivity|]. split; [vm_compute; reflexivity|]. eexists. split; [vm_compute; reflexivity|].
  do 6 right. left.
Qed.
