(* ===== verification/Synchronizer.v ===== *)
(** * The synchronizer: internal/worker/synchronizer.go

    The worker that projects the operations of the outbox on the node. The node
    lock serialises its handlers; logging is left out. *)

From Stdlib Require Import ZArith Lia.
From S2P Require Import Prelude GoTypes Identity Text Inbound Tokens User Sync Quota Traffic Template Cycle Records Database Secrets StoreCore StoreSync StoreQuota StoreUsers StoreTraffic StoreDrift StoreTemplates Adapter Calls.

Definition maxInternalAttempts : Z := 20.
Definition unreachableThreshold : Z := 3.
Definition leaseRPCMultiple : Z := 3.

Record Synchronizer := mkSynchronizer {
  s_keyring : Keyring;
  s_owner : string;
  s_maxRetry : Duration;
  s_lease : Duration;
  s_random : bool;
  s_onProfileRecovered : bool }.

Record SynchronizerOptions := mkSyncOptions {
  so_Owner : string;
  so_MaxRetryInterval : Duration;
  so_LeaseDuration : Duration;
  so_RPCTimeout : Duration;
  so_Random : bool;
  so_OnProfileRecovered : bool }.

Definition NewSynchronizer (keyring : Keyring) (options : SynchronizerOptions) : Synchronizer :=
  let owner := if bool_decide (so_Owner options = "") then "synchronizer" else so_Owner options in
  let maxRetry := if so_MaxRetryInterval options <=? 0 then 30 * Second else so_MaxRetryInterval options in
  let lease := if so_LeaseDuration options <=? 0 then 30 * Second else so_LeaseDuration options in
  let rpc := if so_RPCTimeout options <=? 0 then 5 * Second else so_RPCTimeout options in
  let lease := if lease <? mul64 leaseRPCMultiple rpc then mul64 leaseRPCMultiple rpc else lease in
  mkSynchronizer keyring owner maxRetry lease (so_Random options) (so_OnProfileRecovered options).

(** ** Errors of the adapter *)
Definition describe (err : error) : ErrorKind * bool :=
  match err with
  | AdapterError kind _ retryable _ => (kind, retryable)
  | ContextDeadlineExceeded => (ErrorDeadlineExceeded, true)
  | _ => (ErrorInternal, true)
  end.
Definition summaryOf (err : error) : string :=
  match err with
  | AdapterError _ _ _ summary => if bool_decide (summary = "") then "Xray operation failed" else summary
  | _ => "Xray operation failed"
  end.
Definition is_kind (err : error) (kind : ErrorKind) : bool := bool_decide ((describe err).1 = kind).
(** Retryable, and not because the node cannot be reached: the call may have
    been carried out. *)
Definition uncertain (err : error) : bool := (describe err).2 && negb (is_kind err ErrorInstanceUnavailable).

Section Worker.
Context {Ae : Aead}.
Context (s : Synchronizer).

Definition backoff (attempts : Z) : Worker Duration :=
  if s_random s then random ← call Jitter; mret (NextBackoff attempts (s_maxRetry s) (Some random))
  else mret (NextBackoff attempts (s_maxRetry s) None).

(** ** Reading the node *)
Definition inboundPresent (tag : string) : Worker (Res bool) :=
  must (node ListInbounds) (fun inbounds =>
    mret (Ok (existsb (fun i => bool_decide (rb_InboundTag i = tag)) inbounds))).

Definition carriesClient (inbound : RuntimeInbound) (statisticsID : string) : Worker (Res bool) :=
  must (node (ListUsers inbound)) (fun users =>
    mret (Ok (existsb (fun u => bool_decide (ru_StatisticsID u = statisticsID) && ru_Present u) users))).

(** The first user of the identity answers. *)
Definition observe (inbound : RuntimeInbound) (statisticsID : string) : Worker (Res bool) :=
  must (node (ListUsers inbound)) (fun users =>
    mret (Ok (match find (fun u => bool_decide (ru_StatisticsID u = statisticsID)) users with
              | Some user => ru_Present user
              | None => false
              end))).

(** Whether a reading succeeded with this answer. *)
Definition answered (r : Res bool) (b : bool) : bool :=
  match r with Ok b' => Bool.eqb b b' | Err _ => false end.

(** ** Leases *)
Definition fence (work : SyncWork) : Worker (Res bool) :=
  now ← call Now;
  store (CallRenewSyncLease (op_ID (sw_Operation work)) (s_owner s) now (s_lease s)).

Definition fenceDrift (removal : DriftRemoval) : Worker (Res bool) :=
  now ← call Now;
  store (CallRenewDriftRemovalLease (rm_ID removal) (s_owner s) now (s_lease s)).

(** [if held, err := fence(...); err != nil || !held { return err }] *)
Definition guarded (held : Worker (Res bool)) (rest : Worker (Res unit)) : Worker (Res unit) :=
  must held (fun held => if held then rest else mret (Ok tt)).

(** ** Outcomes *)
Definition audit (work : SyncWork) (action : string) (result : AuditResult) (summary : string) (now : Time) : Worker (Res unit) :=
  must (call DrawID) (fun id =>
    store (CallAppendAudit (mkAudit id now ActorSystem None "user" (u_ID (sw_User work)) action result None
             (Some (op_ID (sw_Operation work))) summary))).

Definition recordSuccess (work : SyncWork) (now : Time) : Worker unit :=
  _ ← call (Failures (fun _ => 0));
  _ ← logged (CallMarkInstanceHealthy None now);
  if bool_decide (t_Compatibility (sw_Template work) = CompatibilityUnreachable) && s_onProfileRecovered s
  then call (Recovered (t_ID (sw_Template work))) else mret tt.

Definition place (work : SyncWork) : string :=
  let inbound := ir_Inbound (sw_Inbound work) in
  " (tag " +:+ in_InboundTag inbound +:+ ", port " +:+ pretty (in_Port inbound) +:+ ")".

Definition confirm (work : SyncWork) (present : bool) (version : Z) : Worker (Res unit) :=
  now ← call Now;
  let op := sw_Operation work in
  must (store (CallConfirmSync (op_ID op) (s_owner s) (op_DesiredRevision op) version present now)) (fun confirmed =>
    _ ← recordSuccess work now;
    if negb confirmed then mret (Ok tt)
    else
      must (audit work ActionSyncSucceeded AuditSucceeded "Xray projection confirmed" now) (fun _ =>
        if bool_decide (op_Reason op = SyncRotate) then mret (Ok tt)
        else
          let '(action, sentence) :=
            if present then (ActionInboundCreated, "dedicated inbound created and listening")
            else (ActionInboundRemoved, "dedicated inbound removed; the port stopped listening") in
          must (audit work action AuditSucceeded (sentence +:+ place work) now) (fun _ =>
            if negb present && bool_decide (u_Lifecycle (sw_User work) = LifecycleDeleted) then
              audit work ActionPortReleased AuditSucceeded
                ("port " +:+ pretty (in_Port (ir_Inbound (sw_Inbound work))) +:+
                 " released back to the template pool (tag " +:+ in_InboundTag (ir_Inbound (sw_Inbound work)) +:+ ")") now
            else mret (Ok tt)))).

Definition trackDrift (work : SyncWork) (kind : ErrorKind) (summary : string) (now : Time) : Worker unit :=
  let template := sw_Template work in
  match kind with
  | ErrorIncompatibleProfile | ErrorUnsupportedProtocol | ErrorProfileNotFound | ErrorVersionMismatch =>
      logged (CallSetTemplateCompatibility (t_ID template) CompatibilityIncompatible summary now)
  | ErrorInstanceUnavailable | ErrorDeadlineExceeded =>
      count ← call (Failures (fun failures => failures + 1));
      _ ← logged (CallMarkInstanceUnreachable (kind_string kind) summary now);
      if (unreachableThreshold <=? count) && bool_decide (t_Compatibility template = CompatibilityCompatible) then
        logged (CallSetTemplateCompatibility (t_ID template) CompatibilityUnreachable summary now)
      else mret tt
  | _ => mret tt
  end.

Definition fail_ (work : SyncWork) (kind : ErrorKind) (summary : string) : Worker (Res unit) :=
  now ← call Now;
  must (store (CallFailSync (op_ID (sw_Operation work)) (s_owner s) (kind_string kind) summary now)) (fun _ =>
    audit work ActionSyncFailed AuditFailed summary now).

Definition reschedule (work : SyncWork) (kind : ErrorKind) (summary : string) (now : Time) : Worker (Res unit) :=
  let attempts := op_AttemptCount (sw_Operation work) + 1 in
  delay ← backoff attempts;
  store (CallRescheduleSync (op_ID (sw_Operation work)) (s_owner s) attempts (now + delay) (kind_string kind) summary).

Definition retry (work : SyncWork) (cause : error) : Worker (Res unit) :=
  let '(kind, retryable) := describe cause in
  let summary := summaryOf cause in
  now ← call Now;
  _ ← trackDrift work kind summary now;
  let attempts := op_AttemptCount (sw_Operation work) + 1 in
  if negb retryable || (bool_decide (kind = ErrorInternal) && (maxInternalAttempts <=? attempts)) then
    fail_ work kind summary
  else reschedule work kind summary now.

Definition retryLater (work : SyncWork) (kind : ErrorKind) (summary : string) : Worker (Res unit) :=
  now ← call Now;
  reschedule work kind summary now.

Definition rotationPending (work : SyncWork) (cause : error) : Worker (Res unit) :=
  retryLater work (describe cause).1 (summaryOf cause).

(** ** Creating the dedicated inbound *)
Definition server_key (work : SyncWork) : Res string :=
  let i := sw_Inbound work in
  Decrypt (s_keyring s) (ir_ServerKeyCiphertext i) (ir_ServerKeyNonce i)
    (SecretAAD "dedicated_inbounds" (a_ID (sw_Allocation work)) "server_key" (ir_KeyEncryptionVersion i)).
Definition user_key (work : SyncWork) : Res string :=
  let c := sw_Credential work in
  Decrypt (s_keyring s) (cr_KeyCiphertext c) (cr_KeyNonce c)
    (SecretAAD "access_credentials" (a_ID (sw_Allocation work)) "user_key" (cr_KeyEncryptionVersion c)).

Definition create_command (work : SyncWork) (inbound : RuntimeInbound) (statisticsID serverKey userKey : string) : CreateInboundCommand :=
  mkCreateInbound (op_ID (sw_Operation work)) (ri_InboundTag inbound) (in_ListenAddress (ir_Inbound (sw_Inbound work)))
    (in_Port (ir_Inbound (sw_Inbound work))) (t_Method (sw_Template work)) (t_Network (sw_Template work))
    (NewRedactedString serverKey)
    (mkClient statisticsID (cr_Version (sw_Credential work)) (NewRedactedString userKey)).
Definition remove_command (work : SyncWork) (inbound : RuntimeInbound) : RemoveInboundCommand :=
  mkRemoveInbound (op_ID (sw_Operation work)) (ri_InboundTag inbound).

(** The removal of a registered inbound, whatever it answers. *)
Definition compensate (work : SyncWork) (inbound : RuntimeInbound) (registered : bool) : Worker unit :=
  if registered then _ ← node (RemoveInbound (remove_command work inbound)); mret tt else mret tt.

(** The branches of a failed [CreateInbound]. *)
Definition creation_failed (work : SyncWork) (inbound : RuntimeInbound) (statisticsID : string) (err : error) : Worker (Res unit) :=
  let confirmed := confirm work true (cr_Version (sw_Credential work)) in
  if uncertain err then
    guarded (fence work) (
      present ← inboundPresent (ri_InboundTag inbound);
      if answered present true then confirmed else retry work err)
  else if is_kind err ErrorPortUnavailable then
    guarded (fence work) (
      present ← inboundPresent (ri_InboundTag inbound);
      _ ← compensate work inbound (answered present true);
      retryLater work ErrorPortUnavailable (summaryOf err))
  else if is_kind err ErrorInboundAlreadyExists then
    guarded (fence work) (
      present ← inboundPresent (ri_InboundTag inbound);
      if answered present true then
        healthy ← carriesClient inbound statisticsID;
        if answered healthy true then confirmed
        else
          _ ← compensate work inbound true;
          retryLater work ErrorInboundAlreadyExists (summaryOf err)
      else retry work err)
  else retry work err.

Definition createDedicatedInbound (work : SyncWork) (inbound : RuntimeInbound) (statisticsID : string) : Worker (Res unit) :=
  match server_key work with
  | Err _ => fail_ work ErrorInternal "inbound key could not be decrypted"
  | Ok serverKey =>
      match user_key work with
      | Err _ => fail_ work ErrorInternal "credential key could not be decrypted"
      | Ok userKey =>
          guarded (fence work) (
            created ← node (CreateInbound (create_command work inbound statisticsID serverKey userKey));
            match created with
            | Err err => creation_failed work inbound statisticsID err
            | Ok _ => confirm work true (cr_Version (sw_Credential work))
            end)
      end
  end.

(** ** Rotating the credential inside the inbound

    The four steps of [rotateWithinInbound]; [next] is the rest of the
    function after the step. *)
Definition lists (users : list RemoteUser) (statisticsID : string) : bool :=
  existsb (fun u => ru_Present u && bool_decide (ru_StatisticsID u = statisticsID)) users.

Definition add_command (work : SyncWork) (inbound : RuntimeInbound) (statisticsID : string) (key : RedactedString) : AddUserCommand :=
  mkAddUser (op_ID (sw_Operation work)) (ri_InboundTag inbound) (a_ID (sw_Allocation work)) statisticsID
    (cr_Version (sw_Credential work)) key.
Definition drop_command (work : SyncWork) (inbound : RuntimeInbound) (statisticsID expected : string) : RemoveUserCommand :=
  mkRemoveUser (op_ID (sw_Operation work)) (ri_InboundTag inbound) statisticsID expected.

(** 1: the transition client. *)
Definition add_safety (work : SyncWork) (inbound : RuntimeInbound) (statisticsID : string) (next : Worker (Res unit)) : Worker (Res unit) :=
  let safetyID := RotationSafetyID statisticsID in
  key ← call (DrawUserKey (ri_Method inbound));
  match key with
  | Err _ => fail_ work ErrorInternal "rotation safety key could not be generated"
  | Ok safetyKey =>
      guarded (fence work) (
        added ← node (AddUser (add_command work inbound safetyID safetyKey));
        match added with
        | Ok _ => next
        | Err err =>
            if is_kind err ErrorUserAlreadyExists then next
            else if is_kind err ErrorInboundNotFound then createDedicatedInbound work inbound statisticsID
            else if negb (uncertain err) then retry work err
            else
              guarded (fence work) (
                added ← carriesClient inbound safetyID;
                if answered added true then next else retry work err)
        end)
  end.

(** 2: the client with the old key. *)
Definition remove_old (work : SyncWork) (inbound : RuntimeInbound) (statisticsID : string) (next : Worker (Res unit)) : Worker (Res unit) :=
  guarded (fence work) (
    removed ← node (RemoveUser (drop_command work inbound statisticsID statisticsID));
    match removed with
    | Ok _ => next
    | Err err =>
        if is_kind err ErrorInboundNotFound then createDedicatedInbound work inbound statisticsID
        else if is_kind err ErrorUserNotFound then next
        else retry work err
    end).

(** 3: the client with the new key. *)
Definition add_desired (work : SyncWork) (inbound : RuntimeInbound) (statisticsID : string) (next : Worker (Res unit)) : Worker (Res unit) :=
  match user_key work with
  | Err _ => fail_ work ErrorInternal "credential key could not be decrypted"
  | Ok key =>
      guarded (fence work) (
        added ← node (AddUser (add_command work inbound statisticsID (NewRedactedString key)));
        match added with
        | Ok _ => next
        | Err err =>
            if is_kind err ErrorUserAlreadyExists then next
            else if is_kind err ErrorInboundNotFound then createDedicatedInbound work inbound statisticsID
            else if uncertain err then
              guarded (fence work) (
                healthy ← carriesClient inbound statisticsID;
                if answered healthy true then next else rotationPending work err)
            else rotationPending work err
        end)
  end.

(** 4: the transition client goes. *)
Definition remove_safety (work : SyncWork) (inbound : RuntimeInbound) (statisticsID : string) : Worker (Res unit) :=
  guarded (fence work) (
    removed ← node (RemoveUser (drop_command work inbound (RotationSafetyID statisticsID) statisticsID));
    match removed with
    | Err err =>
        if is_kind err ErrorUserNotFound || is_kind err ErrorInboundNotFound
        then confirm work true (cr_Version (sw_Credential work))
        else rotationPending work err
    | Ok _ => confirm work true (cr_Version (sw_Credential work))
    end).

Definition rotateWithinInbound (work : SyncWork) (inbound : RuntimeInbound) (statisticsID : string) : Worker (Res unit) :=
  guarded (fence work) (
    remote ← node (ListUsers inbound);
    match remote with
    | Err err =>
        if is_kind err ErrorInboundNotFound then createDedicatedInbound work inbound statisticsID else retry work err
    | Ok users =>
        let desired := add_desired work inbound statisticsID (remove_safety work inbound statisticsID) in
        let swap := if lists users statisticsID then remove_old work inbound statisticsID desired else desired in
        if lists users (RotationSafetyID statisticsID) then swap else add_safety work inbound statisticsID swap
    end).

(** ** One operation *)
Definition runtime_inbound (work : SyncWork) : RuntimeInbound :=
  mkRuntime (t_ID (sw_Template work)) (in_InboundTag (ir_Inbound (sw_Inbound work))) (t_Method (sw_Template work)).

Definition withdraw (work : SyncWork) (inbound : RuntimeInbound) : Worker (Res unit) :=
  guarded (fence work) (
    removed ← node (RemoveInbound (remove_command work inbound));
    match removed with
    | Ok _ => confirm work false 0
    | Err err =>
        if is_kind err ErrorInboundNotFound then confirm work false 0
        else if uncertain err then
          guarded (fence work) (
            present ← inboundPresent (ri_InboundTag inbound);
            if answered present false then confirm work false 0 else retry work err)
        else retry work err
    end).

Definition handle (work : SyncWork) : Worker (Res unit) :=
  _ ← call Now;
  let op := sw_Operation work in
  let inbound := runtime_inbound work in
  let statisticsID := i_StatisticsID (sw_Identity work) in
  if negb (op_DesiredPresence op) then withdraw work inbound
  else if bool_decide (op_Reason op = SyncRotate) then rotateWithinInbound work inbound statisticsID
  else if bool_decide (op_Reason op = SyncPortChange) then
    guarded (fence work) (
      removed ← node (RemoveInbound (remove_command work inbound));
      match removed with
      | Err err => if is_kind err ErrorInboundNotFound then createDedicatedInbound work inbound statisticsID else retry work err
      | Ok _ => createDedicatedInbound work inbound statisticsID
      end)
  else createDedicatedInbound work inbound statisticsID.

(** ** Drift removals *)
Definition kind_text (kind : DriftKind) : string :=
  match kind with DriftInbound => "inbound" | DriftIdentity => "identity" end.

(** The identifier is empty when the random source fails. *)
Definition driftAudit (removal : DriftRemoval) (result : AuditResult) (summary : string) (now : Time) : Worker AuditEvent :=
  id ← call DrawID;
  mret (mkAudit (match id with Ok id => id | Err _ => "" end) now ActorSystem None "template" (rm_TemplateID removal)
          ActionReconcileRemovedUnknown result None (Some (rm_ID removal)) summary).

Definition complete_removal (removal : DriftRemoval) (summary : string) (now : Time) : Worker (Res unit) :=
  event ← driftAudit removal AuditSucceeded summary now;
  store (CallCompleteDriftRemoval (rm_ID removal) (s_owner s) now event).

Definition target_present (removal : DriftRemoval) : Worker (Res bool) :=
  match rm_Kind removal with
  | DriftInbound => inboundPresent (rm_InboundTag removal)
  | DriftIdentity => observe (mkRuntime (rm_TemplateID removal) (rm_InboundTag removal) "") (rm_StatisticsID removal)
  end.

Definition removal_failed (removal : DriftRemoval) (err : error) (now : Time) : Worker (Res unit) :=
  let '(kind, retryable) := describe err in
  let summary := summaryOf err in
  let attempts := rm_AttemptCount removal + 1 in
  if negb retryable || (bool_decide (kind = ErrorInternal) && (maxInternalAttempts <=? attempts)) then
    event ← driftAudit removal AuditFailed ("removal of unknown identity failed: " +:+ summary) now;
    store (CallFailDriftRemoval (rm_ID removal) (s_owner s) (kind_string kind) summary now event)
  else
    delay ← backoff attempts;
    store (CallRescheduleDriftRemoval (rm_ID removal) (s_owner s) attempts (now + delay) (kind_string kind) summary).

Definition remove_target (removal : DriftRemoval) (now : Time) : Worker (Res unit) :=
  let target := kind_text (rm_Kind removal) in
  let removed := "removed unknown " +:+ target +:+ " from the managed namespace" in
  r ← match rm_Kind removal with
      | DriftInbound => node (RemoveInbound (mkRemoveInbound (rm_ID removal) (rm_InboundTag removal)))
      | DriftIdentity => node (RemoveUser (mkRemoveUser (rm_ID removal) (rm_InboundTag removal) (rm_StatisticsID removal)
                                             (rm_ExpectedStatisticsID removal)))
      end;
  match r with
  | Ok _ => complete_removal removal removed now
  | Err err =>
      if is_kind err ErrorUserNotFound || is_kind err ErrorInboundNotFound then
        complete_removal removal ("unknown " +:+ target +:+ " confirmed absent from the managed namespace") now
      else if uncertain err then
        guarded (fenceDrift removal) (
          present ← target_present removal;
          if answered present false then complete_removal removal removed now else removal_failed removal err now)
      else removal_failed removal err now
  end.

(** The removal of an earlier holder of the lease may have been carried out. *)
Definition already_absent (removal : DriftRemoval) : Worker bool :=
  if rm_Reclaimed removal then present ← target_present removal; mret (answered present false) else mret false.

Definition handleDriftRemoval (removal : DriftRemoval) : Worker (Res unit) :=
  now ← call Now;
  guarded (fenceDrift removal) (
    absent ← already_absent removal;
    if (absent : bool) then complete_removal removal "drift target confirmed absent after lease reclaim" now
    else remove_target removal now).

(** ** Everything that is due

    [processed] operations so far; [None] when the fuel runs out. *)
Fixpoint drain_sync (fuel : nat) (processed : Z) : Worker (option (Z * option error)) :=
  match fuel with
  | O => mret None
  | S fuel =>
      stop ← call CtxErr;
      match stop with
      | Some err => mret (Some (processed, Some err))
      | None =>
          now ← call Now;
          work ← store (CallLeaseDueSync (s_owner s) now (s_lease s));
          match work with
          | Err err => mret (Some (processed, Some err))
          | Ok None => mret (Some (processed, None))
          | Ok (Some work) =>
              r ← handle work;
              match r with
              | Err err => mret (Some (processed + 1, Some err))
              | Ok _ => drain_sync fuel (processed + 1)
              end
          end
      end
  end.

Fixpoint drain_drift (fuel : nat) (processed : Z) : Worker (option (Z * option error)) :=
  match fuel with
  | O => mret None
  | S fuel =>
      stop ← call CtxErr;
      match stop with
      | Some err => mret (Some (processed, Some err))
      | None =>
          now ← call Now;
          removal ← store (CallLeaseDueDriftRemoval (s_owner s) now (s_lease s));
          match removal with
          | Err err => mret (Some (processed, Some err))
          | Ok None => mret (Some (processed, None))
          | Ok (Some removal) =>
              r ← handleDriftRemoval removal;
              match r with
              | Err err => mret (Some (processed + 1, Some err))
              | Ok _ => drain_drift fuel (processed + 1)
              end
          end
      end
  end.

Definition Drain (fuel : nat) : Worker (option (Z * option error)) :=
  r ← drain_sync fuel 0;
  match r with
  | Some (processed, None) => drain_drift fuel processed
  | Some (processed, Some err) => mret (Some (processed, Some err))
  | None => mret None
  end.
End Worker.
