(* ===== verification/ConnectionLaws.v ===== *)
(** * What the panel hands out

    The address a client parses is the connection information, and the keys in
    it are keys the synchronizer has confirmed. *)

From Stdlib Require Import ZArith Lia.
From S2P Require Import Prelude GoTypes Identity Ports Text Inbound Tokens User Sync Quota Traffic Template Net Cycle Records Database Secrets Url StoreCore StoreSync StoreQuota StoreUsers StoreTraffic StoreDrift StoreTemplates UserService StoreSessions Demo Intent IntentTx IntentSync IntentUser History Rows SyncLaws Keys Adapter Calls ConnectionService Synchronizer.

Lemma GetUser_joined id c record c' : GetUser id c = (Ok record, c') ->
  c' = c /\ exists a, a_UserID a = id /\ (exists k, db_allocations (conn_db c) !! k = Some a) /\ join_user a (conn_db c) = Some record.
Proof.
  intros H%on_no_rows_ok%tx_row_ok. destruct H as [H ->]. split; [done|].
  unfold allocation_of_user in H. destruct (find_row _ _) as [a|] eqn:E; [|done].
  apply find_row_some in E as [Hu%bool_decide_eq_true Hk]. by exists a.
Qed.

Lemma join_user_rows a db record : join_user a db = Some record ->
  ur_Allocation record = a /\
  (exists id, db_credentials db !! id = Some (ur_Credential record)) /\
  cr_AllocationID (ur_Credential record) = a_ID a /\
  db_inbounds db !! a_ID a = Some (ur_Inbound record) /\
  exists t, db_templates db !! a_TemplateID a = Some t /\
    t_Method (ur_Template record) = t_Method t /\ t_PublicHost (ur_Template record) = t_PublicHost t.
Proof.
  unfold join_user. destruct (db_users db !! _) as [u|]; [|done]. cbn.
  destruct (db_identities db !! _) as [i|]; [|done]. cbn. destruct (db_templates db !! _) as [t|]; [|done]. cbn.
  destruct (db_inbounds db !! _) as [d|]; [|done]. cbn. destruct (credential_of _ _ _) as [k|] eqn:Ek; [|done]. cbn.
  destruct (db_policies db !! _); [|done]. cbn. destruct (open_cycle _ _); [|done]. cbn. intros [= <-]. cbn.
  apply find_row_some in Ek as [[Ha%bool_decide_eq_true _]%andb_true_iff Hid].
  split_and!; [done|exact Hid|done|done|]. by exists t.
Qed.

Section Laws.
Context {Ae : Aead} (keyring : Keyring).

Lemma connection_of_ok record info : connection_of keyring record = Ok info ->
  exists serverKey userKey, inbound_key keyring record = Ok serverKey /\ credential_key keyring record = Ok userKey /\
    u_Lifecycle (ur_User record) <> LifecycleDeleted /\ active (ur_Credential record) /\
    a_DesiredCredentialVersion (ur_Allocation record) = cr_Version (ur_Credential record) /\
    info = mkConnection (t_PublicHost (ur_Template record)) (in_Port (ir_Inbound (ur_Inbound record)))
      (t_Method (ur_Template record)) (u_DisplayName (ur_User record))
      (NewRedactedString (serverKey +:+ ":" +:+ userKey))
      (NewRedactedString (ss_uri (t_Method (ur_Template record)) (serverKey +:+ ":" +:+ userKey)
        (t_PublicHost (ur_Template record)) (in_Port (ir_Inbound (ur_Inbound record))) (u_DisplayName (ur_User record))))
      (negb (DesiredPresent (ur_Allocation record) (ur_User record))).
Proof.
  unfold connection_of. case_bool_decide as Hd; [done|]. case_bool_decide as Ha; [done|]. cbn [orb].
  destruct (Z.eqb_spec (a_DesiredCredentialVersion (ur_Allocation record)) (cr_Version (ur_Credential record))) as [Hv|Hv]; [|done].
  cbn [negb]. destruct (inbound_key keyring record) as [sk|]; [|done]. destruct (credential_key keyring record) as [uk|]; [|done].
  intros [= <-]. exists sk, uk. done.
Qed.


Context {Zn : Zones} {En : Entropy} {Un : Unicode} {Sh : Sha256}.

Lemma history_keys h c : history h c -> forall id k, db_credentials (conn_db c) !! id = Some k -> active k ->
  exists old k0, old ∈ h /\ db_credentials old !! id = Some k0 /\ active k0 /\ key_of k0 = key_of k /\ confirmed_key old k0.
Proof.
  induction 1 as [n|h c old c' Hh IH Hin Hs]; intros id k Hk Ha.
  - cbn in Hk. by rewrite lookup_empty in Hk.
  - destruct (step_keys _ _ _ _ _ Hs Hk Ha) as [Hc|(k0 & Hk0 & Ha0 & E)].
    + exists (conn_db c'), k. by split_and!; [left|..].
    + destruct (IH id k0 Hk0 Ha0) as (o & k1 & Ho & Hk1 & Ha1 & E1 & Hc1). exists o, k1.
      split_and!; [by right|done|done|congruence|done].
Qed.

(** The work the synchronizer would lease for the same rows. *)
Definition work_of (op : SynchronizationOperation) (r : UserRecord) : SyncWork :=
  mkSyncWork op (ur_User r) (ur_Allocation r) (ur_Identity r) (ur_Template r) (ur_Inbound r) (ur_Credential r).

(** C14: in every reachable state, connection information is given for a user
    only with a key that the synchronizer has confirmed: in some earlier state
    the allocation was recorded as present on the node with the version of
    exactly this sealed key. The password consists of the very keys from which
    the synchronizer makes the command that creates the inbound, for the same
    port and method. *)
Theorem handed_out_keys_were_confirmed h c user record c' info : history h c ->
  GetUser user c = (Ok record, c') -> connection_of keyring record = Ok info ->
  (exists old id k a, old ∈ h /\ db_credentials old !! id = Some k /\ active k /\ key_of k = key_of (ur_Credential record) /\
     db_allocations old !! a_ID (ur_Allocation record) = Some a /\
     a_SyncedCredentialVersion a = Some (a_DesiredCredentialVersion (ur_Allocation record)) /\
     a_ProjectionState a = ProjectionPresent /\ a_ObservedPresent a = Some true) /\
  forall s op inbound statisticsID, s_keyring s = keyring -> exists serverKey userKey,
    server_key s (work_of op record) = Ok serverKey /\ user_key s (work_of op record) = Ok userKey /\
    let command := create_command (work_of op record) inbound statisticsID serverKey userKey in
    Reveal (co_Password info) = Reveal (ci_ServerKey command) +:+ ":" +:+ Reveal (cl_UserKey (ci_Client command)) /\
    co_Port info = ci_Port command /\ co_Method info = ci_Method command.
Proof.
  intros Hh Hg Hi. apply GetUser_joined in Hg as (_ & a & _ & _ & Hj).
  apply join_user_rows in Hj as (Ha & (id & Hid) & Hk & _).
  apply connection_of_ok in Hi as (sk & uk & Hsk & Huk & _ & Hact & Hv & ->). split.
  - destruct (history_keys h c Hh id _ Hid Hact) as (old & k & Ho & Hr & Hak & E & (b & Hb & H1 & H2 & H3)).
    exists old, id, k, b. assert (cr_AllocationID k = a_ID a /\ cr_Version k = cr_Version (ur_Credential record)) as [E1 E2].
    { unfold key_of in E. injection E as E1 E2 _ _ _. by rewrite E1. }
    rewrite Hv, Ha. rewrite E1 in Hb. rewrite E2 in H1. rewrite Ha in *. done.
  - intros s op inbound sid <-. exists sk, uk. done.
Qed.
End Laws.

(** ** A user of the demonstration *)
Definition demo_record (c : Conn) : option UserRecord := match (GetUser alice c).1 with Ok r => Some r | Err _ => None end.
Definition demo_uri (c : Conn) : option string :=
  r ← demo_record c; match connection_of demo_keyring r with Ok i => Some (Reveal (co_URI i)) | Err _ => None end.

(** Before the confirmation nothing is handed out. *)
Example no_connection_before_confirmation :
  (r ← demo_record conn5; match connection_of demo_keyring r with Err e => Some e | Ok _ => None end) = Some ErrConnectionPending.
Proof. by vm_compute. Qed.

(** A bracketed IPv6 host passes the check of [NewInboundTemplate] and makes an
    address no client can read. *)
Example bracketed_host_accepted :
  is_ok (NewInboundTemplate (demo_id 1) (demo_id 2) "main" "[2001:db8::1]" "0.0.0.0" 20000 20001 MethodAES128 NetworkTCP t0) = true /\
  parse_ss (ss_uri MethodAES128 "s:u" "[2001:db8::1]" 20000 "Alice") = None.
Proof. split; by vm_compute. Qed.

(** The record and the connection information of Alice after the confirmation. *)
Definition handed8 (P : UserRecord -> ConnectionInfo -> bool) : bool :=
  match (GetUser alice conn8).1 with
  | Ok r => match connection_of demo_keyring r with Ok i => P r i | Err _ => false end
  | Err _ => false
  end.
Lemma handed8_some P : handed8 P = true -> exists r i,
  GetUser alice conn8 = (Ok r, (GetUser alice conn8).2) /\ connection_of demo_keyring r = Ok i /\ P r i = true.
Proof.
  unfold handed8. destruct (GetUser alice conn8) as [[r|e] c]; [|done]. cbn [fst snd].
  destruct (connection_of demo_keyring r) as [i|e] eqn:E; [|done]. intros HP. by exists r, i.
Qed.
Lemma conn8_history : exists h, history h conn8.
Proof.
  destruct conn5_reachable as (h & Hh & _).
  pose proof (history_step _ conn5 _ conn7 Hh (history_now _ _ Hh) (step_lease _ conn5 _ _ _)) as H7.
  eexists. exact (history_step _ conn7 _ conn8 H7 (list_elem_of_here _ _) (step_confirm _ conn7 _ _ _ _ _ _)).
Qed.


Lemma handed_out_keys_were_confirmed_witness : exists h r i, history h conn8 /\
  GetUser alice conn8 = (Ok r, (GetUser alice conn8).2) /\ connection_of demo_keyring r = Ok i /\ co_Port i = 20000 /\
  exists old a, old ∈ h /\ db_allocations old !! a_ID (ur_Allocation r) = Some a /\ a_SyncedCredentialVersion a = Some 1.
Proof.
  destruct (handed8_some (fun r i => (co_Port i =? 20000) && (a_DesiredCredentialVersion (ur_Allocation r) =? 1)))
    as (r & i & Hg & Hi & Hp); [vm_compute; reflexivity|].
  apply andb_true_iff in Hp as [Hp Hv]. apply Z.eqb_eq in Hp, Hv. destruct conn8_history as (h & Hh). exists h, r, i.
  split; [exact Hh|]. split; [exact Hg|]. split; [exact Hi|]. split; [exact Hp|].
  destruct (proj1 (handed_out_keys_were_confirmed demo_keyring h conn8 alice r _ i Hh Hg Hi))
    as (old & id & k & a & Ho & _ & _ & _ & Ha & Hs & _).
  exists old, a. split; [exact Ho|]. split; [exact Ha|]. rewrite Hs, Hv. reflexivity.
Defined.
