(* ===== verification/ReconcileLaws.v ===== *)
(** * What a reconciliation round queues

    Everything a round queues is justified by what the store and the node
    answered, and a round that ends without an error has left nothing out. *)

From Stdlib Require Import ZArith Lia.
From S2P Require Import Prelude GoTypes Identity Text Inbound Tokens User Sync Quota Traffic Template Cycle Records Database StoreCore StoreSync StoreQuota StoreUsers StoreTraffic StoreTemplates UserService Adapter Calls Trace TrafficService ReconciliationService Synchronizer.

(** ** Loops over calls *)
Section Loops.
Context (may : Past -> forall R, Effect R -> Prop).
Context (base : Past).

Definition kept_by {A} (done_ : Past -> A -> Prop) : Prop := forall past past' x, past ⊆ past' -> done_ past x -> done_ past' x.

Lemma each_dialogue {A} (done_ : Past -> A -> Prop) (xs : list A) body past st : kept_by done_ -> base ⊆ past ->
  (forall x past st, x ∈ xs -> base ⊆ past ->
     dialogue may past (body x st) (fun past' out => out.2 = None -> done_ past' x)) ->
  dialogue may past (each xs body st) (fun past' out => out.2 = None -> Forall (done_ past') xs).
Proof.
  intros Hk. revert past st. induction xs as [|x xs IH]; intros past st Hs Hb; [by constructor|]. cbn [each].
  eapply dialogue_then; [apply Hb; [left|done]|]. intros past1 [st1 [err|]] H1 Hd; [done|].
  eapply dialogue_mono; [|apply IH; [by etransitivity|]].
  - intros past2 out H2 Hf Hn. constructor; [|by apply Hf]. eapply Hk; [exact H2|]. by apply Hd.
  - intros y past' st' Hy. apply Hb. by right.
Qed.

Lemma and_then_dialogue p f (P Q : Past -> Prop) past : base ⊆ past ->
  dialogue may past p (fun past' out => out.2 = None -> P past') ->
  (forall past' st, base ⊆ past' -> P past' -> dialogue may past' (f st) (fun past'' out => out.2 = None -> Q past'')) ->
  dialogue may past (and_then p f) (fun past' out => out.2 = None -> Q past').
Proof.
  intros Hs Hp Hf. eapply dialogue_then; [exact Hp|]. intros past1 [st [err|]] H1 Hd; [done|].
  apply Hf; [by etransitivity|by apply Hd].
Qed.

Lemma or_return_dialogue {R} (e : Effect (Res R)) f (Q : Past -> Outcome -> Prop) st past :
  may past _ e -> (forall err past', Q past' (st, Some err)) ->
  (forall r, dialogue may (mkExchange e (Ok r) :: past) (f r) Q) ->
  dialogue may past (or_return st (call e) f) Q.
Proof. intros He Hq Hf. split; [exact He|]. intros [r|err]; [apply Hf|apply Hq]. Qed.
End Loops.

(** ** The contract of a round *)
Section Laws.
Context {Mo : MapOrder} {MoOk : MapOrderOk}.
Context (s : ReconciliationService).

(** What a round has read. *)
Record Reading := mkReading {
  g_templates : list InboundTemplate;
  g_users : list UserRecord;
  g_inbounds : list RemoteInbound }.
Definition listening (g : Reading) : gset string := panel_tags (g_inbounds g).
Definition has_read (past : Past) (g : Reading) : Prop :=
  asked past (OnStore (CallTemplates false)) (Ok (g_templates g)) /\
  asked past (OnStore (CallListUsers (mkFilter "" "" true))) (Ok (g_users g)) /\
  asked past (OnNode ListInbounds) (Ok (g_inbounds g)).

(** The template of a record, unless it is found incompatible. *)
Definition projected_by (g : Reading) (record : UserRecord) (template : InboundTemplate) : Prop :=
  template_by_id (g_templates g) !! a_TemplateID (ur_Allocation record) = Some template /\
  t_Compatibility template <> CompatibilityIncompatible.
Definition clients_of (past : Past) (template : InboundTemplate) (record : UserRecord) (clients : list RemoteUser) : Prop :=
  asked past (OnNode (ListUsers (mkRuntime (t_ID template) (tag_of record) (t_Method template)))) (Ok clients).
(** Whether the client of the record is on the node. *)
Definition carried (past : Past) (g : Reading) (record : UserRecord) (template : InboundTemplate) (actual : bool) : Prop :=
  if bool_decide (tag_of record ∈ listening g) then
    exists clients, clients_of past template record clients /\ actual = lists clients (i_StatisticsID (ur_Identity record))
  else actual = false.
(** A client the inbound of the record should not have; a rotation in progress
    is entitled to its transition client. *)
Definition unknown_client (record : UserRecord) (clients : list RemoteUser) (rotating : bool) (id : string) : Prop :=
  let expected := i_StatisticsID (ur_Identity record) in
  (exists user, user ∈ clients /\ ru_Present user = true /\ ru_StatisticsID user = id) /\ id <> expected /\
  (rotating = true -> id <> RotationSafetyID expected).
Definition rotating_is (past : Past) (record : UserRecord) (rotating : bool) : Prop :=
  asked past (OnStore (CallHasOpenRotation (a_ID (ur_Allocation record)))) (Ok rotating).
Definition failed_for_good (past : Past) (owner : ID) (removal : DriftRemoval) : Prop :=
  exists removals, removal ∈ removals /\
    (asked past (OnStore (CallStaleDriftRemovals owner)) (Ok removals) \/
     owner = "" /\ asked past (OnStore CallOrphanStaleDriftRemovals) (Ok removals)).

Inductive removable (past : Past) (g : Reading) : ID -> string -> DriftKind -> string -> Prop :=
| orphan_inbound tag : tag ∈ listening g -> (forall record, record ∈ g_users g -> tag_of record <> tag) ->
    removable past g (anyTemplateID (g_templates g)) tag DriftInbound tag
| foreign_client record template clients rotating id : record ∈ g_users g -> projected_by g record template ->
    tag_of record ∈ listening g -> clients_of past template record clients ->
    rotating_is past record rotating -> unknown_client record clients rotating id ->
    removable past g (t_ID template) (tag_of record) DriftIdentity id
| absent_target owner removal : failed_for_good past owner removal -> rm_InboundTag removal ∉ listening g ->
    removable past g owner (rm_InboundTag removal) (rm_Kind removal) (rm_StatisticsID removal).

Definition drifted (past : Past) (g : Reading) (record : UserRecord) : Prop := exists template actual,
  projected_by g record template /\ carried past g record template actual /\ actual <> wanted record /\
  PendingSync (ur_Allocation record) = false /\
  asked past (OnStore (CallHasOpenOperation (a_ID (ur_Allocation record)))) (Ok false).
Definition observed_as (past : Past) (g : Reading) (id : ID) (present : bool) : Prop := exists record template,
  record ∈ g_users g /\ projected_by g record template /\ id = a_ID (ur_Allocation record) /\
  carried past g record template present.

(** The calls a round may make. *)
Definition reconciling (past : Past) (R : Type) (e : Effect R) : Prop :=
  match e with
  | OnStore (CallEnqueueDriftRemoval owner tag kind id _) => exists g, has_read past g /\ removable past g owner tag kind id
  | OnStore (CallEnqueueReconcile id expected op now) => exists g record opID, has_read past g /\ record ∈ g_users g /\
      drifted past g record /\ id = a_ID (ur_Allocation record) /\ expected = a_DesiredRevision (ur_Allocation record) /\
      op = reconcile_operation record opID now
  | OnStore (CallRecordObservation id present _) => exists g, has_read past g /\ observed_as past g id present
  | OnStore (CallConfirmInboundPresence id present _) => exists g, has_read past g /\ observed_as past g id present
  | OnStore (CallTemplates _) | OnStore (CallListUsers _) | OnStore (CallHasOpenRotation _)
  | OnStore (CallHasOpenOperation _) | OnStore (CallStaleDriftRemovals _) | OnStore CallOrphanStaleDriftRemovals
  | OnStore (CallAdvanceCapabilityGeneration _ _ _) | OnStore (CallInvalidateStaleCapabilityEvidence _ _)
  | OnStore (CallMarkInstanceHealthy _ _) | OnStore (CallMarkInstanceUnreachable _ _ _) => True
  | OnStore _ => False
  | OnNode call => mutated_tag call = None
  | _ => True
  end.

(** What a complete round has done for an inbound, an allocation, a removal. *)
Definition queued_removal (past : Past) (owner : ID) (tag : string) (kind : DriftKind) (id : string) : Prop :=
  exists now created, asked past (OnStore (CallEnqueueDriftRemoval owner tag kind id now)) (Ok created).
Definition tag_settled (g : Reading) (past : Past) (tag : string) : Prop :=
  (exists record, record ∈ g_users g /\ tag_of record = tag) \/
  queued_removal past (anyTemplateID (g_templates g)) tag DriftInbound tag.
Definition clients_settled (past : Past) (template : InboundTemplate) (record : UserRecord) : Prop :=
  exists clients rotating, clients_of past template record clients /\ rotating_is past record rotating /\
    forall id, unknown_client record clients rotating id -> queued_removal past (t_ID template) (tag_of record) DriftIdentity id.
Definition repaired (past : Past) (record : UserRecord) (actual : bool) : Prop :=
  let a := ur_Allocation record in
  (exists now, asked past (OnStore (CallRecordObservation (a_ID a) actual now)) (Ok tt)) /\
  (exists now, asked past (OnStore (CallConfirmInboundPresence (a_ID a) actual now)) (Ok tt)) /\
  (PendingSync a = true \/ actual = wanted record \/
   asked past (OnStore (CallHasOpenOperation (a_ID a))) (Ok true) \/
   exists opID now created, asked past (OnStore (CallEnqueueReconcile (a_ID a) (a_DesiredRevision a)
                                                  (reconcile_operation record opID now) now)) (Ok created)).
Definition user_settled (g : Reading) (past : Past) (record : UserRecord) : Prop :=
  forall template, projected_by g record template ->
    (tag_of record ∈ listening g -> clients_settled past template record) /\
    exists actual, carried past g record template actual /\ repaired past record actual.
Definition removals_settled (g : Reading) (past : Past) (owner : ID) (removals : list DriftRemoval) : Prop :=
  Forall (fun removal => rm_InboundTag removal ∈ listening g \/
    queued_removal past owner (rm_InboundTag removal) (rm_Kind removal) (rm_StatisticsID removal)) removals.
Definition stale_settled (g : Reading) (past : Past) (template : InboundTemplate) : Prop := exists removals,
  asked past (OnStore (CallStaleDriftRemovals (t_ID template))) (Ok removals) /\ removals_settled g past (t_ID template) removals.
Definition orphans_settled (g : Reading) (past : Past) : Prop := exists removals,
  asked past (OnStore CallOrphanStaleDriftRemovals) (Ok removals) /\ removals_settled g past "" removals.
Definition settled (past : Past) (g : Reading) : Prop :=
  Forall (tag_settled g past) (iterate (listening g)) /\ Forall (user_settled g past) (g_users g) /\
  Forall (stale_settled g past) (g_templates g) /\ orphans_settled g past.

(** *** More calls change nothing of what is said *)
Lemma has_read_mono past past' g : past ⊆ past' -> has_read past g -> has_read past' g.
Proof. intros Hs (H1 & H2 & H3). split_and!; by apply Hs. Qed.
Lemma carried_mono past past' g record template actual : past ⊆ past' ->
  carried past g record template actual -> carried past' g record template actual.
Proof. unfold carried. intros Hs. case_bool_decide; [|done]. intros (clients & Hc & ->). exists clients. split; [by apply Hs|done]. Qed.
Lemma queued_mono past past' owner tag kind id : past ⊆ past' ->
  queued_removal past owner tag kind id -> queued_removal past' owner tag kind id.
Proof. intros Hs (now & created & H). exists now, created. by apply Hs. Qed.
Lemma tag_settled_mono g : kept_by (tag_settled g).
Proof. intros past past' tag Hs [H|H]; [by left|right; by eapply queued_mono]. Qed.
Lemma clients_settled_mono past past' template record : past ⊆ past' ->
  clients_settled past template record -> clients_settled past' template record.
Proof.
  intros Hs (clients & rotating & H1 & H2 & H3). exists clients, rotating. split_and!; [by apply Hs..|].
  intros id Hid. eapply queued_mono; [done|by apply H3].
Qed.
Lemma repaired_mono past past' record actual : past ⊆ past' -> repaired past record actual -> repaired past' record actual.
Proof.
  intros Hs ((n1 & H1) & (n2 & H2) & H3). split; [exists n1; by apply Hs|]. split; [exists n2; by apply Hs|].
  destruct H3 as [H3|[H3|[H3|(op & now & created & H3)]]]; [by left|by right; left|right; right; left; by apply Hs|].
  right; right; right. exists op, now, created. by apply Hs.
Qed.
Lemma user_settled_mono g : kept_by (user_settled g).
Proof.
  intros past past' record Hs Hu template Ht. destruct (Hu template Ht) as [Hc (actual & H1 & H2)]. split.
  - intros Hl. eapply clients_settled_mono; [done|by apply Hc].
  - exists actual. split; [by eapply carried_mono|by eapply repaired_mono].
Qed.
Lemma removals_settled_mono g past past' owner removals : past ⊆ past' ->
  removals_settled g past owner removals -> removals_settled g past' owner removals.
Proof. intros Hs Hr. eapply Forall_impl; [exact Hr|]. intros removal [H|H]; [by left|right; by eapply queued_mono]. Qed.
Lemma stale_settled_mono g : kept_by (stale_settled g).
Proof.
  intros past past' template Hs (removals & H1 & H2). exists removals. split; [by apply Hs|by eapply removals_settled_mono].
Qed.

(** *** The parts of the round *)
Abbreviation says := (dialogue reconciling).

Section Parts.
Context (g : Reading) (base : Past) (now : Time).
Context (Hg : has_read base g).
Abbreviation users := (g_users g).
Abbreviation templates := (g_templates g).

Lemma reads_now past : base ⊆ past -> has_read past g.
Proof. intros Hs. exact (has_read_mono _ _ _ Hs Hg). Qed.

Lemma visit_template_says template past st :
  says past (visit_template s template st) (fun _ out => out.2 = None -> True).
Proof. unfold visit_template. destruct (_ && _ && _); by repeat split. Qed.

Lemma visit_tag_says tag past st : tag ∈ listening g -> base ⊆ past ->
  says past (visit_tag templates users now tag st) (fun past' out => out.2 = None -> tag_settled g past' tag).
Proof.
  intros Ht Hs. unfold visit_tag. case_bool_decide as Hin.
  { intros _. left. apply list_elem_of_fmap in Hin as (record & -> & Hr). by exists record. }
  apply or_return_dialogue; [|done|].
  - exists g. split; [by apply reads_now|]. constructor; [done|]. intros record Hr <-. apply Hin. by apply list_elem_of_fmap_2.
  - intros created _. right. exists now, created. apply asked_now.
Qed.

Lemma confirm_absent_says owner removal past st : base ⊆ past -> failed_for_good past owner removal ->
  says past (confirm_absent owner (listening g) now removal st) (fun past' out => out.2 = None ->
    rm_InboundTag removal ∈ listening g \/
    queued_removal past' owner (rm_InboundTag removal) (rm_Kind removal) (rm_StatisticsID removal)).
Proof.
  intros Hs Hf. unfold confirm_absent. case_bool_decide as Hin; [by left|].
  apply or_return_dialogue; [|done|].
  - exists g. split; [by apply reads_now|]. by constructor.
  - intros created _. right. exists now, created. apply asked_now.
Qed.

Lemma removals_says owner removals past st : base ⊆ past ->
  (forall past', past ⊆ past' -> forall removal, removal ∈ removals -> failed_for_good past' owner removal) ->
  says past (each removals (confirm_absent owner (listening g) now) st)
    (fun past' out => out.2 = None -> removals_settled g past' owner removals).
Proof.
  intros Hs Hf. apply (each_dialogue _ past); [|done|].
  - intros p p' removal Hp [H|H]; [by left|right; by eapply queued_mono].
  - intros removal past' st' Hr Hp. apply confirm_absent_says; [by etransitivity|by apply Hf].
Qed.

Lemma visit_stale_says template past st : base ⊆ past ->
  says past (visit_stale (listening g) now template st) (fun past' out => out.2 = None -> stale_settled g past' template).
Proof.
  intros Hs. apply or_return_dialogue; [done|done|]. intros removals.
  eapply dialogue_mono; [|apply removals_says; [by apply past_cons|]].
  - intros past' out Hp Hr Hn. exists removals. split; [apply Hp, asked_now|by apply Hr].
  - intros past' Hp removal Hr. exists removals. split; [done|]. left. apply Hp, asked_now.
Qed.
Lemma visit_orphans_says past st : base ⊆ past ->
  says past (visit_orphans (listening g) now st) (fun past' out => out.2 = None -> orphans_settled g past').
Proof.
  intros Hs. apply or_return_dialogue; [done|done|]. intros removals.
  eapply dialogue_mono; [|apply removals_says; [by apply past_cons|]].
  - intros past' out Hp Hr Hn. exists removals. split; [apply Hp, asked_now|by apply Hr].
  - intros past' Hp removal Hr. exists removals. split; [done|]. right. split; [done|]. apply Hp, asked_now.
Qed.

(** **** One allocation *)
Section Allocation.
Context (record : UserRecord) (template : InboundTemplate).
Context (Hu : record ∈ users) (Ht : projected_by g record template).

Lemma repair_says actual past st : base ⊆ past -> carried past g record template actual ->
  says past (repair s record now actual st) (fun past' out => out.2 = None -> repaired past' record actual).
Proof.
  intros Hs Hc.
  assert (forall past', past ⊆ past' -> exists g, has_read past' g /\ observed_as past' g (a_ID (ur_Allocation record)) actual) as Hobs.
  { intros past' Hp. exists g. split; [apply reads_now; by etransitivity|]. exists record, template. split_and!; try done.
    by eapply carried_mono. }
  unfold repair. apply or_return_dialogue; [by apply Hobs|done|]. intros []. set (past1 := _ :: past).
  assert (past ⊆ past1) as H1 by by apply past_cons.
  apply or_return_dialogue; [by apply Hobs|done|]. intros []. set (past2 := _ :: past1).
  assert (past1 ⊆ past2) as H2 by by apply past_cons.
  assert (forall past', past2 ⊆ past' ->
    (exists now, asked past' (OnStore (CallRecordObservation (a_ID (ur_Allocation record)) actual now)) (Ok tt)) /\
    (exists now, asked past' (OnStore (CallConfirmInboundPresence (a_ID (ur_Allocation record)) actual now)) (Ok tt))) as Hseen.
  { intros past' Hp. split; exists now; apply Hp; [apply H2|]; apply asked_now. }
  destruct (PendingSync _) eqn:Ep.
  { intros _. split; [by apply Hseen|]. split; [by apply Hseen|]. by left. }
  destruct (Bool.eqb actual (wanted record)) eqn:Ew.
  { intros _. apply eqb_prop in Ew. split; [by apply Hseen|]. split; [by apply Hseen|]. by right; left. }
  apply or_return_dialogue; [done|done|]. intros [].
  { intros _. destruct (Hseen _ (past_cons (mkExchange (OnStore (CallHasOpenOperation (a_ID (ur_Allocation record)))) (Ok true)) _ _ (reflexivity _)))
      as [? ?]. split; [done|]. split; [done|]. right; right; left. apply asked_now. }
  set (past3 := _ :: past2). assert (past2 ⊆ past3) as H3 by by apply past_cons.
  apply or_return_dialogue; [done|done|]. intros opID. set (past4 := _ :: past3).
  assert (past3 ⊆ past4) as H4 by by apply past_cons.
  assert (past ⊆ past4) as H04 by (do 3 (etransitivity; [eassumption|]); done).
  apply or_return_dialogue; [|done|].
  - exists g, record, opID. split; [apply reads_now; by etransitivity|]. split; [done|]. split; [|done].
    exists template, actual. split; [done|]. split; [by eapply carried_mono|]. split; [by intros ->; rewrite eqb_reflx in Ew|].
    split; [done|]. apply H4, asked_now.
  - intros created _. destruct (Hseen (mkExchange (OnStore (CallEnqueueReconcile (a_ID (ur_Allocation record))
      (a_DesiredRevision (ur_Allocation record)) (reconcile_operation record opID now) now)) (Ok created) :: past4)) as [? ?].
    { apply past_cons. by etransitivity. }
    split; [done|]. split; [done|]. do 3 right. exists opID, now, created. apply asked_now.
Qed.

Lemma visit_clients_says clients rotating remote past st expected : base ⊆ past ->
  clients_of past template record clients -> rotating_is past record rotating -> remote ⊆ clients ->
  tag_of record ∈ listening g ->
  says past (visit_clients template record rotating now remote st expected) (fun past' out =>
    forall actual, out.2 = Ok actual -> actual = expected || lists remote (i_StatisticsID (ur_Identity record)) /\
      forall id, unknown_client record remote rotating id -> queued_removal past' (t_ID template) (tag_of record) DriftIdentity id).
Proof.
  intros Hs Hc Hr Hin Hl. revert past st expected Hs Hc Hr.
  induction remote as [|user remote IH]; intros past st expected Hs Hc Hr; cbn [visit_clients].
  { intros actual [= <-]. split; [by rewrite orb_false_r|]. intros id ((user & Hu' & _) & _). by apply not_elem_of_nil in Hu'. }
  assert (remote ⊆ clients) as Hin' by (intros x Hx; apply Hin; by right).
  assert (forall expected', expected' = expected || (ru_Present user && bool_decide (ru_StatisticsID user = i_StatisticsID (ur_Identity record))) ->
    (ru_Present user = true -> ru_StatisticsID user <> i_StatisticsID (ur_Identity record) ->
       rotating = true /\ ru_StatisticsID user = RotationSafetyID (i_StatisticsID (ur_Identity record))) ->
    says past (visit_clients template record rotating now remote st expected') (fun past' out =>
      forall actual, out.2 = Ok actual -> actual = expected || lists (user :: remote) (i_StatisticsID (ur_Identity record)) /\
        forall id, unknown_client record (user :: remote) rotating id ->
          queued_removal past' (t_ID template) (tag_of record) DriftIdentity id)) as Hnext.
  { intros expected' -> Hfree. eapply dialogue_mono; [|apply IH; done]. intros past' out _ Ho actual Ha.
    destruct (Ho actual Ha) as [-> Hq]. split; [cbn; by rewrite orb_assoc|].
    intros id ((u & Hu' & Hp & <-) & Hne & Hrot). apply elem_of_cons in Hu' as [->|Hu'].
    - exfalso. destruct (Hfree Hp Hne) as [Hr1 Hr2]. by apply Hrot.
    - apply Hq. split; [by exists u|done]. }
  destruct (ru_Present user) eqn:Ep; cbn [negb]; [|apply Hnext; [by rewrite orb_false_r|done]].
  case_bool_decide as Hid; [apply Hnext; [by rewrite orb_true_r|done]|].
  destruct (rotating && bool_decide (ru_StatisticsID user = RotationSafetyID (i_StatisticsID (ur_Identity record)))) eqn:Es.
  { apply andb_true_iff in Es as [-> Es%bool_decide_eq_true]. apply Hnext; [by rewrite orb_false_r|done]. }
  split.
  { exists g. split; [by apply reads_now|]. eapply foreign_client; try done. split; [|split; [done|]].
    - exists user. split; [apply Hin; left|done].
    - intros -> Hsafe. cbn in Es. by apply bool_decide_eq_false in Es. }
  intros [created|err]; [|by intros ? [=]]. set (past1 := _ :: past).
  eapply dialogue_mono; [|apply (IH Hin' past1); [by apply past_cons|right; exact Hc|right; exact Hr]].
  intros past' out Hp Ho actual Ha. destruct (Ho actual Ha) as [-> Hq]. split.
  { cbn. rewrite Ep, (bool_decide_eq_false_2 _ Hid). done. }
  intros id ((u & Hu' & Hup & <-) & Hne & Hrot). apply elem_of_cons in Hu' as [->|Hu'].
  - exists now, created. apply Hp, asked_now.
  - apply Hq. split; [by exists u|done].
Qed.

Lemma visit_inbound_says past st : base ⊆ past -> tag_of record ∈ listening g ->
  says past (visit_inbound template record now st (repair s record now)) (fun past' out => out.2 = None ->
    clients_settled past' template record /\
    exists actual, carried past' g record template actual /\ repaired past' record actual).
Proof.
  intros Hs Hl. split; [done|]. intros [clients|err].
  2: { apply casual_then; [unfold markDegraded; destruct (adapterKind err); by repeat split|done]. }
  apply or_return_dialogue; [done|done|]. intros rotating. set (past1 := _ :: _ :: past).
  assert (past ⊆ past1) as H1 by (by do 2 apply past_cons).
  assert (clients_of past1 template record clients) as Hc by (right; apply asked_now).
  assert (rotating_is past1 record rotating) as Hr by apply asked_now.
  eapply dialogue_then; [by apply (visit_clients_says clients rotating clients past1); [etransitivity|..]|].
  intros past2 [st2 [expected|err]] H2 Hv; [|done]. destruct (Hv expected eq_refl) as [-> Hq]. cbn [orb].
  set (actual := lists clients (i_StatisticsID (ur_Identity record))) in *.
  assert (carried past2 g record template actual) as Hca.
  { unfold carried. rewrite bool_decide_eq_true_2 by done. exists clients. split; [by apply H2|done]. }
  eapply dialogue_mono; [|apply repair_says; [|exact Hca]; by do 2 (etransitivity; [eassumption|])].
  intros past3 out H3 Hr3 Hn. split; [|exists actual; split; [by eapply carried_mono|by apply Hr3]].
  exists clients, rotating. split; [by apply H3, H2|]. split; [by apply H3, H2|].
  intros id Hid. eapply queued_mono; [done|by apply Hq].
Qed.
End Allocation.

Lemma visit_user_says record past st : record ∈ users -> base ⊆ past ->
  says past (visit_user s templates (listening g) now record st) (fun past' out => out.2 = None -> user_settled g past' record).
Proof.
  intros Hu Hs. unfold visit_user. destruct (template_by_id _ !! _) as [template|] eqn:Et.
  2: { intros _ template [Ht _]. congruence. }
  case_bool_decide as Hi; [intros _ t [Ht Hc]; congruence|].
  assert (projected_by g record template) as Hp by done.
  assert (forall t, projected_by g record t -> t = template) as Huniq by (intros t [Ht _]; congruence).
  case_bool_decide as Hl.
  - eapply dialogue_mono; [|by apply visit_inbound_says]. intros past' out _ Ho Hn t ->%Huniq.
    destruct (Ho Hn) as [Hc Ha]. by split.
  - assert (carried past g record template false) as Hc by (unfold carried; by rewrite bool_decide_eq_false_2).
    eapply dialogue_mono; [|by apply (repair_says record template Hu Hp false)].
    intros past' out H' Ho Hn t ->%Huniq. split; [done|]. exists false. split; [by eapply carried_mono|by apply Ho].
Qed.

Lemma compare_says started past st : base ⊆ past ->
  says past (compare s templates users (listening g) now started st) (fun past' out => out.2 = None -> settled past' g).
Proof.
  intros Hs. unfold compare.
  apply (and_then_dialogue _ past _ _ (fun _ => True)); [done| |].
  { eapply dialogue_mono; [|apply (each_dialogue _ past (fun _ _ => True)); [done|done|]]; [done|].
    intros template past' st' _ _. apply visit_template_says. }
  intros past1 st1 H1 _.
  apply (and_then_dialogue _ past1 _ _ (fun past' => Forall (tag_settled g past') (iterate (listening g)))); [done| |].
  { apply (each_dialogue _ base); [apply tag_settled_mono|by etransitivity|]. intros tag past' st' Ht Hp.
    apply visit_tag_says; [|done]. apply elem_of_elements. by rewrite <- iterate_keys. }
  intros past2 st2 H2 Htags.
  apply (and_then_dialogue _ past2 _ _ (fun past' => Forall (user_settled g past') users)); [done| |].
  { apply (each_dialogue _ base); [apply user_settled_mono|by do 2 (etransitivity; [eassumption|])|].
    intros record past' st' Hr Hp. by apply visit_user_says. }
  intros past3 st3 H3 Husers.
  apply (and_then_dialogue _ past3 _ _ (fun past' => Forall (stale_settled g past') templates)); [done| |].
  { apply (each_dialogue _ base); [apply stale_settled_mono|by do 3 (etransitivity; [eassumption|])|].
    intros template past' st' _ Hp. by apply visit_stale_says. }
  intros past4 st4 H4 Hstale.
  apply (and_then_dialogue _ past4 _ _ (fun past' => orphans_settled g past')); [done| |].
  { apply visit_orphans_says. by do 4 (etransitivity; [eassumption|]). }
  intros past5 st5 H5 (removals & Ho & Hr). apply casual_then; [destruct (_ && _); by repeat split|].
  intros past6 [] H6. split; [done|]. intros finished _. set (past7 := _ :: past6).
  assert (past6 ⊆ past7) as H7 by by apply past_cons.
  split; [eapply Forall_impl; [exact Htags|]; intros tag; apply tag_settled_mono; by do 5 (etransitivity; [eassumption|])|].
  split; [eapply Forall_impl; [exact Husers|]; intros u; apply user_settled_mono; by do 4 (etransitivity; [eassumption|])|].
  split; [eapply Forall_impl; [exact Hstale|]; intros t; apply stale_settled_mono; by do 3 (etransitivity; [eassumption|])|].
  exists removals. split; [by apply H7, H6|]. eapply removals_settled_mono; [|exact Hr]. by etransitivity.
Qed.
End Parts.

Lemma ReconcileOnce_says : says [] (ReconcileOnce s) (fun past out => out.2 = None ->
  exists g, has_read past g /\ settled past g).
Proof.
  assert (forall R (call : AdapterCall R) past st (f : R -> Worker Outcome) Q, mutated_tag call = None ->
    (forall past' err, Q past' (st, Some err)) -> (forall r, says (mkExchange (OnNode call) (Ok r) :: past) (f r) Q) ->
    says past (or_degrade st (node call) f) Q) as Hnode.
  { intros R call past st f Q Hc Hq Hf. split; [destruct call; exact Hc|]. intros [r|err]; [apply Hf|].
    apply casual_then; [unfold markDegraded; destruct (adapterKind err); by repeat split|]. intros. apply Hq. }
  unfold ReconcileOnce. eapply (dialogue_then _ _ _ _ (fun past out => out.2 = None -> exists g, has_read past g /\ settled past g)).
  2: { by intros past' [st err] _ H. }
  split; [done|]. intros started. apply Hnode; [done|done|]. intros observation. split; [done|]. intros reconnected.
  split; [done|]. intros now. apply or_return_dialogue; [done|done|]. intros templates.
  apply or_return_dialogue; [done|done|]. intros users. apply Hnode; [done|done|]. intros inbounds.
  set (past := _ :: _). set (g := mkReading templates users inbounds).
  assert (has_read past g) as Hg.
  { split_and!; [do 2 right; left|right; left|left]; done. }
  unfold renew_evidence. apply or_return_dialogue; [done|done|]. intros [generation advanced].
  apply or_return_dialogue; [done|done|]. intros []. apply or_return_dialogue; [done|done|]. intros stale.
  set (past1 := _ :: _ :: _ :: past). apply casual_then.
  { clear. unfold revalidate_all. induction stale as [|id stale IH]; [done|]. destruct (rs_revalidate s); by repeat split. }
  intros past2 [] H2. eapply dialogue_mono; [|apply (compare_says g past now Hg started)].
  - intros past3 out H3 Hset Hn. exists g. split; [|by apply Hset]. eapply has_read_mono; [|exact Hg].
    intros x Hx. apply H3, H2. by do 3 right.
  - intros x Hx. apply H2. by do 3 right.
Qed.

(** C33: whatever the store and the node answer, a round of the reconciler
    changes nothing on the node. It queues the removal of an inbound only when
    that inbound carries the panel's prefix and belongs to no user, of a client
    only when the client is in a listed inbound of a user and is neither the
    user's own nor, while a rotation is open, its transition client, and again
    what failed for good only when its inbound is gone; it queues a reconcile
    operation only for an allocation whose client is there or missing against
    the intent, that is not being synchronised already, for the revision it
    has read ([reconciling]). A round that ends without an error has settled
    every listed inbound, every user of a template not found incompatible,
    every client and every failed removal ([settled]). *)
Theorem ReconcileOnce_settles : says [] (ReconcileOnce s) (fun past out => out.2 = None ->
  exists g, has_read past g /\ settled past g).
Proof. exact ReconcileOnce_says. Qed.
End Laws.
