(* ===== verification/Fencing.v ===== *)
(** * What the programs of the synchronizer do, and the fencing of its changes

    The world of a worker: the connection with its tables, the node, the
    counter of failures in a row, and the calls it made so far. [exec] is the
    answer of one call, [others] what everybody else does between two calls,
    and [always I p Q] says that every execution of a program keeps [I] at
    every call boundary and ends in [Q]. *)

From Stdlib Require Import ZArith Lia.
From S2P Require Import Prelude GoTypes Identity Text Inbound Tokens User Sync Quota Traffic Template Cycle Records Database Secrets StoreCore StoreSync StoreQuota StoreUsers StoreTraffic StoreDrift StoreTemplates Adapter Calls Synchronizer.

(** ** The world *)

(** The events of a worker: a lease renewed (with the tables of that moment)
    or found lost, a reading of the node, a change of an inbound, a
    confirmation (with the node of that moment), another write of the store. *)
Inductive Event : Type :=
| Fenced (db : DB)
| Lost
| Looked
| Mutated (tag : string)
| Confirmed (version : Z) (present : bool) (node : Node)
| Wrote.

Record World := mkWorld {
  w_conn : Conn;
  w_node : Node;
  w_failures : Z;
  w_degraded : bool;
  w_trace : list Event }.
#[global] Instance eta_World : Eta World := fun w =>
  mkWorld (w_conn w) (w_node w) (w_failures w) (w_degraded w) (w_trace w).

Definition renewal (r : Res bool) (db : DB) : Event := match r with Ok true => Fenced db | _ => Lost end.

Definition store_event {R} (call : StoreCall R) : Res R -> World -> Event :=
  match call in StoreCall R return Res R -> World -> Event with
  | CallRenewSyncLease _ _ _ _ => fun r w => renewal r (conn_db (w_conn w))
  | CallRenewDriftRemovalLease _ _ _ _ => fun r w => renewal r (conn_db (w_conn w))
  | CallConfirmSync _ _ _ version present _ => fun r w =>
      match r with Ok true => Confirmed version present (w_node w) | _ => Wrote end
  | _ => fun _ _ => Wrote
  end.
Definition node_event {R} (call : AdapterCall R) : Event :=
  match mutated_tag call with Some tag => Mutated tag | None => Looked end.

Definition note (e : Event) (w : World) : World := w <| w_trace := e :: w_trace w |>.
Definition on_conn {A} (m : Tx A) (w : World) (r : Res A) (w' : World) : Prop :=
  exists c', m (w_conn w) = (r, c') /\ w' = w <| w_conn := c' |>.

Section Semantics.
Context {Zn : Zones} {En : Entropy} {Un : Unicode}.
(** The node's answers, and the steps of everybody else. *)
Context (answers : forall R, AdapterCall R -> Node -> Res R -> Node -> Prop).
Context (others : World -> World -> Prop).

Definition exec {R} (e : Effect R) : World -> R -> World -> Prop :=
  match e in Effect R return World -> R -> World -> Prop with
  | OnStore call => fun w r w' => exists wall w1, on_conn (store_tx wall call) w r w1 /\ w' = note (store_event call r w1) w1
  | OnNode call => fun w r w' => exists n, answers _ call (w_node w) r n /\ w' = note (node_event call) (w <| w_node := n |>)
  | DrawID => fun w r w' => on_conn NewID_tx w r w'
  | DrawUserKey method => fun w r w' => on_conn (GenerateUserKey method) w r w'
  | Failures update => fun w r w' => r = update (w_failures w) /\ w' = w <| w_failures := r |>
  | Degraded now => fun w r w' => r = w_degraded w /\ w' = w <| w_degraded := now |>
  | Now | Jitter | CtxErr | Recovered _ | NotifySync | Revalidate _ | QueueValidation _ => fun w _ w' => w' = w
  end.

Fixpoint always {A} (I : World -> Prop) (p : Worker A) (Q : A -> World -> Prop) (w : World) : Prop :=
  I w /\
  match p with
  | Done a => Q a w
  | Do e k => forall r w1 w2, exec e w r w1 -> others w1 w2 -> I w1 /\ always I (k r) Q w2
  end.

Lemma always_mono {A} I (p : Worker A) (Q Q' : A -> World -> Prop) w :
  (forall a w, I w -> Q a w -> Q' a w) -> always I p Q w -> always I p Q' w.
Proof.
  intros H. revert w. induction p as [a|R e k IH]; intros w [Hi Hp]; split; try done; [by apply H|].
  intros r w1 w2 He Ho. destruct (Hp r w1 w2 He Ho) as [? ?]. split; [done|]. by apply IH.
Qed.

Lemma always_weaken {A} (I I' : World -> Prop) (p : Worker A) Q w :
  (forall w, I w -> I' w) -> always I p Q w -> always I' p Q w.
Proof.
  intros H. revert w. induction p as [a|R e k IH]; intros w [Hi Hp]; (split; [by apply H|]); [done|].
  intros r w1 w2 He Ho. destruct (Hp r w1 w2 He Ho) as [? ?]. split; [by apply H|]. by apply IH.
Qed.

Lemma always_bind {A B} I (p : Worker A) (f : A -> Worker B) (Q : B -> World -> Prop) w :
  always I p (fun a => always I (f a) Q) w -> always I (p ≫= f) Q w.
Proof.
  revert w. induction p as [a|R e k IH]; intros w [Hi Hp]; [done|]. split; [done|].
  intros r w1 w2 He Ho. destruct (Hp r w1 w2 He Ho) as [? ?]. split; [done|]. by apply (IH r).
Qed.

Lemma always_inv {A} I (p : Worker A) Q w : always I p Q w -> I w.
Proof. by destruct p as [|? e k]; intros [? _]. Qed.
End Semantics.

(** * Leases guard the node

    Every change the synchronizer makes on the node follows a renewal of its
    lease, and it changes no inbound but the one of its operation: [fenced]
    states it of the calls made so far, [calm] and [safe] are the rules by
    which the programs of [Synchronizer] are shown to keep it whatever the
    store and the node answer and whatever the other workers do in between. *)

(** ** What the calls show *)

(** The last event but for readings of the node is a renewal that [held]. *)
Fixpoint armed (held : DB -> Prop) (trace : list Event) : Prop :=
  match trace with
  | Looked :: older => armed held older
  | Fenced db :: _ => held db
  | _ => False
  end.

(** Every change is of the inbound [tag] and comes after a renewal of its own,
    with nothing but readings in between; nothing follows a lost lease. *)
Fixpoint fenced (held : DB -> Prop) (tag : string) (trace : list Event) : Prop :=
  match trace with
  | [] => True
  | e :: older =>
      fenced held tag older /\ head older <> Some Lost /\
      match e with Mutated t => t = tag /\ armed held older | _ => True end
  end.

Section Fencing.
Context {Zn : Zones} {En : Entropy} {Un : Unicode} {Ae : Aead}.
Context (answers : forall R, AdapterCall R -> Node -> Res R -> Node -> Prop).
Context (others : World -> World -> Prop) (others_trace : forall w w', others w w' -> w_trace w' = w_trace w).
Context (held : DB -> Prop) (tag : string).

Let guarded_trace (w : World) : Prop := fenced held tag (w_trace w).
(** The worker goes on: no lost lease, and a renewal to spend when [b]. *)
Let ready (b : bool) (w : World) : Prop :=
  guarded_trace w /\ head (w_trace w) <> Some Lost /\ (b = true -> armed held (w_trace w)).

(** [calm]: the program never loses the lease; [safe]: it may, and then ends. *)
Definition calm {A} (b : bool) (p : Worker A) (b' : bool) : Prop :=
  forall w, ready b w -> always answers others guarded_trace p (fun _ => ready b') w.
Definition safe {A} (b : bool) (p : Worker A) : Prop :=
  forall w, ready b w -> always answers others guarded_trace p (fun _ => guarded_trace) w.
Definition granting (c : StoreCall bool) : Prop :=
  forall wall conn conn', store_tx wall c conn = (Ok true, conn') -> held (conn_db conn').
Definition renews {R} (c : StoreCall R) : bool :=
  match c with CallRenewSyncLease _ _ _ _ | CallRenewDriftRemovalLease _ _ _ _ => true | _ => false end.

Lemma ready_weaken b w : ready b w -> ready false w.
Proof. intros (? & ? & _). by split_and!. Qed.
Lemma ready_others b w w' : others w w' -> ready b w -> ready b w'.
Proof. intros H%others_trace. unfold ready, guarded_trace. by rewrite H. Qed.

Lemma calm_safe {A} b (p : Worker A) b' : calm b p b' -> safe b p.
Proof. intros H w Hw. eapply always_mono; [|by apply H]. intros a w' _ (? & _). done. Qed.
Lemma calm_weaken {A} b b' (p : Worker A) : calm b p b' -> calm b p false.
Proof. intros H w Hw. eapply always_mono; [|by apply H]. intros a w' _. apply ready_weaken. Qed.
Lemma calm_done {A} b (a : A) : calm b (mret a) b.
Proof. intros w Hw. split; [apply Hw|done]. Qed.
Lemma calm_bind {A B} b b1 b2 (p : Worker A) (f : A -> Worker B) :
  calm b p b1 -> (forall a, calm b1 (f a) b2) -> calm b (p ≫= f) b2.
Proof.
  intros Hp Hf w Hw. apply always_bind. eapply always_mono; [|by apply Hp]. intros a w' _. by apply Hf.
Qed.
Lemma safe_bind {A B} b b1 (p : Worker A) (f : A -> Worker B) :
  calm b p b1 -> (forall a, safe b1 (f a)) -> safe b (p ≫= f).
Proof.
  intros Hp Hf w Hw. apply always_bind. eapply always_mono; [|by apply Hp]. intros a w' _. by apply Hf.
Qed.

(** A call that adds one event, or none, to the trace. *)
Lemma calm_call {R} b b' (e : Effect R) :
  (forall w r w1, ready b w -> exec answers e w r w1 -> ready b' w1) -> calm b (call e) b'.
Proof.
  intros H w Hw. split; [apply Hw|]. intros r w1 w2 He Ho. pose proof (H _ _ _ Hw He) as Hr.
  split; [apply Hr|]. apply (ready_others _ _ _ Ho) in Hr. split; [apply Hr|done].
Qed.
Lemma calm_quiet {R} b (e : Effect R) :
  match e with OnStore _ | OnNode _ => False | _ => True end -> calm b (call e) b.
Proof.
  intros Hq. apply calm_call. intros w r w1 Hw He. unfold ready, guarded_trace.
  assert (w_trace w1 = w_trace w) as ->; [|done].
  destruct e; try done; cbn in He; try (by subst); try (by destruct He as (c & _ & ->)); by destruct He as [_ ->].
Qed.
Lemma calm_look {R} b (c : AdapterCall R) : mutated_tag c = None -> calm b (node c) b.
Proof.
  intros Hc. apply calm_call. intros w r w1 (Hf & Hl & Hb) (n & _ & ->). unfold ready, guarded_trace, node_event. rewrite Hc.
  by split_and!.
Qed.
Lemma calm_mutate {R} (c : AdapterCall R) : mutated_tag c = Some tag -> calm true (node c) false.
Proof.
  intros Hc. apply calm_call. intros w r w1 (Hf & Hl & Hb) (n & _ & ->). unfold ready, guarded_trace, node_event. rewrite Hc.
  cbn. split_and!; try done. by apply Hb.
Qed.
Lemma calm_store {R} b (c : StoreCall R) : renews c = false -> calm b (store c) false.
Proof.
  intros Hc. apply calm_call. intros w r w1 (Hf & Hl & Hb) (wall & w0 & (c' & _ & ->) & ->).
  assert (forall e, match e with Mutated _ | Lost => False | _ => True end ->
            ready false (note e (w <| w_conn := c' |>))) as Hev.
  { intros e He. unfold ready, guarded_trace. cbn. destruct e; try done; by split_and!. }
  apply Hev. destruct c; try done. cbn. by destruct r as [[]|].
Qed.

Lemma safe_renew b (now : Time -> StoreCall bool) rest :
  (forall t, granting (now t)) -> (forall t r w, store_event (now t) r w = renewal r (conn_db (w_conn w))) ->
  safe true rest ->
  safe b (guarded (t ← call Now; store (now t)) rest).
Proof.
  intros Hg Hn Hrest w Hw. split; [apply Hw|]. intros t w1 w2 He Ho. cbn in He. subst w1.
  split; [apply Hw|]. apply (ready_others _ _ _ Ho) in Hw. split; [apply Hw|].
  intros r w3 w4 (wall & w0 & (c' & Hrun & ->) & ->) Ho4. destruct Hw as (Hf & Hl & _).
  assert (store_event (now t) r (w2 <| w_conn := c' |>) = renewal r (conn_db c')) as Hev by apply Hn.
  rewrite Hev in *. assert (fenced held tag (renewal r (conn_db c') :: w_trace w2)) as Hf'.
  { cbn. split_and!; [done..|]. by destruct r as [[]|]. }
  split; [done|]. assert (w_trace w4 = renewal r (conn_db c') :: w_trace w2) as Ht by (by apply others_trace in Ho4).
  destruct r as [[]|e].
  - apply Hrest. unfold ready, guarded_trace. rewrite Ht. split_and!; try done. intros _. by eapply Hg.
  - split; unfold guarded_trace; by rewrite Ht.
  - split; unfold guarded_trace; by rewrite Ht.
Qed.

(** A worker that made no call yet. *)
Lemma safe_start {A} (p : Worker A) w : w_trace w = [] -> safe false p ->
  always answers others (fun w => fenced held tag (w_trace w)) p (fun _ _ => True) w.
Proof.
  intros Hw Hp. eapply always_mono; [by intros; apply I|]. apply Hp.
  unfold ready, guarded_trace. rewrite Hw. by split_and!.
Qed.
Lemma safe_ret {A} b (a : A) : safe b (mret a).
Proof. eapply calm_safe, calm_done. Qed.
Lemma safe_weaken {A} b (p : Worker A) : safe false p -> safe b p.
Proof. intros H w Hw. apply H. by eapply ready_weaken. Qed.
Lemma calm_must {A B} b b' (p : Worker (Res A)) (f : A -> Worker (Res B)) :
  calm b p b' -> (forall a, calm b' (f a) b') -> calm b (must p f) b'.
Proof. intros Hp Hf. apply (calm_bind _ b'); [done|]. intros [a|e]; [apply Hf|apply calm_done]. Qed.
Lemma safe_must {A B} b b' (p : Worker (Res A)) (f : A -> Worker (Res B)) :
  calm b p b' -> (forall a, safe b' (f a)) -> safe b (must p f).
Proof. intros Hp Hf. apply (safe_bind _ b'); [done|]. intros [a|e]; [apply Hf|apply safe_ret]. Qed.

(** ** The programs of the synchronizer *)
Context (s : Synchronizer).

(** Programs that only read clocks and write the store. *)
Ltac quiet_walk :=
  repeat match goal with
  | |- forall _, _ => intro
  | |- calm _ (mret _) _ => apply calm_done
  | |- calm _ (Done _) _ => apply calm_done
  | |- calm false (must _ _) false => apply (calm_must false false)
  | |- calm false (_ ≫= _) false => apply (calm_bind false false false)
  | |- calm _ (call _) _ => apply calm_quiet; exact I
  | |- calm _ (store _) false => apply calm_store; reflexivity
  | |- calm _ (logged _) false => unfold logged
  | |- calm _ (if ?b then _ else _) _ => destruct b
  | |- calm _ (match ?x with _ => _ end) _ => destruct x
  end.

Lemma calm_confirm work present version : calm false (confirm s work present version) false.
Proof. unfold confirm, recordSuccess, audit. quiet_walk. Qed.
Lemma calm_reschedule work kind summary now : calm false (reschedule s work kind summary now) false.
Proof. unfold reschedule, backoff. quiet_walk. Qed.
Lemma calm_fail work kind summary : calm false (fail_ s work kind summary) false.
Proof. unfold fail_, audit. quiet_walk. Qed.
Lemma calm_retryLater work kind summary : calm false (retryLater s work kind summary) false.
Proof. unfold retryLater. quiet_walk. apply calm_reschedule. Qed.
Lemma calm_retry work cause : calm false (retry s work cause) false.
Proof.
  unfold retry, trackDrift. destruct (describe cause) as [kind retryable].
  quiet_walk; first [apply calm_fail|apply calm_reschedule].
Qed.
Lemma calm_inboundPresent b t : calm b (inboundPresent t) b.
Proof. unfold inboundPresent. apply calm_must; [by apply calm_look|]. intros. apply calm_done. Qed.
Lemma calm_carriesClient b inbound id : calm b (carriesClient inbound id) b.
Proof. unfold carriesClient. apply calm_must; [by apply calm_look|]. intros. apply calm_done. Qed.
Lemma calm_observe b inbound id : calm b (observe inbound id) b.
Proof. unfold observe. apply calm_must; [by apply calm_look|]. intros. apply calm_done. Qed.

Lemma calm_compensate work inbound b : ri_InboundTag inbound = tag -> calm true (compensate work inbound b) false.
Proof.
  intros Ht. unfold compensate. destruct b; [|eapply calm_weaken, calm_done].
  apply (calm_bind true false false); [|intros; apply calm_done]. apply calm_mutate. cbn. by rewrite Ht.
Qed.

Lemma safe_quiet {A} b (p : Worker A) : calm false p false -> safe b p.
Proof. intros H. by eapply safe_weaken, calm_safe. Qed.
Lemma safe_look {R B} b (c : AdapterCall R) (f : Res R -> Worker B) :
  mutated_tag c = None -> (forall r, safe b (f r)) -> safe b (node c ≫= f).
Proof. intros Hc Hf. apply (safe_bind b b); [by apply calm_look|done]. Qed.
Lemma safe_mutate {R B} (c : AdapterCall R) (f : Res R -> Worker B) :
  mutated_tag c = Some tag -> (forall r, safe false (f r)) -> safe true (node c ≫= f).
Proof. intros Hc Hf. apply (safe_bind true false); [by apply calm_mutate|done]. Qed.
Lemma safe_call {R B} b (e : Effect R) (f : R -> Worker B) :
  match e with OnStore _ | OnNode _ => False | _ => True end -> (forall r, safe b (f r)) -> safe b (call e ≫= f).
Proof. intros He Hf. apply (safe_bind b b); [by apply calm_quiet|done]. Qed.

Section Handle.
Context (work : SyncWork) (inbound : RuntimeInbound) (inbound_tag : ri_InboundTag inbound = tag).
Context (renewal_held : forall t,
  granting (CallRenewSyncLease (op_ID (sw_Operation work)) (s_owner s) t (s_lease s))).

Lemma safe_fence b rest : safe true rest -> safe b (guarded (fence s work) rest).
Proof. intros H. apply safe_renew; [apply renewal_held|done|done]. Qed.

Ltac safe_walk :=
  repeat match goal with
  | |- forall _, _ => intro
  | |- safe _ (mret _) => apply safe_ret
  | |- safe _ (guarded (fence _ _) _) => apply safe_fence
  | |- safe _ (confirm _ _ _ _) => apply safe_quiet, calm_confirm
  | |- safe _ (retry _ _ _) => apply safe_quiet, calm_retry
  | |- safe _ (retryLater _ _ _ _) => apply safe_quiet, calm_retryLater
  | |- safe _ (rotationPending _ _ _) => apply safe_quiet, calm_retryLater
  | |- safe _ (fail_ _ _ _ _) => apply safe_quiet, calm_fail
  | |- safe _ (call _ ≫= _) => apply safe_call; [exact I|]
  | |- safe ?b (inboundPresent _ ≫= _) => apply (safe_bind b b); [apply calm_inboundPresent|]
  | |- safe ?b (carriesClient _ _ ≫= _) => apply (safe_bind b b); [apply calm_carriesClient|]
  | |- safe true (compensate _ _ _ ≫= _) => apply (safe_bind true false); [by apply calm_compensate|]
  | |- safe _ (node _ ≫= _) => first [apply safe_look; [reflexivity|]|apply safe_mutate; [cbn; by f_equal|]]
  | |- safe _ (if ?b then _ else _) => destruct b
  | |- safe _ (match ?x with _ => _ end) => destruct x
  end.

Lemma safe_create b id : safe b (createDedicatedInbound s work inbound id).
Proof. unfold createDedicatedInbound, creation_failed. safe_walk. Qed.
Lemma safe_withdraw b : safe b (withdraw s work inbound).
Proof. unfold withdraw. safe_walk. Qed.

Lemma safe_remove_safety b id : safe b (remove_safety s work inbound id).
Proof. unfold remove_safety. safe_walk. Qed.
Lemma safe_add_desired b id next : (forall b', safe b' next) -> safe b (add_desired s work inbound id next).
Proof. intros Hn. unfold add_desired. safe_walk; first [apply safe_create|apply Hn]. Qed.
Lemma safe_remove_old b id next : (forall b', safe b' next) -> safe b (remove_old s work inbound id next).
Proof. intros Hn. unfold remove_old. safe_walk; first [apply safe_create|apply Hn]. Qed.
Lemma safe_add_safety b id next : (forall b', safe b' next) -> safe b (add_safety s work inbound id next).
Proof. intros Hn. unfold add_safety. safe_walk; first [apply safe_create|apply Hn]. Qed.
Lemma safe_rotate b id : safe b (rotateWithinInbound s work inbound id).
Proof.
  assert (forall b, safe b (add_desired s work inbound id (remove_safety s work inbound id))) as Hd.
  { intros b'. apply safe_add_desired. intros. apply safe_remove_safety. }
  unfold rotateWithinInbound. safe_walk; try apply safe_create; try apply safe_add_safety;
    safe_walk; by try apply safe_remove_old.
Qed.
Lemma safe_handle b : inbound = runtime_inbound work -> safe b (handle s work).
Proof.
  intros Hi. unfold handle. rewrite <- Hi.
  safe_walk; first [apply safe_withdraw|apply safe_rotate|apply safe_create].
Qed.
End Handle.

Section Drift.
Context (removal : DriftRemoval) (removal_tag : rm_InboundTag removal = tag).
Context (renewal_held : forall t, granting (CallRenewDriftRemovalLease (rm_ID removal) (s_owner s) t (s_lease s))).

Lemma safe_fenceDrift b rest : safe true rest -> safe b (guarded (fenceDrift s removal) rest).
Proof. intros H. apply safe_renew; [apply renewal_held|done|done]. Qed.
Lemma calm_target_present b : calm b (target_present removal) b.
Proof. unfold target_present. destruct (rm_Kind removal); [apply calm_observe|apply calm_inboundPresent]. Qed.
Lemma calm_complete_removal summary now : calm false (complete_removal s removal summary now) false.
Proof. unfold complete_removal, driftAudit. quiet_walk. Qed.
Lemma calm_removal_failed err now : calm false (removal_failed s removal err now) false.
Proof. unfold removal_failed, driftAudit, backoff. destruct (describe err). quiet_walk. Qed.
Lemma safe_remove_target now : safe true (remove_target s removal now).
Proof.
  assert (forall b summary, safe b (complete_removal s removal summary now)) as Hc
    by (intros; apply safe_quiet, calm_complete_removal).
  assert (forall b err, safe b (removal_failed s removal err now)) as Hf
    by (intros; apply safe_quiet, calm_removal_failed).
  unfold remove_target. apply (safe_bind true false).
  - destruct (rm_Kind removal); apply calm_mutate; cbn; by f_equal.
  - intros [r|err]; [apply Hc|]. case_if; [apply Hc|]. case_if; [|apply Hf].
    apply safe_fenceDrift. apply (safe_bind true true); [apply calm_target_present|].
    intros present. case_if; [apply Hc|apply Hf].
Qed.
Lemma safe_handleDriftRemoval b : safe b (handleDriftRemoval s removal).
Proof.
  unfold handleDriftRemoval. apply safe_call; [done|]. intros now. apply safe_fenceDrift.
  apply (safe_bind true true).
  - unfold already_absent. destruct (rm_Reclaimed removal); [|apply calm_done].
    apply (calm_bind true true true); [apply calm_target_present|intros; apply calm_done].
  - intros [|]; [apply safe_quiet, calm_complete_removal|apply safe_remove_target].
Qed.
End Drift.
End Fencing.

(** ** What a granted renewal shows *)

(** The operation is leased to the worker and still the allocation's current
    intent; the removal is leased to the worker. *)
Definition lease_held (owner : string) (id : ID) (db : DB) : Prop :=
  exists o a, db_operations db !! id = Some o /\ op_State o = SyncLeased /\ op_LeaseOwner o = owner /\
    db_allocations db !! op_AllocationID o = Some a /\ op_DesiredRevision o = a_DesiredRevision a.
Definition drift_held (owner : string) (id : ID) (db : DB) : Prop :=
  exists d, db_drift db !! id = Some d /\ df_State d = SyncLeased /\ df_LeaseOwner d = Some owner.

Lemma RenewSyncLease_held id owner now lease c c' :
  RenewSyncLease id owner now lease c = (Ok true, c') -> lease_held owner id (conn_db c').
Proof.
  intros H. unfold RenewSyncLease in H. tx_step H. apply tx_read_ok in E as [-> ->]. tx_step H.
  apply tx_exec_ok in E as (E & _). apply tx_ret_ok in H as [H ->]. symmetry in H.
  apply count_at_1 in H as (o & Ho & Hcond). pose proof Hcond as Hb. unfold renew_condition in Hb. to_prop.
  destruct (db_allocations (conn_db c) !! op_AllocationID o) as [al|] eqn:Ea; [|done]. to_prop.
  exists (o <| op_LeaseExpiresAt := Some (ms (now + lease)) |>), al. rewrite E. cbn.
  rewrite lookup_update_at, decide_True, Ho by done. cbn. rewrite Hcond. done.
Qed.
Lemma RenewDriftRemovalLease_held id owner now lease c c' :
  RenewDriftRemovalLease id owner now lease c = (Ok true, c') -> drift_held owner id (conn_db c').
Proof.
  intros H. unfold RenewDriftRemovalLease in H. tx_step H. apply tx_read_ok in E as [-> ->]. tx_step H.
  apply tx_exec_ok in E as (E & _). apply tx_ret_ok in H as [H ->]. symmetry in H.
  apply count_at_1 in H as (d & Hd & Hcond). pose proof Hcond as Hb. unfold drift_owned in Hb. to_prop.
  eexists. rewrite E. cbn. rewrite lookup_update_at, decide_True, Hd by done. cbn. rewrite Hcond. done.
Qed.

(** C3: whatever the store and the node answer, and whatever other workers,
    administrators and the node itself do in between: the synchronizer changes
    no inbound but the one of the operation (of the drift removal) it handles;
    each change comes after a renewal of its own that found the operation
    leased to this worker and still the allocation's current intent (the
    removal leased to this worker), with nothing but readings of the node in
    between; and after a renewal that was refused it does nothing at all. *)
Theorem changes_are_fenced {Zn : Zones} {En : Entropy} {Un : Unicode} {Ae : Aead} answers others s w :
  (forall w w', others w w' -> w_trace w' = w_trace w) -> w_trace w = [] ->
  (forall work,
     let tag := in_InboundTag (ir_Inbound (sw_Inbound work)) in
     let held := lease_held (s_owner s) (op_ID (sw_Operation work)) in
     always answers others (fun w => fenced held tag (w_trace w)) (handle s work) (fun _ _ => True) w) /\
  (forall removal,
     let held := drift_held (s_owner s) (rm_ID removal) in
     always answers others (fun w => fenced held (rm_InboundTag removal) (w_trace w)) (handleDriftRemoval s removal)
       (fun _ _ => True) w).
Proof.
  intros Ho Hw. split; intros x; cbv zeta; (apply safe_start; [done|]).
  - assert (forall t, granting (lease_held (s_owner s) (op_ID (sw_Operation x)))
      (CallRenewSyncLease (op_ID (sw_Operation x)) (s_owner s) t (s_lease s))) as Hg
      by (intros t wall c c'; apply RenewSyncLease_held).
    by apply (safe_handle answers others Ho _ _ s x (runtime_inbound x)).
  - apply safe_handleDriftRemoval; [done|done|]. intros t wall c c'. apply RenewDriftRemovalLease_held.
Qed.
