(* ===== verification/FakeXray.v ===== *)
(** * The double of the node: internal/adapter/xray/fake/fake.go

    The adapter the tests run against, with injected failures, ports taken by
    other processes and delayed calls. [fake_honest] shows that it keeps the
    contract of [Adapter.honest], so that what is proved of the synchronizer
    against the contract holds in the tests. The one-shot hooks, which only run
    the code of a test before a call, are left out. Maps are iterated in the
    order of their keys. *)

From Stdlib Require Import ZArith Lia.
From S2P Require Import Prelude GoTypes Identity Inbound Tokens Template Adapter.

Record Failure := mkFailure { fl_Err : error; fl_Applied : bool }.

Record FakeCall := mkFakeCall {
  fc_Operation : string;
  fc_InboundTag : string;
  fc_StatisticsID : string;
  fc_Port : Z;
  fc_Reset : bool }.
Definition mkCall (operation tag statisticsID : string) (port : Z) : FakeCall :=
  mkFakeCall operation tag statisticsID port false.

Record FakeInbound := mkFakeInbound {
  fi_Tag : string;
  fi_ListenAddress : string;
  fi_Port : Z;
  fi_Method : string;
  fi_ServerKey : string }.

Record Fake := mkFake {
  fk_Inbounds : gmap string FakeInbound;
  fk_Users : gmap string (gmap string RemoteUser);
  fk_Counters : gmap (string * string) Z;
  fk_Templates : gmap string TemplateCapabilities;
  fk_Failures : gmap string (list Failure);
  fk_Calls : list FakeCall;
  fk_Available : bool;
  fk_BootEpoch : Time;
  fk_ExternalPorts : gset Z;
  fk_Delay : Duration }.
#[global] Instance eta_Fake : Eta Fake := fun a =>
  mkFake (fk_Inbounds a) (fk_Users a) (fk_Counters a) (fk_Templates a) (fk_Failures a) (fk_Calls a)
    (fk_Available a) (fk_BootEpoch a) (fk_ExternalPorts a) (fk_Delay a).

Definition fake_New (now : Time) : Fake := mkFake ∅ ∅ ∅ ∅ ∅ [] true now ∅ 0.

(** The next injected failure of an operation, which is used up. *)
Definition failure (operation : string) (a : Fake) : option Failure * Fake :=
  match default [] (fk_Failures a !! operation) with
  | [] => (None, a)
  | f :: rest => (Some f, a <| fk_Failures := <[operation := rest]> (fk_Failures a) |>)
  end.

Definition unavailable (operation : string) (a : Fake) : option error :=
  if fk_Available a then None
  else Some (AdapterError ErrorInstanceUnavailable operation true "fake Xray unavailable").

Definition recorded (c : FakeCall) (a : Fake) : Fake := a <| fk_Calls := fk_Calls a ++ [c] |>.

Definition uptimeSeconds (now boot : Time) : Z :=
  if negb (After now boot) then 0 else (time_sub now boot ÷ Second) mod 2 ^ 32.

Definition fake_observation (now : Time) (a : Fake) : InstanceObservation :=
  mkObservation now (uptimeSeconds now (fk_BootEpoch a)) (fk_BootEpoch a) true.

Definition guardPanelInbound (operation tag : string) : option error :=
  if IsPanelNamespace tag then None
  else Some (AdapterError ErrorInvalidArgument operation false "refusing to mutate an inbound outside the panel namespace").

(** [wait]: [ctx_done] when the context ends before the delay. *)
Definition wait (ctx_done : bool) (operation : string) (a : Fake) : option error :=
  if fk_Delay a <=? 0 then None
  else if ctx_done then Some (AdapterError ErrorDeadlineExceeded operation true "fake Xray call cancelled")
  else None.

Definition fake_users (tag : string) (a : Fake) : gmap string RemoteUser := default ∅ (fk_Users a !! tag).

Section Calls.
Context (now : Time) (ctx_done : bool).

Definition fake_Probe (a : Fake) : Res InstanceObservation * Fake :=
  let a := recorded (mkCall "probe" "" "" 0) a in
  match unavailable "probe" a with
  | Some err => (Err err, a)
  | None => (Ok (fake_observation now a), a)
  end.

Definition fake_ValidateTemplate (probe : TemplateProbe) (a : Fake) : Res TemplateCapabilities * Fake :=
  let a := recorded (mkCall "validate_template" "" "" (pr_ProbePort probe)) a in
  match unavailable "validate_template" a with
  | Some err => (Err err, a)
  | None =>
      match failure "validate_template" a with
      | (Some f, a) => (Err (fl_Err f), a)
      | (None, a) =>
          match fk_Templates a !! pr_TemplateID probe with
          | Some result => (Ok result, a)
          | None => (Ok (mkCapabilities true true true true true true "" ""), a)
          end
      end
  end.

Definition fake_ListInbounds (a : Fake) : Res (list RemoteInbound) * Fake :=
  let a := recorded (mkCall "list_inbounds" "" "" 0) a in
  match unavailable "list_inbounds" a with
  | Some err => (Err err, a)
  | None =>
      (Ok ((fun tag => mkRemoteInbound tag (IsPanelNamespace tag) (Z.of_nat (size (fake_users tag a))))
             <$> (map_to_list (fk_Inbounds a)).*1), a)
  end.

Definition register (command : CreateInboundCommand) (a : Fake) : Fake :=
  let client := ci_Client command in
  a <| fk_Inbounds := <[ci_InboundTag command :=
          mkFakeInbound (ci_InboundTag command) (ci_ListenAddress command) (ci_Port command) (ci_Method command)
            (Reveal (ci_ServerKey command))]> (fk_Inbounds a) |>
    <| fk_Users := <[ci_InboundTag command :=
          {[ cl_StatisticsID client := mkRemoteUser (cl_StatisticsID client) (cl_CredentialVersion client) true "managed" ]}]>
          (fk_Users a) |>.

(** A port taken by another process: the inbound is registered all the same. *)
Definition fake_CreateInbound (command : CreateInboundCommand) (a : Fake) : Res MutationReceipt * Fake :=
  match wait ctx_done "create_inbound" a with
  | Some err => (Err err, a)
  | None =>
      let a := recorded (mkCall "create_inbound" (ci_InboundTag command) (cl_StatisticsID (ci_Client command)) (ci_Port command)) a in
      match unavailable "create_inbound" a with
      | Some err => (Err err, a)
      | None =>
          match fk_Inbounds a !! ci_InboundTag command with
          | Some _ => (Err (AdapterError ErrorInboundAlreadyExists "create_inbound" false "inbound tag already exists"), a)
          | None =>
              let '(fails, a) := failure "create_inbound" a in
              let external := bool_decide (ci_Port command ∈ fk_ExternalPorts a) in
              let a := if match fails with None => true | Some f => fl_Applied f end || external
                       then register command a else a in
              if external then (Err (AdapterError ErrorPortUnavailable "create_inbound" false "port is already in use on the node"), a)
              else match fails with
                   | Some f => (Err (fl_Err f), a)
                   | None => (Ok (mkReceipt (ci_OperationID command) now), a)
                   end
          end
      end
  end.

Definition unregister (tag : string) (a : Fake) : Fake :=
  a <| fk_Inbounds := delete tag (fk_Inbounds a) |> <| fk_Users := delete tag (fk_Users a) |>.

Definition fake_RemoveInbound (command : RemoveInboundCommand) (a : Fake) : Res MutationReceipt * Fake :=
  let tag := ro_InboundTag command in
  match wait ctx_done "remove_inbound" a with
  | Some err => (Err err, a)
  | None =>
      let a := recorded (mkCall "remove_inbound" tag "" 0) a in
      match unavailable "remove_inbound" a with
      | Some err => (Err err, a)
      | None =>
          if negb (IsPanelNamespace tag) then
            (Err (AdapterError ErrorInvalidArgument "remove_inbound" false
                    "refusing to remove an inbound outside the panel namespace"), a)
          else
            let '(fails, a) := failure "remove_inbound" a in
            let exists_ := bool_decide (fk_Inbounds a !! tag <> None) in
            match fails with
            | Some f => (Err (fl_Err f), if fl_Applied f then unregister tag a else a)
            | None =>
                if exists_ then (Ok (mkReceipt (ro_OperationID command) now), unregister tag a)
                else (Err (AdapterError ErrorInboundNotFound "remove_inbound" false "inbound was not found"), unregister tag a)
            end
      end
  end.

Definition fake_ListUsers (inbound : RuntimeInbound) (a : Fake) : Res (list RemoteUser) * Fake :=
  let a := recorded (mkCall "list_users" (ri_InboundTag inbound) "" 0) a in
  match unavailable "list_users" a with
  | Some err => (Err err, a)
  | None => (Ok (map_to_list (fake_users (ri_InboundTag inbound) a)).*2, a)
  end.

Definition set_users (tag : string) (users : gmap string RemoteUser) (a : Fake) : Fake :=
  a <| fk_Users := <[tag := users]> (fk_Users a) |>.

(** A client that is there already is replaced. *)
Definition fake_AddUser (command : AddUserCommand) (a : Fake) : Res MutationReceipt * Fake :=
  let tag := nu_InboundTag command in
  match wait ctx_done "add_user" a with
  | Some err => (Err err, a)
  | None =>
      let a := recorded (mkCall "add_user" tag (nu_StatisticsID command) 0) a in
      match unavailable "add_user" a with
      | Some err => (Err err, a)
      | None =>
          match guardPanelInbound "add_user" tag with
          | Some err => (Err err, a)
          | None =>
              match fk_Inbounds a !! tag with
              | None => (Err (AdapterError ErrorInboundNotFound "add_user" false "inbound was not found"), a)
              | Some _ =>
                  let '(fails, a) := failure "add_user" a in
                  let added := <[nu_StatisticsID command :=
                        mkRemoteUser (nu_StatisticsID command) (nu_CredentialVersion command) true "managed"]> (fake_users tag a) in
                  match fails with
                  | Some f => (Err (fl_Err f), set_users tag (if fl_Applied f then added else fake_users tag a) a)
                  | None => (Ok (mkReceipt (nu_OperationID command) now), set_users tag added a)
                  end
              end
          end
      end
  end.

(** The clients that remain entitled to the inbound. *)
Definition survivors (expected removed : string) (users : gmap string RemoteUser) : list RemoteUser :=
  (List.filter (fun '(id, user) =>
    negb (bool_decide (id = removed)) && ru_Present user &&
    (bool_decide (id = expected) || bool_decide (id = RotationSafetyID expected))) (map_to_list users)).*2.

Definition fake_RemoveUser (command : RemoveUserCommand) (a : Fake) : Res MutationReceipt * Fake :=
  let tag := rv_InboundTag command in
  let id := rv_StatisticsID command in
  let expected := rv_ExpectedStatisticsID command in
  match wait ctx_done "remove_user" a with
  | Some err => (Err err, a)
  | None =>
      let a := recorded (mkCall "remove_user" tag id 0) a in
      match unavailable "remove_user" a with
      | Some err => (Err err, a)
      | None =>
          match guardPanelInbound "remove_user" tag with
          | Some err => (Err err, a)
          | None =>
              if bool_decide (expected = "") then
                (Err (AdapterError ErrorInvalidArgument "remove_user" false "remove_user requires the inbound's expected managed identity"), a)
              else
                let '(fails, a) := failure "remove_user" a in
                let users := fake_users tag a in
                let removed := match fk_Users a !! tag with Some _ => set_users tag (delete id users) a | None => a end in
                match fails with
                | Some f => (Err (fl_Err f), if fl_Applied f then removed else a)
                | None =>
                    match fk_Inbounds a !! tag, users !! id with
                    | None, _ => (Err (AdapterError ErrorInboundNotFound "remove_user" false "inbound was not found"), a)
                    | Some _, None => (Err (AdapterError ErrorUserNotFound "remove_user" false "user not found"), removed)
                    | Some _, Some _ =>
                        match survivors expected id users with
                        | [] => (Err (AdapterError ErrorLastManagedClient "remove_user" false
                                        "refusing to remove the last managed client of an inbound"), a)
                        | _ :: _ => (Ok (mkReceipt (rv_OperationID command) now), removed)
                        end
                    end
                end
          end
      end
  end.

Definition fake_snapshots (a : Fake) (id : string) : list CounterSnapshot :=
  (fun direction =>
     let value := fk_Counters a !! (id, direction_string direction) in
     mkSnapshot id direction (default 0 value) now (bool_decide (value <> None))) <$> [Uplink; Downlink].

Definition fake_ReadTraffic (query : TrafficQuery) (a : Fake) : Res TrafficRound * Fake :=
  let a := recorded (mkCall "read_traffic" "" "" 0) a in
  match unavailable "read_traffic" a with
  | Some err => (Err err, a)
  | None => (Ok (mkRound (fake_observation now a) (List.flat_map (fake_snapshots a) (tq_StatisticsIDs query))), a)
  end.

(** The calls of the interface. *)
Definition fake_call {R} (call : AdapterCall R) : Fake -> Res R * Fake :=
  match call in AdapterCall R return Fake -> Res R * Fake with
  | Probe _ => fake_Probe
  | ValidateTemplate probe => fake_ValidateTemplate probe
  | ListInbounds => fake_ListInbounds
  | CreateInbound command => fake_CreateInbound command
  | RemoveInbound command => fake_RemoveInbound command
  | ListUsers inbound => fake_ListUsers inbound
  | AddUser command => fake_AddUser command
  | RemoveUser command => fake_RemoveUser command
  | ReadTraffic query => fake_ReadTraffic query
  end.

Definition fake_Restart (a : Fake) : Fake :=
  a <| fk_Inbounds := ∅ |> <| fk_Users := ∅ |> <| fk_Counters := ∅ |> <| fk_BootEpoch := now |>.
End Calls.

Definition Listening (port : Z) (a : Fake) : bool :=
  existsb (fun i => bool_decide (fi_Port i = port)) (map_to_list (fk_Inbounds a)).*2.
Definition InboundTags (a : Fake) : list string := (map_to_list (fk_Inbounds a)).*1.

Definition AddExternalInbound (tag : string) (port : Z) (a : Fake) : Fake :=
  a <| fk_Inbounds := <[tag := mkFakeInbound tag "" port "" ""]> (fk_Inbounds a) |>
    <| fk_Users := <[tag := {[ "operator" := mkRemoteUser "operator" 0 true "external" ]}]> (fk_Users a) |>.
Definition AddOrphanInbound (tag : string) (port : Z) (a : Fake) : Fake :=
  let id := tag +:+ "-client" in
  a <| fk_Inbounds := <[tag := mkFakeInbound tag "" port "" ""]> (fk_Inbounds a) |>
    <| fk_Users := <[tag := {[ id := mkRemoteUser id 0 true "managed" ]}]> (fk_Users a) |>.
Definition SetCounter (id : string) (direction : Direction) (value : Z) (a : Fake) : Fake :=
  a <| fk_Counters := <[(id, direction_string direction) := value]> (fk_Counters a) |>.
Definition InjectClient (tag statisticsID : string) (a : Fake) : Fake :=
  set_users tag (<[statisticsID := mkRemoteUser statisticsID 0 true
    (if IsPanelNamespace statisticsID then "managed" else "external")]> (fake_users tag a)) a.

(** ** The double keeps the contract *)
Definition node_inbound (a : Fake) (tag : string) (i : FakeInbound) : NodeInbound :=
  mkNodeInbound (fi_Port i) (negb (bool_decide (fi_Port i ∈ fk_ExternalPorts a))) (fi_ServerKey i)
    (ru_CredentialVersion <$> fake_users tag a).
Definition node_of (a : Fake) : Node := map_imap (fun tag i => Some (node_inbound a tag i)) (fk_Inbounds a).

(** Clients belong to registered inbounds and are filed under their identity;
    an injected failure does not claim anything about an inbound or a client. *)
Record FakeWf (a : Fake) : Prop := {
  wf_registered : forall tag, fk_Inbounds a !! tag = None -> fk_Users a !! tag = None;
  wf_filed : forall tag id u, fake_users tag a !! id = Some u -> ru_StatisticsID u = id /\ ru_Present u = true;
  wf_failures : forall op f, f ∈ default [] (fk_Failures a !! op) -> telling (fl_Err f) = false }.

Lemma node_of_lookup a tag : node_of a !! tag = node_inbound a tag <$> fk_Inbounds a !! tag.
Proof. unfold node_of. rewrite map_lookup_imap. by destruct (fk_Inbounds a !! tag). Qed.

(** Fields that [node_of] does not read. *)
Lemma node_of_same a a' : fk_Inbounds a' = fk_Inbounds a -> fk_Users a' = fk_Users a ->
  fk_ExternalPorts a' = fk_ExternalPorts a -> node_of a' = node_of a.
Proof. intros Hi Hu He. unfold node_of, node_inbound, fake_users. by rewrite Hi, Hu, He. Qed.
Lemma FakeWf_recorded c a : FakeWf a -> FakeWf (recorded c a).
Proof. by intros [? ? ?]. Qed.
Lemma failure_ok op a f a' : FakeWf a -> failure op a = (f, a') ->
  fk_Inbounds a' = fk_Inbounds a /\ fk_Users a' = fk_Users a /\ fk_ExternalPorts a' = fk_ExternalPorts a /\
  FakeWf a' /\ forall e, f = Some e -> telling (fl_Err e) = false.
Proof.
  intros [Hr Hf Hl] H. unfold failure in H. destruct (default [] (fk_Failures a !! op)) as [|e rest] eqn:E.
  - injection H as <- <-. by split_and!.
  - injection H as <- <-. split_and!; try done.
    + split; try done. intros op' x. cbn. destruct (decide (op = op')) as [<-|Hne].
      * rewrite lookup_insert_eq. cbn. intros Hx. apply (Hl op). rewrite E. by right.
      * rewrite lookup_insert_ne by done. apply Hl.
    + intros e' [= <-]. apply (Hl op). rewrite E. left.
Qed.

Lemma node_of_register command a : fk_Inbounds a !! ci_InboundTag command = None ->
  create_effect command (negb (bool_decide (ci_Port command ∈ fk_ExternalPorts a))) (node_of a) =
  Some (node_of (register command a)).
Proof.
  intros Hn. unfold create_effect. rewrite node_of_lookup, Hn. cbn. f_equal. apply map_eq. intros tag.
  rewrite !node_of_lookup. unfold register. cbn. destruct (decide (ci_InboundTag command = tag)) as [<-|Hne].
  - rewrite !lookup_insert_eq. cbn. unfold node_inbound, created, fake_users. cbn.
    rewrite lookup_insert_eq. cbn. by rewrite map_fmap_singleton.
  - rewrite !lookup_insert_ne by done. rewrite node_of_lookup. unfold node_inbound, fake_users. cbn.
    by rewrite lookup_insert_ne.
Qed.
Lemma FakeWf_register command a : FakeWf a -> FakeWf (register command a).
Proof.
  intros [Hr Hf Hl]. unfold register. split; [|intros tag id u; unfold fake_users|done]; cbn.
  - intros tag. destruct (decide (ci_InboundTag command = tag)) as [<-|Hne]; [by rewrite lookup_insert_eq|].
    rewrite !lookup_insert_ne by done. apply Hr.
  - destruct (decide (ci_InboundTag command = tag)) as [<-|Hne].
    + rewrite lookup_insert_eq. cbn. intros [<- <-]%lookup_singleton_Some. done.
    + rewrite lookup_insert_ne by done. apply Hf.
Qed.

Lemma node_of_unregister tag a : node_of (unregister tag a) = delete tag (node_of a).
Proof.
  apply map_eq. intros t. destruct (decide (tag = t)) as [<-|Hne].
  - by rewrite lookup_delete_eq, node_of_lookup; cbn; rewrite lookup_delete_eq.
  - rewrite lookup_delete_ne, !node_of_lookup by done. unfold node_inbound, fake_users. cbn.
    by rewrite !lookup_delete_ne by done.
Qed.
Lemma FakeWf_unregister tag a : FakeWf a -> FakeWf (unregister tag a).
Proof.
  intros [Hr Hf Hl]. split; [|intros t id u; unfold fake_users|done]; cbn.
  - intros t. destruct (decide (tag = t)) as [<-|Hne]; [by rewrite !lookup_delete_eq|].
    rewrite !lookup_delete_ne by done. apply Hr.
  - destruct (decide (tag = t)) as [<-|Hne]; [by rewrite lookup_delete_eq|].
    rewrite lookup_delete_ne by done. apply Hf.
Qed.

Lemma node_of_set_users tag users i a : fk_Inbounds a !! tag = Some i ->
  node_of (set_users tag users a) = <[tag := (node_inbound a tag i) <| ni_Users := ru_CredentialVersion <$> users |>]> (node_of a).
Proof.
  intros Hi. apply map_eq. intros t. rewrite node_of_lookup. cbn. destruct (decide (tag = t)) as [<-|Hne].
  - rewrite lookup_insert_eq, Hi. cbn. unfold node_inbound, fake_users. cbn. by rewrite lookup_insert_eq.
  - rewrite lookup_insert_ne, node_of_lookup by done. unfold node_inbound, fake_users. cbn. by rewrite lookup_insert_ne.
Qed.
Lemma FakeWf_set_users tag users a : FakeWf a -> fk_Inbounds a !! tag <> None ->
  (forall id u, users !! id = Some u -> ru_StatisticsID u = id /\ ru_Present u = true) -> FakeWf (set_users tag users a).
Proof.
  intros [Hr Hf Hl] Hi Hu. split; [|intros t id u; unfold fake_users|done]; cbn.
  - intros t Ht. destruct (decide (tag = t)) as [<-|Hne]; [done|]. rewrite lookup_insert_ne by done. by apply Hr.
  - destruct (decide (tag = t)) as [<-|Hne]; [rewrite lookup_insert_eq; apply Hu|].
    rewrite lookup_insert_ne by done. apply Hf.
Qed.
Lemma set_users_same tag a i : fk_Inbounds a !! tag = Some i -> node_of (set_users tag (fake_users tag a) a) = node_of a.
Proof.
  intros Hi. rewrite (node_of_set_users _ _ i) by done. apply insert_id. rewrite node_of_lookup, Hi. done.
Qed.

Definition contract {R} (call : AdapterCall R) (a : Fake) (out : Res R * Fake) : Prop :=
  honest call (node_of a) out.1 (node_of out.2) /\ FakeWf out.2.

Lemma commanded_failed {R} effect refusals n e : telling e = false ->
  commanded (R := R) effect refusals n (Err e) n.
Proof. intros H. cbn. rewrite H. by left. Qed.
Lemma commanded_refused {R} effect refusals n e kind (holds : Prop) : telling e = true -> kind_of e = Some kind ->
  (kind, holds) ∈ refusals -> holds -> commanded (R := R) effect refusals n (Err e) n.
Proof. intros H. cbn. rewrite H. eauto 6. Qed.
Lemma wait_untelling d op a e : wait d op a = Some e -> telling e = false.
Proof. unfold wait. repeat case_if; try done. by intros [= <-]. Qed.
Lemma unavailable_untelling op a e : unavailable op a = Some e -> telling e = false.
Proof. unfold unavailable. case_if; [done|]. by intros [= <-]. Qed.
Lemma guard_untelling op tag e : guardPanelInbound op tag = Some e -> telling e = false.
Proof. unfold guardPanelInbound. case_if; [done|]. by intros [= <-]. Qed.

Lemma contract_create now d command a : FakeWf a -> contract (CreateInbound command) a (fake_CreateInbound now d command a).
Proof.
  intros Hw. unfold fake_CreateInbound, contract.
  destruct (wait _ _ _) as [e|] eqn:Ew; [split; [|done]; exists true; by eapply commanded_failed, wait_untelling|].
  apply (FakeWf_recorded (mkCall "create_inbound" (ci_InboundTag command) (cl_StatisticsID (ci_Client command)) (ci_Port command))) in Hw.
  set (b := recorded _ a) in *. change (node_of a) with (node_of b). clearbody b. clear Ew.
  destruct (unavailable _ _) as [e|] eqn:Eu; [split; [|done]; exists true; by eapply commanded_failed, unavailable_untelling|].
  destruct (fk_Inbounds b !! _) as [i|] eqn:Ei.
  { split; [|done]. exists true. apply (commanded_refused _ _ _ _ ErrorInboundAlreadyExists (node_of b !! ci_InboundTag command <> None));
      [done|done|left|]. by rewrite node_of_lookup, Ei. }
  destruct (failure _ b) as [fails b'] eqn:Ef. apply failure_ok in Ef as (Hi & Hu & He & Hw' & Hf); [|done].
  rewrite <- (node_of_same _ _ Hi Hu He). rewrite <- Hi in Ei. clear b Hw Eu Hi Hu He. rename b' into b.
  pose proof (node_of_register _ _ Ei) as Hr. pose proof (FakeWf_register command _ Hw') as Hwr.
  destruct (bool_decide (ci_Port command ∈ fk_ExternalPorts b)) eqn:Ex; cbn [negb] in Hr.
  - rewrite orb_true_r. split; [|done]. exists false. cbn. by right.
  - rewrite orb_false_r. destruct fails as [f|]; [|by split].
    destruct (fl_Applied f); (split; [|done]); exists true; cbn; rewrite (Hf f) by done; [by right|by left].
Qed.

Lemma contract_remove now d command a : FakeWf a -> contract (RemoveInbound command) a (fake_RemoveInbound now d command a).
Proof.
  intros Hw. unfold fake_RemoveInbound, contract.
  destruct (wait _ _ _) as [e|] eqn:Ew; [split; [|done]; by eapply commanded_failed, wait_untelling|].
  apply (FakeWf_recorded (mkCall "remove_inbound" (ro_InboundTag command) "" 0)) in Hw.
  set (b := recorded _ a) in *. change (node_of a) with (node_of b). clearbody b. clear Ew.
  destruct (unavailable _ _) as [e|] eqn:Eu; [split; [|done]; by eapply commanded_failed, unavailable_untelling|].
  case_if; [split; [|done]; by apply commanded_failed|].
  destruct (failure _ b) as [fails b'] eqn:Ef. apply failure_ok in Ef as (Hi & Hu & He & Hw' & Hf); [|done].
  rewrite <- (node_of_same _ _ Hi Hu He). clear b Hw Eu Hi Hu He. rename b' into b.
  pose proof (node_of_unregister (ro_InboundTag command) b) as Hr. pose proof (FakeWf_unregister (ro_InboundTag command) _ Hw') as Hwr.
  assert (fk_Inbounds b !! ro_InboundTag command = None -> node_of (unregister (ro_InboundTag command) b) = node_of b) as Hsame.
  { intros Hn. rewrite Hr. apply delete_id. by rewrite node_of_lookup, Hn. }
  destruct fails as [f|].
  - destruct (fl_Applied f); (split; [|done]); cbn; rewrite (Hf f) by done; [|by left]. unfold remove_effect.
    rewrite node_of_lookup. destruct (fk_Inbounds b !! _) as [i|] eqn:Ei; [right; cbn; by rewrite Hr|left; by apply Hsame].
  - case_bool_decide as Ei; (split; [|done]); cbn.
    + unfold remove_effect. rewrite node_of_lookup. destruct (fk_Inbounds b !! _); [|done]. cbn. by rewrite Hr.
    + destruct (fk_Inbounds b !! _) as [i|] eqn:E; [done|]. rewrite Hsame by done. split; [done|].
      do 2 eexists. split; [left|]. split; [done|]. by rewrite node_of_lookup, E.
Qed.

Lemma contract_add now d command a : FakeWf a -> contract (AddUser command) a (fake_AddUser now d command a).
Proof.
  intros Hw. unfold fake_AddUser, contract.
  destruct (wait _ _ _) as [e|] eqn:Ew; [split; [|done]; by eapply commanded_failed, wait_untelling|].
  apply (FakeWf_recorded (mkCall "add_user" (nu_InboundTag command) (nu_StatisticsID command) 0)) in Hw.
  set (b := recorded _ a) in *. change (node_of a) with (node_of b). clearbody b. clear Ew.
  destruct (unavailable _ _) as [e|] eqn:Eu; [split; [|done]; by eapply commanded_failed, unavailable_untelling|].
  destruct (guardPanelInbound _ _) as [e|] eqn:Eg; [split; [|done]; by eapply commanded_failed, guard_untelling|].
  destruct (fk_Inbounds b !! _) as [i|] eqn:Ei.
  2: { split; [|done]. eapply commanded_refused; [done|done|left|]. by rewrite node_of_lookup, Ei. }
  destruct (failure _ b) as [fails b'] eqn:Ef. apply failure_ok in Ef as (Hi & Hu & He & Hw' & Hf); [|done].
  rewrite <- (node_of_same _ _ Hi Hu He). rewrite <- Hi in Ei. clear b Hw Eu Hi Hu He. rename b' into b.
  set (added := <[_ := _]> _).
  assert (add_effect command (node_of b) = Some (node_of (set_users (nu_InboundTag command) added b))) as Ha.
  { unfold add_effect. rewrite node_of_lookup, Ei. cbn. rewrite (node_of_set_users _ _ i) by done.
    unfold with_user, added. by rewrite fmap_insert. }
  assert (FakeWf (set_users (nu_InboundTag command) added b)) as Hwa.
  { apply FakeWf_set_users; [done|congruence|]. intros id u. unfold added. destruct (decide (nu_StatisticsID command = id)) as [<-|Hne].
    - rewrite lookup_insert_eq. by intros [= <-].
    - rewrite lookup_insert_ne by done. apply (wf_filed _ Hw'). }
  destruct fails as [f|]; [|by split]. destruct (fl_Applied f); cbn; rewrite (Hf f) by done.
  - split; [by right|done].
  - split; [left; by eapply set_users_same|]. apply FakeWf_set_users; [done|congruence|]. apply (wf_filed _ Hw').
Qed.

Lemma contract_drop now d command a : FakeWf a -> contract (RemoveUser command) a (fake_RemoveUser now d command a).
Proof.
  intros Hw. unfold fake_RemoveUser, contract.
  destruct (wait _ _ _) as [e|] eqn:Ew; [split; [|done]; by eapply commanded_failed, wait_untelling|].
  apply (FakeWf_recorded (mkCall "remove_user" (rv_InboundTag command) (rv_StatisticsID command) 0)) in Hw.
  set (b := recorded _ a) in *. change (node_of a) with (node_of b). clearbody b. clear Ew.
  destruct (unavailable _ _) as [e|] eqn:Eu; [split; [|done]; by eapply commanded_failed, unavailable_untelling|].
  destruct (guardPanelInbound _ _) as [e|] eqn:Eg; [split; [|done]; by eapply commanded_failed, guard_untelling|].
  case_if; [split; [|done]; by apply commanded_failed|].
  destruct (failure _ b) as [fails b'] eqn:Ef. apply failure_ok in Ef as (Hi & Hu & He & Hw' & Hf); [|done].
  rewrite <- (node_of_same _ _ Hi Hu He). clear b Hw Eu Hi Hu He. rename b' into b.
  set (tag := rv_InboundTag command). set (id := rv_StatisticsID command). set (removed := match fk_Users b !! tag with Some _ => _ | None => _ end).
  assert (FakeWf removed /\ (fake_users tag b !! id = None -> node_of removed = node_of b) /\
          forall i u, fk_Inbounds b !! tag = Some i -> fake_users tag b !! id = Some u ->
            drop_effect command (node_of b) = Some (node_of removed)) as (Hwr & Hsame & Hdrop).
  { unfold removed. destruct (fk_Users b !! tag) as [users|] eqn:Eus.
    2: { split; [done|]. split; [done|]. intros i u _. unfold fake_users. by rewrite Eus. }
    destruct (fk_Inbounds b !! tag) as [i|] eqn:Ei; [|by rewrite (wf_registered _ Hw' _ Ei) in Eus].
    split; [|split].
    - apply FakeWf_set_users; [done|congruence|]. intros x u [_ Hx]%lookup_delete_Some. by apply (wf_filed _ Hw' tag).
    - intros Hn. rewrite delete_id by done. by eapply set_users_same.
    - intros i' u [= <-] Hu. unfold drop_effect. rewrite node_of_lookup. fold tag id. rewrite Ei. cbn.
      rewrite lookup_fmap, Hu. cbn. rewrite (node_of_set_users _ _ i) by done. unfold without_user. fold id. by rewrite fmap_delete. }
  destruct fails as [f|].
  - destruct (fl_Applied f); (split; [|done]); cbn; rewrite (Hf f) by done; [|by left].
    destruct (fk_Inbounds b !! tag) as [i|] eqn:Ei.
    + destruct (fake_users tag b !! id) as [u|] eqn:Eus; [right; by eapply Hdrop|left; by apply Hsame].
    + left. apply Hsame. unfold fake_users. by rewrite (wf_registered _ Hw' _ Ei).
  - destruct (fk_Inbounds b !! tag) as [i|] eqn:Ei.
    2: { split; [|done]. eapply commanded_refused; [done|done|left|]. rewrite node_of_lookup; fold tag; by rewrite Ei. }
    destruct (fake_users tag b !! id) as [u|] eqn:Eus.
    + destruct (survivors _ _ _); [split; [|done]; by apply commanded_failed|]. split; [|done]. cbn. by eapply Hdrop.
    + split; [|done]. cbn [fst snd]. rewrite Hsame by done. eapply commanded_refused; [done|done|right; left|].
      eexists. rewrite node_of_lookup. fold tag. rewrite Ei. split; [done|]. cbn. rewrite lookup_fmap. fold id. by rewrite Eus.
Qed.

Lemma contract_list_inbounds a : FakeWf a -> contract ListInbounds a (fake_ListInbounds a).
Proof.
  intros Hw. unfold fake_ListInbounds, contract. set (b := recorded _ a).
  destruct (unavailable _ b) as [e|] eqn:Eu; (split; [|by apply FakeWf_recorded]); (split; [done|]).
  - by eapply unavailable_untelling.
  - intros tag. cbn [fst]. rewrite <- list_fmap_compose. cbn. rewrite list_elem_of_fmap. rewrite node_of_lookup.
    setoid_rewrite list_elem_of_fmap. setoid_rewrite elem_of_map_to_list'. cbn. split.
    + intros (t & -> & [t' i] & -> & Hi). cbn in *. by rewrite Hi.
    + destruct (fk_Inbounds a !! tag) as [i|] eqn:Ei; [|done]. intros _. exists tag. split; [done|]. by exists (tag, i).
Qed.

Lemma contract_list_users q a : FakeWf a -> contract (ListUsers q) a (fake_ListUsers q a).
Proof.
  intros Hw. unfold fake_ListUsers, contract. set (b := recorded _ a).
  destruct (unavailable _ b) as [e|] eqn:Eu; (split; [|by apply FakeWf_recorded]); (split; [done|]).
  - cbn. by rewrite (unavailable_untelling _ _ _ Eu).
  - intros id. cbn [fst]. change (fake_users (ri_InboundTag q) b) with (fake_users (ri_InboundTag q) a). setoid_rewrite list_elem_of_fmap. setoid_rewrite elem_of_map_to_list'.
    rewrite node_of_lookup. split.
    + intros (u & ([k u'] & -> & Hu) & Hid & _). cbn in *. destruct (wf_filed _ Hw _ _ _ Hu) as [<- _].
      destruct (fk_Inbounds a !! ri_InboundTag q) as [i|] eqn:Ei.
      * eexists. split; [done|]. cbn. by rewrite lookup_fmap, <- Hid, Hu.
      * unfold fake_users in Hu. by rewrite (wf_registered _ Hw _ Ei) in Hu.
    + intros (i & Hi & Hid). destruct (fk_Inbounds a !! ri_InboundTag q) as [j|]; [|done]. injection Hi as <-. cbn in Hid.
      rewrite lookup_fmap in Hid. destruct (fake_users (ri_InboundTag q) a !! id) as [u|] eqn:Eus; [|done].
      destruct (wf_filed _ Hw _ _ _ Eus). exists u. split; [|done]. by exists (id, u).
Qed.

Lemma fake_call_contract {R} now ctx_done (call : AdapterCall R) a : FakeWf a -> contract call a (fake_call now ctx_done call a).
Proof.
  intros Hw. destruct call as [t|p| |c|c|q|c|c|q]; cbn.
  - unfold fake_Probe, contract. destruct (unavailable _ _); (split; [done|by apply FakeWf_recorded]).
  - unfold fake_ValidateTemplate, contract. apply (FakeWf_recorded (mkCall "validate_template" "" "" (pr_ProbePort p))) in Hw.
    set (b := recorded _ a) in *. change (node_of a) with (node_of b). clearbody b.
    destruct (unavailable _ b) as [e|]; [by split|]. destruct (failure _ b) as [fails b'] eqn:Ef.
    apply failure_ok in Ef as (Hi & Hu & He & Hw' & _); [|done]. rewrite <- (node_of_same _ _ Hi Hu He).
    destruct fails; [by split|]. by case_match.
  - by apply contract_list_inbounds.
  - by apply contract_create.
  - by apply contract_remove.
  - by apply contract_list_users.
  - by apply contract_add.
  - by apply contract_drop.
  - unfold fake_ReadTraffic, contract. destruct (unavailable _ _); (split; [done|by apply FakeWf_recorded]).
Qed.

(** C27: the double of the node keeps the contract of the adapter on every
    call, in every state the tests can bring it to with failures that do not
    claim the presence or absence of an inbound or a client: its answer and
    its next state are among those the contract allows, also when the node is
    unavailable, the call delayed, a failure injected (applied or not) or the
    port taken by another process. A restart empties it. *)
Theorem fake_keeps_contract {R} now ctx_done (call : AdapterCall R) a : FakeWf a ->
  let out := fake_call now ctx_done call a in
  honest call (node_of a) out.1 (node_of out.2) /\ FakeWf out.2 /\
  FakeWf (fake_Restart now a) /\ node_of (fake_Restart now a) = ∅.
Proof.
  intros Hw out. destruct (fake_call_contract now ctx_done call a Hw) as [Hh Hw'].
  split_and!; [done|done| |done].
  split; [done| |apply (wf_failures _ Hw)]. unfold fake_users. cbn. intros tag id u. by rewrite lookup_empty.
Qed.

(** ** What the tests do to it *)
Lemma FakeWf_New now : FakeWf (fake_New now).
Proof.
  split; cbn.
  - intros tag. by rewrite !lookup_empty.
  - intros tag id u. unfold fake_users. cbn. by rewrite !lookup_empty.
  - intros op f. rewrite lookup_empty. by intros ?%not_elem_of_nil.
Qed.
(** An inbound with one client, as [AddExternalInbound] and [AddOrphanInbound]
    plant it. *)
Lemma FakeWf_plant tag i a u : FakeWf a -> ru_Present u = true ->
  FakeWf (a <| fk_Inbounds := <[tag := i]> (fk_Inbounds a) |>
            <| fk_Users := <[tag := {[ ru_StatisticsID u := u ]}]> (fk_Users a) |>).
Proof.
  intros [Hr Hf Hl] Hu. split; [|intros t id v; unfold fake_users|done]; cbn.
  - intros t. destruct (decide (tag = t)) as [<-|Hne]; [by rewrite lookup_insert_eq|].
    rewrite !lookup_insert_ne by done. apply Hr.
  - destruct (decide (tag = t)) as [<-|Hne]; [|rewrite lookup_insert_ne by done; apply Hf].
    rewrite lookup_insert_eq. cbn. by intros [<- <-]%lookup_singleton_Some.
Qed.
Lemma FakeWf_InjectClient tag id a : fk_Inbounds a !! tag <> None -> FakeWf a -> FakeWf (InjectClient tag id a).
Proof.
  intros Hi Hw. apply FakeWf_set_users; [done..|]. intros k u. destruct (decide (id = k)) as [<-|Hne].
  - rewrite lookup_insert_eq. by intros [= <-].
  - rewrite lookup_insert_ne by done. apply (wf_filed _ Hw).
Qed.

(** ** A concrete node *)
Definition demo_fake : Fake :=
  InjectClient "xpanel-a" "xpanel-b" (AddExternalInbound "operator" 443 (AddOrphanInbound "xpanel-a" 20000 (fake_New 0)))
    <| fk_Failures := {[ "add_user" := [mkFailure (AdapterError ErrorDeadlineExceeded "add_user" true "") true] ]} |>
    <| fk_ExternalPorts := {[ 20001 ]} |>.
Lemma demo_fake_wf : FakeWf demo_fake.
Proof.
  assert (FakeWf (InjectClient "xpanel-a" "xpanel-b" (AddExternalInbound "operator" 443 (AddOrphanInbound "xpanel-a" 20000 (fake_New 0)))))
    as [Hr Hf _].
  { apply FakeWf_InjectClient; [done|]. apply (FakeWf_plant _ _ _ (mkRemoteUser "operator" 0 true "external")); [|done].
    apply (FakeWf_plant _ _ _ (mkRemoteUser "xpanel-a-client" 0 true "managed")); [|done]. apply FakeWf_New. }
  split; [exact Hr|exact Hf|].
  intros op f. cbn. destruct (decide (op = "add_user")) as [->|Hne].
  - rewrite lookup_singleton_eq. cbn. by intros ->%list_elem_of_singleton.
  - rewrite lookup_singleton_ne by done. cbn. by intros ?%not_elem_of_nil.
Qed.

Lemma fake_keeps_contract_witness :
  FakeWf demo_fake /\
  let c := mkAddUser "op" "xpanel-a" "al" "xpanel-c" 2 (NewRedactedString "k") in
  let out := fake_call 5 false (AddUser c) demo_fake in
  out.1 = Err (AdapterError ErrorDeadlineExceeded "add_user" true "") /\
  honest (AddUser c) (node_of demo_fake) out.1 (node_of out.2) /\
  (i ← node_of out.2 !! "xpanel-a"; ni_Users i !! "xpanel-c") = Some 2.
Proof.
  split; [apply demo_fake_wf|]. cbv zeta. split; [by vm_compute|]. split; [|by vm_compute].
  exact (proj1 (fake_keeps_contract 5 false (AddUser (mkAddUser "op" "xpanel-a" "al" "xpanel-c" 2 (NewRedactedString "k"))) demo_fake demo_fake_wf)).
Defined.
