(* ===== verification/Projection.v ===== *)
(** * What the synchronizer makes of the node

    The dedicated inbound of one operation while its handler runs against a
    node that keeps the contract: triples over the entry of the node under the
    inbound's tag. [K] is kept at every call boundary, [real] holds whenever a
    confirmation is stored, and [restarts] says whether the node may restart
    (and lose its inbounds) between two calls. *)

From Stdlib Require Import ZArith Lia.
From S2P Require Import Prelude GoTypes Identity Text Inbound Tokens User Sync Quota Traffic Template Cycle Records Database Secrets StoreCore StoreSync StoreQuota StoreUsers StoreTraffic StoreDrift StoreTemplates Adapter Calls Synchronizer Fencing.

(** ** Programs that leave the node alone *)
Definition silent {R} (e : Effect R) : Prop :=
  match e with
  | OnNode _ => False
  | OnStore (CallConfirmSync _ _ _ _ _ _) => False
  | _ => True
  end.
Fixpoint nodeless {A} (p : Worker A) : Prop :=
  match p with Done _ => True | Do e k => silent e /\ forall r, nodeless (k r) end.

Lemma nodeless_bind {A B} (p : Worker A) (f : A -> Worker B) :
  nodeless p -> (forall a, nodeless (f a)) -> nodeless (p ≫= f).
Proof.
  intros Hp Hf. induction p as [a|R e k IH]; [apply Hf|]. destruct Hp as [He Hk]. split; [done|].
  intros r. apply (IH r), Hk.
Qed.
Lemma nodeless_must {A B} (p : Worker (Res A)) (f : A -> Worker (Res B)) :
  nodeless p -> (forall a, nodeless (f a)) -> nodeless (must p f).
Proof. intros Hp Hf. apply nodeless_bind; [done|]. by intros [a|e]. Qed.
Lemma nodeless_call {R} (e : Effect R) : silent e -> nodeless (call e).
Proof. by split. Qed.

Ltac nodeless_walk :=
  repeat match goal with
  | |- forall _, _ => intro
  | |- nodeless (mret _) => exact I
  | |- nodeless (Done _) => exact I
  | |- nodeless (must _ _) => apply nodeless_must
  | |- nodeless (_ ≫= _) => apply nodeless_bind
  | |- nodeless (call _) => apply nodeless_call; exact I
  | |- nodeless (store _) => apply nodeless_call; exact I
  | |- nodeless (if ?b then _ else _) => destruct b
  | |- nodeless (match ?x with _ => _ end) => destruct x
  end.

Lemma nodeless_audit work action result summary now : nodeless (audit work action result summary now).
Proof. unfold audit. nodeless_walk. Qed.
Lemma nodeless_recordSuccess s work now : nodeless (recordSuccess s work now).
Proof. unfold recordSuccess, logged. nodeless_walk. Qed.
Lemma nodeless_reschedule s work kind summary now : nodeless (reschedule s work kind summary now).
Proof. unfold reschedule, backoff. nodeless_walk. Qed.
Lemma nodeless_fail s work kind summary : nodeless (fail_ s work kind summary).
Proof. unfold fail_, audit. nodeless_walk. Qed.
Lemma nodeless_retryLater s work kind summary : nodeless (retryLater s work kind summary).
Proof. unfold retryLater. nodeless_walk. apply nodeless_reschedule. Qed.
Lemma nodeless_retry s work cause : nodeless (retry s work cause).
Proof.
  unfold retry, trackDrift, logged. destruct (describe cause).
  nodeless_walk; first [apply nodeless_fail|apply nodeless_reschedule].
Qed.

(** ** Answers of the node, at one tag *)
Definition has (id : string) (x : option NodeInbound) : Prop := exists i, x = Some i /\ ni_Users i !! id <> None.

Lemma is_kind_kind e k : k <> ErrorInternal -> k <> ErrorDeadlineExceeded -> is_kind e k = true -> kind_of e = Some k.
Proof. unfold is_kind, describe. intros H1 H2 H%bool_decide_eq_true. destruct e; cbn in *; congruence. Qed.

(** The branches of a command that failed. *)
Lemma commanded_err {R} effect refusals n e n' : commanded (R := R) effect refusals n (Err e) n' ->
  (n' = n \/ effect = Some n') /\
  (forall k, k = ErrorInboundAlreadyExists \/ k = ErrorInboundNotFound \/ k = ErrorUserAlreadyExists \/ k = ErrorUserNotFound ->
     is_kind e k = true -> n' = n /\ exists holds : Prop, (k, holds) ∈ refusals /\ holds).
Proof.
  cbn. intros H. split.
  - destruct (telling e); [|done]. left. apply H.
  - intros k Hk He. apply is_kind_kind in He; [|naive_solver..].
    assert (telling e = true) as Ht by (unfold telling; rewrite He; apply bool_decide_eq_true; naive_solver).
    rewrite Ht in H. destruct H as (-> & k' & holds & Hin & Hk' & Hh). split; [done|]. exists holds.
    rewrite He in Hk'. by injection Hk' as ->.
Qed.

Section Answers.
Context (tag : string).

Lemma entry_remove c n r n' : ro_InboundTag c = tag -> honest (RemoveInbound c) n r n' ->
  match r with
  | Ok _ => n' !! tag = None
  | Err e => (n' !! tag = n !! tag \/ n' !! tag = None) /\ (is_kind e ErrorInboundNotFound = true -> n' !! tag = None)
  end.
Proof.
  intros <- H. cbn in H. unfold remove_effect in H. destruct r as [r|e].
  - cbn in H. destruct (n !! ro_InboundTag c); [|done]. injection H as <-. apply lookup_delete_eq.
  - apply commanded_err in H as [H Hk]. split.
    + destruct H as [->|H]; [by left|]. destruct (n !! ro_InboundTag c); [|done]. injection H as <-. right. apply lookup_delete_eq.
    + intros He. destruct (Hk ErrorInboundNotFound) as [-> (h & Hin & Hh)]; [naive_solver|done|].
      apply list_elem_of_singleton in Hin. by injection Hin as ->.
Qed.

Lemma entry_create c n r n' : ci_InboundTag c = tag -> honest (CreateInbound c) n r n' ->
  match r with
  | Ok _ => n !! tag = None /\ n' !! tag = Some (created c true)
  | Err e => (n' !! tag = n !! tag \/ (n !! tag = None /\ exists l, n' !! tag = Some (created c l))) /\
             (is_kind e ErrorInboundAlreadyExists = true -> n' !! tag = n !! tag)
  end.
Proof.
  intros <- H. cbn in H. unfold create_effect in H. destruct r as [r|e].
  - destruct (n !! ci_InboundTag c); [done|]. injection H as <-. by rewrite lookup_insert_eq.
  - destruct H as [l H]. apply commanded_err in H as [H Hk]. split.
    + destruct H as [->|H]; [by left|]. destruct (n !! ci_InboundTag c); [done|]. injection H as <-. right.
      rewrite lookup_insert_eq. by eauto.
    + intros He. destruct (Hk ErrorInboundAlreadyExists) as [-> _]; [naive_solver|done|done].
Qed.

Lemma entry_add c n r n' : nu_InboundTag c = tag -> honest (AddUser c) n r n' ->
  let added := exists i, n !! tag = Some i /\ n' !! tag = Some (with_user c i) in
  match r with
  | Ok _ => added
  | Err e => (n' !! tag = n !! tag \/ added) /\
             (is_kind e ErrorUserAlreadyExists = true -> n' !! tag = n !! tag /\ has (nu_StatisticsID c) (n !! tag)) /\
             (is_kind e ErrorInboundNotFound = true -> n !! tag = None /\ n' !! tag = None)
  end.
Proof.
  intros <- H. cbn in H. unfold add_effect in H. set (t := nu_InboundTag c) in *.
  assert ((i ← n !! t; Some (<[t := with_user c i]> n)) = Some n' ->
          exists i, n !! t = Some i /\ n' !! t = Some (with_user c i)) as Hadd.
  { intros He. destruct (n !! t) as [i|]; [|done]. injection He as <-. rewrite lookup_insert_eq. by eauto. }
  destruct r as [r|e]; [by apply Hadd|]. apply commanded_err in H as [H Hk]. split; [|split].
  - destruct H as [->|H]; [by left|right; by apply Hadd].
  - intros He. destruct (Hk ErrorUserAlreadyExists) as [-> (h & Hin & Hh)]; [naive_solver|done|]. split; [done|].
    apply elem_of_cons in Hin as [Hin|Hin%list_elem_of_singleton]; [done|]. by injection Hin as ->.
  - intros He. destruct (Hk ErrorInboundNotFound) as [-> (h & Hin & Hh)]; [naive_solver|done|].
    apply elem_of_cons in Hin as [Hin|Hin%list_elem_of_singleton]; [|done]. by injection Hin as ->.
Qed.

Lemma entry_drop c n r n' : rv_InboundTag c = tag -> honest (RemoveUser c) n r n' ->
  let dropped := exists i, n !! tag = Some i /\ n' !! tag = Some (without_user c i) in
  match r with
  | Ok _ => dropped
  | Err e => (n' !! tag = n !! tag \/ dropped) /\
             (is_kind e ErrorUserNotFound = true -> n' !! tag = n !! tag /\
                exists i, n !! tag = Some i /\ ni_Users i !! rv_StatisticsID c = None) /\
             (is_kind e ErrorInboundNotFound = true -> n !! tag = None /\ n' !! tag = None)
  end.
Proof.
  intros <- H. cbn in H. set (t := rv_InboundTag c) in *.
  assert (drop_effect c n = Some n' -> exists i, n !! t = Some i /\ n' !! t = Some (without_user c i)) as Hdrop.
  { unfold drop_effect. fold t. intros He. destruct (n !! t) as [i|]; [|done]. cbn in He. destruct (ni_Users i !! _); [|done].
    injection He as <-. rewrite lookup_insert_eq. by eauto. }
  destruct r as [r|e]; [by apply Hdrop|]. apply commanded_err in H as [H Hk]. split; [|split].
  - destruct H as [->|H]; [by left|right; by apply Hdrop].
  - intros He. destruct (Hk ErrorUserNotFound) as [-> (h & Hin & Hh)]; [naive_solver|done|]. split; [done|].
    apply elem_of_cons in Hin as [Hin|Hin%list_elem_of_singleton]; [done|]. by injection Hin as ->.
  - intros He. destruct (Hk ErrorInboundNotFound) as [-> (h & Hin & Hh)]; [naive_solver|done|].
    apply elem_of_cons in Hin as [Hin|Hin%list_elem_of_singleton]; [|done]. by injection Hin as ->.
Qed.

Lemma entry_list_users q n r n' : ri_InboundTag q = tag -> honest (ListUsers q) n r n' ->
  n' = n /\
  match r with
  | Ok users => forall id, lists users id = true <-> has id (n !! tag)
  | Err e => is_kind e ErrorInboundNotFound = true -> n !! tag = None
  end.
Proof.
  intros <- [-> H]. split; [done|]. destruct r as [users|e].
  - intros id. unfold has. rewrite <- H. unfold lists. rewrite existsb_true. split.
    + intros (u & Hu & Hb). to_prop. eauto.
    + intros (u & Hu & Hid & Hpr). exists u. rewrite Hpr, bool_decide_true by done. done.
  - intros He%is_kind_kind; [|done..]. apply H. unfold telling. rewrite He. apply bool_decide_eq_true. naive_solver.
Qed.

Lemma entry_list_inbounds n r n' : honest ListInbounds n r n' ->
  n' = n /\
  match r with
  | Ok l => existsb (fun i => bool_decide (rb_InboundTag i = tag)) l = true <-> n !! tag <> None
  | Err _ => True
  end.
Proof.
  intros [-> H]. split; [done|]. destruct r as [l|e]; [|done]. rewrite <- H, existsb_true, list_elem_of_fmap.
  split; intros (i & Hi); exists i; [destruct Hi as [? ?%bool_decide_eq_true]|destruct Hi as [-> ?]; rewrite bool_decide_eq_true]; done.
Qed.
End Answers.

(** ** Triples *)
Section Triples.
Context {Zn : Zones} {En : Entropy} {Un : Unicode} {Ae : Aead}.
Context (others : World -> World -> Prop) (tag : string) (restarts : Prop).
Abbreviation entry w := (w_node w !! tag).
Context (others_trace : forall w w', others w w' -> w_trace w' = w_trace w).
Context (others_entry : forall w w', others w w' -> entry w' = entry w \/ (restarts /\ entry w' = None)).
Context (K : option NodeInbound -> Prop) (real : Z -> bool -> option NodeInbound -> Prop).
Context (K_restart : restarts -> K None).

Definition kept (w : World) : Prop :=
  K (entry w) /\ forall version present n, Confirmed version present n ∈ w_trace w -> real version present (n !! tag).
Definition triple {A} (P : option NodeInbound -> Prop) (p : Worker A) (Q : A -> option NodeInbound -> Prop) : Prop :=
  forall w, kept w -> P (entry w) -> always (@honest) others kept p (fun a w' => Q a (entry w')) w.
(** The last part of a handler. *)
Definition ends {A} (P : option NodeInbound -> Prop) (p : Worker A) : Prop := triple P p (fun _ _ => True).
Definition stable (P : option NodeInbound -> Prop) : Prop := restarts -> P None.

Lemma kept_others w w' : others w w' -> kept w -> kept w'.
Proof.
  intros Ho [Hk Hr]. unfold kept. rewrite (others_trace _ _ Ho). split; [|done].
  destruct (others_entry _ _ Ho) as [->|[? ->]]; [done|by apply K_restart].
Qed.
Lemma stable_others P w w' : stable P -> others w w' -> P (entry w) -> P (entry w').
Proof. intros Hs Ho Hp. destruct (others_entry _ _ Ho) as [->|[? ->]]; [done|by apply Hs]. Qed.

Lemma triple_ret {A} P (a : A) : triple P (mret a) (fun _ => P).
Proof. intros w Hk Hp. by split. Qed.
Lemma triple_done {A} (P : option NodeInbound -> Prop) (a : A) (Q : A -> option NodeInbound -> Prop) :
  (forall x, P x -> Q a x) -> triple P (mret a) Q.
Proof. intros H w Hk Hp. split; [done|]. by apply H. Qed.
Lemma ends_ret {A} P (a : A) : ends P (mret a).
Proof. intros w Hk Hp. by split. Qed.
Lemma triple_bind {A B} P (p : Worker A) Q (f : A -> Worker B) T :
  triple P p Q -> (forall a, triple (Q a) (f a) T) -> triple P (p ≫= f) T.
Proof.
  intros Hp Hf w Hk Hw. apply always_bind. eapply always_mono; [|by apply Hp]. intros a w' Hk' Hq. by apply Hf.
Qed.
Lemma triple_mono {A} (P P' : option NodeInbound -> Prop) (p : Worker A) (Q Q' : A -> option NodeInbound -> Prop) :
  (forall x, K x -> P' x -> P x) -> (forall a x, Q a x -> Q' a x) -> triple P p Q -> triple P' p Q'.
Proof.
  intros HP HQ Hp w Hk Hw. eapply always_mono; [|apply Hp; [done|by apply HP; [apply Hk|]]]. intros a w' _. apply HQ.
Qed.
Lemma ends_mono {A} (P P' : option NodeInbound -> Prop) (p : Worker A) :
  (forall x, K x -> P' x -> P x) -> ends P p -> ends P' p.
Proof. intros HP. by apply triple_mono. Qed.

(** One call whose event is no confirmation. *)
Lemma triple_silent {R} P (e : Effect R) : silent e -> stable P -> triple P (call e) (fun _ => P).
Proof.
  intros He Hs w Hk Hp. split; [done|]. intros r w1 w2 Hx Ho.
  assert (w_node w1 = w_node w /\ kept w1) as [Hn Hk1].
  { destruct e as [R' c|R' c| | | | | | | | | | |]; cbn in Hx; try (by subst);
      try (by destruct Hx as (c' & _ & ->)); try (by destruct Hx as [_ ->]); try done.
    destruct Hx as (wall & w0 & (c' & _ & ->) & ->). split; [done|]. destruct Hk as [HK Hr]. split; [done|].
    intros version present n [Heq|Hin]%elem_of_cons; [|by apply (Hr _ _ _ Hin)]. destruct c; cbn in Heq; try done;
      by destruct r as [[]|]. }
  split; [done|]. split; [by eapply kept_others|]. apply (stable_others P w1); [done..|]. by rewrite Hn.
Qed.
Lemma triple_nodeless {A} P (p : Worker A) : nodeless p -> stable P -> triple P p (fun _ => P).
Proof.
  intros Hn Hs. induction p as [a|R e k IH]; [apply triple_ret|]. destruct Hn as [He Hk].
  apply (triple_bind P (call e) (fun _ => P) k); [by apply triple_silent|]. intros r. by apply (IH r).
Qed.
Lemma ends_nodeless {A} P (p : Worker A) : nodeless p -> stable P -> ends P p.
Proof. intros Hn Hs. eapply triple_mono; [done| |by apply triple_nodeless]. done. Qed.

Lemma triple_node {R} (c : AdapterCall R) P Q :
  (forall n r n', K (n !! tag) -> P (n !! tag) -> honest c n r n' -> K (n' !! tag) /\ Q r (n' !! tag)) ->
  (forall r, stable (Q r)) -> triple P (node c) Q.
Proof.
  intros Hc Hs w Hk Hp. split; [done|]. intros r w1 w2 (n & Hh & ->) Ho.
  destruct (Hc _ _ _ (proj1 Hk) Hp Hh) as [HK HQ].
  assert (kept (note (node_event c) (w <| w_node := n |>))) as Hk1.
  { split; [done|]. cbn. intros version present m [Heq|Hin]%elem_of_cons; [|by apply (proj2 Hk _ _ _ Hin)].
    unfold node_event in Heq. by destruct (mutated_tag c). }
  split; [done|]. split; [by eapply kept_others|]. by eapply stable_others; [apply Hs|done|].
Qed.

Context (s : Synchronizer) (work : SyncWork).

Lemma ends_guarded P rest : stable P -> ends P rest -> ends P (guarded (fence s work) rest).
Proof.
  intros Hs Hr. unfold guarded, must. eapply triple_bind; [apply triple_nodeless; [|done]; by unfold fence; nodeless_walk|].
  intros [[]|e]; [done|apply ends_ret..].
Qed.
Lemma ends_confirm (P : option NodeInbound -> Prop) present version :
  stable P -> (forall x, K x -> P x -> real version present x) -> ends P (confirm s work present version).
Proof.
  intros Hs Hreal. unfold confirm. eapply triple_bind; [by apply triple_silent|]. intros now.
  unfold must. eapply (triple_bind _ _ (fun _ => P)).
  - intros w Hk Hp. split; [done|]. intros r w1 w2 (wall & w0 & (c' & _ & ->) & ->) Ho.
    match goal with |- kept ?w1 /\ _ => assert (kept w1) as Hk1 end.
    { destruct Hk as [HK Hr]. split; [done|]. cbn. intros v b n [Heq|Hin]%elem_of_cons; [|by apply (Hr _ _ _ Hin)].
      destruct r as [[]|]; try done. injection Heq as -> -> ->. by apply Hreal. }
    split; [done|]. split; [by eapply kept_others|]. by apply (stable_others P _ _ Hs Ho).
  - intros [confirmed|e]; [|apply ends_ret]. apply ends_nodeless; [|done].
    apply nodeless_bind; [apply nodeless_recordSuccess|]. intros _. nodeless_walk; apply nodeless_audit.
Qed.

(** ** Readings *)
Definition gone (x : option NodeInbound) : Prop := restarts /\ x = None.

Lemma triple_inboundPresent P : stable P ->
  triple P (inboundPresent tag) (fun r x => P x /\ (answered r true = true -> gone x \/ x <> None) /\
                                            (answered r false = true -> x = None)).
Proof.
  intros Hs. unfold inboundPresent, must.
  apply (triple_bind _ _ (fun r x => P x /\ match r with
    | Ok l => existsb (fun i => bool_decide (rb_InboundTag i = tag)) l = true -> gone x \/ x <> None
    | Err _ => True end /\ match r with
    | Ok l => existsb (fun i => bool_decide (rb_InboundTag i = tag)) l = false -> x = None
    | Err _ => True end)).
  - apply triple_node.
    + intros n r n' HK HP H. apply (entry_list_inbounds tag) in H as [-> H]. split; [done|]. split; [done|].
      destruct r as [l|e]; [|done]. split; [intros Hl; right; by apply H|]. intros Hl.
      destruct (n !! tag); [|done]. rewrite (proj2 H) in Hl by done. done.
    + intros r Hr. split; [by apply Hs|]. destruct r; [|done]. split; [|done]. by left.
  - intros [l|e]; apply triple_done; intros x (HP & H1 & H2); cbn; [|naive_solver].
    destruct (existsb _ l); cbn in *; naive_solver.
Qed.

Lemma triple_carriesClient P inbound id : ri_InboundTag inbound = tag -> stable P ->
  triple P (carriesClient inbound id) (fun r x => P x /\ (answered r true = true -> gone x \/ has id x)).
Proof.
  intros Ht Hs. unfold carriesClient, must.
  apply (triple_bind _ _ (fun r x => P x /\ match r with
    | Ok users => lists users id = true -> gone x \/ has id x | Err _ => True end)).
  - apply triple_node.
    + intros n r n' HK HP H. apply (entry_list_users tag) in H as [-> H]; [|done]. split; [done|]. split; [done|].
      destruct r as [l|e]; [|done]. intros Hl. right. by apply H.
    + intros r Hr. split; [by apply Hs|]. destruct r; [|done]. by left.
  - intros [l|e]; apply triple_done; intros x (HP & H1); cbn; [|naive_solver].
    split; [done|]. intros He. apply H1. destruct (existsb _ l) eqn:E; [|done]. revert E. clear. unfold lists.
    rewrite !existsb_true. intros (u & Hu & Hb). exists u. by rewrite andb_comm.
Qed.

(** ** The handlers *)
Context (inbound : RuntimeInbound) (inbound_tag : ri_InboundTag inbound = tag) (id : string).
Abbreviation version := (cr_Version (sw_Credential work)).
Abbreviation safetyID := (RotationSafetyID id).
(** The inbound as [createDedicatedInbound] makes it, and as a rotation leaves
    it. *)
Definition fresh (x : option NodeInbound) : Prop :=
  exists i, x = Some i /\ ni_Users i = {[ id := version ]} /\ ni_Port i = in_Port (ir_Inbound (sw_Inbound work)).
Definition rotated (x : option NodeInbound) : Prop :=
  exists i, x = Some i /\ ni_Users i !! id = Some version /\ ni_Users i !! safetyID = None.
(** [C]: the entries a confirmation of presence is right about. *)
Context (C : option NodeInbound -> Prop) (C_fresh : forall x, fresh x -> C x) (C_rotated : op_Reason (sw_Operation work) = SyncRotate -> forall x, rotated x -> C x).
Context (C_real : forall x, C x -> real version true x) (real_absent : real 0 false None).
Context (real_restart : restarts -> forall v b x, real v b x).
Context (K_none : K None) (K_id : forall x, has id x -> K x) (K_safety : forall x, has safetyID x -> K x).

Lemma fresh_has x : fresh x -> has id x.
Proof. intros (i & -> & Hu & _). exists i. by rewrite Hu, lookup_singleton_eq. Qed.
Lemma created_fresh serverKey userKey l : fresh (Some (created (create_command work inbound id serverKey userKey) l)).
Proof. eexists. split; [done|]. by split. Qed.

Lemma ends_confirmed : ends (fun x => C x \/ gone x) (confirm s work true version).
Proof.
  apply ends_confirm; [right; by split|]. intros x _ [H|[H _]]; [by apply C_real|by apply real_restart].
Qed.
Lemma ends_quiet {A} P (p : Worker A) : nodeless p -> ends P p.
Proof.
  intros H. apply (ends_mono (fun _ => True)); [done|]. apply ends_nodeless; [done|]. by intros _.
Qed.

(** The inbound is removed, or stays. *)
Lemma triple_remove_inbound P : 
  triple P (node (RemoveInbound (remove_command work inbound))) (fun r x => match r with
    | Ok _ => x = None | Err e => is_kind e ErrorInboundNotFound = true -> x = None end).
Proof.
  apply triple_node.
  - intros n r n' HK HP H. apply (entry_remove tag) in H; [|done].
    destruct r as [r|e]; [by rewrite H|]. destruct H as [[H|H] H2]; (split; [by rewrite H|done]).
  - intros [r|e] Hr; done.
Qed.
Lemma triple_compensate P b : triple P (compensate work inbound b) (fun _ _ => True).
Proof.
  unfold compensate. destruct b; [|by apply triple_done].
  eapply triple_bind; [apply triple_remove_inbound|]. intros r. by apply triple_done.
Qed.

Definition startable (x : option NodeInbound) : Prop := x = None \/ C x.

Lemma ends_creation_failed err : ends startable (creation_failed s work inbound id err).
Proof.
  assert (stable startable) as Hst by (intros _; by left).
  unfold creation_failed. rewrite inbound_tag. case_if; [|case_if; [|case_if; [|apply ends_quiet, nodeless_retry]]].
  - apply ends_guarded; [done|]. eapply triple_bind; [by apply triple_inboundPresent|]. intros present.
    case_if; [|apply ends_quiet, nodeless_retry]. eapply ends_mono; [|apply ends_confirmed].
    intros x _ ([Hx|Hx] & H & _); [|by left]. lapply H; [|done]; intros [Hg|Hg]; [by right|done].
  - apply ends_guarded; [done|]. eapply triple_bind; [by apply triple_inboundPresent|]. intros present.
    eapply triple_bind; [apply triple_compensate|]. intros ?. apply ends_quiet, nodeless_retryLater.
  - apply ends_guarded; [done|]. eapply triple_bind; [by apply triple_inboundPresent|]. intros present.
    case_if; [|apply ends_quiet, nodeless_retry]. cbv beta.
    apply (ends_mono (fun x => C x \/ gone x)).
    { intros x _ ([Hx|Hx] & H & _); [|by left]. lapply H; [|done]; intros [Hg|Hg]; [by right|done]. }
    eapply triple_bind; [apply triple_carriesClient; [done|]; by right|]. intros healthy. case_if.
    + eapply ends_mono; [|apply ends_confirmed]. by intros x _ [H _].
    + eapply triple_bind; [apply triple_compensate|]. intros ?. apply ends_quiet, nodeless_retryLater.
Qed.

Lemma ends_create : ends startable (createDedicatedInbound s work inbound id).
Proof.
  assert (stable startable) as Hst by (intros _; by left).
  unfold createDedicatedInbound. destruct (server_key s work) as [sk|]; [|apply ends_quiet, nodeless_fail].
  destruct (user_key s work) as [uk|]; [|apply ends_quiet, nodeless_fail].
  apply ends_guarded; [done|].
  apply (triple_bind _ _ (fun r x => match r with Ok _ => C x \/ gone x | Err _ => startable x end)).
  - apply triple_node; [|intros [r|e] Hr; [right; by split|by left]].
    intros n r n' HK HP H. apply (entry_create tag) in H; [|done].
    pose proof (created_fresh sk uk) as Hf. destruct r as [r|e].
    + destruct H as [_ ->]. split; [apply K_id, fresh_has, Hf|]. left. apply C_fresh, Hf.
    + destruct H as [[->|(Hn & l & ->)] _]; [done|]. split; [apply K_id, fresh_has, Hf|]. right. apply C_fresh, Hf.
  - intros [r|err]; [apply ends_confirmed|apply ends_creation_failed].
Qed.

Lemma ends_create_absent P : (forall x, P x -> x = None) -> ends P (createDedicatedInbound s work inbound id).
Proof. intros H. eapply ends_mono; [|apply ends_create]. intros x _ Hx. left. by apply H. Qed.

Lemma ends_withdraw P : ends P (withdraw s work inbound).
Proof.
  apply (ends_mono (fun _ => True)); [done|].
  assert (forall P, stable P -> (forall x, P x -> x = None) -> ends P (confirm s work false 0)) as Hc.
  { intros P' Hs H. apply ends_confirm; [done|]. intros x _ Hx. by rewrite (H _ Hx). }
  unfold withdraw. apply ends_guarded; [done|]. eapply triple_bind; [apply triple_remove_inbound|].
  intros [r|err]; [by apply Hc|]. rewrite inbound_tag. case_if; [by apply Hc; [intros _ _|intros x Hx; apply Hx]|].
  case_if; [|apply ends_quiet, nodeless_retry].
  apply (ends_mono (fun _ => True)); [done|]. apply ends_guarded; [done|].
  eapply triple_bind; [by apply triple_inboundPresent|]. intros present.
  case_if; [|apply ends_quiet, nodeless_retry]. apply Hc.
  - intros Hr. split_and!; [done| |done]. intros _. left. by split.
  - intros x (_ & _ & H). by apply H.
Qed.

(** The steps of a rotation. *)
Definition shielded (x : option NodeInbound) : Prop := gone x \/ has safetyID x.
Definition cleared (x : option NodeInbound) : Prop := gone x \/ ~ has id x.
Definition renewed (x : option NodeInbound) : Prop :=
  gone x \/ exists i, x = Some i /\ ni_Users i !! id = Some version.

Lemma safety_other : safetyID <> id.
Proof. apply RotationSafetyID_ne. Qed.

Section Rotation.
Context (rotating : op_Reason (sw_Operation work) = SyncRotate).

Lemma ends_remove_safety : ends renewed (remove_safety s work inbound id).
Proof.
  assert (stable renewed) as Hst by (left; by split).
  unfold remove_safety. apply ends_guarded; [done|].
  apply (triple_bind _ _ (fun r x => match r with
    | Ok _ => C x \/ gone x
    | Err e => is_kind e ErrorUserNotFound || is_kind e ErrorInboundNotFound = true -> C x \/ gone x end)).
  - apply triple_node; [|intros [r|e] Hr; [|intros _]; right; by split].
    intros n r n' HK HP H. apply (entry_drop tag) in H; [|done]. cbn in H.
    assert ((exists i, n !! tag = Some i /\ n' !! tag =
        Some (without_user (drop_command work inbound safetyID id) i)) -> K (n' !! tag) /\ C (n' !! tag)) as Hd.
    { intros (i & Hi & ->). destruct HP as [[_ HP]|(i' & Hi' & Hu)]; [congruence|]. rewrite Hi in Hi'. injection Hi' as <-.
      split; [apply K_id|apply C_rotated; [done|]]; eexists; (split; [done|]); cbn.
      - rewrite lookup_delete_ne by apply safety_other. by rewrite Hu.
      - rewrite lookup_delete_ne by apply safety_other. split; [done|]. apply lookup_delete_eq. }
    destruct r as [r|e]; [naive_solver|]. destruct H as ([H|H] & Hn & Hg); [|naive_solver].
    rewrite H in *. split; [done|]. intros He%orb_true_iff. destruct He as [He|He].
    + destruct (Hn He) as (_ & i & Hi & Hu). destruct HP as [?|(i' & Hi' & Hu')]; [by right|]. left. apply C_rotated; [done|].
      exists i. rewrite Hi in Hi'. injection Hi' as <-. done.
    + destruct (Hg He) as [Hx _]. destruct HP as [?|(i' & Hi' & Hu')]; [by right|congruence].
  - intros [r|err]; [apply ends_confirmed|]. case_if; [|apply ends_quiet, nodeless_retryLater].
    eapply ends_mono; [|apply ends_confirmed]. intros x _ Hx. by apply Hx.
Qed.

Lemma ends_add_desired next : ends renewed next -> ends (fun x => shielded x /\ cleared x) (add_desired s work inbound id next).
Proof.
  intros Hnext. set (start := fun x => _ /\ _).
  assert (stable start) as Hst by (intros Hr; split; left; by split).
  assert (forall x, start x -> has id x -> gone x) as Hno by (intros x [_ [?|?]]; done).
  unfold add_desired. destruct (user_key s work) as [key|]; [|apply ends_quiet, nodeless_fail].
  apply ends_guarded; [done|].
  apply (triple_bind _ _ (fun r x => match r with
    | Ok _ => renewed x
    | Err e => (start x \/ renewed x) /\ (is_kind e ErrorUserAlreadyExists = true -> renewed x) /\
               (is_kind e ErrorInboundNotFound = true -> x = None) end)).
  - apply triple_node.
    + intros n r n' HK HP H. apply (entry_add tag) in H; [|done]. cbn in H.
      assert ((exists i, n !! tag = Some i /\ n' !! tag =
        Some (with_user (add_command work inbound id (NewRedactedString key)) i)) -> K (n' !! tag) /\ renewed (n' !! tag)) as Hd.
      { intros (i & Hi & ->). split; [apply K_id; eexists|right; eexists]; (split; [done|]); cbn; by rewrite lookup_insert_eq. }
      destruct r as [r|e]; [naive_solver|]. destruct H as ([H|H] & Hex & Hg).
      * rewrite H. split; [done|]. split; [by left|]. split; [|intros He; by apply Hg].
        intros He. left. apply Hno; [done|]. by apply Hex.
      * destruct (Hd H). split; [done|]. split; [by right|]. split; [done|]. intros He. by apply Hg.
    + intros [r|e] Hr; [left; by split|]. split; [left; by apply Hst|]. split; [left; by split|done].
  - intros [r|err]; [done|]. case_if; [eapply ends_mono; [|done]; intros x _ (_ & H & _); by apply H|].
    case_if; [apply ends_create_absent; intros x (_ & _ & H); by apply H|].
    case_if; [|apply ends_quiet, nodeless_retryLater].
    apply (ends_mono (fun x => start x \/ renewed x)); [by intros x _ [H _]|].
    assert (stable (fun x => start x \/ renewed x)) by (intros Hr; left; by apply Hst).
    apply ends_guarded; [done|]. eapply triple_bind; [by apply triple_carriesClient|]. intros healthy.
    case_if; [|apply ends_quiet, nodeless_retryLater]. eapply ends_mono; [|done].
    intros x _ [[Hx|Hx] Hc]; [|done]. left. lapply Hc; [|done]. intros [?|?]; [done|by apply Hno].
Qed.

Lemma ends_remove_old next : ends (fun x => shielded x /\ cleared x) next -> ends shielded (remove_old s work inbound id next).
Proof.
  intros Hnext. assert (stable shielded) as Hst by (left; by split).
  unfold remove_old. apply ends_guarded; [done|].
  apply (triple_bind _ _ (fun r x => match r with
    | Ok _ => shielded x /\ cleared x
    | Err e => (is_kind e ErrorUserNotFound = true -> shielded x /\ cleared x) /\
               (is_kind e ErrorInboundNotFound = true -> x = None) end)).
  - apply triple_node.
    + intros n r n' HK HP H. apply (entry_drop tag) in H; [|done]. cbn in H.
      assert ((exists i, n !! tag = Some i /\ n' !! tag = Some (without_user (drop_command work inbound id id) i)) ->
          K (n' !! tag) /\ shielded (n' !! tag) /\ cleared (n' !! tag)) as Hd.
      { intros (i & Hi & ->). destruct HP as [[_ ?]|(i' & Hi' & Hu)]; [congruence|]. rewrite Hi in Hi'. injection Hi' as <-.
        assert (has safetyID (Some (without_user (drop_command work inbound id id) i))) as Hs.
        { eexists. split; [done|]. cbn. rewrite lookup_delete_ne; [done|]. intros He. by apply safety_other. }
        split; [by apply K_safety|]. split; [by right|]. right. intros (j & [= <-] & Hj). cbn in Hj. by rewrite lookup_delete_eq in Hj. }
      destruct r as [r|e]; [naive_solver|]. destruct H as ([H|H] & Hn & Hg).
      * rewrite H. split; [done|]. split; [|intros He; by apply Hg]. intros He. destruct (Hn He) as (_ & i & Hi & Hu).
        split; [done|]. right. rewrite Hi. intros (j & [= <-] & Hj). done.
      * destruct (Hd H) as [? ?]. split; [done|]. split; [done|]. intros He. by apply Hg.
    + intros [r|e] Hr; [split; left; by split|]. split; [|done]. split; left; by split.
  - intros [r|err]; [done|]. case_if; [apply ends_create_absent; intros x (_ & H); by apply H|].
    case_if; [|apply ends_quiet, nodeless_retry]. eapply ends_mono; [|done]. intros x _ (H & _). by apply H.
Qed.

Lemma ends_add_safety (B : option NodeInbound -> Prop) next :
  stable B -> (forall i key, B (Some i) -> B (Some (with_user (add_command work inbound safetyID key) i))) ->
  ends (fun x => shielded x /\ B x) next -> ends B (add_safety s work inbound id next).
Proof.
  intros Hst Hadd Hnext. unfold add_safety.
  eapply triple_bind; [apply triple_silent; [done|exact Hst]|]. intros [key|]; [|apply ends_quiet, nodeless_fail].
  apply ends_guarded; [done|].
  apply (triple_bind _ _ (fun r x => match r with
    | Ok _ => shielded x /\ B x
    | Err e => B x /\ (is_kind e ErrorUserAlreadyExists = true -> shielded x) /\ (is_kind e ErrorInboundNotFound = true -> x = None) end)).
  - apply triple_node.
    + intros n r n' HK HP H. apply (entry_add tag) in H; [|done]. cbn in H.
      assert ((exists i, n !! tag = Some i /\ n' !! tag = Some (with_user (add_command work inbound safetyID key) i)) ->
          K (n' !! tag) /\ shielded (n' !! tag) /\ B (n' !! tag)) as Hd.
      { intros (i & Hi & ->). rewrite Hi in HP.
        assert (has safetyID (Some (with_user (add_command work inbound safetyID key) i))) as Hs.
        { eexists. split; [done|]. cbn. by rewrite lookup_insert_eq. }
        split; [by apply K_safety|]. split; [by right|by apply Hadd]. }
      destruct r as [r|e]; [naive_solver|]. destruct H as ([H|H] & Hex & Hg).
      * rewrite H. split; [done|]. split; [done|]. split; [|intros He; by apply Hg].
        intros He. right. by apply Hex.
      * destruct (Hd H) as (? & ? & ?). split; [done|]. split; [done|]. split; [done|]. intros He. by apply Hg.
    + intros [r|e] Hr; [split; [left; by split|by apply Hst]|]. split; [by apply Hst|]. split; [|done]. left. by split.
  - intros [r|err]; [done|]. case_if; [eapply ends_mono; [|done]; intros x _ (? & H & _); split; [by apply H|done]|].
    case_if; [apply ends_create_absent; intros x (_ & _ & H); by apply H|].
    case_if; [apply ends_quiet, nodeless_retry|].
    apply (ends_mono B); [by intros x _ [H _]|]. apply ends_guarded; [done|].
    eapply triple_bind; [by apply triple_carriesClient|]. intros added.
    case_if; [|apply ends_quiet, nodeless_retry]. eapply ends_mono; [|done].
    intros x _ [HB Hc]. split; [|done]. by apply Hc.
Qed.

Lemma ends_rotate P : ends P (rotateWithinInbound s work inbound id).
Proof.
  apply (ends_mono (fun _ => True)); [done|].
  pose proof (ends_add_desired _ ends_remove_safety) as Hdes.
  unfold rotateWithinInbound. apply ends_guarded; [done|].
  apply (triple_bind _ _ (fun r x => match r with
    | Ok users => (lists users id = false -> cleared x) /\ (lists users safetyID = true -> shielded x)
    | Err e => is_kind e ErrorInboundNotFound = true -> x = None end)).
  - apply triple_node.
    + intros n r n' HK _ H. apply (entry_list_users tag) in H as [-> H]; [|done]. split; [done|].
      destruct r as [users|e]; [|done]. split; intros Hl; right; [rewrite <- H, Hl; done|by apply H].
    + intros [r|e] Hr; [|done]. split; intros _; left; by split.
  - intros [users|err].
    2: { case_if; [|apply ends_quiet, nodeless_retry]. apply ends_create_absent. intros x Hx. by apply Hx. }
    set (B := fun x => if lists users id then True else cleared x).
    assert (ends (fun x => shielded x /\ B x) (if lists users id
      then remove_old s work inbound id (add_desired s work inbound id (remove_safety s work inbound id))
      else add_desired s work inbound id (remove_safety s work inbound id))) as Hswap.
    { unfold B. destruct (lists users id); [|done]. eapply ends_mono; [|by apply ends_remove_old]. by intros x _ [H _]. }
    assert (stable B) as HB by (intros Hr; unfold B; case_if; [done|left; by split]).
    cbv zeta. destruct (lists users safetyID).
    + eapply ends_mono; [|exact Hswap]. intros x _ [H1 H2]. split; [by apply H2|]. unfold B. case_if; [done|by apply H1].
    + apply (ends_mono B); [|apply ends_add_safety; [done| |done]].
      * intros x _ [H1 _]. unfold B. case_if; [done|by apply H1].
      * intros i key. unfold B. case_if; [done|]. intros [[_ ?]|Hc]; [done|]. right. intros (j & [= <-] & Hj). apply Hc.
        eexists. split; [done|]. cbn in Hj. by rewrite lookup_insert_ne in Hj by apply safety_other.
Qed.
End Rotation.

Lemma ends_handle P : inbound = runtime_inbound work -> i_StatisticsID (sw_Identity work) = id -> stable P ->
  (op_DesiredPresence (sw_Operation work) = true -> op_Reason (sw_Operation work) <> SyncRotate ->
     op_Reason (sw_Operation work) <> SyncPortChange -> forall x, P x -> startable x) ->
  ends P (handle s work).
Proof.
  intros Hi Hid Hst Hstart. unfold handle. rewrite <- Hi, Hid.
  eapply triple_bind; [by apply triple_silent|]. intros ?. case_if; [apply ends_withdraw|]. apply negb_false_iff in Eif.
  case_bool_decide; [by apply ends_rotate|]. case_bool_decide.
  - apply ends_guarded; [done|]. eapply triple_bind; [apply triple_remove_inbound|].
    intros [r|err]; [by apply ends_create_absent|]. case_if; [|apply ends_quiet, nodeless_retry].
    apply ends_create_absent. intros x Hx. by apply Hx.
  - eapply ends_mono; [|apply ends_create]. intros x _. by apply Hstart.
Qed.
End Triples.

Section Results.
Context {Zn : Zones} {En : Entropy} {Un : Unicode} {Ae : Aead}.
Context (others : World -> World -> Prop) (s : Synchronizer) (work : SyncWork).
Let tag := in_InboundTag (ir_Inbound (sw_Inbound work)).
Let id := i_StatisticsID (sw_Identity work).

(** The inbound, if the node has it, has the user's client or the transition
    client of a rotation. *)
Definition served (id : string) (x : option NodeInbound) : Prop :=
  x <> None -> has id x \/ has (RotationSafetyID id) x.

(** What a confirmation says of the node: for a presence, the client with the
    key version of the operation, no transition client, and, but for a rotation,
    the port of the allocation. *)
Definition projected (work : SyncWork) (version : Z) (present : bool) (x : option NodeInbound) : Prop :=
  let id := i_StatisticsID (sw_Identity work) in
  if present then
    version = cr_Version (sw_Credential work) /\
    exists i, x = Some i /\ ni_Users i !! id = Some version /\ ni_Users i !! RotationSafetyID id = None /\
      (op_Reason (sw_Operation work) <> SyncRotate -> ni_Port i = in_Port (ir_Inbound (sw_Inbound work)))
  else x = None.

(** C4: on a node that keeps its contract, whatever the store answers, which
    calls fail (carried out or not), and also when the node restarts between
    two calls: if the dedicated inbound of the operation, where the node has
    it, has the user's client or the transition client of a rotation, it has
    one of them at every call boundary of the handler. An inbound without any
    client would let everybody in who knows the server key. *)
Theorem handle_never_empties_inbound w :
  (forall w w', others w w' -> w_trace w' = w_trace w /\
     (w_node w' !! tag = w_node w !! tag \/ w_node w' !! tag = None)) ->
  served id (w_node w !! tag) ->
  always (@honest) others (fun w => served id (w_node w !! tag)) (handle s work) (fun _ _ => True) w.
Proof.
  intros Ho Hw.
  assert (ends others tag (served id) (fun _ _ _ => True) (fun _ => True) (handle s work)) as Hends.
  { apply (ends_handle others tag True) with (inbound := runtime_inbound work) (id := id) (C := fun _ => True); try done.
    - intros v v' Hv. by apply Ho.
    - intros v v' Hv. destruct (Ho _ _ Hv) as [_ [?|?]]; [by left|by right].
    - intros _ H. by destruct H.
    - intros H. by destruct H.
    - intros x Hx _. by left.
    - intros x Hx _. by right.
    - intros _ _ _ x _. by right. }
  eapply always_weaken; [|apply Hends; done]. by intros v [? _].
Qed.

End Results.
