(* ===== verification/Scenario.v ===== *)
(** * Running the synchronizer on the double of the node

    [play] runs a program of the synchronizer with the clock at one instant,
    the store on its connection and the double of the node as the adapter,
    nobody else acting. [play_ok] relates it to [always]; the runs at the end
    follow one user through the panel. *)

From Stdlib Require Import ZArith Lia.
From S2P Require Import Prelude GoTypes Ports Identity Text Inbound Tokens User Sync Quota Traffic Template Cycle Records Database Secrets StoreCore StoreSync StoreQuota StoreUsers StoreTraffic StoreDrift StoreTemplates UserService Demo Adapter Calls Synchronizer Fencing FakeXray Projection.

Record Machine := mkMachine {
  m_conn : Conn;
  m_fake : Fake;
  m_failures : Z;
  m_degraded : bool;
  m_trace : list Event }.

Definition world_of (m : Machine) : World := mkWorld (m_conn m) (node_of (m_fake m)) (m_failures m) (m_degraded m) (m_trace m).

Section Play.
Context {Zn : Zones} {En : Entropy} {Un : Unicode} (now : Time).

(** The answer to one call. *)
Definition respond {R} (e : Effect R) : Machine -> R * Machine :=
  match e in Effect R return Machine -> R * Machine with
  | OnStore call => fun m =>
      let '(r, c) := store_tx now call (m_conn m) in
      let w := mkWorld c (node_of (m_fake m)) (m_failures m) (m_degraded m) (m_trace m) in
      (r, mkMachine c (m_fake m) (m_failures m) (m_degraded m) (store_event call r w :: m_trace m))
  | OnNode call => fun m =>
      let '(r, a) := fake_call now false call (m_fake m) in
      (r, mkMachine (m_conn m) a (m_failures m) (m_degraded m) (node_event call :: m_trace m))
  | Now => fun m => (now, m)
  | Jitter => fun m => (fun _ => 0, m)
  | DrawID => fun m => let '(r, c) := NewID_tx (m_conn m) in (r, mkMachine c (m_fake m) (m_failures m) (m_degraded m) (m_trace m))
  | DrawUserKey method => fun m =>
      let '(r, c) := GenerateUserKey method (m_conn m) in (r, mkMachine c (m_fake m) (m_failures m) (m_degraded m) (m_trace m))
  | Failures update => fun m =>
      let n := update (m_failures m) in (n, mkMachine (m_conn m) (m_fake m) n (m_degraded m) (m_trace m))
  | Recovered _ => fun m => (tt, m)
  | CtxErr => fun m => (None, m)
  | NotifySync => fun m => (tt, m)
  | Revalidate _ => fun m => (None, m)
  | QueueValidation _ => fun m => (tt, m)
  | Degraded d => fun m => (m_degraded m, mkMachine (m_conn m) (m_fake m) (m_failures m) d (m_trace m))
  end.

Fixpoint play {A} (p : Worker A) (m : Machine) : A * Machine :=
  match p with
  | Done a => (a, m)
  | Do e k => let '(r, m') := respond e m in play (k r) m'
  end.

Lemma respond_exec {R} (e : Effect R) m r m' : FakeWf (m_fake m) -> respond e m = (r, m') ->
  exec (@honest) e (world_of m) r (world_of m') /\ FakeWf (m_fake m').
Proof.
  intros Hw H. destruct e as [R c|R c| | | |method|update|t| | |t|d|t]; cbn in H.
  - destruct (store_tx now c (m_conn m)) as [r' c'] eqn:E. injection H as <- <-. split; [|done].
    exists now, (mkWorld c' (node_of (m_fake m)) (m_failures m) (m_degraded m) (m_trace m)). split; [|done]. by exists c'.
  - destruct (fake_call now false c (m_fake m)) as [r' a] eqn:E. injection H as <- <-.
    pose proof (fake_call_contract now false c _ Hw) as [Hc Hw']. rewrite E in Hc, Hw'. split; [|done]. by exists (node_of a).
  - by injection H as <- <-.
  - by injection H as <- <-.
  - by injection H as <- <-; (split; [|done]); eexists.
  - destruct (GenerateUserKey method (m_conn m)) as [r' c'] eqn:E. injection H as <- <-. split; [|done]. by exists c'.
  - by injection H as <- <-.
  - by injection H as <- <-.
  - by injection H as <- <-.
  - by injection H as <- <-.
  - by injection H as <- <-.
  - by injection H as <- <-.
  - by injection H as <- <-.
Qed.

(** What every execution guarantees holds of the run. *)
Lemma play_ok {A} I (p : Worker A) Q m : FakeWf (m_fake m) -> always (@honest) eq I p Q (world_of m) ->
  let '(a, m') := play p m in I (world_of m') /\ Q a (world_of m').
Proof.
  revert m. induction p as [a|R e k IH]; intros m Hw [Hi Hp]; [done|]. cbn.
  destruct (respond e m) as [r m'] eqn:E. destruct (respond_exec _ _ _ _ Hw E) as [Hx Hw'].
  destruct (Hp _ _ _ Hx eq_refl) as [_ Hk]. by apply IH.
Qed.
End Play.

(** ** One user *)
Definition demo_worker : Synchronizer := NewSynchronizer demo_keyring (mkSyncOptions "" 0 0 0 false false).
Definition drained (now : Time) (c : Conn) (a : Fake) : option (Z * option error) * Machine :=
  play now (Drain demo_worker 9) (mkMachine c a 0 false []).
Definition mutations (trace : list Event) : list string :=
  omap (fun e => match e with Mutated tag => Some tag | _ => None end) trace.
Definition alice_tag : string := InboundTag alice_allocation.
Definition alice_identity (c : Conn) : string :=
  match GetUser alice c with (Ok r, _) => i_StatisticsID (ur_Identity r) | _ => "" end.
(** The version of alice's key on the node. *)
Definition key_version (m : Machine) : option Z :=
  i ← node_of (m_fake m) !! alice_tag; ni_Users i !! alice_identity (m_conn m).

(** The inbound is created; then the administrator rotates the key. *)
Definition created9 : option (Z * option error) * Machine := drained t0 conn5 (fake_New t0).
Definition rotate10 : Res (bool * bool) * Conn :=
  Service_RotateCredential demo_keyring (mkLifecycleInput alice 0 (demo_id 40) (demo_id 3) "") (t0 + Second)
    (m_conn created9.2).

(** The handler of the operation that is due, on a world of its own. *)
Definition leased (c : Conn) : option (SyncWork * Conn) :=
  match LeaseDueSync (s_owner demo_worker) (t0 + Second) (s_lease demo_worker) c with
  | (Ok (Some work), c') => Some (work, c')
  | _ => None
  end.
Definition handled (p : SyncWork * Conn) (a : Fake) : Res unit * Machine :=
  play (t0 + Second) (handle demo_worker p.1) (mkMachine p.2 a 0 false []).

Lemma has_version id (x : option NodeInbound) v : (i ← x; ni_Users i !! id) = Some v -> has id x.
Proof. destruct x as [i|]; [|done]. cbn. intros H. exists i. by rewrite H. Qed.
Lemma has_registered id (x : option NodeInbound) : has id x -> x <> None.
Proof. by intros (i & -> & _). Qed.
(** A property of the operation that is leased. *)
Definition on_leased (c : Conn) (P : SyncWork * Conn -> Prop) : Prop :=
  match leased c with Some p => P p | None => False end.
Lemma on_leased_some c P : on_leased c P -> exists p, leased c = Some p /\ P p.
Proof. unfold on_leased. destruct (leased c) as [p|]; [|done]. by exists p. Qed.

Lemma changes_are_fenced_witness : exists p, leased conn5 = Some p /\
  mutations (m_trace (handled p (fake_New t0)).2) = [alice_tag] /\
  let w := mkWorld p.2 ∅ 0 false [] in
  let held := lease_held (s_owner demo_worker) (op_ID (sw_Operation p.1)) in
  always (@honest) eq (fun w => fenced held (in_InboundTag (ir_Inbound (sw_Inbound p.1))) (w_trace w))
    (handle demo_worker p.1) (fun _ _ => True) w.
Proof.
  destruct (on_leased_some conn5 (fun p => mutations (m_trace (handled p (fake_New t0)).2) = [alice_tag])) as (p & Hp & Hm);
    [by vm_compute|].
  exists p. split; [exact Hp|]. split; [exact Hm|].
  apply changes_are_fenced; [intros ? ? <-; reflexivity|reflexivity].
Defined.

Lemma handle_never_empties_inbound_witness : exists p, leased rotate10.2 = Some p /\
  mutations (m_trace (handled p (m_fake created9.2)).2) = [alice_tag; alice_tag; alice_tag; alice_tag] /\
  let id := i_StatisticsID (sw_Identity p.1) in
  let tag := in_InboundTag (ir_Inbound (sw_Inbound p.1)) in
  let w := mkWorld p.2 (node_of (m_fake created9.2)) 0 false [] in
  w_node w !! tag <> None /\ served id (w_node w !! tag) /\
  always (@honest) eq (fun w => served id (w_node w !! tag)) (handle demo_worker p.1) (fun _ _ => True) w.
Proof.
  destruct (on_leased_some rotate10.2 (fun p =>
    mutations (m_trace (handled p (m_fake created9.2)).2) = [alice_tag; alice_tag; alice_tag; alice_tag] /\
    (i ← node_of (m_fake created9.2) !! in_InboundTag (ir_Inbound (sw_Inbound p.1));
     ni_Users i !! i_StatisticsID (sw_Identity p.1)) = Some 1)) as (p & Hp & Hm & Hu); [by vm_compute|].
  exists p. split; [exact Hp|]. split; [exact Hm|]. intros id tag w. apply has_version in Hu as Hh.
  assert (served id (w_node w !! tag)) as Hs by (intros _; left; exact Hh).
  split; [exact (has_registered _ _ Hh)|]. split; [exact Hs|].
  apply handle_never_empties_inbound; [|exact Hs]. intros ? ? <-. split; [reflexivity|left; reflexivity].
Defined.


(** ** A rotation overtaken by a toggle *)
(** Observations computed together are observations. *)
Lemma pair_eq {A B} (a a' : A) (b b' : B) : (a, b) = (a', b') -> a = a' /\ b = b'.
Proof. by intros [= -> ->]. Qed.
Ltac observe H x := apply pair_eq in H as [H x].

Definition toggle (enabled : bool) (expected : Revision) (request : Z) (now : Time) (c : Conn) : Res (bool * bool) * Conn :=
  SetAdminEnabled (mkEnabledInput alice enabled expected (demo_id request) (demo_id 3) "") now c.
Definition disabled11 : Res (bool * bool) * Conn := toggle false 1 41 (t0 + 2 * Second) rotate10.2.
Definition enabled12 : Res (bool * bool) * Conn := toggle true 2 42 (t0 + 3 * Second) disabled11.2.
Definition drained13 : option (Z * option error) * Machine := drained (t0 + 4 * Second) enabled12.2 (m_fake created9.2).

