(* ===== verification/Rounds.v ===== *)
(** * Rounds of the services on a concrete panel

    Runs of the services against the double of the node, and the witnesses of
    the theorems about them. *)

From Stdlib Require Import ZArith Lia.
From S2P Require Import Prelude GoTypes Identity Text Inbound Tokens User Sync Quota Traffic Template Cycle Records Database Secrets StoreCore StoreSync StoreQuota StoreUsers StoreTraffic StoreDrift StoreTemplates StoreListings Paging UserService Demo History Adapter Calls Trace TrafficService TrafficLaws PanelServices ReconciliationService Synchronizer ReconcileLaws Fencing FakeXray Scenario.

(** ** Collecting *)
Definition demo_collector : TrafficService := NewTrafficService (mkTarget "" "127.0.0.1:10085" "26.3.27" Second) 0 true.
(** The only target, after alice's inbound was created. *)
Definition demo_target : option CollectionTarget :=
  match CollectionTargets (m_conn created9.2) with (Ok [target], _) => Some target | _ => None end.
Definition on_target (P : CollectionTarget -> Prop) : Prop := from_option P False demo_target.
Lemma on_target_some P : on_target P -> exists target, demo_target = Some target /\ P target.
Proof. unfold on_target. destruct demo_target as [t|]; [|done]. by exists t. Qed.

(** What a process that booted [booted] seconds after [t0] answers at [at_]
    seconds: a counter that is not found is [None]. *)
Definition demo_round (booted at_ : Z) (id : string) (up down : option Z) : TrafficRound :=
  let snapshot direction bytes :=
    mkSnapshot id direction (default 0 bytes) (t0 + at_ * Second) (bool_decide (bytes <> None)) in
  mkRound (mkObservation (t0 + at_ * Second) (at_ - booted) (t0 + booted * Second) true)
    [snapshot Uplink up; snapshot Downlink down].
Definition stat_id (target : CollectionTarget) : string := i_StatisticsID (ct_Identity target).
(** The target after a round that found 1000 and 2000 bytes. *)
Definition read_before (target : CollectionTarget) : CollectionTarget :=
  after_round demo_collector target (demo_round 0 10 (stat_id target) (Some 1000) (Some 2000)) (t0 + 10 * Second).

Lemma buildUpdate_never_overflows_witness : exists target, demo_target = Some target /\
  target_in_range target /\
  let round := demo_round 0 10 (stat_id target) (Some 1000) (Some (2 ^ 64 - 1)) in
  unsigned (tr_Snapshots round) /\
  dialogue (collecting demo_collector) [] (buildUpdate demo_collector target (samples_of target round) (tr_Observation round) t0)
    (fun _ r => forall u, r = Ok (Some u) ->
       granted (ct_TotalUplink target) (qc_AccountedUplinkBytes (ct_Cycle target))
         (r_Delta (sampled_of demo_collector target round Uplink)) (tu_UplinkDelta u) /\
       granted (ct_TotalDownlink target) (qc_AccountedDownlinkBytes (ct_Cycle target))
         (r_Delta (sampled_of demo_collector target round Downlink)) (tu_DownlinkDelta u) /\
       cursor_in_range (tc_UplinkCounter (tu_Cursor u)) /\ cursor_in_range (tc_DownlinkCounter (tu_Cursor u))).
Proof.
  destruct (on_target_some (fun target => (ct_TotalUplink target, ct_TotalDownlink target,
    qc_AccountedUplinkBytes (ct_Cycle target), qc_AccountedDownlinkBytes (ct_Cycle target),
    tc_UplinkCounter (ct_Cursor target), tc_DownlinkCounter (ct_Cursor target)) = (0, 0, 0, 0, None, None)))
    as (target & Ht & Hz); [by vm_compute|].
  exists target. split; [exact Ht|]. injection Hz as H1 H2 H3 H4 H5 H6.
  assert (target_in_range target) as Hr.
  { unfold target_in_range. rewrite H1, H2, H3, H4, H5, H6. repeat split; vm_compute; discriminate. }
  split; [exact Hr|]. intros round.
  assert (unsigned (tr_Snapshots round)) as Hs by (repeat constructor; vm_compute; discriminate).
  split; [exact Hs|]. by apply buildUpdate_never_overflows.
Defined.

(** The node restarts 100 seconds after [t0]; the counter of the downlink is
    only back in the second round, at 5000 bytes: 3000 of them are charged. *)
Lemma restart_forgotten_by_missing_direction_witness : exists target, demo_target = Some target /\
  let first := demo_round 100 110 (stat_id target) (Some 10) None in
  let second := demo_round 100 115 (stat_id target) (Some 20) (Some 5000) in
  r_Delta (sampled_of demo_collector (read_before target) second Downlink) = 5000 /\
  r_Delta (sampled_of demo_collector (after_round demo_collector (read_before target) first (t0 + 110 * Second)) second Downlink)
  = Z.max 0 (5000 - 2000).
Proof.
  destruct (on_target_some (fun target =>
    let first := demo_round 100 110 (stat_id target) (Some 10) None in
    let second := demo_round 100 115 (stat_id target) (Some 20) (Some 5000) in
    restarted demo_collector (ct_Cursor (read_before target)) (tr_Observation first) = true /\
    restarted demo_collector (ct_Cursor (read_before target)) (tr_Observation second) = true /\
    r_Missing (sampled_of demo_collector (read_before target) first Uplink) = false /\
    r_Missing (sampled_of demo_collector (read_before target) first Downlink) = true /\
    tc_DownlinkCounter (ct_Cursor (read_before target)) = Some 2000 /\
    sample_in (samples_of (read_before target) second) Downlink = mkSample true 5000))
    as (target & Ht & H1 & H2 & Hu & Hd & Ho & Hs); [by vm_compute|].
  exists target. split; [exact Ht|]. intros first second.
  pose proof (restart_forgotten_by_missing_direction demo_collector (read_before target) first second (t0 + 110 * Second) 2000) as H.
  cbv zeta in H. fold second in Hs. rewrite Hs in H. apply H; try assumption; try reflexivity; vm_compute; try split; discriminate.
Defined.

(** ** Reconciling *)
#[export] Instance demo_order : MapOrder := elements.
#[export] Instance demo_order_ok : MapOrderOk.
Proof. by split. Qed.
Definition demo_reconciler : ReconciliationService := NewReconciliationService (mkTarget "" "127.0.0.1:10085" "26.3.27" Second) 0 true false.
Definition reconciled (now : Time) (m : Machine) : (ReconcileSummary * option error) * Machine := play now (ReconcileOnce demo_reconciler) m.
Definition synchronized (now : Time) (m : Machine) : option (Z * option error) * Machine := play now (Drain demo_worker 9) m.

Lemma ReconcileOnce_settles_witness :
  (reconciled (t0 + Second) created9.2).1.2 = None /\
  dialogue reconciling [] (ReconcileOnce demo_reconciler) (fun past out => out.2 = None ->
    exists g, has_read past g /\ settled past g).
Proof. split; [by vm_compute|]. apply ReconcileOnce_settles. Defined.

(** Alice is disabled and her inbound removed; then something registers an
    inbound of the same tag with a client of its own. *)
Definition disabled20 : Res (bool * bool) * Conn := toggle false 0 50 (t0 + 2 * Second) (m_conn created9.2).
Definition removed20 : option (Z * option error) * Machine := drained (t0 + 3 * Second) disabled20.2 (m_fake created9.2).
Definition foreign20 : Machine := mkMachine (m_conn removed20.2) (AddOrphanInbound alice_tag 20000 (m_fake removed20.2)) 0 false [].
Definition round21 : (ReconcileSummary * option error) * Machine := reconciled (t0 + 60 * Second) foreign20.
Definition drain21 : option (Z * option error) * Machine := synchronized (t0 + 61 * Second) round21.2.
Definition round22 : (ReconcileSummary * option error) * Machine := reconciled (t0 + 75 * Second) drain21.2.
Definition drain22 : option (Z * option error) * Machine := synchronized (t0 + 76 * Second) round22.2.
Definition drift_rows (m : Machine) : list (DriftKind * SyncState * string) :=
  (fun d => (df_Kind d, df_State d, df_LastErrorCode d)) <$> (map_to_list (db_drift (conn_db (m_conn m)))).*2.
Definition clients_at (m : Machine) (tag : string) : option (list string) :=
  (fun i => (map_to_list (ni_Users i)).*1) <$> node_of (m_fake m) !! tag.


(** ** Paging through the audit trail *)
Definition two_a_page : AuditFilter := mkAuditFilter "" "" "" None 2.
Lemma pages_are_the_trail_witness :
  all_pages 5 two_a_page conn5 = (Ok (audit_trail two_a_page (conn_db conn5)), conn5) /\
  length (audit_trail two_a_page (conn_db conn5)) = 4%nat.
Proof.
  assert (length (audit_trail two_a_page (conn_db conn5)) = 4%nat) as Hn by by vm_compute.
  split; [|done].
  apply (pages_are_the_trail two_a_page 5 conn5); [apply reachable_constraints, conn5_reachable|done|]. rewrite Hn. lia.
Defined.
