(* ===== verification/Reach.v ===== *)
(** * The workers take part in the history

    Every store call of the workers and services is a step of [History]: the
    ones whose record the caller prepares, because it was prepared from rows
    the caller has read before ([lawful]). So whatever they do, together with
    everybody else, leads through reachable states of the tables only. *)

From Stdlib Require Import ZArith Lia.
From stdpp Require Import sorting.
From S2P Require Import Prelude GoTypes Identity Text Inbound Tokens User Sync Quota Traffic Template Cycle Records Database Secrets StoreCore StoreSync StoreQuota StoreUsers StoreTraffic StoreDrift StoreTemplates UserService Demo Intent IntentTx IntentSync IntentUser History Adapter Calls Trace TrafficService TrafficLaws PanelServices ReconciliationService Synchronizer ReconcileLaws Fencing FakeXray Projection Scenario Rounds.

(** ** What a caller has read *)

(** The joined records of the answers of a call. *)
Definition learned {R} (e : Effect R) : R -> list UserRecord :=
  match e in Effect R return R -> list UserRecord with
  | OnStore c =>
      match c in StoreCall R return Res R -> list UserRecord with
      | CallListUsers _ => fun r => match r with Ok users => users | Err _ => [] end
      | _ => fun _ => []
      end
  | _ => fun _ => []
  end.

(** The reconcile operation the reconciler prepares from a record it read, and
    the updates of the collector, which always carry an operation. *)
Definition prepared_from {R} (rs : list UserRecord) (c : StoreCall R) : Prop :=
  match c with
  | CallEnqueueReconcile id expected op now => exists record opID, record ∈ rs /\
      id = a_ID (ur_Allocation record) /\ expected = a_DesiredRevision (ur_Allocation record) /\
      op = reconcile_operation record opID now
  | CallCommitTrafficBatch batch => Forall (fun u => tu_QuotaBlock u <> None) (tb_Updates batch)
  | _ => True
  end.
Definition allowed {R} (rs : list UserRecord) (e : Effect R) : Prop :=
  match e with OnStore c => prepared_from rs c | _ => True end.

(** Every prepared record comes from the records read so far. *)
Fixpoint lawful {A} (rs : list UserRecord) (p : Worker A) : Prop :=
  match p with
  | Done _ => True
  | Do e k => allowed rs e /\ forall r, lawful (learned e r ++ rs) (k r)
  end.

Lemma prepared_mono {R} rs rs' (c : StoreCall R) : rs ⊆ rs' -> prepared_from rs c -> prepared_from rs' c.
Proof. intros Hs. destruct c; try done. cbn. intros (record & opID & Hin & H). exists record, opID. auto. Qed.
Lemma lawful_mono {A} rs rs' (p : Worker A) : rs ⊆ rs' -> lawful rs p -> lawful rs' p.
Proof.
  revert rs rs'. induction p as [a|R e k IH]; intros rs rs' Hs; [done|]. intros [He Hk]. split.
  - destruct e; try done. by eapply prepared_mono.
  - intros r. eapply IH; [|apply Hk]. set_solver.
Qed.
Lemma lawful_bind {A B} rs (p : Worker A) (f : A -> Worker B) :
  lawful rs p -> (forall a rs', rs ⊆ rs' -> lawful rs' (f a)) -> lawful rs (p ≫= f).
Proof.
  revert rs. induction p as [a|R e k IH]; intros rs Hp Hf; [by apply Hf|]. destruct Hp as [He Hk]. split; [done|].
  intros r. apply (IH r); [apply Hk|]. intros a rs' Hs. apply Hf. set_solver.
Qed.

(** Programs that prepare nothing. *)
Fixpoint plain {A} (p : Worker A) : Prop :=
  match p with Done _ => True | Do e k => allowed [] e /\ forall r, plain (k r) end.
Lemma plain_lawful {A} rs (p : Worker A) : plain p -> lawful rs p.
Proof.
  revert rs. induction p as [a|R e k IH]; intros rs; [done|]. intros [He Hk]. split; [|intros r; by apply IH].
  destruct e; try done. eapply prepared_mono; [|done]. set_solver.
Qed.
Lemma plain_bind {A B} (p : Worker A) (f : A -> Worker B) : plain p -> (forall a, plain (f a)) -> plain (p ≫= f).
Proof.
  intros Hp Hf. induction p as [a|R e k IH]; [apply Hf|]. destruct Hp as [He Hk]. split; [done|]. intros r. by apply (IH r).
Qed.
Lemma plain_must {A B} (p : Worker (Res A)) (f : A -> Worker (Res B)) : plain p -> (forall a, plain (f a)) -> plain (must p f).
Proof. intros Hp Hf. apply plain_bind; [done|]. by intros [a|e]. Qed.
Lemma plain_call {R} (e : Effect R) : allowed [] e -> plain (call e).
Proof. by split. Qed.

Lemma plain_logged {R} (c : StoreCall R) : prepared_from [] c -> plain (logged c).
Proof. by split. Qed.
Lemma plain_guarded held rest : plain held -> plain rest -> plain (guarded held rest).
Proof. intros. apply plain_must; [done|]. by intros []. Qed.

Create HintDb plain.
Ltac plain_walk :=
  repeat match goal with
  | |- forall _, _ => intro
  | |- plain (mret _) => exact I
  | |- plain (Done _) => exact I
  | |- plain (must _ _) => apply plain_must
  | |- plain (_ ≫= _) => apply plain_bind
  | |- plain (call _) => apply plain_call; exact I
  | |- plain (store _) => apply plain_call; exact I
  | |- plain (node _) => apply plain_call; exact I
  | |- plain (logged _) => apply plain_logged; exact I
  | |- plain (guarded _ _) => apply plain_guarded
  | |- plain (if ?b then _ else _) => destruct b
  | |- plain (if ?b then _ else _) => destruct b
  | |- plain (match ?x with _ => _ end) => destruct x
  | |- plain _ => solve [auto with plain]
  end.

Section Reach.
Context {Zn : Zones} {En : Entropy} {Un : Unicode} {Ae : Aead} {Sh : Sha256}.

Definition seen (rs : list UserRecord) (w : World) : Prop :=
  exists h, history h (w_conn w) /\ forall r, r ∈ rs -> exists old, old ∈ h /\ snapshot old r.
Definition in_history (w : World) : Prop := seen [] w.

Lemma seen_mono rs rs' w : rs' ⊆ rs -> seen rs w -> seen rs' w.
Proof. intros Hs (h & Hh & Hr). exists h. split; [done|]. intros r Hin. by apply Hr, Hs. Qed.
Lemma seen_step rs w c' old : seen rs w -> (forall h, history h (w_conn w) -> old ∈ h) -> step old (w_conn w) c' ->
  seen rs (w <| w_conn := c' |>).
Proof.
  intros (h & Hh & Hr) Hin Hs. exists (conn_db c' :: h). split; [eapply history_step; eauto|].
  intros r Hr'. destruct (Hr r Hr') as (o & Ho & Hsn). exists o. split; [by right|done].
Qed.

(** Calls that only read. *)
Definition reads {R} (c : StoreCall R) : bool :=
  match c with
  | CallCollectionTargets | CallTemplates _ | CallListUsers _ | CallUser _ | CallStaleDriftRemovals _
  | CallOrphanStaleDriftRemovals | CallHasOpenRotation _ | CallHasOpenOperation _ | CallDueCycles _ | CallNextCycleEnd
  | CallManagedInstance | CallTemplate _ | CallAssignedPorts _ | CallTemplateCounterEvidence _ | CallPortPoolUsage _
  | CallLastCollectionAt | CallFailedOperations _ | CallDailyAggregates _ _ _ | CallContinuityEvents _ _
  | CallSyncOperations _ _ | CallAuditEvents _ | CallSettings => true
  | _ => false
  end.
Lemma reads_same {R} wall (c : StoreCall R) conn : reads c = true -> (store_tx wall c conn).2 = conn.
Proof.
  destruct c; try done; intros _; cbn [store_tx]; try done.
  - unfold GetUser, on_no_rows, tx_row. by destruct (_ ≫= _).
  - unfold ManagedInstance, tx_row. by destruct (db_instance _).
  - unfold GetTemplate, on_no_rows, tx_row. by destruct (_ !! _).
  - unfold PortPoolUsageOf, on_no_rows, tx_row, mbind, tx_bind. by destruct (_ !! _).
  - unfold Settings, WithReadTx, WithWriteTx, PanelSettings, tx_row. destruct (db_settings _); [done|]. by destruct conn.
Qed.

(** The calls that prepare nothing. *)
Lemma store_step {R} wall (c : StoreCall R) conn : reads c = false -> prepared_from [] c ->
  step (conn_db conn) conn (store_tx wall c conn).2.
Proof.
  destruct c; intros Hr Hp; try done; cbn [store_tx].
  - apply step_lease.
  - apply step_renew.
  - apply step_confirm.
  - apply step_reschedule.
  - apply step_fail.
  - apply step_drift_lease.
  - apply step_drift_renew.
  - apply step_drift_done.
  - apply step_drift_retry.
  - apply step_drift_fail.
  - apply step_healthy.
  - apply step_unreachable.
  - apply step_compatibility.
  - apply step_audit.
  - by apply step_traffic.
  - apply step_generation.
  - apply step_stale.
  - apply step_drift.
  - apply step_observe.
  - apply step_presence.
  - cbn in Hp. destruct Hp as (r & ? & Hin & _). by apply not_elem_of_nil in Hin.
  - apply step_rollover.
  - apply step_template.
  - apply step_template_update.
  - apply step_revalidate.
  - apply step_validated.
  - apply step_settings.
Qed.

Lemma seen_store {R} wall (c : StoreCall R) rs w : prepared_from rs c -> seen rs w ->
  seen rs (w <| w_conn := (store_tx wall c (w_conn w)).2 |>).
Proof.
  intros Hp Hw. destruct (reads c) eqn:Er.
  { rewrite reads_same by done. by destruct w. }
  assert (prepared_from [] c -> seen rs (w <| w_conn := (store_tx wall c (w_conn w)).2 |>)) as Hplain.
  { intros Hp'. eapply seen_step; [done|by intros h; apply history_now|by apply store_step]. }
  destruct c; try by apply Hplain. cbn [store_tx]. cbn in Hp. destruct Hp as (record & opID & Hin & -> & -> & ->).
  destruct Hw as (h & Hh & Hr). destruct (Hr _ Hin) as (old & Hold & Hsn).
  exists (conn_db (EnqueueReconcile (a_ID (ur_Allocation record)) (a_DesiredRevision (ur_Allocation record))
            (reconcile_operation record opID now) now (w_conn w)).2 :: h). split.
  - eapply history_step; [exact Hh|exact Hold|]. by apply step_reconcile.
  - intros r Hr'. destruct (Hr r Hr') as (o & Ho & Hs'). exists o. split; [by right|done].
Qed.

Lemma join_snapshot db k a record : allocations_ok db -> db_allocations db !! k = Some a ->
  join_user a db = Some record -> snapshot db record.
Proof. intros [Hall _] Ha Hj. exists a. split; [|done]. destruct (Hall _ _ Ha) as (<- & _). done. Qed.
Lemma ListUsers_snapshots filter c users c' : allocations_ok (conn_db c) ->
  StoreUsers.ListUsers filter c = (Ok users, c') -> forall r, r ∈ users -> snapshot (conn_db c) r.
Proof.
  intros Hok H%tx_read_ok r Hr. destruct H as [-> _].
  apply list_elem_of_In, filter_In in Hr as [Hr _]. apply list_elem_of_In in Hr.
  rewrite merge_sort_Permutation in Hr. apply list_elem_of_In, filter_In in Hr as [Hr _].
  apply list_elem_of_In in Hr. apply list_elem_of_omap in Hr as (a & Ha & Hj).
  apply elem_of_select in Ha as (_ & k & Hk). by eapply join_snapshot.
Qed.

(** ** What a worker does stays in the history *)
Lemma on_conn_seen {R} (m : Tx R) rs w r w' :
  (forall c, step (conn_db c) c (m c).2) -> seen rs w -> on_conn m w r w' -> seen rs w'.
Proof.
  intros Hm Hw (c' & Hrun & ->). eapply seen_step; [done|by intros h; apply history_now|].
  replace c' with (m (w_conn w)).2 by (by rewrite Hrun). apply Hm.
Qed.
Lemma draw_step {R} (m : Tx R) c n : m c = ((m c).1, c <| conn_rand := n |>) -> step (conn_db c) c (m c).2.
Proof. intros ->. apply step_draw. Qed.
Lemma GenerateUserKey_step method c : step (conn_db c) c (GenerateUserKey method c).2.
Proof.
  unfold GenerateUserKey, mbind, tx_bind, tx_lift, tx_rand. destruct (methodKeyLength method); cbn.
  - destruct (rand_read _ _); cbn; apply step_draw.
  - assert (c = c <| conn_rand := conn_rand c |>) as Hc by (by destruct c). rewrite Hc at 3. apply step_draw.
Qed.
Lemma seen_note rs e w : seen rs w -> seen rs (note e w).
Proof. done. Qed.

Lemma exec_seen answers {R} (e : Effect R) rs w r w' : allowed rs e -> seen rs w -> exec answers e w r w' -> seen rs w'.
Proof.
  intros Ha Hw He. destruct e as [R c|R c| | | |method|update|t| | |t|now|t]; cbn in He; try by subst.
  - destruct He as (wall & w1 & (c' & Hrun & ->) & ->). apply seen_note.
    replace c' with (store_tx wall c (w_conn w)).2 by (by rewrite Hrun). by apply seen_store.
  - by destruct He as (n & _ & ->).
  - eapply on_conn_seen; [|done|exact He]. intros c. apply (draw_step NewID_tx _ (S (conn_rand c))). done.
  - eapply on_conn_seen; [|done|exact He]. apply GenerateUserKey_step.
  - by destruct He as [_ ->].
  - by destruct He as [_ ->].
Qed.

(** What the answer of a call teaches is in the tables of that moment. *)
Lemma learned_seen answers {R} (e : Effect R) rs w r w' : seen rs w -> exec answers e w r w' ->
  seen rs w' -> seen (learned e r ++ rs) w'.
Proof.
  intros Hw He Hw'. destruct e as [R c| | | | | | | | | | | |]; try exact Hw'.
  destruct c; try exact Hw'. cbn in He. destruct He as (wall & w1 & (c' & Hrun & ->) & ->).
  destruct r as [users|err]; [|exact Hw']. pose proof Hrun as Hread.
  assert (c' = w_conn w) as -> by (apply tx_read_ok in Hread; apply Hread).
  destruct Hw as (h & Hh & Hr). exists h. split; [exact Hh|]. intros q Hq. apply elem_of_app in Hq as [Hq|Hq]; [|auto].
  exists (conn_db (w_conn w)). split; [by apply history_now|].
  eapply ListUsers_snapshots; [|exact Hrun|exact Hq]. apply con_allocations. apply (proj1 (history_good _ _ Hh)).
Qed.

Section Workers.
Context (answers : forall R, AdapterCall R -> Node -> Res R -> Node -> Prop).
Context (others : World -> World -> Prop).
Context (others_seen : forall rs w w', others w w' -> seen rs w -> seen rs w').

Lemma lawful_history {A} (p : Worker A) rs w : lawful rs p -> seen rs w ->
  always answers others in_history p (fun _ _ => True) w.
Proof.
  revert rs w. induction p as [a|R e k IH]; intros rs w Hp Hw; (split; [by apply (seen_mono rs); [set_solver|]|]); [done|].
  intros r w1 w2 He Hs. destruct Hp as [Ha Hk]. pose proof (exec_seen _ _ _ _ _ _ Ha Hw He) as H1.
  split; [by apply (seen_mono rs); [set_solver|]|]. apply (IH r (learned e r ++ rs)); [apply Hk|].
  eapply others_seen; [exact Hs|]. by apply (learned_seen answers e rs w r w1).
Qed.

(** Every call boundary of a lawful program is a state of the tables that
    satisfies the constraints and the truth table of the domain. *)
Lemma lawful_reachable {A} (p : Worker A) w : lawful [] p -> in_history w ->
  always answers others (fun w => in_history w /\ Good (conn_db (w_conn w))) p (fun _ _ => True) w.
Proof.
  intros Hp Hw. apply (always_weaken _ _ in_history); [|by apply (lawful_history p [])].
  intros v (h & Hh & Hr). split; [by exists h|]. exact (proj1 (history_good _ _ Hh)).
Qed.
End Workers.

(** ** The synchronizer *)
Section Synchronizer.
Context (s : Synchronizer).

Lemma plain_retry work cause : plain (retry s work cause).
Proof. unfold retry, trackDrift, fail_, reschedule, audit, backoff. plain_walk. Qed.
Lemma plain_confirm work present version : plain (confirm s work present version).
Proof. unfold confirm, recordSuccess, audit. plain_walk. Qed.
Lemma plain_fail work kind summary : plain (fail_ s work kind summary).
Proof. unfold fail_, audit. plain_walk. Qed.
Lemma plain_retryLater work kind summary : plain (retryLater s work kind summary).
Proof. unfold retryLater, reschedule, backoff. plain_walk. Qed.
Lemma plain_fence work : plain (fence s work).
Proof. unfold fence. plain_walk. Qed.
Lemma plain_fenceDrift removal : plain (fenceDrift s removal).
Proof. unfold fenceDrift. plain_walk. Qed.
#[local] Hint Resolve plain_retry plain_confirm plain_fail plain_retryLater plain_fence plain_fenceDrift : plain.
Lemma plain_create work inbound id : plain (createDedicatedInbound s work inbound id).
Proof.
  unfold createDedicatedInbound, creation_failed, compensate, inboundPresent, carriesClient. plain_walk.
Qed.
#[local] Hint Resolve plain_create : plain.
Lemma plain_rotate work inbound id : plain (rotateWithinInbound s work inbound id).
Proof.
  unfold rotateWithinInbound, add_safety, remove_old, add_desired, remove_safety, rotationPending, carriesClient. plain_walk.
Qed.
Lemma plain_withdraw work inbound : plain (withdraw s work inbound).
Proof. unfold withdraw, inboundPresent. plain_walk. Qed.
#[local] Hint Resolve plain_rotate plain_withdraw : plain.
Lemma plain_handle work : plain (handle s work).
Proof. unfold handle. plain_walk. Qed.
Lemma plain_handleDrift removal : plain (handleDriftRemoval s removal).
Proof.
  unfold handleDriftRemoval, already_absent, remove_target, removal_failed, complete_removal, target_present,
    driftAudit, inboundPresent, observe, backoff. plain_walk.
Qed.
#[local] Hint Resolve plain_handle plain_handleDrift : plain.
Lemma plain_drain_sync fuel n : plain (drain_sync s fuel n).
Proof. revert n. induction fuel as [|fuel IH]; intros n; cbn [drain_sync]; plain_walk. Qed.
Lemma plain_drain_drift fuel n : plain (drain_drift s fuel n).
Proof. revert n. induction fuel as [|fuel IH]; intros n; cbn [drain_drift]; plain_walk. Qed.
#[local] Hint Resolve plain_drain_sync plain_drain_drift : plain.
Lemma plain_Drain fuel : plain (Drain s fuel).
Proof. unfold Drain. plain_walk. Qed.
End Synchronizer.

(** ** The services *)

(** The records the answers so far have told. *)
Definition told (past : Past) : list UserRecord := mjoin ((fun x => learned (x_call x) (x_answer x)) <$> past).
Lemma dialogue_lawful {A} may past (p : Worker A) Q :
  (forall past R (e : Effect R), may past R e -> allowed (told past) e) -> dialogue may past p Q -> lawful (told past) p.
Proof.
  intros Hm. revert past. induction p as [a|R e k IH]; intros past; [done|]. intros [He Hk]. split; [by apply Hm|].
  intros r. apply (IH r (mkExchange e r :: past)), Hk.
Qed.
Lemma asked_told past filter users record : asked past (OnStore (CallListUsers filter)) (Ok users) -> record ∈ users ->
  record ∈ told past.
Proof.
  intros Ha Hr. apply list_elem_of_join. eexists. split; [exact Hr|]. apply list_elem_of_fmap. exists (mkExchange (OnStore (CallListUsers filter)) (Ok users)). by split.
Qed.

Lemma CollectOnce_lawful s : lawful [] (CollectOnce s).
Proof.
  apply (dialogue_lawful (collecting s) [] _ (committed_round)); [|apply CollectOnce_says].
  intros past R [R' c| | | | | | | | | | | |] H; try done. destruct c; try done. destruct H as (_ & targets & rounds & _ & _ & _ & _ & Hu).
  cbn. clear -Hu. induction Hu as [|t u ts us (_ & _ & _ & _ & _ & op & au & Hb & _) Hu IH]; constructor; [by rewrite Hb|done].
Qed.
Lemma ReconcileOnce_lawful `{MapOrderOk} s : lawful [] (ReconcileOnce s).
Proof.
  eapply (dialogue_lawful reconciling []); [|apply ReconcileOnce_says].
  intros past R [R' c| | | | | | | | | | | |] H'; try done. destruct c; try done.
  destruct H' as (g & record & opID & (_ & Hu & _) & Hin & _ & -> & -> & ->). exists record, opID.
  split; [|done]. by eapply asked_told.
Qed.
Lemma plain_roll s due now n b : plain (roll_records s due now n b).
Proof.
  revert n b. induction due as [|record due IH]; intros n b; cbn [roll_records]; unfold or_stop; plain_walk.
Qed.
Lemma plain_RolloverDue s now : plain (RolloverDue s now).
Proof. unfold RolloverDue, or_stop. pose proof (plain_roll s). plain_walk. Qed.


(** C37: so does everything a collection round, a rollover pass and a
    reconciliation round do. The operation a reconciliation round prepares from
    records that other transactions may have overtaken since is covered: the
    store takes it only for the revision it was prepared for. *)
Theorem services_reachable `{MapOrderOk} answers others w :
  (forall rs w w', others w w' -> seen rs w -> seen rs w') -> in_history w ->
  let reaches {A} (p : Worker A) :=
    always answers others (fun w => in_history w /\ Good (conn_db (w_conn w))) p (fun _ _ => True) w in
  (forall s, reaches (CollectOnce s)) /\ (forall s now, reaches (RolloverDue s now)) /\ (forall s, reaches (ReconcileOnce s)).
Proof.
  intros Ho Hw reaches. split_and!; intros; apply lawful_reachable; try done.
  - apply CollectOnce_lawful.
  - apply plain_lawful, plain_RolloverDue.
  - apply ReconcileOnce_lawful.
Qed.
End Reach.

Lemma services_reachable_witness :
  let w := mkWorld conn0 ∅ 0 false [] in
  in_history w /\
  always (@honest) eq (fun w => in_history w /\ Good (conn_db (w_conn w))) (ReconcileOnce demo_reconciler) (fun _ _ => True) w.
Proof.
  assert (in_history (mkWorld conn0 ∅ 0 false [])) as Hw.
  { exists [empty_db]. split; [apply (history_start 0)|]. intros r Hr. by apply not_elem_of_nil in Hr. }
  split; [exact Hw|]. apply services_reachable; [intros ? ? ? <-; trivial|exact Hw].
Defined.

