(* ===== verification/TemplateLaws.v ===== *)
(** * The capability gate

    What a validation records about a template, whatever the node and the
    store answer and whatever happens to the template meanwhile. *)

From Stdlib Require Import ZArith Lia.
From S2P Require Import Prelude GoTypes Identity Ports Text Inbound Tokens User Sync Quota Traffic Template Cycle Records Database Secrets StoreCore StoreSync StoreQuota StoreUsers StoreTraffic StoreDrift StoreTemplates StoreListings UserService StoreSessions Demo Intent IntentTx IntentSync IntentUser History Rows Adapter Calls Trace TrafficService TemplateService Synchronizer Fencing FakeXray Scenario Reach.

(** ** What a validation may record *)
Section Verdict.
Context {Un : Unicode} {Sh : Sha256} (s : TemplateService) (id : ID).

(** The verdict on a record, with its reason and the observation it is bound
    to, from the answers so far. *)
Inductive verdict (past : Past) (record : InboundTemplate) : CompatibilityState -> string -> option InstanceObservation -> Prop :=
| verdict_unreachable err : asked past (OnNode (Probe (tm_target s))) (Err err) ->
    verdict past record CompatibilityUnreachable (adapterSummary err "Xray API is unavailable") None
| verdict_exhausted o assigned err : asked past (OnNode (Probe (tm_target s))) (Ok o) ->
    asked past (OnStore (CallAssignedPorts id)) (Ok assigned) -> NextAvailablePort (t_Pool record) assigned = Err err ->
    verdict past record CompatibilityUnverified
      "port pool is exhausted; free a port or widen the range before validating" (Some o)
| verdict_failed o port err : asked past (OnNode (Probe (tm_target s))) (Ok o) ->
    asked past (OnNode (ValidateTemplate (probe_of record port))) (Err err) ->
    verdict past record (if retryable err then CompatibilityUnreachable else CompatibilityIncompatible)
      (adapterSummary err "template validation failed") (Some o)
| verdict_incompatible o port capabilities reason : asked past (OnNode (Probe (tm_target s))) (Ok o) ->
    asked past (OnNode (ValidateTemplate (probe_of record port))) (Ok capabilities) -> Compatible capabilities = false ->
    verdict past record CompatibilityIncompatible reason (Some o)
| verdict_compatible o port capabilities assigned : asked past (OnNode (Probe (tm_target s))) (Ok o) ->
    asked past (OnStore (CallAssignedPorts id)) (Ok assigned) -> NextAvailablePort (t_Pool record) assigned = Ok port ->
    asked past (OnNode (ValidateTemplate (probe_of record port))) (Ok capabilities) -> Compatible capabilities = true ->
    verdict past record CompatibilityCompatible "" (Some o).

(** The epoch and the generation the verdict is bound to. *)
Definition bound (past : Past) (observation : option InstanceObservation) (epoch : option Time) (generation : Z) : Prop :=
  match observation with
  | Some o =>
      if ob_BootEpochKnown o then epoch = epochString o /\ exists now advanced,
        asked past (OnStore (CallAdvanceCapabilityGeneration (signal_of o false) CapabilityGenerationTolerance now)) (Ok (generation, advanced))
      else epoch = None /\ generation = 0
  | None => epoch = None /\ generation = 0
  end.

Definition justified (past : Past) (outcome : ValidationOutcome) : Prop :=
  exists record state reason observation epoch generation auditID now,
    asked past (OnStore (CallTemplate id)) (Ok record) /\ verdict past record state reason observation /\
    bound past observation epoch generation /\
    outcome = with_audit record auditID now (with_health state now (base_outcome record state reason now epoch generation)).

Definition validating (past : Past) (R : Type) (e : Effect R) : Prop :=
  match e with
  | OnStore (CallCompleteTemplateValidation outcome) => justified past outcome
  | OnStore (CallTemplate _) | OnStore (CallAssignedPorts _) | OnStore (CallAdvanceCapabilityGeneration _ _ _) => True
  | OnStore _ => False
  | OnNode call => mutated_tag call = None
  | _ => True
  end.
Definition validated (past : Past) (r : Res unit) : Prop :=
  r = Ok tt -> exists outcome, justified past outcome /\ asked past (OnStore (CallCompleteTemplateValidation outcome)) (Ok true).

Lemma verdict_mono past past' record state reason o : past ⊆ past' ->
  verdict past record state reason o -> verdict past' record state reason o.
Proof.
  intros Hs [err H|o' assigned err H1 H2 H3|o' port err H1 H2|o' port caps r H1 H2 H3|o' port caps assigned H1 H2 H3 H4 H5].
  - apply verdict_unreachable. by apply Hs.
  - by apply (verdict_exhausted _ _ _ assigned err); [apply Hs|apply Hs|].
  - apply (verdict_failed _ _ _ port); by apply Hs.
  - by apply (verdict_incompatible _ _ _ port caps); [apply Hs|apply Hs|].
  - by apply (verdict_compatible _ _ _ port caps assigned); [apply Hs|apply Hs| |apply Hs|].
Qed.
Lemma bound_mono past past' o epoch generation : past ⊆ past' -> bound past o epoch generation -> bound past' o epoch generation.
Proof.
  intros Hs. unfold bound. destruct o as [o|]; [|done]. destruct (ob_BootEpochKnown o); [|done].
  intros (He & now & b & H). split; [done|]. exists now, b. by apply Hs.
Qed.
Lemma justified_mono past past' outcome : past ⊆ past' -> justified past outcome -> justified past' outcome.
Proof.
  intros Hs (record & state & reason & o & epoch & g & a & now & H1 & H2 & H3 & H4).
  exists record, state, reason, o, epoch, g, a, now. split_and!; [by apply Hs|by eapply verdict_mono|by eapply bound_mono|done].
Qed.

Lemma bound_says past observation now :
  dialogue validating past (bound_to observation now) (fun past' r => past ⊆ past' /\
    match r with Ok (epoch, generation) => bound past' observation epoch generation | Err _ => True end).
Proof.
  unfold bound_to, bound. destruct observation as [o|]; [|by split].
  destruct (ob_BootEpochKnown o) eqn:E; [|by split].
  apply dialogue_must_call; [done| |].
  - intros [generation advanced]. split; [by apply past_cons|]. cbn. split; [done|]. exists now, advanced. apply asked_now.
  - intros err. split; [by apply past_cons|done].
Qed.

Lemma complete_says past record state reason observation now :
  asked past (OnStore (CallTemplate id)) (Ok record) -> verdict past record state reason observation ->
  dialogue validating past (complete record state reason observation now) validated.
Proof.
  intros Hr Hv. unfold complete.
  apply (dialogue_must _ past _ _ (fun past' '(epoch, generation) => past ⊆ past' /\ bound past' observation epoch generation)).
  { eapply dialogue_mono; [|apply bound_says]. intros past' [[epoch generation]|err] _ [Hs H]; [by split|done]. }
  intros past' [epoch generation] _ [Hs Hb]. apply dialogue_must_call; [done| |done]. intros auditID.
  assert (justified (mkExchange DrawID (Ok auditID) :: past')
    (with_audit record auditID now (with_health state now (base_outcome record state reason now epoch generation)))) as Hj.
  { exists record, state, reason, observation, epoch, generation, auditID, now.
    split_and!; [right; by apply Hs|eapply verdict_mono; [|exact Hv]; by apply past_cons|eapply bound_mono; [|exact Hb]; by apply past_cons|done]. }
  apply dialogue_must_call; [exact Hj| |done]. intros applied. destruct applied; cbn; [|done].
  intros _. eexists. split; [|apply asked_now]. eapply justified_mono; [|exact Hj]; by apply past_cons.
Qed.

Lemma RunValidation_says : dialogue validating [] (RunValidation s id) validated.
Proof.
  unfold RunValidation. apply dialogue_must_call; [done| |done]. intros record.
  apply dialogue_call_then; [done|]. intros now. apply dialogue_call_then; [done|]. intros [o|err].
  2: { apply complete_says; [eauto with dialogue; repeat (right; try left)|]. constructor. apply asked_now. }
  apply dialogue_must_call; [done| |done]. intros assigned.
  destruct (NextAvailablePort (t_Pool record) assigned) as [port|err] eqn:Ep.
  2: { apply complete_says; [by do 3 right; left|]. by apply (verdict_exhausted _ _ _ assigned err); [right; left|left|]. }
  apply dialogue_call_then; [done|]. intros [capabilities|err].
  2: { apply complete_says; [by do 4 right; left|]. by apply (verdict_failed _ _ _ port); [do 2 right; left|left]. }
  destruct (Compatible capabilities) eqn:Ec; cbn [negb].
  - apply complete_says; [by do 4 right; left|].
    by apply (verdict_compatible _ _ _ port capabilities assigned); [do 2 right; left|right; left| |left|].
  - apply complete_says; [by do 4 right; left|]. by apply (verdict_incompatible _ _ _ port capabilities); [do 2 right; left|left|].
Qed.
End Verdict.

(** ** What a program does, in the light of what it was told *)
Section Heard.
Context {Zn : Zones} {En : Entropy} {Un : Unicode} {Ae : Aead} {Sh : Sha256}.
Context (answers : forall R, AdapterCall R -> Node -> Res R -> Node -> Prop).
Context (others : World -> World -> Prop).

(** [J e r past w]: the call [e] was answered [r] after the exchanges [past],
    and led to the world [w]. *)
Fixpoint heard (J : forall R, Effect R -> R -> Past -> World -> Prop) {A} (past : Past) (p : Worker A) (w : World) : Prop :=
  match p with
  | Done _ => True
  | Do e k => forall r w1 w2, exec answers e w r w1 -> others w1 w2 ->
      J _ e r past w1 /\ heard J (mkExchange e r :: past) (k r) w2
  end.

Lemma dialogue_heard may (K : Past -> World -> Prop) J {A} past (p : Worker A) Q w :
  (forall past R (e : Effect R) w r w1, may past R e -> K past w -> exec answers e w r w1 ->
     K (mkExchange e r :: past) w1 /\ J _ e r past w1) ->
  (forall past w w', others w w' -> K past w -> K past w') ->
  dialogue may past p Q -> K past w -> heard J past p w.
Proof.
  intros Hstep Ho. revert past w. induction p as [a|R e k IH]; intros past w Hd Hk; [done|].
  destruct Hd as [He Hd]. intros r w1 w2 Hx Hw. destruct (Hstep _ _ _ _ _ _ He Hk Hx) as [Hk1 Hj].
  split; [done|]. apply IH; [apply Hd|]. by eapply Ho.
Qed.

(** The templates a caller was told of. *)
Definition template_told {R} (e : Effect R) : R -> list InboundTemplate :=
  match e in Effect R return R -> list InboundTemplate with
  | OnStore c =>
      match c in StoreCall R return Res R -> list InboundTemplate with
      | CallTemplate _ => fun r => match r with Ok t => [t] | Err _ => [] end
      | _ => fun _ => []
      end
  | _ => fun _ => []
  end.
Definition templates_told (past : Past) : list InboundTemplate := mjoin ((fun x => template_told (x_call x) (x_answer x)) <$> past).
Lemma asked_template past id t : asked past (OnStore (CallTemplate id)) (Ok t) -> t ∈ templates_told past.
Proof.
  intros Ha. apply list_elem_of_join. exists [t]. split; [by left|]. apply list_elem_of_fmap.
  by exists (mkExchange (OnStore (CallTemplate id)) (Ok t)).
Qed.

(** The tables are reachable, and every template told of was once a row. *)
Definition templates_known (past : Past) (w : World) : Prop :=
  exists h, history h (w_conn w) /\ conn_db (w_conn w) ∈ h /\
    forall t, t ∈ templates_told past -> exists old, old ∈ h /\ db_templates old !! t_ID t = Some t.

(** What the store records as a verdict: the answers of the node that justify
    it were about the contract the row has at that moment. *)
Definition verdict_recorded (s : TemplateService) (id : ID) (R : Type) (e : Effect R) : R -> Past -> World -> Prop :=
  match e in Effect R return R -> Past -> World -> Prop with
  | OnStore c =>
      match c in StoreCall R return Res R -> Past -> World -> Prop with
      | CallCompleteTemplateValidation outcome => fun r past w => r = Ok true ->
          exists record state reason observation t,
            asked past (OnStore (CallTemplate id)) (Ok record) /\ verdict s id past record state reason observation /\
            db_templates (conn_db (w_conn w)) !! t_ID record = Some t /\ t_ArchivedAt t = None /\
            contract_of t = contract_of record /\ t_Revision t = t_Revision record /\
            t_Compatibility t = state /\ t_CompatibilityReason t = reason
      | _ => fun _ _ _ => True
      end
  | _ => fun _ _ _ => True
  end.

Lemma CompleteTemplateValidation_row outcome c c' : CompleteTemplateValidation outcome c = (Ok true, c') ->
  exists t, db_templates (conn_db c) !! vo_TemplateID outcome = Some t /\
    t_Revision t = vo_ExpectedRevision outcome /\ t_ArchivedAt t = None /\
  exists t', db_templates (conn_db c') !! vo_TemplateID outcome = Some t' /\ contract_of t' = contract_of t /\
    t_Revision t' = t_Revision t /\ t_ArchivedAt t' = None /\
    t_Compatibility t' = vo_State outcome /\ t_CompatibilityReason t' = vo_Reason outcome.
Proof.
  intros H%WithWriteTx_ok. tx_step H. apply tx_read_ok in E as [-> ->]. tx_step H. apply tx_exec_ok in E as (E & _).
  destruct (count_at _ _ _ =? 1) eqn:Ec; cbn [negb] in H; [|by apply tx_ret_ok in H as [? _]].
  apply count_at_1 in Ec as (t & Ht & [Hr%Z.eqb_eq Ha%bool_decide_eq_true]%andb_true_iff).
  exists t. split_and!; [done..|].
  match type of H with ?m _ = _ => assert (leaves db_templates m) as Hm end.
  { unfold update_instance, AppendAudit. leaves_walk. }
  pose proof (leaves_run _ _ _ _ _ Hm H) as L. rewrite E in L. cbn in L.
  eexists. rewrite L, lookup_update_at, decide_True, Ht by done. cbn.
  unfold template_current. rewrite Hr, Z.eqb_refl, bool_decide_eq_true_2 by done. cbn. split; [done|]. by split_and!.
Qed.

(** The parts of an outcome that the row is updated from. *)
Lemma outcome_fields record auditID now state reason epoch generation :
  let o := with_audit record auditID now (with_health state now (base_outcome record state reason now epoch generation)) in
  vo_TemplateID o = t_ID record /\ vo_ExpectedRevision o = t_Revision record /\ vo_State o = state /\ vo_Reason o = reason.
Proof. unfold with_audit, with_health. repeat case_bool_decide; by split_and!. Qed.

Lemma known_step s id past R (e : Effect R) w r w1 : validating s id past R e -> templates_known past w ->
  exec answers e w r w1 -> templates_known (mkExchange e r :: past) w1 /\ verdict_recorded s id R e r past w1.
Proof.
  intros Hv (h & Hh & Hin & Hk) Hx.
  assert (forall w', w_conn w' = w_conn w -> template_told e r = [] -> templates_known (mkExchange e r :: past) w') as Hsame.
  { intros w' Hc Ht. exists h. rewrite Hc. split_and!; [done..|]. intros t. unfold templates_told. cbn. rewrite Ht. apply Hk. }
  assert (forall c', step (conn_db (w_conn w)) (w_conn w) c' -> template_told e r = [] -> w_conn w1 = c' ->
    templates_known (mkExchange e r :: past) w1) as Hstep.
  { intros c' Hs Ht Hc. exists (conn_db c' :: h). rewrite Hc. split_and!; [by eapply history_step|left|].
    intros t. unfold templates_told. cbn. rewrite Ht. intros H. destruct (Hk t H) as (old & Ho & Hl). exists old. by split; [right|]. }
  destruct e as [R' c|R' c| | | |method|update|t| | |t|d|t]; cbn in Hx, Hv.
  - destruct Hx as (wall & w0 & (c' & Hrun & ->) & ->). destruct c; try done; cbn in Hrun, Hv.
    + (* AdvanceCapabilityGeneration *)
      split; [|done]. eapply Hstep; [|done|reflexivity].
      replace c' with (AdvanceCapabilityGeneration signal tolerance now (w_conn w)).2 by (by rewrite Hrun). apply step_generation.
    + (* Template *)
      assert (c' = w_conn w) as ->.
      { unfold GetTemplate, on_no_rows, tx_row in Hrun. by destruct (db_templates (conn_db (w_conn w)) !! id0); injection Hrun as _ <-. }
      split; [|done]. destruct r as [t|err]; [|by apply Hsame]. exists h. split_and!; [done..|].
      intros t' [->|Ht']%elem_of_cons; [|by apply Hk]. apply on_no_rows_ok, tx_row_ok in Hrun as [Hrow _].
      exists (conn_db (w_conn w)). split; [done|]. destruct (history_good _ _ Hh) as [[Hc _] _].
      destruct (con_templates _ Hc) as [Hall _]. by destruct (Hall _ _ Hrow) as (-> & _).
    + (* CompleteTemplateValidation *)
      split.
      * eapply Hstep; [|done|reflexivity].
        replace c' with (CompleteTemplateValidation outcome (w_conn w)).2 by (by rewrite Hrun). apply step_validated.
      * intros ->. apply CompleteTemplateValidation_row in Hrun as (t & Ht & Hr & Ha & t' & Ht' & Hct & Hrt & Hat & Hs & Hre).
        destruct Hv as (record & state & reason & o & epoch & g & auditID & now & Hrec & Hver & _ & ->).
        destruct (outcome_fields record auditID now state reason epoch g) as (E1 & E2 & E3 & E4).
        rewrite E1 in Ht, Ht'. rewrite E2 in Hr. exists record, state, reason, o, t'. cbn [w_conn].
        split_and!; [done|done|exact Ht'|done| |congruence|congruence|congruence].
        destruct (Hk record (asked_template _ _ _ Hrec)) as (old & Hold & Hrow).
        destruct (history_rows _ _ Hh old Hold) as [Hrows _].
        destruct (Hrows _ _ Hrow) as (t2 & Ht2 & _ & Hsame2). rewrite Ht in Ht2. injection Ht2 as <-.
        rewrite Hct. symmetry. by apply Hsame2.
    + (* AssignedPorts *)
      assert (c' = w_conn w) as -> by (by injection Hrun). split; [|done]. by apply Hsame.
  - destruct Hx as (n & _ & ->). split; [by apply Hsame|done].
  - subst. split; [by apply Hsame|done].
  - subst. split; [by apply Hsame|done].
  - destruct Hx as (c' & Hrun & ->). split; [|done]. eapply Hstep; [|done|reflexivity].
    injection Hrun as <- <-. apply step_draw.
  - destruct Hx as (c' & Hrun & ->). split; [|done]. eapply Hstep; [|done|reflexivity].
    replace c' with (GenerateUserKey method (w_conn w)).2 by (by rewrite Hrun). apply GenerateUserKey_step.
  - destruct Hx as [_ ->]. split; [by apply Hsame|done].
  - subst. split; [by apply Hsame|done].
  - subst. split; [by apply Hsame|done].
  - subst. split; [by apply Hsame|done].
  - subst. split; [by apply Hsame|done].
  - destruct Hx as [_ ->]. split; [by apply Hsame|done].
  - subst. split; [by apply Hsame|done].
Qed.

(** C13: whatever the node answers, and whatever happens in the store between
    the calls of a validation, a verdict the store takes is one the answers
    justify (compatible only when the probe inbound on a free port of the pool
    met every requirement), and at that moment the template still has the
    method, listen address, pool and network that were probed and is not
    archived: a result that has been overtaken by an edit is dropped. *)
Theorem verdict_is_of_the_template s id w :
  (forall h v v', others v v' -> history h (w_conn v) -> exists h', h ⊆ h' /\ history h' (w_conn v')) ->
  (exists h, history h (w_conn w)) -> heard (verdict_recorded s id) [] (RunValidation s id) w.
Proof.
  intros Ho (h & Hh). eapply (dialogue_heard (validating s id) templates_known).
  - intros past R e v r v1. apply known_step.
  - intros past v v' Hv (h1 & Hh1 & Hin & Hk). destruct (Ho h1 v v' Hv Hh1) as (h2 & Hs & Hh2).
    exists h2. split; [done|]. split; [by apply history_now|]. intros t Ht. destruct (Hk t Ht) as (old & Hold & Hrow).
    exists old. split; [by apply Hs|done].
  - apply RunValidation_says.
  - exists h. split; [done|]. split; [by apply history_now|]. intros t Ht. by apply elem_of_nil in Ht.
Qed.
End Heard.

(** ** A run, and a verdict that comes late *)
Definition demo_templates : TemplateService := NewTemplateService (mkTarget (demo_id 2) "127.0.0.1:10085" "26.3.27" Second) true.
Definition validated4 : Res unit * Machine :=
  play t0 (RunValidation demo_templates (demo_id 1)) (mkMachine conn3 (fake_New t0) 0 false []).
Definition compatibility_in (c : Conn) : option (CompatibilityState * Z) :=
  (fun t => (t_Compatibility t, t_ValidatedGeneration t)) <$> db_templates (conn_db c) !! demo_id 1.

Lemma conn3_reachable : exists h, history h conn3.
Proof.
  pose proof (history_start 0) as H0.
  pose proof (history_step _ conn0 empty_db conn1 H0 (list_elem_of_here _ _) (step_singletons _ conn0 _ _ _ _ _ _)) as H1.
  pose proof (history_step _ conn1 (conn_db conn1) conn2 H1 (list_elem_of_here _ _) (step_admin _ conn1 _)) as H2.
  eexists. exact (history_step _ conn2 (conn_db conn2) conn3 H2 (list_elem_of_here _ _) (step_template _ conn2 _ _ _)).
Qed.

Lemma verdict_is_of_the_template_witness : let w := mkWorld conn3 ∅ 0 false [] in
  validated4.1 = Ok tt /\ compatibility_in (m_conn validated4.2) = Some (CompatibilityCompatible, 1) /\
  (exists h, history h (w_conn w)) /\
  heard (@honest) eq (verdict_recorded demo_templates (demo_id 1)) [] (RunValidation demo_templates (demo_id 1)) w.
Proof.
  intros w. split; [vm_compute; reflexivity|]. split; [vm_compute; reflexivity|]. split; [exact conn3_reachable|].
  apply verdict_is_of_the_template; [|exact conn3_reachable]. intros h v v' <- Hh. by exists h.
Defined.

(** A validation probes the process that booted at [t0]; the node restarts and
    the collector advances the generation to 2 before the verdict is stored. *)
Definition seen_process (booted uptime : Z) : InstanceObservation :=
  mkObservation (t0 + (booted + uptime) * Second) uptime (t0 + booted * Second) true.
Definition observed_by_collector (o : InstanceObservation) (c : Conn) : Res (Z * bool) * Conn :=
  AdvanceCapabilityGeneration (signal_of o false) CapabilityGenerationTolerance (ob_ObservedAt o) c.
Definition anchored5 : Res (Z * bool) * Conn := observed_by_collector (seen_process 0 100) conn3.
Definition restarted6 : Res (Z * bool) * Conn := observed_by_collector (seen_process 200 5) anchored5.2.
Definition late_verdict7 : Res unit * Machine :=
  play (t0 + 206 * Second)
    (complete demo_template CompatibilityCompatible "" (Some (seen_process 0 100)) (t0 + 100 * Second))
    (mkMachine restarted6.2 (fake_New t0) 0 false []).
Definition generation_in (c : Conn) : option (Z * option Time) :=
  (fun i => (mi_CapabilityGeneration i, mi_BootEpoch i)) <$> db_instance (conn_db c).

