(* ===== verification/Pass.v ===== *)
(** * A rollover pass reaches every due cycle

    The composition of the quota service with the store: after a pass that
    ends without an error no allocation it found due is due any more. *)

From Stdlib Require Import ZArith Lia.
From S2P Require Import Prelude GoTypes Identity Text Inbound Tokens User Sync Quota Traffic Template Cycle Records Database Secrets StoreCore StoreSync StoreQuota StoreUsers UserService Demo Intent IntentTx History Rollover Adapter Calls PanelServices Fencing Reach.

Section Pass.
Context {Zn : Zones} {En : Entropy} {Un : Unicode} {Ae : Aead} {Sh : Sha256}.

Lemma current_cycles k now db db' : db_cycles db' = db_cycles db -> current k now db -> current k now db'.
Proof. intros E (cy & Ho & Hn). exists cy. unfold open_cycle in *. by rewrite E. Qed.

Lemma RolloverCycle_current rollover c out c2 : Constraints (conn_db c) -> Constraints (conn_db c2) ->
  RolloverCycle rollover c = (Ok out, c2) ->
  current (ro_AllocationID rollover) (ro_Now rollover) (conn_db c2) /\
  forall k, current k (ro_Now rollover) (conn_db c) -> current k (ro_Now rollover) (conn_db c2).
Proof.
  intros Hc Hc2 H%WithWriteTx_ok. destruct (settleCycles_settled _ _ _ _ _ _ _ Hc H) as (n & c1 & Hs & Hcur & _ & _ & E).
  injection E as _ E _. split; [by eapply current_cycles|]. intros k Hk.
  destruct (decide (k = ro_AllocationID rollover)) as [->|Hne]; [by eapply current_cycles|].
  eapply current_cycles; [exact E|]. eapply settled_current; [done| |exact Hs|done].
  rewrite <- E. apply (con_cycles _ Hc2).
Qed.

Section Interleaved.
Context (answers : forall R, AdapterCall R -> Node -> Res R -> Node -> Prop).
Context (others : World -> World -> Prop).
Context (others_seen : forall rs w w', others w w' -> seen rs w -> seen rs w').
Context (now : Time).
Context (others_current : forall k w w', others w w' -> current k now (conn_db (w_conn w)) -> current k now (conn_db (w_conn w'))).

Definition all_current (ids : list ID) (w : World) : Prop := Forall (fun k => current k now (conn_db (w_conn w))) ids.
Abbreviation passes := (always answers others in_history).

(** A call that does not touch the cycles. *)
Lemma pass_call {R A} (e : Effect R) (k : R -> Worker A) (Q : A -> World -> Prop) ids w : allowed [] e ->
  (forall r w1, exec answers e w r w1 -> db_cycles (conn_db (w_conn w1)) = db_cycles (conn_db (w_conn w))) ->
  (forall r w2, in_history w2 -> all_current ids w2 -> passes (k r) Q w2) ->
  in_history w -> all_current ids w -> passes (Do e k) Q w.
Proof.
  intros Ha Hsame Hk Hw Hids. split; [done|]. intros r w1 w2 He Ho.
  pose proof (exec_seen answers e [] w r w1 Ha Hw He) as Hw1. split; [done|].
  apply Hk; [by eapply others_seen|]. eapply Forall_impl; [exact Hids|]. intros k' Hc.
  eapply others_current; [exact Ho|]. eapply current_cycles; [|exact Hc]. by eapply Hsame.
Qed.

Lemma draw_cycles w r w1 : exec answers DrawID w r w1 -> db_cycles (conn_db (w_conn w1)) = db_cycles (conn_db (w_conn w)).
Proof. intros (c' & Hrun & ->). injection Hrun as _ <-. done. Qed.
Lemma read_cycles {R} (c : StoreCall R) w r w1 : reads c = true -> exec answers (OnStore c) w r w1 ->
  db_cycles (conn_db (w_conn w1)) = db_cycles (conn_db (w_conn w)).
Proof.
  intros Hr (wall & w' & (c' & Hrun & ->) & ->). cbn. pose proof (reads_same wall c (w_conn w) Hr) as E.
  by rewrite Hrun in E; cbn in E; subst.
Qed.

Lemma history_constraints w : in_history w -> Constraints (conn_db (w_conn w)).
Proof. intros (h & Hh & _). apply (proj1 (history_good _ _ Hh)). Qed.

Lemma roll_records_pass s due ids everyone n b w : everyone = ids ++ ((fun r => a_ID (ur_Allocation r)) <$> due) ->
  in_history w -> all_current ids w ->
  passes (roll_records s due now n b) (fun out w' => out.2 = None -> all_current everyone w') w.
Proof.
  revert ids n b w. induction due as [|record due IH]; intros ids n b w Hall Hw Hids; cbn [roll_records].
  { rewrite app_nil_r in Hall. subst everyone. destruct (b && qs_notify s); [|by split].
    eapply (pass_call NotifySync); [done|by intros ? ? ->| |done|exact Hids]. intros r w2 H2 Hc. by split. }
  assert (everyone = (ids ++ [a_ID (ur_Allocation record)]) ++ ((fun r => a_ID (ur_Allocation r)) <$> due)) as Hall'
    by by rewrite Hall, <- app_assoc.
  unfold or_stop.
  eapply (pass_call DrawID); [done|apply draw_cycles| |done|exact Hids]. intros [opID|err] w2 H2 Hc2; [|by split].
  eapply (pass_call DrawID); [done|apply draw_cycles| |done|exact Hc2]. intros [auditID|err] w3 H3 Hc3; [|by split].
  split; [done|]. intros r w4 w5 He Ho.
  pose proof (exec_seen answers (OnStore (CallRolloverCycle (rollover_of record opID auditID now))) [] _ _ _ I H3 He) as H4.
  split; [done|]. assert (in_history w5) as H5 by by eapply others_seen.
  destruct r as [[rolled restored]|err]; [|by split].
  assert (all_current (ids ++ [a_ID (ur_Allocation record)]) w5) as Hc5.
  { destruct He as (wall & w' & (c' & Hrun & ->) & ->). cbn in Hrun.
    destruct (RolloverCycle_current _ _ _ _ (history_constraints _ H3) (history_constraints _ H4) Hrun) as [Hk Hkeep].
    assert (all_current (ids ++ [a_ID (ur_Allocation record)])
              (note (store_event (CallRolloverCycle (rollover_of record opID auditID now)) (Ok (rolled, restored))
                       (w3 <| w_conn := c' |>)) (w3 <| w_conn := c' |>))) as Hc4.
    { apply Forall_app. split; [|by constructor]. eapply Forall_impl; [exact Hc3|]. intros k. apply Hkeep. }
    eapply Forall_impl; [exact Hc4|]. intros k. by apply others_current. }
  cbn -[always roll_records Z.ltb store]. destruct (0 <? rolled); [|by apply (IH (ids ++ [a_ID (ur_Allocation record)]))].
  eapply (pass_call (OnStore (CallUser _))); [done|intros ? ? Hx; exact (read_cycles (CallUser (u_ID (ur_User record))) _ _ _ eq_refl Hx)| |done|exact Hc5].
  intros [user|err] w6 H6 Hc6; [|by split]. by apply (IH (ids ++ [a_ID (ur_Allocation record)])).
Qed.
End Interleaved.

End Pass.

