(* ===== verification/Workers.v ===== *)
(** * The loops of the workers: internal/worker

    Each worker works through rounds, one at a time, and waits in between for a
    request, for its ticker or for the end. Requests go through a buffered
    channel without waiting: [Wake] of the synchronizer and [Trigger] of the
    reconciler with room for one, the queue of the validator with room for 64;
    the collector and the scheduler take none. A ready case of a [select] is
    chosen freely. What a round does is in the files of the services. *)

From Stdlib Require Import ZArith Lia.
From S2P Require Import Prelude GoTypes Identity Text Inbound Tokens User Sync Quota Traffic Template Cycle Records Database StoreCore StoreSync StoreQuota StoreUsers UserService Adapter Calls Trace TrafficService PanelServices ReconciliationService.

(** ** The loop *)

(** A round over everything, on the ticker, or for a request. *)
Inductive RoundKind (Req : Type) : Type := Sweep | Serve (request : Req).
Arguments Sweep {Req}.
Arguments Serve {Req} _.
Inductive Phase (Req : Type) : Type := Working (round : RoundKind Req) | Waiting | Stopped.
Arguments Working {Req} _.
Arguments Waiting {Req}.
Arguments Stopped {Req}.

Record Loop (Req : Type) := mkLoop {
  lp_Requests : list Req;
  lp_Ticked : bool;
  lp_Cancelled : bool;
  lp_Phase : Phase Req }.
Arguments mkLoop {Req} _ _ _ _.
Arguments lp_Requests {Req} _.
Arguments lp_Ticked {Req} _.
Arguments lp_Cancelled {Req} _.
Arguments lp_Phase {Req} _.

(** What happens: a request of somebody else, a tick, the cancelled context;
    the round ends, the next begins, the loop returns. *)
Inductive Label (Req : Type) : Type := Request (request : Req) | Tick | Cancel | Ends | Begins (round : RoundKind Req) | Returns.
Arguments Request {Req} _.
Arguments Tick {Req}.
Arguments Cancel {Req}.
Arguments Ends {Req}.
Arguments Begins {Req} _.
Arguments Returns {Req}.

Section Loop.
Context {Req : Type} {dec : EqDecision Req} (capacity : nat).

(** The worker starts with a sweep. *)
Definition started : Loop Req := mkLoop [] false false (Working Sweep).

(** The non-blocking send: a request is dropped when the channel is full. *)
Definition taken (l : Loop Req) : bool := (length (lp_Requests l) <? capacity)%nat.
Definition send (request : Req) (l : Loop Req) : Loop Req :=
  if taken l then mkLoop (lp_Requests l ++ [request]) (lp_Ticked l) (lp_Cancelled l) (lp_Phase l) else l.
Definition loop_step (l : Loop Req) (label : Label Req) : option (Loop Req) :=
  match label, lp_Phase l with
  | Request request, _ => Some (send request l)
  | Tick, _ => Some (mkLoop (lp_Requests l) true (lp_Cancelled l) (lp_Phase l))
  | Cancel, _ => Some (mkLoop (lp_Requests l) (lp_Ticked l) true (lp_Phase l))
  | Ends, Working _ => Some (mkLoop (lp_Requests l) (lp_Ticked l) (lp_Cancelled l) Waiting)
  | Begins Sweep, Waiting =>
      if lp_Ticked l then Some (mkLoop (lp_Requests l) false (lp_Cancelled l) (Working Sweep)) else None
  | Begins (Serve request), Waiting =>
      match lp_Requests l with
      | first :: rest => if bool_decide (first = request) then Some (mkLoop rest (lp_Ticked l) (lp_Cancelled l) (Working (Serve request))) else None
      | [] => None
      end
  | Returns, Waiting => if lp_Cancelled l then Some (mkLoop (lp_Requests l) (lp_Ticked l) true Stopped) else None
  | _, _ => None
  end.
Fixpoint loop_run (l : Loop Req) (labels : list (Label Req)) : option (Loop Req) :=
  match labels with
  | [] => Some l
  | label :: labels => l ← loop_step l label; loop_run l labels
  end.

(** ** Requests *)

(** The requests that found room, and those that a round was begun for. *)
Fixpoint accepted_in (l : Loop Req) (labels : list (Label Req)) : list Req :=
  match labels with
  | [] => []
  | label :: labels =>
      match label with Request request => if taken l then [request] else [] | _ => [] end ++
      match loop_step l label with Some l => accepted_in l labels | None => [] end
  end.
Definition served (labels : list (Label Req)) : list Req :=
  omap (fun label => match label with Begins (Serve request) => Some request | _ => None end) labels.

Lemma loop_step_requests l label l' : loop_step l label = Some l' ->
  lp_Requests l ++ match label with Request request => if taken l then [request] else [] | _ => [] end =
  match label with Begins (Serve request) => [request] | _ => [] end ++ lp_Requests l'.
Proof.
  unfold loop_step. destruct label as [request| | | |[|request]|].
  - intros [= <-]. unfold send. case_if; [done|by rewrite app_nil_r].
  - intros [= <-]. by rewrite app_nil_r.
  - intros [= <-]. by rewrite app_nil_r.
  - destruct (lp_Phase l); [|done..]. intros [= <-]. by rewrite app_nil_r.
  - destruct (lp_Phase l); [done| |done]. case_if; [|done]. intros [= <-]. by rewrite app_nil_r.
  - destruct (lp_Phase l); [done| |done]. destruct (lp_Requests l) as [|first rest]; [done|]. case_if; [|done].
    apply bool_decide_eq_true in Eif as ->. intros [= <-]. by rewrite app_nil_r.
  - destruct (lp_Phase l); [done| |done]. case_if; [|done]. intros [= <-]. by rewrite app_nil_r.
Qed.
Lemma loop_run_requests labels l l' : loop_run l labels = Some l' ->
  lp_Requests l ++ accepted_in l labels = served labels ++ lp_Requests l'.
Proof.
  revert l. induction labels as [|label labels IH]; intros l H; [injection H as <-; by rewrite app_nil_r|].
  cbn [loop_run accepted_in] in *. destruct (loop_step l label) as [l1|] eqn:E; [|done]. cbn in H.
  apply loop_step_requests in E. apply IH in H. rewrite app_assoc, E, <- app_assoc, H, app_assoc. f_equal.
  by destruct label as [| | | |[|]|].
Qed.
Lemma loop_step_room l label l' : loop_step l label = Some l' -> (length (lp_Requests l) <= capacity)%nat -> (length (lp_Requests l') <= capacity)%nat.
Proof.
  intros H%loop_step_requests Hl. pose proof (f_equal length H) as Hn. rewrite !length_app in Hn.
  destruct label as [request| | | |round|]; [|cbn [length] in Hn; lia..]. destruct (taken l) eqn:E; [|cbn [length] in Hn; lia].
  apply Nat.ltb_lt in E. cbn [length] in Hn. lia.
Qed.
Lemma loop_run_room labels l l' : loop_run l labels = Some l' -> (length (lp_Requests l) <= capacity)%nat -> (length (lp_Requests l') <= capacity)%nat.
Proof.
  revert l. induction labels as [|label labels IH]; intros l H Hl; [by injection H as <-|]. cbn in H.
  destruct (loop_step l label) as [l1|] eqn:E; [|done]. eapply IH; [exact H|]. by eapply loop_step_room.
Qed.
Lemma loop_run_app labels1 labels2 l : loop_run l (labels1 ++ labels2) = l' ← loop_run l labels1; loop_run l' labels2.
Proof. revert l. induction labels1 as [|label labels1 IH]; intros l; [done|]. cbn. by destruct (loop_step l label); cbn; [apply IH|]. Qed.
(** Without a round for a request the channel keeps what it holds. *)
Lemma loop_run_kept labels l l' : loop_run l labels = Some l' -> served labels = [] -> lp_Requests l <> [] -> lp_Requests l' <> [].
Proof. intros H%loop_run_requests Hs Hl He. rewrite Hs, He in H. cbn in H. by apply app_eq_nil in H as [? _]. Qed.

(** C22: A worker serves the requests that found room in its channel one by one
    and in their order, each once, and at any moment the others of them are
    still in the channel, which never holds more than its capacity; while the
    worker waits, the round for the first of them can begin. After a request,
    also one that found no room, a round begun for a request follows, or one is
    waiting: what was committed before [Wake] is seen by a round of the
    synchronizer that begins after it. *)
Theorem requests_are_served labels l : loop_run started labels = Some l ->
  accepted_in started labels = served labels ++ lp_Requests l /\ (length (lp_Requests l) <= capacity)%nat /\
  (lp_Phase l = Waiting -> forall request, head (lp_Requests l) = Some request -> is_Some (loop_step l (Begins (Serve request)))) /\
  (forall before request after, (0 < capacity)%nat -> labels = before ++ Request request :: after -> served after <> [] \/ lp_Requests l <> []).
Proof.
  intros H. split; [by apply loop_run_requests in H|]. split; [eapply loop_run_room; [exact H|cbn; lia]|]. split.
  - intros Hp request Hh. unfold loop_step. rewrite Hp. destruct (lp_Requests l); [done|]. injection Hh as ->. rewrite bool_decide_eq_true_2 by done. by eexists.
  - intros before request after Hc ->. destruct (decide (served after = [])) as [Hs|Hs]; [right|by left].
    rewrite loop_run_app in H. destruct (loop_run started before) as [l1|]; [|done]. cbn in H.
    eapply loop_run_kept; [exact H|done|]. unfold send, taken. case_if; cbn.
    + by intros [_ ?]%app_eq_nil.
    + intros E. rewrite E in Eif. apply Nat.ltb_ge in Eif. cbn in Eif. lia.
Qed.
End Loop.
(** The channels of the workers. *)
Definition wake_capacity : nat := 1.
Definition trigger_capacity : nat := 1.
Definition queue_capacity : nat := 64.

(** A wake that comes while the synchronizer drains, and one more. *)
Definition demo_labels : list (Label unit) := [Request tt; Request tt; Ends; Begins (Serve tt); Request tt; Tick; Ends; Begins Sweep].
Lemma requests_are_served_witness : exists l, loop_run wake_capacity started demo_labels = Some l /\
  accepted_in wake_capacity started demo_labels = served demo_labels ++ lp_Requests l /\ served demo_labels = [tt] /\ lp_Requests l = [tt].
Proof.
  exists (mkLoop [tt] false false (Working Sweep)). assert (loop_run wake_capacity started demo_labels = Some (mkLoop [tt] false false (Working Sweep))) as H by reflexivity.
  split; [exact H|]. split; [apply (requests_are_served wake_capacity _ _ H)|]. by split.
Defined.

(** ** The rounds *)

(** What a round returns is only logged. *)
Definition Collector_RunOnce (collect : Worker (CollectionSummary * option error)) : Worker unit := _ ← collect; mret tt.
Definition Reconciler_RunOnce (reconcile : Worker (ReconcileSummary * option error)) : Worker unit := _ ← reconcile; mret tt.
Definition Scheduler_RunOnce (quota : QuotaService) : Worker unit := now ← call Now; _ ← RolloverDue quota now; mret tt.

(** How long the scheduler sleeps when its ticker does not wake it. *)
Definition boundary_wait (sweep : Duration) (next : Time) (now : Time) : Duration :=
  let until := time_sub next now in if (0 <? until) && (until <? sweep) then until else sweep.
(** One turn of its loop: a round, then the sleep. *)
Definition Scheduler_turn (quota : QuotaService) (sweep : Duration) : Worker Duration :=
  _ ← Scheduler_RunOnce quota;
  next ← NextBoundary;
  match next with
  | Ok (Some next) => now ← call Now; mret (boundary_wait sweep next now)
  | _ => mret sweep
  end.
Definition NewScheduler (sweep : Duration) : Duration := if sweep <=? 0 then Minute else sweep.
Definition NewCollector (interval : Duration) : Duration := if interval <=? 0 then 5 * Second else interval.
Definition NewReconciler (interval : Duration) : Duration := if interval <=? 0 then 15 * Second else interval.

(** The sleep is positive, never longer than the sweep, and ends at the
    boundary when that comes first. *)
Lemma boundary_wait_bounds sweep next now : 0 < sweep <= MaxInt64 -> in_int64 (next - now) ->
  0 < boundary_wait sweep next now <= sweep /\ (now < next -> next <= now + sweep -> now + boundary_wait sweep next now = next).
Proof.
  intros Hs Hi. assert (time_sub next now = next - now) as Ht by (unfold time_sub, in_int64 in *; lia).
  unfold boundary_wait. rewrite Ht. case_if; to_prop; lia.
Qed.
